(* ===== verification/_CoqProject ===== *)
-Q . S2P
Prelude.v
CStr.v
Utils.v
Base64.v
Protocol.v
Wire.v
Disk.v
Sentences.v
SSAcl.v
SSFiles.v
SSMeta.v
SSState.v
SSClient.v
SSControl.v
SSInv.v
SSInvClient.v
SSInvControl.v
SSLocks.v
SSRaces.v
SSCheckpoints.v
SSFits.v
SSSaved.v
SSSavedNs.v
SSGrants.v
SSRestart.v
SSStart.v
SSServe.v
NSMeta.v
NSPaths.v
NSState.v
NSIndex.v
NSComm.v
NSPersist.v
NSRestart.v
NSPeer.v
NSQueries.v
NSAccess.v
NSFiles.v
NSTree.v
NSServe.v
NSWires.v
NSSessions.v
NSSpec.v
NSDemo.v
NSLost.v
NSRefine.v
NSTreeSpec.v
NSCommands.v
NSStart.v
NSConnections.v
NSCustody.v
NSPromises.v
NSKept.v
ClientIO.v
ClientNS.v
ClientSS.v
ClientMain.v
ClientFlow.v
System.v
SystemRead.v
SystemWrite.v
SystemCreate.v
SystemShare.v
NSJoin.v
SystemJoin.v
SystemDemo.v
SystemPromise.v
