(* ===== verification/Prelude.v ===== *)
(** * A verification library for the distributed document collaboration system

    The system (C, under [src/]) is three programs that exchange lines of text
    over TCP.  Storage servers ([src/storage_server/storage_server.c]) keep the
    documents, let clients lock and edit single sentences, and keep an undo copy
    and checkpoints.  The name server ([src/name_server/name_server.c]) knows
    where each document is and who may use it, and sends commands to the storage
    servers.  The client ([src/client/client.c]) turns what a user types into
    requests to the two.  [src/common/] holds the protocol and the utilities they
    share.

    The models are executable functions translated from the source: byte strings
    for C strings, [Z] for [int] and [long] with overflow where the code depends
    on it, [option] and pairs for error codes, explicit state passing for what
    the code mutates, identities where it keeps pointers.  The clock is an
    argument [now]; what a handler sends is a list of descriptors and messages;
    critical sections that other threads can get between are separate functions
    that the handler composes.  Names are those of the source.

    ** The parts and their files

    Common ([src/common/utils.c], [src/common/protocol.c])
    - [Prelude], [CStr]: lists and options the components share; libc ([strtol],
      [strtok], [isspace], bounded copies).
    - [Utils], [Base64]: strings, paths, addresses, validation, text counts,
      [flatten_logical_path]; [base64_encode] and [base64_decode].
    - [Protocol], [Wire]: building, parsing, sending and receiving messages;
      what the receiver of a byte stream gets.
    - [Disk]: the file system, with faults (a path that is denied, a disk that
      takes only a part of a write, whether or not [fwrite] notices).

    Storage server
    - [Sentences]: the bounds of sentences, words, [ss_apply_word_edit].
    - [SSAcl], [SSFiles], [SSMeta]: access lists; records, checkpoints and
      sidecar files; a sidecar is read back as it was written.
    - [SSState]: the record [StorageServer] and the operations on files and
      write sessions; [SSClient] and [SSControl]: every command of a client
      ([client_thread]) and of the name server ([ns_control_loop]).
    - [SSInv], [SSInvClient], [SSInvControl], [SSLocks]: the lock invariant and
      what it gives; [SSCheckpoints]; [SSRaces]: where the guarantees stop.
    - [SSFits]: the fixed-size arrays are never overrun.  [SSSaved], [SSSavedNs]:
      the files on disk say what the server knows, after every command;
      [SSRestart]: so a restarted server comes up with the same documents;
      [SSStart], [SSServe]: the program itself, from its arguments through the
      accept loop and the threads of its connections to its end.
    - [SSGrants]: which rights on its documents a storage server grants, and which
      of them a command may take away.

    Name server
    - [NSMeta], [NSPaths], [NSState]: file entries and rights, logical paths, the
      record [NameServer] with its array, hash index and cache of files and its
      tables of servers and users; [NSIndex]: these form a finite map.
    - [NSPersist], [NSRestart]: the metadata file and the restart.
    - [NSComm]: [storage_server_send_and_wait] as a system of threads; [NSPeer]:
      the same for handlers, as the class [Servers].
    - [NSQueries], [NSAccess], [NSFiles], [NSTree], [NSServe]: the commands of
      clients, MOVE and DELETE of subtrees, handshakes, the synchronisation and
      the events of storage servers.
    - [NSSpec], [NSRefine], [NSTreeSpec], [NSSessions], [NSKept], [NSCommands]:
      the specification (a registry with owners), the refinement of every
      command, and the invariant of the server; [NSDemo]: a small server;
      [NSLost]: what becomes of servers whose connection is lost.
    - [NSStart]: the program itself, from its arguments to the accept loop and the
      end of each connection; [NSWires], [NSConnections]: the records and sockets
      of the servers through all of it.
    - [NSCustody], [NSPromises]: the registry against a storage server that keeps
      its word, which is the class [Custodian]: what every command keeps.

    Client and system
    - [ClientIO], [ClientNS], [ClientSS], [ClientMain]: the program as actions of
      a state monad over the class [Remote], which is what it sees of the two
      servers, and in which a receive may wait for ever; [ClientFlow]: it ends,
      or waits for a server that is silent.
    - [System]: one client, one name server and one storage server together: the
      instances of [Remote] and [Servers] that run the other programs' models;
      [SystemRead], [SystemWrite], [SystemCreate], [SystemShare]: READ, WRITE,
      CREATE and ADDACCESS end to end; [SystemDemo]: the transcript of a whole session.
    - [NSJoin], [SystemJoin]: a storage server registers with the name server;
      [SystemPromise]: any number of clients of the two servers, with the storage
      server's model as a [Custodian].

    ** What the theorems show

    - Editing: [lock_safety], [locked_sentence_stable] (in every state reached by
      [allowed] steps sessions hold disjoint sentences, and nobody else changes a
      locked one; not allowed are new names of the name server under which
      another document is stored already, which nothing checks, and a disk that
      cuts a write short),
      [write_lock_grants], [etirw_commits], [commit_then_undo],
      [checkpoint_saves], [revert_restores], [sentence_bounds_correct],
      [word_edit_correct].
    - Storage: [restart_keeps_documents] (through any number of restarts, as long
      as new names have free paths and every sidecar can be read back, which
      excludes checkpoint tags with a colon and lines of more than 1022 bytes),
      [buffers_fit] (any messages, any disk; addresses of less than 63 bytes),
      [locks_end_with_connections] (from the start on, every lock belongs to an
      open connection and ends with it).
    - Registry: [registry_lookup_correct], [registry_updates_correct] (array,
      index and cache refine a finite map), [move_correct], [delete_correct],
      [restart_keeps_registry] (access lists whose text is shorter than 4096
      bytes), [access_rights_correct], [paths_are_segments].
    - Servers as a whole: [connections_match] (from the start on, whatever
      connects, sends and breaks, the tables tell exactly which connections are
      open, and the registry stays consistent), [server_invariant] (the same of
      the tables, in any interleaving of commands), [client_refines_acl] (a command
      changes the registry only by steps its user may take).
    - End to end: [create_write_read], [share_then_read], [write_then_read],
      [write_edits_document], [read_shows_document]; [client_main_ends] (nothing
      but a silent server keeps the client from ending);
      [restarted_server_joins] (a restarted storage server registers, and the two
      servers grant the same rights on its documents); [promises_kept] (whatever
      clients send to both servers, in any order and on any disk, as long as
      nothing is moved: the registry keeps every document with its owner, and
      promises no right that the storage server refuses).
    - Protocol and data: [message_roundtrip], [parse_bounds], [error_roundtrip],
      [metadata_roundtrip], [acl_operations_correct],
      [flatten_logical_path_correct], [base64_decode_encode], [send_complete],
      [count_words_correct].
    - Requests between the servers: [send_and_wait_alone] (a lone request ends
      within a bounded number of steps).
    - Limits, each a theorem about the code as it is: [etirw_race_corrupts],
      [delete_frees_record_in_use], [create_collision_truncates],
      [etirw_short_write], [checkpoint_in_folder_fails],
      [metadata_long_acl_corrupted], [newline_truncates], [response_stolen],
      [state_lock_deadlock], [event_taken_for_reply], [stale_request_grants],
      [lost_servers_fill_table], [sidecar_takeover], [failed_grant_revokes],
      [colon_tag_changes], [long_acl_cut], [long_address_unterminated].

    ** Bounds and fuel

    Loops over a string or a list are structural or have the length as fuel
    ([split_words_loop], [frames_loop]), with lemmas that it is enough.
    [client_rounds] has one round more than there are lines of input;
    [client_main_ends] shows that it never runs out.  Receive loops run over the
    messages that arrive; at the end of the list the connection is lost when the
    server has closed it, and otherwise the client is [Blocked], since [recv] has
    no timeout.

    ** What is not modelled

    Sockets, threads and signals: what they do is an argument ([Surroundings],
    [Course]) or the order of events ([NSStart.serve_event],
    [SSServe.serve_event]); the logger; the clock;
    [parse_double]; failures of [malloc].
    [inet_pton], the format of times, the shell of EXEC and the peer of a COPY
    are parameters.  [System] has one client and one storage server: other
    clients of a storage server are in [SSLocks] and [SSServe], other connections
    of the name server in [NSCommands] and [NSStart], and both at once in
    [SystemPromise].  There, MOVE is left out: when a rename fails and so does
    its rollback, the document stays under a name the registry does not know.

    ** Plan

    Next: several storage servers in [System] and [SystemPromise]; MOVE and COPY
    end to end; the converse of [promises_kept], that a document of the registry
    exists at its storage server, which a lost disk can break. *)
From Corelib Require Export ssreflect.
From stdpp Require Export base list gmap strings fin_maps sets.
From Stdlib Require Export Ascii ZArith Lia.

#[export] Set Default Goal Selector "!".
#[global] Open Scope general_if_scope.

(** ** C strings

    A C string is the list of its bytes before the terminating NUL.  Byte
    buffers that may hold a NUL are lists of [ascii] too; [c_str] reads one as
    a C string. *)
Abbreviation cstr := (list ascii).

Notation "$ s" := (String.list_ascii_of_string s%string)
  (at level 1, format "$ s") : stdpp_scope.

(** ** Generic definitions *)

(** Index of the first element that satisfies a boolean test. *)
Fixpoint findb {A} (p : A → bool) (l : list A) : option nat :=
  match l with
  | [] => None
  | x :: l' => if p x then Some 0 else S <$> findb p l'
  end.

(** First element that satisfies a boolean test. *)
Fixpoint firstb {A} (p : A → bool) (l : list A) : option A :=
  match l with
  | [] => None
  | x :: l' => if p x then Some x else firstb p l'
  end.

(** [drop_while]: skip the longest prefix whose elements satisfy the test. *)
Fixpoint drop_while {A} (p : A → bool) (l : list A) : list A :=
  match l with
  | [] => []
  | x :: l' => if p x then drop_while p l' else l
  end.

(** [take_while]: the longest prefix whose elements satisfy the test. *)
Fixpoint take_while {A} (p : A → bool) (l : list A) : list A :=
  match l with
  | [] => []
  | x :: l' => if p x then x :: take_while p l' else []
  end.

(** Number of elements that satisfy the test. *)
Fixpoint countb {A} (p : A → bool) (l : list A) : nat :=
  match l with
  | [] => 0
  | x :: l' => (if p x then 1 else 0) + countb p l'
  end.

(** The slice [text + a, text + b) of a buffer. *)
Definition slice {A} (a b : nat) (l : list A) : list A := take (b - a) (drop a l).

(** Swap-with-last removal of slot [i], the way the C code deletes an array
    element it does not care to keep in order. *)
Definition swap_remove {A} (i : nat) (l : list A) : list A :=
  match last l with
  | None => []
  | Some x => take (length l - 1) (<[i := x]> l)
  end.

(** Unlink the first element that satisfies a test. *)
Fixpoint remove_firstb {A} (p : A → bool) (l : list A) : list A :=
  match l with
  | [] => []
  | x :: l' => if p x then l' else x :: remove_firstb p l'
  end.

(** Change the first element that satisfies a test. *)
Fixpoint update_firstb {A} (p : A → bool) (f : A → A) (l : list A) : list A :=
  match l with
  | [] => []
  | x :: l' => if p x then f x :: l' else x :: update_firstb p f l'
  end.

(** Split a list of bytes at the first occurrence of a character. *)
Fixpoint split_at {A} `{EqDecision A} (c : A) (l : list A) : option (list A * list A) :=
  match l with
  | [] => None
  | x :: l' =>
      if decide (x = c) then Some ([], l')
      else (λ '(a, b), (x :: a, b)) <$> split_at c l'
  end.

(** ** Tactics *)

(** Case analysis on the discriminee of a [match] or [if] of the goal. *)
Ltac dmatch :=
  match goal with
  | |- context [match ?x with _ => _ end] => destruct x eqn:?
  end.

(** The same on a hypothesis. *)
Ltac dmatch_in H :=
  match type of H with
  | context [match ?x with _ => _ end] => destruct x eqn:?
  end.

(** Split a step's definition into its branches and discharge the absurd ones. *)
Ltac branches H := repeat (dmatch_in H; simplify_eq/=).

(** Prove a decidable, closed proposition by evaluating its decision. *)
Ltac vmd := apply (bool_decide_unpack _); vm_compute; exact I.

(** Arithmetic on the lengths of compound lists. *)
Ltac len :=
  repeat (progress (rewrite ?length_app ?length_take ?length_drop ?length_map ?length_insert;
                    cbn [length app]));
  lia.

(** ** Lemmas *)

Section generic.
Context {A : Type}.
Implicit Types (l : list A) (p : A → bool).

Lemma take_drop_while p l : take_while p l ++ drop_while p l = l.
Proof. induction l as [|x l IH]; simpl; [done|]. destruct (p x); simpl; congruence. Qed.

Lemma take_while_all p l : Forall (λ x, p x = true) (take_while p l).
Proof. induction l as [|x l IH]; simpl; [done|]. destruct (p x) eqn:?; by constructor. Qed.

Lemma drop_while_head p l x l' : drop_while p l = x :: l' → p x = false.
Proof.
  induction l as [|y l IH]; simpl; [done|].
  destruct (p y) eqn:?; [done|]. intros [=]; by subst.
Qed.

Lemma drop_while_all p l : Forall (λ x, p x = true) l → drop_while p l = [].
Proof. induction 1 as [|x l Hx _ IH]; simpl; [done|]. by rewrite Hx. Qed.

Lemma take_while_app_all p l1 l2 :
  Forall (λ x, p x = true) l1 → take_while p (l1 ++ l2) = l1 ++ take_while p l2.
Proof. induction 1 as [|x l Hx _ IH]; simpl; [done|]. by rewrite Hx IH. Qed.

Lemma drop_while_app_all p l1 l2 :
  Forall (λ x, p x = true) l1 → drop_while p (l1 ++ l2) = drop_while p l2.
Proof. induction 1 as [|x l Hx _ IH]; simpl; [done|]. by rewrite Hx. Qed.

Lemma length_drop_while p l : length (drop_while p l) ≤ length l.
Proof. induction l as [|x l IH]; simpl; [done|]. destruct (p x); simpl; lia. Qed.

Lemma drop_while_suffix p l : drop_while p l = drop (length (take_while p l)) l.
Proof.
  induction l as [|x l IH]; simpl; [done|]. by destruct (p x).
Qed.

Lemma countb_app p l1 l2 : countb p (l1 ++ l2) = countb p l1 + countb p l2.
Proof. induction l1 as [|x l1 IH]; simpl; [done|]. rewrite IH. lia. Qed.

Lemma countb_le p l : countb p l ≤ length l.
Proof. induction l as [|x l IH]; simpl; [done|]. destruct (p x); lia. Qed.

Lemma countb_zero p l : countb p l = 0 ↔ Forall (λ x, p x = false) l.
Proof.
  induction l as [|x l IH]; simpl; [split; [constructor|done]|].
  rewrite Forall_cons -IH. destruct (p x); split; intuition (lia || done).
Qed.

Lemma findb_Some p l i :
  findb p l = Some i ↔ ∃ x, l !! i = Some x ∧ p x = true ∧
    ∀ j y, j < i → l !! j = Some y → p y = false.
Proof.
  revert i. induction l as [|x l IH]; intros i; simpl.
  { split; [done|]. intros (x & Hx & _). by rewrite lookup_nil in Hx. }
  destruct (p x) eqn:Hp; simpl.
  - split.
    + intros [= <-]. exists x. split_and!; [done|done|]. intros; lia.
    + intros (y & Hy & Hpy & Hall). destruct i as [|i]; [done|].
      specialize (Hall 0 x ltac:(lia) eq_refl). congruence.
  - rewrite fmap_Some. split.
    + intros (i' & Hi' & ->). apply IH in Hi' as (y & Hy & Hpy & Hall).
      exists y. split_and!; [done|done|]. intros [|j] z Hj Hz; simplify_eq/=; [done|].
      apply (Hall j); [lia|done].
    + intros (y & Hy & Hpy & Hall). destruct i as [|i]; simplify_eq/=; [congruence|].
      exists i. split; [|done]. apply IH. exists y. split_and!; [done|done|].
      intros j z Hj Hz. apply (Hall (S j)); [lia|done].
Qed.

Lemma findb_None p l : findb p l = None ↔ Forall (λ x, p x = false) l.
Proof.
  induction l as [|x l IH]; simpl; [split; [constructor|done]|].
  rewrite Forall_cons -IH. destruct (p x); simpl; [split; [done|by intros []]|].
  rewrite fmap_None. naive_solver.
Qed.

Lemma firstb_Some p l x :
  firstb p l = Some x ↔ ∃ i, findb p l = Some i ∧ l !! i = Some x.
Proof.
  induction l as [|y l IH]; simpl.
  { split; [done|]. by intros (? & ? & ?). }
  destruct (p y) eqn:?; simpl.
  - split; [intros [= ->]; by exists 0|]. intros (i & [= <-] & Hi). naive_solver.
  - rewrite IH. split.
    + intros (i & -> & Hi). by exists (S i).
    + intros (i & Hi & Hl). destruct (findb p l) eqn:Hf; simplify_eq/=. eauto.
Qed.

Lemma firstb_None p l : firstb p l = None ↔ Forall (λ x, p x = false) l.
Proof.
  induction l as [|x l IH]; simpl; [split; [constructor|done]|].
  rewrite Forall_cons -IH. destruct (p x); naive_solver.
Qed.

Lemma firstb_elem p l x : firstb p l = Some x → x ∈ l ∧ p x = true.
Proof.
  induction l as [|y l IH]; simpl; [done|].
  destruct (p y) eqn:?; [intros [= ->]|intros ?%IH]; set_solver.
Qed.

Lemma length_slice a b l : b ≤ length l → length (slice a b l) = b - a.
Proof. intros Hb. unfold slice. rewrite length_take length_drop. lia. Qed.

Lemma slice_decompose a b l :
  a ≤ b → b ≤ length l → take a l ++ slice a b l ++ drop b l = l.
Proof.
  intros Hab Hb. unfold slice.
  replace (drop b l) with (drop (b - a) (drop a l)) by (rewrite drop_drop; f_equal; lia).
  by rewrite take_drop take_drop.
Qed.

Lemma slice_app_mid l1 l2 l3 : slice (length l1) (length l1 + length l2) (l1 ++ l2 ++ l3) = l2.
Proof.
  unfold slice. rewrite drop_app_length.
  replace (length l1 + length l2 - length l1) with (length l2) by lia.
  by rewrite take_app_length.
Qed.
End generic.

Section split_at.
Context {A : Type} `{EqDecision A}.
Implicit Types (l : list A) (c : A).

Lemma split_at_Some c l a b : split_at c l = Some (a, b) ↔ l = a ++ c :: b ∧ c ∉ a.
Proof.
  revert a b. induction l as [|x l IH]; intros a b; simpl.
  { split; [done|]. intros [Heq _]. by destruct a. }
  case_decide as Hx.
  - subst. split.
    + intros [= <- <-]. split; [done|set_solver].
    + intros [Heq Hna]. destruct a as [|y a]; simplify_eq/=; [done|].
      set_solver.
  - split.
    + destruct (split_at c l) as [[a' b']|] eqn:Hs; [|done].
      intros Heq. simplify_eq/=. destruct (proj1 (IH _ _) eq_refl) as [-> ?].
      split; [done|set_solver].
    + intros [Heq Hna]. destruct a as [|y a]; simplify_eq/=.
      assert (split_at c (a ++ c :: b) = Some (a, b)) as ->; [|done].
      apply IH. split; [done|set_solver].
Qed.

Lemma split_at_None c l : split_at c l = None ↔ c ∉ l.
Proof.
  induction l as [|x l IH]; simpl; [split; [set_solver|done]|].
  case_decide; [subst; split; [done|set_solver]|].
  rewrite fmap_None IH. set_solver.
Qed.
End split_at.

Create HintDb dcollab discriminated.
#[export] Hint Resolve take_while_all countb_le length_drop_while : dcollab.

(** Swap-with-last removal drops exactly the chosen occurrence. *)
Lemma swap_remove_Permutation {A} (l : list A) i x :
  l !! i = Some x → l ≡ₚ x :: swap_remove i l.
Proof.
  intros Hi. destruct (decide (l = [])) as [->|Hne]; [done|].
  destruct (exists_last Hne) as (l' & y & ->). unfold swap_remove.
  rewrite last_snoc length_app /= Nat.add_sub.
  destruct (decide (i < length l')) as [Hlt|Hge].
  - rewrite lookup_app_l in Hi; [done|]. rewrite insert_app_l; [done|].
    rewrite take_app_length'; [by rewrite length_insert|].
    apply list_elem_of_split_length in Hi as (a & b & -> & ->).
    rewrite insert_app_r_alt; [lia|]. rewrite Nat.sub_diag /=. solve_Permutation.
  - assert (i = length l') as -> by (apply lookup_lt_Some in Hi; rewrite length_app /= in Hi; lia).
    rewrite lookup_app_r in Hi; [lia|]. rewrite Nat.sub_diag in Hi. simplify_eq/=.
    rewrite insert_app_r_alt; [lia|]. rewrite Nat.sub_diag /= take_app_length. solve_Permutation.
Qed.

Lemma length_swap_remove {A} (l : list A) i x :
  l !! i = Some x → length l = S (length (swap_remove i l)).
Proof. intros Hi. by rewrite {1}(swap_remove_Permutation l i x Hi). Qed.

Lemma findb_lookup {A} (p : A → bool) l i : findb p l = Some i → ∃ x, l !! i = Some x ∧ p x = true.
Proof. intros (x & Hx & Hp & _)%findb_Some. eauto. Qed.

Lemma remove_firstb_sublist {A} (p : A → bool) l : remove_firstb p l `sublist_of` l.
Proof.
  induction l as [|x l IH]; simpl; [constructor|].
  destruct (p x); [by constructor|by constructor].
Qed.

Lemma remove_firstb_None {A} (p : A → bool) l : firstb p l = None → remove_firstb p l = l.
Proof. induction l as [|x l IH]; [done|]. cbn [firstb remove_firstb]. destruct (p x); [done|]. intros H. by rewrite IH. Qed.

Lemma remove_firstb_elem {A} (p : A → bool) l x : x ∈ remove_firstb p l → x ∈ l.
Proof.
  induction l as [|y l IH]; simpl; [done|]. destruct (p y); [by right|].
  rewrite !elem_of_cons. tauto.
Qed.

Lemma remove_firstb_keep {A} (p : A → bool) l x : x ∈ l → p x = false → x ∈ remove_firstb p l.
Proof.
  induction l as [|y l IH]; simpl; [done|]. intros Hx Hp. destruct (p y) eqn:Hy.
  - apply elem_of_cons in Hx as [->|?]; [congruence|done].
  - apply elem_of_cons in Hx as [->|?]; [left|right; auto].
Qed.

(** ** Lemmas on keys and removal *)

Section keys.
Context {A K : Type} (key : A → K).

Lemma NoDup_key_inj (l : list A) x y :
  NoDup (map key l) → x ∈ l → y ∈ l → key x = key y → x = y.
Proof.
  induction l as [|z l IH]; cbn [map]; intros Hnd Hx Hy Hk; [by apply elem_of_nil in Hx|].
  apply NoDup_cons in Hnd as [Hz Hnd].
  apply elem_of_cons in Hx as [->|Hx]; apply elem_of_cons in Hy as [->|Hy]; [done| | |by apply IH].
  - destruct Hz. rewrite Hk. by apply (list_elem_of_fmap_2 key).
  - destruct Hz. rewrite -Hk. by apply (list_elem_of_fmap_2 key).
Qed.

Lemma NoDup_map_strong {B} (f : A → B) (l : list A) :
  (∀ x y, x ∈ l → y ∈ l → f x = f y → x = y) → NoDup l → NoDup (map f l).
Proof. apply NoDup_fmap_2_strong. Qed.

Lemma NoDup_of_map (l : list A) : NoDup (map key l) → NoDup l.
Proof. apply NoDup_fmap_1. Qed.

(** When the test singles out one key, unlinking is filtering. *)
Lemma remove_firstb_filter (p : A → bool) k (l : list A) :
  (∀ x, p x = true ↔ key x = k) → NoDup (map key l) →
  remove_firstb p l = filter (λ x, p x = false) l.
Proof.
  intros Hp. induction l as [|x l IH]; cbn [map remove_firstb]; intros Hnd; [done|].
  apply NoDup_cons in Hnd as [Hx Hnd]. destruct (p x) eqn:Hpx.
  - rewrite filter_cons_False; [congruence|].
    assert (Hall : ∀ y, y ∈ l → p y = false).
    { intros y Hy. destruct (p y) eqn:Hpy; [|done]. destruct Hx.
      apply Hp in Hpx as ->. apply Hp in Hpy as <-. by apply (list_elem_of_fmap_2 key). }
    clear - Hall. induction l as [|y l IH]; [done|].
    rewrite filter_cons_True; [apply Hall; left|]. f_equal. apply IH. intros z Hz. apply Hall. by right.
  - rewrite filter_cons_True; [done|]. f_equal. by apply IH.
Qed.
End keys.
