(* ===== verification/CStr.v ===== *)
(** * C strings and the libc functions the sources call

    A C string is the list of its bytes before the NUL.  This file gives the
    [<ctype.h>], [<string.h>] and [<stdlib.h>] functions (in the C locale) that
    every other component uses: character classes, bounded comparison, decimal
    printing ([%d], [%ld], [%zu]) and [strtol] with its [endptr] and range
    error, [strtok]-style tokenising, and reading a byte buffer as a string. *)
From S2P Require Import Prelude.

(** ** Characters *)

Definition code (c : ascii) : Z := Z.of_nat (nat_of_ascii c).

Definition chr (z : Z) : ascii := ascii_of_nat (Z.to_nat (z mod 256)).

Definition c_nul : ascii := "000"%char.
Definition c_nl : ascii := "010"%char.
Definition c_bar : ascii := "|"%char.
Definition c_slash : ascii := "/"%char.

(** [isspace] in the C locale: space, \t, \n, \v, \f, \r. *)
Definition isspace (c : ascii) : bool :=
  (code c =? 32)%Z || ((9 <=? code c)%Z && (code c <=? 13)%Z).

Definition isdigit (c : ascii) : bool := (48 <=? code c)%Z && (code c <=? 57)%Z.

Definition isalpha (c : ascii) : bool :=
  ((65 <=? code c)%Z && (code c <=? 90)%Z) || ((97 <=? code c)%Z && (code c <=? 122)%Z).

Definition isalnum (c : ascii) : bool := isalpha c || isdigit c.

Definition toupper (c : ascii) : ascii :=
  if (97 <=? code c)%Z && (code c <=? 122)%Z then chr (code c - 32) else c.

Definition to_lower (c : ascii) : ascii :=
  if (65 <=? code c)%Z && (code c <=? 90)%Z then chr (code c + 32) else c.

(** ** Comparison *)

(** [strcmp(a, b) == 0]. *)
Definition streq (a b : cstr) : bool := bool_decide (a = b).

(** [strncmp(a, b, n) == 0]. *)
Definition strneq (n : nat) (a b : cstr) : bool := bool_decide (take n a = take n b).

(** [strcasecmp(a, b) == 0]. *)
Definition strcaseeq (a b : cstr) : bool := bool_decide (map to_lower a = map to_lower b).

(** The C string at the start of a byte buffer. *)
Definition c_str (buf : list ascii) : cstr := take_while (λ c, negb (bool_decide (c = c_nul))) buf.

(** [snprintf(buf, n, "%s", s)] and the other bounded copies: what fits. *)
Definition fit (n : nat) (s : cstr) : cstr := take (n - 1) s.

(** The string that is read from an array of [n] bytes after
    [strncpy(buf, s, n - 1)].  The last byte is not written: when [s] takes all
    the others, the string goes on with [rest], what memory has from there on. *)
Definition strncpy_into (rest : cstr) (n : nat) (s : cstr) : cstr :=
  if decide (length s < n - 1) then s else take (n - 1) s ++ rest.

Lemma strncpy_short rest n s : length s < n - 1 → strncpy_into rest n s = s.
Proof. intros H. unfold strncpy_into. by rewrite decide_True. Qed.

Lemma strncpy_long rest n s : 0 < n → n - 1 <= length s → rest ≠ [] → n <= length (strncpy_into rest n s).
Proof.
  intros Hn H Hr. unfold strncpy_into. rewrite decide_False; [lia|]. rewrite length_app length_take.
  destruct rest; [done|]. cbn [length]. lia.
Qed.

(** ** Decimal numbers *)

Definition digit (d : Z) : ascii := chr (48 + d).

Fixpoint dec_digits (fuel : nat) (n : Z) : cstr :=
  match fuel with
  | O => []
  | S f => if (n <? 10)%Z then [digit n] else dec_digits f (n / 10) ++ [digit (n mod 10)]
  end.

(** [printf("%d")]: the bit length of the number is enough fuel. *)
Definition to_dec (n : Z) : cstr :=
  if (n <? 0)%Z then "-"%char :: dec_digits (S (Z.to_nat (Z.log2 (- n)))) (- n)
  else dec_digits (S (Z.to_nat (Z.log2 n))) n.

Definition digits_value (ds : cstr) : Z := foldl (λ acc c, acc * 10 + (code c - 48))%Z 0%Z ds.

Definition LONG_MIN : Z := - 2 ^ 63.
Definition LONG_MAX : Z := 2 ^ 63 - 1.
Definition INT_MIN : Z := - 2 ^ 31.
Definition INT_MAX : Z := 2 ^ 31 - 1.

(** [(int)x] on the two's-complement targets the program runs on. *)
Definition wrap32 (z : Z) : Z := ((z + 2 ^ 31) mod 2 ^ 32 - 2 ^ 31)%Z.

(** Result of [strtol(s, &end, 10)]: value, the string at [end], [ERANGE]. *)
Record Strtol := mkStrtol { st_value : Z; st_end : cstr; st_erange : bool }.

Definition strtol_sign (s : cstr) : bool * cstr :=
  match s with
  | c :: s' =>
      if bool_decide (c = "-"%char) then (true, s')
      else if bool_decide (c = "+"%char) then (false, s') else (false, s)
  | [] => (false, [])
  end.

Definition strtol (s : cstr) : Strtol :=
  let '(neg, body) := strtol_sign (drop_while isspace s) in
  let ds := take_while isdigit body in
  match ds with
  | [] => mkStrtol 0 s false
  | _ =>
      let v := if neg then (- digits_value ds)%Z else digits_value ds in
      if (v <? LONG_MIN)%Z then mkStrtol LONG_MIN (drop_while isdigit body) true
      else if (LONG_MAX <? v)%Z then mkStrtol LONG_MAX (drop_while isdigit body) true
      else mkStrtol v (drop_while isdigit body) false
  end.

(** [atoi] and [atoll] (glibc: [strtol] with the result converted). *)
Definition atoi (s : cstr) : Z := wrap32 (st_value (strtol s)).
Definition atoll (s : cstr) : Z := st_value (strtol s).

(** ** Tokenising *)

(** All the fields between separators, the empty ones included. *)
Fixpoint fields_on (p : ascii → bool) (s : cstr) : list cstr :=
  match s with
  | [] => [[]]
  | c :: s' =>
      if p c then [] :: fields_on p s'
      else match fields_on p s' with
           | f :: fs => (c :: f) :: fs
           | [] => [[c]]
           end
  end.

(** The tokens successive [strtok_r] calls return: the non-empty fields. *)
Definition strtok (p : ascii → bool) (s : cstr) : list cstr :=
  filter (λ f, f ≠ []) (fields_on p s).

(** Joining strings with a separator. *)
Fixpoint join (sep : cstr) (l : list cstr) : cstr :=
  match l with
  | [] => []
  | [f] => f
  | f :: fs => f ++ sep ++ join sep fs
  end.

(** ** Lemmas: characters *)

Lemma code_range c : (0 <= code c < 256)%Z.
Proof. unfold code. pose proof (nat_ascii_bounded c). lia. Qed.

Lemma chr_code c : chr (code c) = c.
Proof.
  unfold chr, code. rewrite Z.mod_small; [apply code_range|].
  by rewrite Nat2Z.id ascii_nat_embedding.
Qed.

Lemma code_chr z : (0 <= z < 256)%Z → code (chr z) = z.
Proof.
  intros Hz. unfold chr, code. rewrite Z.mod_small; [done|].
  rewrite nat_ascii_embedding; lia.
Qed.

Lemma code_inj c d : code c = code d → c = d.
Proof. intros H. by rewrite -(chr_code c) -(chr_code d) H. Qed.

Lemma digit_isdigit d : (0 <= d < 10)%Z → isdigit (digit d) = true ∧ code (digit d) = (48 + d)%Z.
Proof. intros Hd. unfold isdigit, digit. rewrite code_chr; [lia|]. split; lia. Qed.

Lemma isdigit_not_space c : isdigit c = true → isspace c = false.
Proof. unfold isdigit, isspace. lia. Qed.

(** ** Lemmas: comparison *)

Lemma streq_true a b : streq a b = true ↔ a = b.
Proof. apply bool_decide_eq_true. Qed.

Lemma streq_false a b : streq a b = false ↔ a ≠ b.
Proof. apply bool_decide_eq_false. Qed.

Lemma streq_refl a : streq a a = true.
Proof. by apply streq_true. Qed.

(** A bounded comparison is exact when both strings are shorter than it. *)
Lemma strneq_exact n a b : length a ≤ n → length b ≤ n → strneq n a b = true ↔ a = b.
Proof. intros Ha Hb. unfold strneq. by rewrite bool_decide_eq_true !take_ge. Qed.

Lemma strneq_short n a b : length a < n → strneq n a b = true → a = b.
Proof.
  unfold strneq. intros Ha Hs%bool_decide_eq_true. rewrite (take_ge a) in Hs; [lia|].
  destruct (decide (length b <= n)); [by rewrite take_ge in Hs|].
  rewrite Hs length_take in Ha. lia.
Qed.

Lemma strneq_prefix p s : strneq (length p) s p = true ↔ ∃ t, s = p ++ t.
Proof.
  unfold strneq. rewrite bool_decide_eq_true (take_ge p); [done|]. split.
  - intros H. exists (drop (length p) s). by rewrite -{1}H take_drop.
  - intros [t ->]. by rewrite take_app_length.
Qed.

Lemma fit_short n s : length s < n → fit n s = s.
Proof. intros. unfold fit. apply take_ge. lia. Qed.

Lemma length_fit n s : length (fit n s) ≤ n - 1.
Proof. unfold fit. rewrite length_take. lia. Qed.

Lemma elem_of_take_l {A} (x : A) n l : x ∈ take n l → x ∈ l.
Proof. intros H. rewrite -(take_drop n l). set_solver. Qed.

Lemma elem_of_drop_l {A} (x : A) n l : x ∈ drop n l → x ∈ l.
Proof. intros H. rewrite -(take_drop n l). set_solver. Qed.

Lemma fit_elem n s c : c ∈ fit n s → c ∈ s.
Proof. apply elem_of_take_l. Qed.

(** ** Lemmas: decimal numbers *)

Lemma digits_value_app_one ds d :
  (0 <= d < 10)%Z → digits_value (ds ++ [digit d]) = (digits_value ds * 10 + d)%Z.
Proof.
  intros Hd. unfold digits_value. rewrite foldl_app /=.
  destruct (digit_isdigit d Hd) as [_ ->]. lia.
Qed.

Lemma dec_digits_spec fuel n :
  (0 <= n < 2 ^ Z.of_nat fuel)%Z → 0 < fuel →
  digits_value (dec_digits fuel n) = n ∧ Forall (λ c, isdigit c = true) (dec_digits fuel n) ∧
  dec_digits fuel n ≠ [].
Proof.
  revert n. induction fuel as [|f IH]; intros n Hn Hf; [lia|]. simpl dec_digits.
  destruct (n <? 10)%Z eqn:Hlt.
  - assert (Hd : (0 <= n < 10)%Z) by lia.
    split_and!; [|repeat constructor; by apply digit_isdigit|done].
    change [digit n] with ([] ++ [digit n]). rewrite digits_value_app_one; [done|].
    unfold digits_value; simpl. lia.
  - assert (Hf0 : 0 < f).
    { destruct f; [|lia]. change (2 ^ Z.of_nat 1)%Z with 2%Z in Hn. lia. }
    destruct (IH (n / 10)%Z) as (Hv & Hall & _); [|done|].
    { split; [apply Z.div_pos; lia|]. apply Z.div_lt_upper_bound; [lia|].
      replace (Z.of_nat (S f)) with (Z.of_nat f + 1)%Z in Hn by lia.
      rewrite Z.pow_add_r in Hn; lia. }
    pose proof (Z.mod_pos_bound n 10 ltac:(lia)) as Hm.
    split_and!.
    + rewrite digits_value_app_one; [done|]. rewrite Hv.
      pose proof (Z.div_mod n 10 ltac:(lia)). lia.
    + apply Forall_app; split; [done|]. repeat constructor. by apply digit_isdigit.
    + by destruct (dec_digits f (n / 10)).
Qed.

Lemma to_dec_nonneg n : (0 <= n)%Z →
  digits_value (to_dec n) = n ∧ Forall (λ c, isdigit c = true) (to_dec n) ∧ to_dec n ≠ [].
Proof.
  intros Hn. unfold to_dec. rewrite (proj2 (Z.ltb_ge n 0%Z) Hn). apply dec_digits_spec; [|lia].
  split; [done|]. replace (Z.of_nat (S (Z.to_nat (Z.log2 n)))) with (Z.succ (Z.log2 n))
    by (pose proof (Z.log2_nonneg n); lia).
  destruct (decide (n = 0%Z)) as [->|]; [done|]. apply Z.log2_spec. lia.
Qed.

Lemma to_dec_neg n : (n < 0)%Z → to_dec n = "-"%char :: to_dec (- n).
Proof.
  intros Hn. unfold to_dec. rewrite (proj2 (Z.ltb_lt n 0%Z) Hn).
  by rewrite (proj2 (Z.ltb_ge (- n) 0%Z)); [lia|].
Qed.

Lemma dec_digits_length fuel n k :
  (0 <= n < 10 ^ Z.of_nat k)%Z → 0 < k → length (dec_digits fuel n) ≤ k.
Proof.
  revert n k. induction fuel as [|f IH]; intros n k Hn Hk; simpl; [lia|].
  destruct (n <? 10)%Z eqn:Hlt; simpl; [lia|].
  rewrite length_app /=. assert (1 < k).
  { destruct (decide (k = 1)) as [->|]; [|lia]. change (10 ^ Z.of_nat 1)%Z with 10%Z in Hn. lia. }
  assert (length (dec_digits f (n / 10)) ≤ k - 1); [|lia]. apply IH; [|lia].
  split; [apply Z.div_pos; lia|]. apply Z.div_lt_upper_bound; [lia|].
  replace (Z.of_nat k) with (Z.of_nat (k - 1) + 1)%Z in Hn by lia.
  rewrite Z.pow_add_r in Hn; lia.
Qed.

(** An [int] takes at most 11 characters, a [long] at most 20. *)
Lemma to_dec_length n k :
  (- 10 ^ Z.of_nat k < n < 10 ^ Z.of_nat k)%Z → 0 < k → length (to_dec n) ≤ S k.
Proof.
  intros Hn Hk. unfold to_dec. destruct (n <? 0)%Z eqn:Hlt; cbn [length].
  - apply le_n_S, dec_digits_length; lia.
  - apply le_S, dec_digits_length; lia.
Qed.

Lemma to_dec_int_length n : (INT_MIN <= n <= INT_MAX)%Z → length (to_dec n) ≤ 11.
Proof. unfold INT_MIN, INT_MAX. intros Hn. apply to_dec_length; lia. Qed.

Lemma to_dec_long_length n : (LONG_MIN <= n <= LONG_MAX)%Z → length (to_dec n) ≤ 20.
Proof. unfold LONG_MIN, LONG_MAX. intros Hn. apply to_dec_length; lia. Qed.

(** The characters of a printed number are digits or a minus sign. *)
Lemma to_dec_chars n c : c ∈ to_dec n → isdigit c = true ∨ c = "-"%char.
Proof.
  intros Hc. destruct (decide (n < 0)%Z) as [Hn|Hn].
  - rewrite (to_dec_neg _ Hn) in Hc. apply elem_of_cons in Hc as [->|Hc]; [by right|]. left.
    destruct (to_dec_nonneg (- n) ltac:(lia)) as (_ & Hall & _).
    by apply (Forall_forall (λ c, isdigit c = true) (to_dec (- n))).
  - left. destruct (to_dec_nonneg n ltac:(lia)) as (_ & Hall & _).
    by apply (Forall_forall (λ c, isdigit c = true) (to_dec n)).
Qed.

Lemma to_dec_no n c : isdigit c = false → c ≠ "-"%char → c ∉ to_dec n.
Proof. intros Hd Hm Hc%to_dec_chars. destruct Hc; congruence. Qed.

(** Printing and reading back gives the number, whatever follows it. *)
Lemma strtol_to_dec n rest :
  (LONG_MIN <= n <= LONG_MAX)%Z → (∀ c rest', rest = c :: rest' → isdigit c = false) →
  strtol (to_dec n ++ rest) = mkStrtol n rest false.
Proof.
  intros Hr Hrest.
  assert (Hpos : ∀ m, (0 <= m)%Z → take_while isdigit (to_dec m ++ rest) = to_dec m ∧
                      drop_while isdigit (to_dec m ++ rest) = rest).
  { intros m Hm. destruct (to_dec_nonneg m Hm) as (_ & Hall & _).
    rewrite take_while_app_all; [done|]. rewrite drop_while_app_all; [done|].
    destruct rest as [|c rest']; simpl; [by rewrite app_nil_r|].
    rewrite (Hrest c rest' eq_refl). by rewrite app_nil_r. }
  unfold strtol. destruct (decide (n < 0)%Z) as [Hn|Hn].
  - rewrite (to_dec_neg _ Hn) /=. destruct (Hpos (- n)%Z ltac:(lia)) as [-> ->].
    destruct (to_dec_nonneg (- n) ltac:(lia)) as (Hv & _ & Hne).
    destruct (to_dec (- n)) as [|c l] eqn:He; [done|]. rewrite -He in Hv *. rewrite Hv.
    rewrite Z.opp_involutive. by rewrite !(proj2 (Z.ltb_ge _ _)); [lia|lia|].
  - destruct (Hpos n ltac:(lia)) as [Ht Hd].
    destruct (to_dec_nonneg n ltac:(lia)) as (Hv & Hall & Hne).
    destruct (to_dec n) as [|c l] eqn:He; [done|].
    pose proof (Forall_inv Hall) as Hc.
    simpl app. simpl drop_while. rewrite (isdigit_not_space c Hc). unfold strtol_sign.
    rewrite !bool_decide_eq_false_2; [intros ->; vm_compute in Hc; done..|].
    rewrite Ht Hd Hv. by rewrite !(proj2 (Z.ltb_ge _ _)); [lia|lia|].
Qed.

Lemma atoi_to_dec n : (INT_MIN <= n <= INT_MAX)%Z → atoi (to_dec n) = n.
Proof.
  intros Hn. unfold atoi. rewrite -(app_nil_r (to_dec n)) strtol_to_dec; [|done|].
  { unfold INT_MIN, INT_MAX, LONG_MIN, LONG_MAX in *. lia. }
  simpl. unfold wrap32, INT_MIN, INT_MAX in *. rewrite Z.mod_small; lia.
Qed.

(** [strtol] on a string without a digit at its number position reads nothing. *)
Lemma strtol_empty : strtol [] = mkStrtol 0 [] false.
Proof. done. Qed.

(** ** Lemmas: tokenising *)

Lemma fields_on_nonempty p s : fields_on p s ≠ [].
Proof. destruct s as [|c s]; simpl; [done|]. destruct (p c); [done|]. by destruct (fields_on p s). Qed.

Lemma fields_on_no_sep p s : Forall (λ c, p c = false) s → fields_on p s = [s].
Proof. induction 1 as [|c s Hc _ IH]; simpl; [done|]. by rewrite Hc IH. Qed.

Lemma fields_on_sep p a c s :
  Forall (λ c, p c = false) a → p c = true → fields_on p (a ++ c :: s) = a :: fields_on p s.
Proof.
  induction 1 as [|d a Hd _ IH]; intros Hc; simpl; [by rewrite Hc|].
  by rewrite Hd (IH Hc).
Qed.

Lemma fields_on_clean p s : Forall (Forall (λ c, p c = false)) (fields_on p s).
Proof.
  induction s as [|c s IH]; simpl; [repeat constructor|].
  destruct (p c) eqn:Hc; [by constructor|].
  destruct (fields_on p s) as [|f fs]; [by repeat constructor|].
  inversion IH; subst. by repeat constructor.
Qed.

(** Joining separator-free, non-empty strings and tokenising gives them back. *)
Lemma fields_on_join p c l :
  p c = true → l ≠ [] → Forall (Forall (λ x, p x = false)) l → fields_on p (join [c] l) = l.
Proof.
  intros Hc Hne Hall. induction Hall as [|f fs Hf Hfs IH]; [done|].
  destruct fs as [|g gs]; simpl; [by apply fields_on_no_sep|].
  rewrite fields_on_sep; [done|done|]. f_equal. by apply IH.
Qed.

Lemma join_not_elem sep l c : (∀ f, f ∈ l → c ∉ f) → c ∉ sep → c ∉ join sep l.
Proof.
  intros Hl Hs. induction l as [|f fs IH]; simpl; [apply not_elem_of_nil|].
  destruct fs as [|g gs]; [apply Hl; left|].
  rewrite !not_elem_of_app. split_and!; [apply Hl; left|done|].
  apply IH. intros h Hh. apply Hl. by right.
Qed.

Lemma strtok_join p c l :
  p c = true → Forall (λ f, f ≠ [] ∧ Forall (λ x, p x = false) f) l → strtok p (join [c] l) = l.
Proof.
  intros Hc Hall. unfold strtok. destruct (decide (l = [])) as [->|Hne]; [done|].
  rewrite fields_on_join; [done|done| |].
  - by eapply Forall_impl; [exact Hall|intros f []].
  - clear Hne. induction Hall as [|f fs [Hf _] _ IH]; [done|].
    rewrite filter_cons_True; [done|]. by rewrite IH.
Qed.

Lemma strtok_tokens p s : Forall (λ f, f ≠ [] ∧ Forall (λ c, p c = false) f) (strtok p s).
Proof.
  apply Forall_forall. intros f Hf. apply list_elem_of_filter in Hf as [Hne Hf].
  split; [done|]. pose proof (fields_on_clean p s) as Hall.
  by apply (Forall_forall (Forall (λ c, p c = false)) (fields_on p s)).
Qed.

#[export] Hint Resolve length_fit code_range : dcollab.
