(* ===== verification/Utils.v ===== *)
(** * String, path and validation helpers of [src/common/utils.c]

    Every function is the loop of the source on the list of bytes.  The NULL
    guards of the C functions have no counterpart: a [cstr] is a valid string.
    [basename]/[dirname] (libgen), the clock, [inet_pton], the logger and the
    [malloc] wrappers are not modelled; [parse_double] is not either, as it is
    only the floating-point twin of [parse_long_long]. *)
From S2P Require Import Prelude CStr.

Definition MAX_PATH_LENGTH : nat := Z.to_nat 4096.
Definition MAX_USERNAME_LENGTH : nat := 256.
Definition MAX_FILENAME_LENGTH : nat := 512.
Definition MAX_TAG_LENGTH : nat := 128.
Definition MAX_IP_LENGTH : nat := 64.
Definition MAX_PORT_LENGTH : nat := 16.

(** ** Strings *)

(** The backward walk over trailing spaces stops at the first byte. *)
Definition trim_tail (s : cstr) : cstr :=
  match s with
  | [] => []
  | c :: s' => c :: rev (drop_while isspace (rev s'))
  end.

Definition trim_string (str : cstr) : cstr := trim_tail (drop_while isspace str).

Definition string_ends_with (str suffix : cstr) : bool :=
  if decide (length str < length suffix) then false
  else streq (drop (length str - length suffix) str) suffix.

Definition string_starts_with (str prefix : cstr) : bool := strneq (length prefix) str prefix.

(** [strstr(name, needle) != NULL]. *)
Fixpoint contains_sub (name needle : cstr) : bool :=
  string_starts_with name needle ||
  match name with [] => false | _ :: rest => contains_sub rest needle end.

(** [None] is the result [-1]; [Some d] the new content of the destination. *)
Definition safe_strcpy (src : cstr) (dest_size : nat) : option cstr :=
  if decide (dest_size = 0) then None else Some (fit dest_size src).

Definition safe_strcat (dest src : cstr) (dest_size : nat) : option cstr :=
  if decide (dest_size = 0) then None
  else if decide (dest_size - 1 <= length dest) then None
  else Some (dest ++ take (dest_size - length dest - 1) src).

(** ** Paths *)

Definition path_join (base component : cstr) : cstr :=
  match last base with
  | Some c => if bool_decide (c = c_slash) then base ++ component
              else base ++ [c_slash] ++ component
  | None => component
  end.

(** The loop that drops trailing slashes while more than one byte is left. *)
Fixpoint strip_slashes (rev_tail : cstr) : cstr :=
  match rev_tail with
  | [] => []
  | [c] => [c]
  | c :: rest => if bool_decide (c = c_slash) then strip_slashes rest else rev_tail
  end.

Definition path_normalize (path : cstr) : cstr :=
  rev (strip_slashes (rev (fit MAX_PATH_LENGTH path))).

Definition path_is_absolute (path : cstr) : bool :=
  match path with [] => false | c :: _ => bool_decide (c = c_slash) end.

(** ** Addresses *)

Definition parse_address (address : cstr) : option (cstr * Z) :=
  match split_at ":"%char (fit (MAX_IP_LENGTH + MAX_PORT_LENGTH) address) with
  | None => None
  | Some (ip, port) => Some (ip, atoi port)
  end.

Definition format_address (ip : cstr) (port : Z) : cstr :=
  fit (MAX_IP_LENGTH + MAX_PORT_LENGTH) (ip ++ $":" ++ to_dec port).

Definition is_valid_port (port : Z) : bool := (0 <? port)%Z && (port <=? 65535)%Z.

(** ** Validation *)

Definition username_char (c : ascii) : bool := isalnum c || bool_decide (c = "_"%char).

Definition validate_username (username : cstr) : bool :=
  negb (bool_decide (length username = 0)) &&
  negb (bool_decide (MAX_USERNAME_LENGTH <= length username)) &&
  forallb username_char username.

(** The bytes of the [invalid_chars] string of [validate_filename]: less,
    greater, colon, double quote, bar, question mark, star. *)
Definition invalid_chars : cstr := ["<"; ">"; ":"; ascii_of_nat 34; "|"; "?"; "*"]%char.

Definition validate_filename (filename : cstr) : bool :=
  negb (bool_decide (length filename = 0)) &&
  negb (bool_decide (MAX_FILENAME_LENGTH <= length filename)) &&
  forallb (λ c, negb (bool_decide (c ∈ invalid_chars))) filename.

Definition validate_permission (permission : cstr) : bool :=
  streq permission ($"R") || streq permission ($"W").

Definition flat_char (c : ascii) : ascii := if decide (c = c_slash) then "_"%char else c.

(** The copy loop of [flatten_logical_path], with its overflow guard. *)
Fixpoint flatten_loop (logical out : cstr) (size : nat) : option cstr :=
  match logical with
  | [] => if decide (size <= length out) then None else Some out
  | c :: rest =>
      if decide (size <= length out + 1) then None
      else flatten_loop rest (out ++ [flat_char c]) size
  end.

(** [None] is [-1] with the output buffer cleared. *)
Definition flatten_logical_path (logical : cstr) (size : nat) : option cstr :=
  if decide (size = 0) then None else flatten_loop logical [] size.

(** ** Text *)

Fixpoint count_words_loop (in_word : bool) (count : nat) (text : cstr) : nat :=
  match text with
  | [] => count
  | c :: rest =>
      if isspace c then count_words_loop false count rest
      else if in_word then count_words_loop true count rest
      else count_words_loop true (S count) rest
  end.

Definition count_words (text : cstr) : nat := count_words_loop false 0 text.

Definition count_chars (text : cstr) : nat := countb (λ c, negb (isspace c)) text.

Definition is_sentence_delimiter (c : ascii) : bool :=
  bool_decide (c = "."%char) || bool_decide (c = "!"%char) || bool_decide (c = "?"%char).

Definition parse_long_long (text : cstr) : option Z :=
  match text with
  | [] => None
  | _ =>
      let r := strtol text in
      if st_erange r then None
      else match st_end r with [] => Some (st_value r) | _ => None end
  end.

Definition count_sentences (text : cstr) : nat := countb is_sentence_delimiter text.

(** The scan of [extract_sentence]: [skip] is set while the whitespace after a
    delimiter is skipped, [seg] is the text between [start] and [end]. *)
Fixpoint extract_loop (skip : bool) (current : Z) (index : Z) (seg text : cstr) : option cstr :=
  match text with
  | [] => if (current =? index)%Z then match seg with [] => None | _ => Some seg end else None
  | c :: rest =>
      if skip && isspace c then extract_loop true current index [] rest
      else if is_sentence_delimiter c then
        if (current =? index)%Z then Some (seg ++ [c])
        else extract_loop true (current + 1) index [] rest
      else extract_loop false current index (seg ++ [c]) rest
  end.

Definition extract_sentence (text : cstr) (sentence_index : Z) : option cstr :=
  if (sentence_index <? 0)%Z then None
  else
    let start := drop_while isspace text in
    if (sentence_index =? 0)%Z && bool_decide (start = []) then Some []
    else extract_loop false 0 sentence_index [] start.

(** The function copies the sentence whatever the word is. *)
Definition replace_word_in_sentence (sentence : cstr) (word_index : Z) (new_word : cstr)
  : option cstr :=
  if (word_index <? 0)%Z then None else Some sentence.

(** ** Lemmas: copies and validation *)

Lemma safe_strcpy_short src n : length src < n → safe_strcpy src n = Some src.
Proof. intros. unfold safe_strcpy. case_decide; [lia|]. by rewrite fit_short. Qed.

Lemma safe_strcpy_length src n d : safe_strcpy src n = Some d → length d < n.
Proof.
  unfold safe_strcpy. case_decide; [done|]. intros [= <-]. pose proof (length_fit n src). lia.
Qed.

Lemma safe_strcat_length dest src n d : safe_strcat dest src n = Some d → length d < n.
Proof.
  unfold safe_strcat. repeat case_decide; [done..|]. intros [= <-].
  rewrite length_app length_take. lia.
Qed.

Lemma validate_username_spec u :
  validate_username u = true ↔
  u ≠ [] ∧ length u < MAX_USERNAME_LENGTH ∧ Forall (λ c, username_char c = true) u.
Proof.
  unfold validate_username. rewrite !andb_true_iff !negb_true_iff !bool_decide_eq_false.
  rewrite forallb_forall Forall_forall. setoid_rewrite <- list_elem_of_In.
  rewrite length_zero_iff_nil Nat.nle_gt. tauto.
Qed.

Lemma username_char_ok c : username_char c = true → c ≠ c_bar ∧ c ≠ c_nl ∧ c ≠ c_slash ∧ c ≠ ","%char.
Proof. intros H. split_and!; intros ->; vm_compute in H; done. Qed.

Lemma validate_filename_spec f :
  validate_filename f = true ↔
  f ≠ [] ∧ length f < MAX_FILENAME_LENGTH ∧ Forall (λ c, c ∉ invalid_chars) f.
Proof.
  unfold validate_filename. rewrite !andb_true_iff !negb_true_iff !bool_decide_eq_false.
  rewrite forallb_forall Forall_forall. setoid_rewrite <- list_elem_of_In.
  setoid_rewrite negb_true_iff. setoid_rewrite bool_decide_eq_false.
  rewrite length_zero_iff_nil Nat.nle_gt. tauto.
Qed.

(** ** Lemmas: flattening *)

Lemma flatten_loop_spec logical out size :
  length out < size →
  flatten_loop logical out size =
  if decide (length out + length logical < size) then Some (out ++ map flat_char logical) else None.
Proof.
  revert out. induction logical as [|c l IH]; intros out Ho; simpl.
  - rewrite app_nil_r. repeat case_decide; (lia || done).
  - case_decide as H1; [by case_decide; [lia|]|].
    rewrite IH length_app /=; [lia|]. rewrite -app_assoc.
    repeat case_decide; (lia || done).
Qed.

(** What [flatten_logical_path] computes: the per-byte image, or an error. *)
Lemma flatten_spec logical size :
  flatten_logical_path logical size =
  if decide (length logical < size) then Some (map flat_char logical) else None.
Proof.
  unfold flatten_logical_path. case_decide; [case_decide; [lia|done]|].
  rewrite flatten_loop_spec /=; [lia|done].
Qed.

Lemma flat_char_not_slash c : flat_char c ≠ c_slash.
Proof. unfold flat_char. by case_decide. Qed.

Lemma flatten_no_slash l : c_slash ∉ map flat_char l.
Proof.
  induction l as [|c l IH]; simpl; [set_solver|]. apply not_elem_of_cons.
  split; [|done]. intros H. by apply (flat_char_not_slash c).
Qed.

Lemma map_flat_char_id l : c_slash ∉ l → map flat_char l = l.
Proof.
  induction l as [|c l IH]; simpl; [done|]. intros [Hc Hl]%not_elem_of_cons.
  rewrite IH; [done|]. unfold flat_char. by case_decide.
Qed.

(** ** Lemmas: counting *)

Lemma count_words_loop_shift b n text :
  count_words_loop b n text = n + count_words_loop b 0 text.
Proof.
  revert b n. induction text as [|c text IH]; intros b n; simpl; [lia|].
  destruct (isspace c), b; auto. rewrite (IH true (S n)) (IH true 1). lia.
Qed.

Lemma fields_on_hd_nonempty p c s :
  p c = false → ∃ f fs, fields_on p (c :: s) = (c :: f) :: fs ∧ fields_on p s = f :: fs.
Proof.
  intros Hc. simpl. rewrite Hc. pose proof (fields_on_nonempty p s).
  destruct (fields_on p s) as [|f fs]; [done|]. by exists f, fs.
Qed.

(** Counting word starts counts the whitespace-separated words: outside a word
    the tokens of the rest, inside one the tokens after the current word. *)
Lemma count_words_loop_tokens text :
  count_words_loop false 0 text = length (strtok isspace text) ∧
  count_words_loop true 0 text =
    length (filter (λ f, f ≠ []) (tail (fields_on isspace text))).
Proof.
  unfold strtok. induction text as [|c text [IH1 IH2]]; [done|].
  simpl count_words_loop. destruct (isspace c) eqn:Hc.
  - simpl fields_on. rewrite Hc /=. rewrite filter_cons_False; [tauto|]. done.
  - destruct (fields_on_hd_nonempty isspace c text Hc) as (f & fs & Heq & Heq').
    rewrite Heq. rewrite Heq' /= in IH2. rewrite filter_cons_True; [done|]. simpl.
    rewrite count_words_loop_shift IH2. done.
Qed.

Lemma count_words_tokens text : count_words text = length (strtok isspace text).
Proof. apply count_words_loop_tokens. Qed.

Lemma count_chars_le text : count_chars text ≤ length text.
Proof. apply countb_le. Qed.

Lemma to_dec_nonempty n : to_dec n ≠ [].
Proof.
  destruct (decide (n < 0)%Z); [by rewrite to_dec_neg|].
  by destruct (to_dec_nonneg n ltac:(lia)) as (_ & _ & ?).
Qed.

Lemma parse_long_long_to_dec n : (LONG_MIN <= n <= LONG_MAX)%Z → parse_long_long (to_dec n) = Some n.
Proof.
  intros Hn. pose proof (to_dec_nonempty n) as Hne.
  unfold parse_long_long. destruct (to_dec n) as [|c l] eqn:He; [done|].
  by rewrite -He -(app_nil_r (to_dec n)) strtol_to_dec.
Qed.

(** ** Lines of text files *)

(** Text that survives being printed at the end of a line and trimmed. *)
Definition line_text (s : cstr) : Prop :=
  (c_nl ∉ s) ∧ match last s with Some c => isspace c = false | None => True end.

#[export] Instance line_text_dec s : Decision (line_text s).
Proof. unfold line_text. apply and_dec; [apply _|]. destruct (last s); apply _. Defined.

Lemma trim_line l c r :
  l = c :: r → isspace c = false → match last l with Some c => isspace c = false | None => True end →
  trim_string (l ++ [c_nl]) = l.
Proof.
  intros -> Hc Hl. unfold trim_string. cbn [app drop_while]. rewrite Hc. cbn [trim_tail].
  f_equal. rewrite rev_app_distr. cbn [rev app drop_while].
  change (isspace c_nl) with true. cbv iota.
  destruct (decide (r = [])) as [->|Hne]; [done|].
  destruct (exists_last Hne) as (r' & d & ->). rewrite app_comm_cons last_snoc in Hl.
  rewrite rev_app_distr. cbn [rev app drop_while]. rewrite Hl.
  by rewrite -(rev_involutive (r' ++ [d])) rev_app_distr.
Qed.

Lemma last_app_line k (s : cstr) d :
  last k = Some d → isspace d = false →
  match last s with Some c => isspace c = false | None => True end →
  match last (k ++ s) with Some c => isspace c = false | None => True end.
Proof. intros Hk Hd Hs. rewrite last_app. destruct (last s); [done|]. by rewrite Hk. Qed.

Lemma trim_key k0 k d s :
  last (k0 :: k) = Some d → isspace k0 = false → isspace d = false → line_text s →
  trim_string (((k0 :: k) ++ s) ++ [c_nl]) = (k0 :: k) ++ s.
Proof.
  intros Hk H0 Hd [_ Hs]. eapply trim_line; [done|done|].
  by apply (last_app_line (k0 :: k) s d).
Qed.

Lemma username_chars u c : validate_username u = true → c ∈ u → username_char c = true.
Proof. intros (_ & _ & H)%validate_username_spec. rewrite Forall_forall in H. apply H. Qed.

Lemma username_no u c : validate_username u = true → username_char c = false → c ∉ u.
Proof. intros Hv Hc Hin. pose proof (username_chars u c Hv Hin). congruence. Qed.

Lemma username_char_space c : username_char c = true → isspace c = false.
Proof.
  unfold username_char, isalnum, isalpha, isdigit, isspace. destruct (bool_decide (c = _)) eqn:Hb.
  - apply bool_decide_eq_true in Hb as ->. done.
  - lia.
Qed.

(** A text without white space is a line and trims to itself. *)
Lemma spaceless_line (u : cstr) : (∀ c, c ∈ u → isspace c = false) → line_text u.
Proof.
  intros Hall. split; [by intros H%Hall|]. destruct (last u) as [c|] eqn:Hl; [|done].
  apply Hall. by apply last_Some_elem_of.
Qed.

Lemma trim_spaceless (u : cstr) : (∀ c, c ∈ u → isspace c = false) → trim_string u = u.
Proof.
  intros Hall. unfold trim_string. destruct u as [|c u]; [done|]. cbn [drop_while].
  rewrite Hall; [left|]. cbn [trim_tail]. f_equal.
  destruct (decide (u = [])) as [->|Hu]; [done|]. destruct (exists_last Hu) as (u' & d & ->).
  rewrite rev_app_distr. cbn [rev app drop_while]. rewrite Hall; [set_solver|].
  by rewrite -(rev_involutive (u' ++ [d])) rev_app_distr.
Qed.

Lemma to_dec_line n : line_text (to_dec n).
Proof.
  split; [by apply to_dec_no|]. destruct (last (to_dec n)) as [c|] eqn:Hl; [|done].
  apply last_Some_elem_of in Hl. apply to_dec_chars in Hl as [Hd| ->]; [by apply isdigit_not_space|done].
Qed.

Lemma atoll_to_dec n : (LONG_MIN <= n <= LONG_MAX)%Z → atoll (to_dec n) = n.
Proof. intros Hn. unfold atoll. by rewrite -(app_nil_r (to_dec n)) strtol_to_dec. Qed.

(** ** Properties *)

(** [flatten_logical_path] maps a logical path to a single flat name: it
    succeeds exactly when the path fits the buffer, the result has the same
    length and no slash, and a name without slashes is its own physical name. *)
Theorem flatten_logical_path_correct logical size :
  match flatten_logical_path logical size with
  | Some physical =>
      length logical < size ∧ length physical = length logical ∧ (c_slash ∉ physical) ∧
      (c_slash ∉ logical → physical = logical)
  | None => size ≤ length logical
  end.
Proof.
  rewrite flatten_spec. case_decide; [|lia]. rewrite length_map.
  split_and!; [done|done|apply flatten_no_slash|apply map_flat_char_id].
Qed.

(** The word count of a file is the number of its maximal runs of
    non-whitespace bytes, each of them a non-empty, whitespace-free token. *)
Theorem count_words_correct text :
  ∃ words, count_words text = length words ∧ words = strtok isspace text ∧
    Forall (λ w, w ≠ [] ∧ Forall (λ c, isspace c = false) w) words.
Proof. exists (strtok isspace text). rewrite count_words_tokens. auto using strtok_tokens. Qed.
