(* ===== verification/Base64.v ===== *)
(** * Base64 of [src/common/utils.c]: [base64_encode], [base64_decode]

    Bytes are [ascii]; the 24-bit group is a [Z] built with the shifts and
    masks of the source (it fits in [uint32_t], so nothing wraps). *)
From Stdlib Require Import ZifyNat.
From S2P Require Import Prelude CStr.

Open Scope Z_scope.

#[local] Ltac Zify.zify_post_hook ::= Z.to_euclidean_division_equations.

Definition BASE64_TABLE : cstr :=
  $"ABCDEFGHIJKLMNOPQRSTUVWXYZabcdefghijklmnopqrstuvwxyz0123456789+/".

(** [BASE64_TABLE[x & 0x3F]]. *)
Definition table_at (x : Z) : ascii := nth (Z.to_nat (Z.land x 63)) BASE64_TABLE c_nul.

Definition base64_value (ch : ascii) : Z :=
  let c := code ch in
  if (65 <=? c) && (c <=? 90) then c - 65
  else if (97 <=? c) && (c <=? 122) then c - 97 + 26
  else if (48 <=? c) && (c <=? 57) then c - 48 + 52
  else if c =? 43 then 62
  else if c =? 47 then 63
  else if c =? 61 then -2
  else -1.

Definition pack3 (a b c : Z) : Z := Z.lor (Z.lor (Z.shiftl a 16) (Z.shiftl b 8)) c.

Definition emit4 (triple : Z) : cstr :=
  [table_at (Z.shiftr triple 18); table_at (Z.shiftr triple 12);
   table_at (Z.shiftr triple 6); table_at triple].

(** The group loop: a missing byte of the last group is 0. *)
Fixpoint encode_loop (input : list ascii) : cstr :=
  match input with
  | [] => []
  | [a] => emit4 (pack3 (code a) 0 0)
  | [a; b] => emit4 (pack3 (code a) (code b) 0)
  | a :: b :: c :: rest => emit4 (pack3 (code a) (code b) (code c)) ++ encode_loop rest
  end.

Definition base64_encode (input : list ascii) : cstr :=
  let output_length := (4 * ((length input + 2) / 3))%nat in
  let encoded := encode_loop input in
  let m := (length input mod 3)%nat in
  if (0 <? m)%nat then
    let encoded := <[(output_length - 1)%nat := "="%char]> encoded in
    if (m =? 1)%nat then <[(output_length - 2)%nat := "="%char]> encoded else encoded
  else encoded.

(** One group of the decoder; [None] is the early [return -1]. *)
Definition decode_group (a b c d : ascii) (decoded_length : nat) (out : list ascii)
  : option (list ascii) :=
  let sa := base64_value a in let sb := base64_value b in
  let sc := base64_value c in let sd := base64_value d in
  if (sa <? 0) || (sb <? 0) || (sc <? -1) || (sd <? -1) then None
  else
    let triple := Z.lor (Z.shiftl sa 18) (Z.shiftl sb 12) in
    let triple := if 0 <=? sc then Z.lor triple (Z.shiftl sc 6) else triple in
    let triple := if 0 <=? sd then Z.lor triple sd else triple in
    let put (ok : bool) (byte : Z) (out : list ascii) :=
      if ok && (length out <? decoded_length)%nat then out ++ [chr (Z.land byte 255)] else out in
    let out := put true (Z.shiftr triple 16) out in
    let out := put (0 <=? sc) (Z.shiftr triple 8) out in
    let out := put (0 <=? sd) triple out in
    Some out.

Fixpoint decode_loop (input : cstr) (decoded_length : nat) (out : list ascii)
  : option (list ascii) :=
  match input with
  | a :: b :: c :: d :: rest =>
      match decode_group a b c d decoded_length out with
      | Some out => decode_loop rest decoded_length out
      | None => None
      end
  | _ => Some out
  end.

Definition is_pad (input : cstr) (i : nat) : nat :=
  if bool_decide (input !! i = Some "="%char) then 1%nat else 0%nat.

Definition base64_decode (input : cstr) : option (list ascii) :=
  let n := length input in
  if (n =? 0)%nat || negb (n mod 4 =? 0)%nat then None
  else
    let padding := (is_pad input (n - 1) + is_pad input (n - 2))%nat in
    decode_loop input ((n / 4) * 3 - padding) [].

(** ** Lemmas: one group *)

Lemma base64_value_table v : 0 <= v < 64 → base64_value (table_at v) = v.
Proof.
  intros Hv.
  assert (Hall : forallb (λ i, base64_value (table_at (Z.of_nat i)) =? Z.of_nat i) (seq 0 64) = true)
    by by vm_compute.
  rewrite forallb_forall in Hall. specialize (Hall (Z.to_nat v)).
  rewrite Z2Nat.id in Hall; [lia|]. apply Z.eqb_eq, Hall, in_seq. lia.
Qed.

Lemma table_at_low x : table_at (Z.land x 63) = table_at x.
Proof. unfold table_at. by rewrite -Z.land_assoc. Qed.

Lemma base64_value_at x : base64_value (table_at x) = Z.land x 63.
Proof.
  rewrite -table_at_low. apply base64_value_table.
  change 63 with (Z.ones 6). rewrite Z.land_ones; [lia|]. apply Z.mod_pos_bound. lia.
Qed.

Lemma table_at_not_pad x : table_at x ≠ "="%char.
Proof.
  intros H. pose proof (base64_value_at x) as Hv. rewrite H in Hv.
  assert (0 <= Z.land x 63) by (apply Z.land_nonneg; lia).
  change (base64_value "="%char) with (-2) in Hv. lia.
Qed.

Lemma lor_shiftl_add h l k : 0 <= k → 0 <= l < 2 ^ k → Z.lor (Z.shiftl h k) l = h * 2 ^ k + l.
Proof.
  intros Hk Hl. rewrite -(Z.shiftl_mul_pow2 _ _ Hk) -Z.add_lor_land.
  assert (Z.land (Z.shiftl h k) l = 0) as ->; [|lia].
  apply Z.bits_inj'. intros n Hn. rewrite Z.land_spec Z.bits_0 andb_false_iff.
  destruct (Z_lt_le_dec n k) as [Hlt|Hge].
  - left. by apply Z.shiftl_spec_low.
  - right. rewrite -(Z.mod_small l (2 ^ k) Hl). by apply Z.mod_pow2_bits_high.
Qed.

Lemma land_63 x : Z.land x 63 = x mod 64.
Proof. change 63 with (Z.ones 6). by apply Z.land_ones. Qed.

Lemma land_255 x : Z.land x 255 = x mod 256.
Proof. change 255 with (Z.ones 8). by apply Z.land_ones. Qed.

Lemma pack3_add a b c : 0 <= b < 256 → 0 <= c < 256 → pack3 a b c = a * 65536 + b * 256 + c.
Proof.
  intros Hb Hc. unfold pack3.
  rewrite (lor_shiftl_add a (Z.shiftl b 8)); [lia|rewrite Z.shiftl_mul_pow2; lia|].
  replace (a * 2 ^ 16 + Z.shiftl b 8) with (Z.shiftl (a * 256 + b) 8)
    by (rewrite !Z.shiftl_mul_pow2; lia).
  rewrite lor_shiftl_add; lia.
Qed.

(** The four sextets of a group put back together. *)
Lemma unpack4 t : 0 <= t < 2 ^ 24 →
  Z.lor (Z.lor (Z.lor (Z.shiftl (Z.land (Z.shiftr t 18) 63) 18)
                      (Z.shiftl (Z.land (Z.shiftr t 12) 63) 12))
               (Z.shiftl (Z.land (Z.shiftr t 6) 63) 6)) (Z.land t 63) = t.
Proof.
  intros Ht. rewrite !land_63 !Z.shiftr_div_pow2; [lia..|].
  set (s1 := (t / 2 ^ 18) mod 64). set (s2 := (t / 2 ^ 12) mod 64).
  set (s3 := (t / 2 ^ 6) mod 64). set (s4 := t mod 64).
  assert (0 <= s1 < 64 ∧ 0 <= s2 < 64 ∧ 0 <= s3 < 64 ∧ 0 <= s4 < 64) as (?&?&?&?)
    by (subst s1 s2 s3 s4; lia).
  rewrite (lor_shiftl_add s1 (Z.shiftl s2 12)); [lia|rewrite Z.shiftl_mul_pow2; lia|].
  replace (s1 * 2 ^ 18 + Z.shiftl s2 12) with (Z.shiftl (s1 * 64 + s2) 12)
    by (rewrite !Z.shiftl_mul_pow2; lia).
  rewrite lor_shiftl_add; [lia|rewrite Z.shiftl_mul_pow2; lia|].
  replace ((s1 * 64 + s2) * 2 ^ 12 + Z.shiftl s3 6) with (Z.shiftl ((s1 * 64 + s2) * 64 + s3) 6)
    by (rewrite !Z.shiftl_mul_pow2; lia).
  rewrite lor_shiftl_add; [lia|lia|]. subst s1 s2 s3 s4. lia.
Qed.

Lemma sextet_nonneg x : 0 <= Z.land x 63 < 64.
Proof. rewrite land_63. lia. Qed.

Lemma decode_emit4 a b c n out :
  (length out + 3 <= n)%nat →
  decode_group (table_at (Z.shiftr (pack3 (code a) (code b) (code c)) 18))
               (table_at (Z.shiftr (pack3 (code a) (code b) (code c)) 12))
               (table_at (Z.shiftr (pack3 (code a) (code b) (code c)) 6))
               (table_at (pack3 (code a) (code b) (code c))) n out = Some (out ++ [a; b; c]).
Proof.
  intros Hn. pose proof (code_range a). pose proof (code_range b). pose proof (code_range c).
  pose proof (pack3_add (code a) (code b) (code c) ltac:(lia) ltac:(lia)) as Hp.
  set (t := pack3 (code a) (code b) (code c)) in *.
  unfold decode_group. rewrite !base64_value_at.
  rewrite !(proj2 (Z.ltb_ge _ _)); [pose proof (sextet_nonneg (Z.shiftr t 18)); lia
    |pose proof (sextet_nonneg (Z.shiftr t 12)); lia
    |pose proof (sextet_nonneg (Z.shiftr t 6)); lia|pose proof (sextet_nonneg t); lia|].
  rewrite !(proj2 (Z.leb_le _ _)); [apply sextet_nonneg..|].
  rewrite unpack4; [lia|]. simpl orb. simpl andb. cbv iota zeta.
  rewrite !(proj2 (Nat.ltb_lt _ _)); [lia|..].
  all: rewrite ?length_app /=; try lia.
  rewrite -!app_assoc /= !land_255 !Z.shiftr_div_pow2; [lia..|].
  assert (t / 2 ^ 16 mod 256 = code a) as -> by lia.
  assert (t / 2 ^ 8 mod 256 = code b) as -> by lia.
  assert (t mod 256 = code c) as -> by lia.
  by rewrite !chr_code.
Qed.

(** ** Lemmas: whole strings *)

Lemma list_ind3 {A} (P : list A → Prop) :
  P [] → (∀ a, P [a]) → (∀ a b, P [a; b]) → (∀ a b c l, P l → P (a :: b :: c :: l)) → ∀ l, P l.
Proof.
  intros H0 H1 H2 H3.
  assert (Hall : ∀ n l, (length l <= n)%nat → P l); [|intros l; by apply (Hall (length l))].
  induction n as [|n IH]; intros l Hl; [by destruct l; simpl in *; [|lia]|].
  destruct l as [|a [|b [|c l]]]; auto. apply H3, IH. simpl in Hl. lia.
Qed.

Lemma length_encode_loop s : length (encode_loop s) = (4 * ((length s + 2) / 3))%nat.
Proof.
  induction s as [| | |a b c s IH] using list_ind3; [done..|].
  change (encode_loop (a :: b :: c :: s)) with
    (emit4 (pack3 (code a) (code b) (code c)) ++ encode_loop s).
  rewrite length_app IH. cbn [length emit4]. lia.
Qed.

Lemma encode_loop_no_pad s : "="%char ∉ encode_loop s.
Proof.
  assert (Hemit : ∀ t, "="%char ∉ emit4 t).
  { intros t. unfold emit4. rewrite !not_elem_of_cons.
    split_and!; try (apply not_eq_sym, table_at_not_pad). apply not_elem_of_nil. }
  induction s as [| | |a b c s IH] using list_ind3; [apply not_elem_of_nil|apply Hemit..|].
  change (encode_loop (a :: b :: c :: s)) with
    (emit4 (pack3 (code a) (code b) (code c)) ++ encode_loop s).
  rewrite elem_of_app. intros [H|H]; [by apply (Hemit _ H)|done].
Qed.

Lemma decode_encode_loop s n out :
  (length s mod 3 = 0)%nat → (length out + length s <= n)%nat →
  decode_loop (encode_loop s) n out = Some (out ++ s).
Proof.
  revert out. induction s as [| | |a b c s IH] using list_ind3; intros out Hm Hn; cbn [length] in Hm, Hn.
  - by rewrite app_nil_r.
  - done.
  - done.
  - change (encode_loop (a :: b :: c :: s)) with
      (emit4 (pack3 (code a) (code b) (code c)) ++ encode_loop s).
    unfold emit4. simpl app. cbn [decode_loop]. rewrite decode_emit4; [lia|].
    rewrite IH; [lia|rewrite length_app /=; lia|by rewrite -app_assoc].
Qed.

(** A group with a padding byte is refused: [base64_value] gives -2 for it and
    the decoder only lets -1 through. *)
Lemma decode_group_pad a b c n out : decode_group a b c "="%char n out = None.
Proof. unfold decode_group. change (base64_value "="%char <? -1) with true. by rewrite orb_true_r. Qed.

Lemma decode_loop_pad q a b c n out :
  (length q mod 4 = 0)%nat → decode_loop (q ++ [a; b; c; "="%char]) n out = None.
Proof.
  remember (length q) as k eqn:Hk. revert q Hk out.
  induction (lt_wf k) as [k _ IH]. intros q -> out Hm.
  destruct q as [|x [|y [|z [|w q]]]]; try done; cbn [app decode_loop].
  - by rewrite decode_group_pad.
  - destruct (decode_group x y z w n out); [|done].
    eapply IH; [|done|]; cbn [length] in *; lia.
Qed.

(** A string of whole groups that ends in a padding byte does not decode. *)
Lemma decode_ends_in_pad l k n out :
  length l = (4 * S k)%nat → l !! (4 * k + 3)%nat = Some "="%char → decode_loop l n out = None.
Proof.
  intros Hl Hpad. rewrite -(take_drop (4 * k) l).
  assert (Hlen : length (drop (4 * k) l) = 4%nat) by (rewrite length_drop; lia).
  assert (Hlast : drop (4 * k) l !! 3%nat = Some "="%char) by by rewrite lookup_drop.
  destruct (drop (4 * k) l) as [|a [|b [|c [|d [|]]]]]; try done. simplify_eq/=.
  apply decode_loop_pad. rewrite length_take. lia.
Qed.

Lemma length_base64_encode s : length (base64_encode s) = (4 * ((length s + 2) / 3))%nat.
Proof.
  unfold base64_encode. repeat case_match; rewrite ?length_insert; apply length_encode_loop.
Qed.

Lemma base64_encode_pad s :
  (length s mod 3 ≠ 0)%nat → ∃ k, length (base64_encode s) = (4 * S k)%nat ∧
    base64_encode s !! (4 * k + 3)%nat = Some "="%char.
Proof.
  intros Hm. exists ((length s + 2) / 3 - 1)%nat. rewrite length_base64_encode.
  assert (1 <= (length s + 2) / 3)%nat by lia. split; [lia|].
  unfold base64_encode. rewrite (proj2 (Nat.ltb_lt _ _)); [lia|].
  assert (Hl : <[(4 * ((length s + 2) / 3) - 1)%nat := "="%char]> (encode_loop s)
               !! (4 * ((length s + 2) / 3 - 1) + 3)%nat = Some "="%char).
  { rewrite (_ : (4 * ((length s + 2) / 3 - 1) + 3 = 4 * ((length s + 2) / 3) - 1)%nat); [lia|].
    apply list_lookup_insert_eq. rewrite length_encode_loop. lia. }
  case_match; [|done]. rewrite list_lookup_insert_ne; [lia|done].
Qed.

Lemma is_pad_zero l i : "="%char ∉ l → is_pad l i = 0%nat.
Proof.
  intros Hl. unfold is_pad. rewrite bool_decide_eq_false_2; [|done].
  intros H. apply Hl. by eapply list_elem_of_lookup_2.
Qed.

(** ** Properties *)

(** C31 The encoder writes four characters for every started group of three
    bytes, and the decoder undoes it exactly for the inputs that need no
    padding: it returns the bytes when their number is a positive multiple of
    three and refuses every padded encoding (and the empty one). *)
Theorem base64_decode_encode s :
  length (base64_encode s) = (4 * ((length s + 2) / 3))%nat ∧
  base64_decode (base64_encode s) =
    if (0 <? length s)%nat && (length s mod 3 =? 0)%nat then Some s else None.
Proof.
  split; [apply length_base64_encode|].
  unfold base64_decode. rewrite length_base64_encode.
  destruct (Nat.eq_dec (length s mod 3) 0) as [Hm|Hm].
  - destruct s as [|a s']; [done|]. set (s := a :: s') in *.
    assert (0 < length s)%nat by (subst s; simpl; lia).
    rewrite Hm. rewrite (proj2 (Nat.ltb_lt 0 _)); [lia|]. cbn [andb Nat.eqb].
    rewrite (proj2 (Nat.eqb_neq (4 * ((length s + 2) / 3)) 0)); [lia|].
    rewrite (proj2 (Nat.eqb_eq ((4 * ((length s + 2) / 3)) mod 4) 0)); [lia|]. cbn [orb negb].
    assert (base64_encode s = encode_loop s) as ->.
    { unfold base64_encode. by rewrite Hm. }
    rewrite !is_pad_zero; [apply encode_loop_no_pad..|].
    rewrite decode_encode_loop; [done|cbn [length]; lia|done].
  - rewrite (proj2 (Nat.eqb_neq (length s mod 3) 0) Hm) andb_false_r.
    case_match; [done|]. destruct (base64_encode_pad s Hm) as (k & Hk & Hpad).
    by eapply decode_ends_in_pad.
Qed.
