(* ===== verification/Protocol.v ===== *)
(** * The wire protocol of [src/common/protocol.c]

    A message is its fields joined by [|] and ended by a newline.  [recv] and
    [send] are the operating system's: their results come from a list of
    events, one per call, so that short counts, EINTR, errors and end of file
    are all inputs of the model. *)
From S2P Require Import Prelude CStr.

Definition MAX_MESSAGE_SIZE : Z := 65536.
Definition MAX_FIELDS : nat := 32.

Definition ERR_USERNAME_INVALID : Z := 101.
Definition ERR_USER_NOT_FOUND : Z := 102.
Definition ERR_INVALID_REQUEST : Z := 400.
Definition ERR_PERMISSION_DENIED : Z := 403.
Definition ERR_FILE_NOT_FOUND : Z := 404.
Definition ERR_FILE_EXISTS : Z := 409.
Definition ERR_SENTENCE_LOCKED : Z := 423.
Definition ERR_INTERNAL_ERROR : Z := 500.
Definition ERR_DISK_ERROR : Z := 501.
Definition ERR_NO_UNDO_HISTORY : Z := 502.
Definition ERR_DELETE_FAILED : Z := 503.
Definition ERR_EXEC_FAILED : Z := 504.

(** The designated initialisers of [error_messages]. *)
Definition error_messages : list (Z * cstr) :=
  [(ERR_USERNAME_INVALID, $"Username invalid or already connected.");
   (ERR_USER_NOT_FOUND, $"User not found.");
   (ERR_INVALID_REQUEST, $"Invalid index or arguments.");
   (ERR_PERMISSION_DENIED, $"Permission denied.");
   (ERR_FILE_NOT_FOUND, $"File not found.");
   (ERR_FILE_EXISTS, $"File already exists.");
   (ERR_SENTENCE_LOCKED, $"Sentence is locked by another user.");
   (ERR_INTERNAL_ERROR, $"Internal server error.");
   (ERR_DISK_ERROR, $"Disk error.");
   (ERR_NO_UNDO_HISTORY, $"No undo history available for this file.");
   (ERR_DELETE_FAILED, $"Failed to delete file from disk.");
   (ERR_EXEC_FAILED, $"Command execution failed on server.")].

Definition protocol_get_error_message (error_code : Z) : cstr :=
  match firstb (λ e, (e.1 =? error_code)%Z) error_messages with
  | Some (_, text) => text
  | None => $"Unknown error."
  end.

(** ** Parsing *)

(** The tokenising loop; [n] is the number of fields there is still room for. *)
Fixpoint parse_loop (n : nat) (current : cstr) : list cstr :=
  match n with
  | O => []
  | S n' =>
      match split_at c_bar current with
      | None => [current]
      | Some (field, []) => field :: (match n' with O => [] | S _ => [[]] end)
      | Some (field, next) => field :: parse_loop n' next
      end
  end.

Definition strip_newline (s : cstr) : cstr :=
  match last s with
  | Some c => if bool_decide (c = c_nl) then take (length s - 1) s else s
  | None => s
  end.

(** The fields of a raw message ([raw_message] is kept for debugging only). *)
Definition protocol_parse_message (raw : cstr) : list cstr :=
  parse_loop MAX_FIELDS (strip_newline (fit (Z.to_nat MAX_MESSAGE_SIZE) raw)).

(** ** Building *)

(** Pass 1: the bytes to allocate, terminator and NUL included. *)
Fixpoint build_size (total_size : nat) (fields : list cstr) : nat :=
  match fields with
  | [] => total_size + 2
  | [f] => total_size + length f + 2
  | f :: fs => build_size (total_size + length f + 1) fs
  end.

(** Pass 2: the [strcat] loop. *)
Fixpoint build_loop (message : cstr) (fields : list cstr) : cstr :=
  match fields with
  | [] => message
  | [f] => message ++ f
  | f :: fs => build_loop ((message ++ f) ++ [c_bar]) fs
  end.

Definition protocol_build_message (fields : list cstr) : option cstr :=
  match fields with
  | [] => None
  | _ => Some (build_loop [] fields ++ [c_nl])
  end.

Definition protocol_build_error (error_code : Z) (error_msg : option cstr) : option cstr :=
  protocol_build_message
    [$"ERR"; fit 16 (to_dec error_code);
     match error_msg with Some m => m | None => protocol_get_error_message error_code end].

Definition protocol_build_ok (message : option cstr) : option cstr :=
  match message with
  | Some m => protocol_build_message [$"OK"; m]
  | None => protocol_build_message [$"OK"]
  end.

(** ** Sending and receiving *)

(** The result of one [send]: a count of bytes taken, EINTR, another error. *)
Inductive SendResult := Sent (n : nat) | SendEintr | SendError.

(** The send loop: the bytes put on the wire, and [Some] of the value returned
    ([None] while the list of events ends before the loop does). *)
Fixpoint send_loop (evs : list SendResult) (message : cstr) (total_sent : nat) (wire : cstr)
  : cstr * option Z :=
  if decide (length message <= total_sent) then (wire, Some (Z.of_nat total_sent))
  else
    match evs with
    | [] => (wire, None)
    | SendEintr :: evs => send_loop evs message total_sent wire
    | SendError :: _ => (wire, Some (-1)%Z)
    | Sent n :: evs =>
        let n := Nat.min n (length message - total_sent) in
        send_loop evs message (total_sent + n)
          (wire ++ take n (drop total_sent message))
    end.

Definition protocol_send_message (sockfd : Z) (message : cstr) (evs : list SendResult)
  : cstr * option Z :=
  if (sockfd <? 0)%Z then ([], Some (-1)%Z) else send_loop evs message 0 [].

(** The result of one 1-byte [recv]. *)
Inductive RecvResult := RecvByte (c : ascii) | RecvEintr | RecvError | RecvEof.

(** What [protocol_receive_message] gives: a message, NULL, or nothing yet. *)
Inductive Received := Message (s : cstr) | RecvNull | Blocked.

Fixpoint receive_loop (evs : list RecvResult) (buffer : cstr) : Received * list RecvResult :=
  if (Z.of_nat (length buffer) <? MAX_MESSAGE_SIZE - 1)%Z then
    match evs with
    | [] => (Blocked, [])
    | RecvEintr :: evs => receive_loop evs buffer
    | RecvError :: evs => (RecvNull, evs)
    | RecvEof :: evs => (match buffer with [] => RecvNull | _ => Message buffer end, evs)
    | RecvByte c :: evs =>
        if bool_decide (c = c_nl) then (Message (buffer ++ [c]), evs)
        else receive_loop evs (buffer ++ [c])
    end
  else (RecvNull, evs).

Definition protocol_receive_message (sockfd : Z) (evs : list RecvResult)
  : Received * list RecvResult :=
  if (sockfd <? 0)%Z then (RecvNull, evs) else receive_loop evs [].

(** ** Inspection *)

(** What handlers send: pairs of a descriptor and the message text. *)
Definition Outbox : Type := list (Z * cstr).

(** Build the fields and send the result, whose success is not checked. *)
Definition emit (fd : Z) (fields : list cstr) : Outbox :=
  match protocol_build_message fields with
  | Some msg => if (fd <? 0)%Z then [] else [(fd, msg)]
  | None => []
  end.

Definition protocol_validate_message (message : cstr) : bool :=
  match last message with
  | Some c => bool_decide (c = c_nl) &&
              (Z.of_nat (length message) <=? MAX_MESSAGE_SIZE)%Z
  | None => false
  end.

Definition protocol_is_error (fields : list cstr) : bool :=
  match fields with [] => false | f :: _ => streq f ($"ERR") end.

Definition protocol_get_error_code (fields : list cstr) : Z :=
  if protocol_is_error fields then
    match fields with _ :: c :: _ => atoi c | _ => (-1)%Z end
  else (-1)%Z.

(** ** Lemmas *)

Lemma build_loop_join acc fields : build_loop acc fields = acc ++ join [c_bar] fields.
Proof.
  revert acc. induction fields as [|f fs IH]; intros acc; simpl; [by rewrite app_nil_r|].
  destruct fs as [|g gs]; [done|]. rewrite IH. by rewrite -!app_assoc.
Qed.

Lemma protocol_build_message_join fields :
  fields ≠ [] → protocol_build_message fields = Some (join [c_bar] fields ++ [c_nl]).
Proof. intros Hne. destruct fields; [done|]. unfold protocol_build_message. by rewrite build_loop_join. Qed.

Lemma build_size_join n fields : build_size n fields = n + length (join [c_bar] fields) + 2.
Proof.
  revert n. induction fields as [|f fs IH]; intros n; simpl; [lia|].
  destruct fs as [|g gs]; [lia|]. rewrite IH !length_app /=. lia.
Qed.

Lemma strip_newline_snoc s : strip_newline (s ++ [c_nl]) = s.
Proof.
  unfold strip_newline. rewrite last_snoc bool_decide_eq_true_2; [done|].
  rewrite length_app /= Nat.add_sub. apply take_app_length.
Qed.

Lemma parse_loop_nil n : parse_loop (S n) [] = [[]].
Proof. done. Qed.

(** The special case for a trailing bar is what the loop would do anyway. *)
Lemma parse_loop_bar n f rest :
  c_bar ∉ f → parse_loop (S n) (f ++ c_bar :: rest) = f :: parse_loop n rest.
Proof.
  intros Hf. cbn [parse_loop].
  rewrite (proj2 (split_at_Some c_bar (f ++ c_bar :: rest) f rest)); [done|].
  destruct rest; [|done]. by destruct n.
Qed.

Lemma parse_loop_last n f : c_bar ∉ f → parse_loop (S n) f = [f].
Proof. intros Hf. cbn [parse_loop]. by rewrite (proj2 (split_at_None c_bar f) Hf). Qed.

Lemma parse_loop_join n fields :
  fields ≠ [] → Forall (λ f, c_bar ∉ f) fields →
  parse_loop n (join [c_bar] fields) = take n fields.
Proof.
  intros Hne Hall. revert n Hne. induction Hall as [|f fs Hf Hfs IH]; intros n Hne; [done|].
  destruct n as [|n]; [done|]. destruct fs as [|g gs].
  - simpl join. rewrite parse_loop_last; [done|]. by rewrite /= take_nil.
  - change (join [c_bar] (f :: g :: gs)) with (f ++ c_bar :: join [c_bar] (g :: gs)).
    rewrite parse_loop_bar; [done|]. by rewrite IH.
Qed.

Lemma parse_loop_fields n s : Forall (λ f, c_bar ∉ f) (parse_loop n s).
Proof.
  revert s. induction n as [|n IH]; intros s; simpl; [constructor|].
  destruct (split_at c_bar s) as [[f next]|] eqn:Hs.
  - apply split_at_Some in Hs as [_ Hf].
    assert (Forall (λ f, c_bar ∉ f) (f :: parse_loop n next)) by (constructor; auto).
    destruct next; [|done]. constructor; [done|].
    destruct n; [constructor|]. repeat constructor. apply not_elem_of_nil.
  - apply split_at_None in Hs. by repeat constructor.
Qed.

Lemma parse_loop_length n s : length (parse_loop n s) ≤ n ∧ (0 < n → 0 < length (parse_loop n s)).
Proof.
  revert s. induction n as [|n IH]; intros s; simpl; [lia|].
  destruct (split_at c_bar s) as [[f next]|]; simpl; [|lia].
  destruct next as [|c next]; simpl; [destruct n; simpl; lia|].
  destruct (IH (c :: next)). lia.
Qed.

(** A built message that fits the receive buffer parses back to its fields. *)
Lemma parse_build fields :
  fields ≠ [] → Forall (λ f, c_bar ∉ f) fields →
  (Z.of_nat (length (join [c_bar] fields)) < MAX_MESSAGE_SIZE - 1)%Z →
  protocol_parse_message (join [c_bar] fields ++ [c_nl]) = take MAX_FIELDS fields.
Proof.
  intros Hne Hall Hlen. unfold protocol_parse_message.
  rewrite fit_short; [rewrite length_app; cbn [length]; unfold MAX_MESSAGE_SIZE in *; lia|].
  by rewrite strip_newline_snoc parse_loop_join.
Qed.

Lemma receive_loop_bytes buf s evs :
  c_nl ∉ s → (Z.of_nat (length buf + length s) < MAX_MESSAGE_SIZE - 1)%Z →
  receive_loop (map RecvByte (s ++ [c_nl]) ++ evs) buf = (Message (buf ++ s ++ [c_nl]), evs).
Proof.
  revert buf. induction s as [|c s IH]; intros buf Hnl Hlen; cbn [app map length] in *.
  - cbn [receive_loop]. rewrite (proj2 (Z.ltb_lt _ _)); [lia|].
    by rewrite bool_decide_eq_true_2.
  - apply not_elem_of_cons in Hnl as [Hc Hnl]. cbn [receive_loop].
    rewrite (proj2 (Z.ltb_lt _ _)); [lia|].
    rewrite bool_decide_eq_false_2; [done|].
    rewrite IH; [done|rewrite length_app; cbn [length]; lia|]. by rewrite -app_assoc.
Qed.

Lemma receive_loop_bound evs buf s evs' :
  (Z.of_nat (length buf) < MAX_MESSAGE_SIZE)%Z → receive_loop evs buf = (Message s, evs') →
  (Z.of_nat (length s) < MAX_MESSAGE_SIZE)%Z.
Proof.
  revert buf. induction evs as [|[c| | |] evs IH]; intros buf Hb; cbn [receive_loop];
    (destruct (_ <? _)%Z eqn:Hlt; [|done]); intros Hr; simplify_eq/=.
  - case_bool_decide; simplify_eq/=; [rewrite length_app; cbn [length]; lia|].
    eapply IH; [|done]. rewrite length_app; cbn [length]. lia.
  - eauto.
  - destruct buf; simplify_eq/=. cbn [length] in *. lia.
Qed.

Lemma send_loop_spec evs message total wire :
  total ≤ length message → wire = take total message →
  (send_loop evs message total wire).1 `prefix_of` message ∧
  ∀ r, (send_loop evs message total wire).2 = Some r →
    (r = -1)%Z ∧ SendError ∈ evs ∨
    (r = Z.of_nat (length message) ∧ (send_loop evs message total wire).1 = message).
Proof.
  revert total wire. induction evs as [|[n| |] evs IH]; intros total wire Ht ->; cbn [send_loop].
  all: case_decide as Hd; cbn [fst snd].
  all: try by (assert (total = length message) as -> by lia;
               rewrite take_ge; [lia|]; split; [done|]; intros r [= <-]; right).
  - split; [|done]. exists (drop total message). by rewrite take_drop.
  - set (k := Nat.min n (length message - total)).
    assert (Hw : take total message ++ take k (drop total message) = take (total + k) message)
      by by rewrite take_take_drop.
    destruct (IH (total + k) (take (total + k) message)) as [Hp Hr]; [lia|done|].
    rewrite Hw. split; [done|]. intros r Hr'. destruct (Hr r Hr') as [[-> ?]|?]; [left|by right].
    set_solver.
  - destruct (IH total (take total message)) as [Hp Hr]; [lia|done|]. split; [done|].
    intros r Hr'. destruct (Hr r Hr') as [[-> ?]|?]; [left|by right]. set_solver.
  - split; [exists (drop total message); by rewrite take_drop|].
    intros r [= <-]. left. set_solver.
Qed.

(** ** Properties *)

(** C26 A message built from at most 32 fields without bars or newlines, and
    short enough for the receive buffer, crosses the wire intact: the buffer
    computed by the first pass has exactly the room the second pass uses, the
    receiver takes precisely this message's bytes off the stream (the bytes
    that follow stay for the next call) and parsing gives the fields back. *)
Theorem message_roundtrip sockfd fields evs :
  (0 <= sockfd)%Z → fields ≠ [] → length fields <= MAX_FIELDS →
  Forall (λ f, (c_bar ∉ f) ∧ (c_nl ∉ f)) fields →
  (Z.of_nat (length (join [c_bar] fields)) < MAX_MESSAGE_SIZE - 1)%Z →
  ∃ msg, protocol_build_message fields = Some msg ∧ build_size 0 fields = length msg + 1 ∧
    protocol_receive_message sockfd (map RecvByte msg ++ evs) = (Message msg, evs) ∧
    protocol_parse_message msg = fields.
Proof.
  intros Hfd Hne Hn Hall Hlen. exists (join [c_bar] fields ++ [c_nl]). split_and!.
  - by apply protocol_build_message_join.
  - rewrite build_size_join length_app /=. lia.
  - unfold protocol_receive_message. rewrite (proj2 (Z.ltb_ge _ _) Hfd).
    rewrite receive_loop_bytes; [|done|done]. apply join_not_elem.
    + intros f Hf. by apply (proj1 (Forall_forall _ _) Hall).
    + by intros [?|?%elem_of_nil]%elem_of_cons.
  - rewrite parse_build; [done| |done|by apply take_ge].
    by eapply Forall_impl; [exact Hall|intros f []].
Qed.

Lemma message_roundtrip_witness :
  ∃ msg, protocol_build_message [$"REQ_LOC"; $"READ"; $"docs/a.txt"] = Some msg ∧
    build_size 0 [$"REQ_LOC"; $"READ"; $"docs/a.txt"] = length msg + 1 ∧
    protocol_receive_message 5 (map RecvByte msg ++ [RecvByte "X"%char]) =
      (Message msg, [RecvByte "X"%char]) ∧
    protocol_parse_message msg = [$"REQ_LOC"; $"READ"; $"docs/a.txt"].
Proof.
  apply (message_roundtrip 5); [lia|done|unfold MAX_FIELDS; simpl; lia|vmd|by vm_compute].
Defined.

(** C32 Whatever bytes arrive, a parsed message has between 1 and 32 fields, no
    field contains a bar, and a received message fits its 64 KB buffer. *)
Theorem parse_bounds raw sockfd evs :
  0 < length (protocol_parse_message raw) ∧ length (protocol_parse_message raw) <= MAX_FIELDS ∧
  Forall (λ f, c_bar ∉ f) (protocol_parse_message raw) ∧
  match (protocol_receive_message sockfd evs).1 with
  | Message s => (Z.of_nat (length s) < MAX_MESSAGE_SIZE)%Z
  | _ => True
  end.
Proof.
  unfold protocol_parse_message. split_and!.
  - apply parse_loop_length. unfold MAX_FIELDS. lia.
  - apply parse_loop_length.
  - apply parse_loop_fields.
  - unfold protocol_receive_message. destruct (sockfd <? 0)%Z; [done|].
    destruct (receive_loop evs []) as [[s| |] evs'] eqn:Hr; [|done..].
    by eapply receive_loop_bound; [|exact Hr].
Qed.

(** An error response carries its code: the message built for an [int] code
    and any text is recognised as an error and its code is read back; without a
    text it is the table's, or [Unknown error.] for a code outside the table. *)
Theorem error_roundtrip error_code text :
  (INT_MIN <= error_code <= INT_MAX)%Z → (Z.of_nat (length text) < 60000)%Z →
  ∃ msg, protocol_build_error error_code (Some text) = Some msg ∧
    protocol_is_error (protocol_parse_message msg) = true ∧
    protocol_get_error_code (protocol_parse_message msg) = error_code.
Proof.
  intros Hc Ht. exists (join [c_bar] [$"ERR"; to_dec error_code; text] ++ [c_nl]).
  pose proof (to_dec_int_length _ Hc) as Hlen. split.
  { unfold protocol_build_error. rewrite fit_short; [lia|]. by apply protocol_build_message_join. }
  assert (Hp : ∃ rest, protocol_parse_message
                  (join [c_bar] [$"ERR"; to_dec error_code; text] ++ [c_nl])
                = $"ERR" :: to_dec error_code :: rest).
  { unfold protocol_parse_message. rewrite fit_short.
    { cbn [join String.list_ascii_of_string]. unfold MAX_MESSAGE_SIZE. len. }
    rewrite strip_newline_snoc. eexists.
    change (join [c_bar] [$"ERR"; to_dec error_code; text])
      with ($"ERR" ++ c_bar :: to_dec error_code ++ c_bar :: text).
    rewrite /MAX_FIELDS parse_loop_bar; [vmd|].
    rewrite parse_loop_bar; [by apply to_dec_no|done]. }
  destruct Hp as [rest ->]. split; [done|]. unfold protocol_get_error_code. simpl.
  by apply atoi_to_dec.
Qed.

Lemma error_roundtrip_witness :
  ∃ msg, protocol_build_error 423 (Some ($"locked|by u1")) = Some msg ∧
    protocol_is_error (protocol_parse_message msg) = true ∧
    protocol_get_error_code (protocol_parse_message msg) = 423%Z.
Proof. apply (error_roundtrip 423); [by vm_compute|by vm_compute]. Defined.

(** The send loop never skips or repeats a byte: for any sequence of short
    counts and interruptions the wire holds a prefix of the message, and the
    call returns either -1 after a real error or the full length, in which case
    the wire holds the whole message. *)
Theorem send_complete sockfd message evs :
  (protocol_send_message sockfd message evs).1 `prefix_of` message ∧
  ∀ r, (protocol_send_message sockfd message evs).2 = Some r →
    (r = -1)%Z ∧ ((sockfd < 0)%Z ∨ SendError ∈ evs) ∨
    r = Z.of_nat (length message) ∧ (protocol_send_message sockfd message evs).1 = message.
Proof.
  unfold protocol_send_message. destruct (sockfd <? 0)%Z eqn:Hfd; simpl.
  - split; [apply prefix_nil|]. intros r [= <-]. left. split; [done|]. left. lia.
  - destruct (send_loop_spec evs message 0 []) as [Hp Hr]; [lia|done|]. split; [done|].
    intros r Hr'. destruct (Hr r Hr') as [[-> ?]|?]; tauto.
Qed.

(** Content is not framed: a field with a newline in it ends its message
    there.  The receiver gets the part before the newline and takes the rest
    of the field for the start of the next message. *)
Theorem newline_truncates sockfd head before after evs :
  (0 <= sockfd)%Z → c_nl ∉ head → c_nl ∉ before → c_nl ∉ after →
  (Z.of_nat (length head + length before + length after) < 60000)%Z →
  ∃ msg, protocol_build_message [head; before ++ c_nl :: after] = Some msg ∧
    protocol_receive_message sockfd (map RecvByte msg ++ evs) =
      (Message (head ++ [c_bar] ++ before ++ [c_nl]), map RecvByte (after ++ [c_nl]) ++ evs) ∧
    (protocol_receive_message sockfd (map RecvByte (after ++ [c_nl]) ++ evs)).1 =
      Message (after ++ [c_nl]).
Proof.
  intros Hfd Hh Hb Ha Hlen. exists (head ++ [c_bar] ++ (before ++ c_nl :: after) ++ [c_nl]).
  unfold protocol_receive_message. rewrite (proj2 (Z.ltb_ge _ _) Hfd). split_and!.
  - rewrite protocol_build_message_join; [done|]. cbn [join]. by rewrite -!app_assoc.
  - replace (head ++ [c_bar] ++ (before ++ c_nl :: after) ++ [c_nl])
      with ((((head ++ [c_bar] ++ before) ++ [c_nl])) ++ after ++ [c_nl])
      by (by rewrite -!app_assoc).
    rewrite map_app -app_assoc receive_loop_bytes.
    + set_solver.
    + rewrite !length_app. cbn [length]. unfold MAX_MESSAGE_SIZE. lia.
    + simpl. by rewrite -!app_assoc.
  - rewrite receive_loop_bytes; [done|cbn [length]; unfold MAX_MESSAGE_SIZE; lia|done].
Qed.

Lemma newline_truncates_witness :
  ∃ msg, protocol_build_message [$"OK_CONTENT"; $"ls" ++ c_nl :: $"pwd"] = Some msg ∧
    protocol_receive_message 4 (map RecvByte msg ++ []) =
      (Message ($"OK_CONTENT" ++ [c_bar] ++ $"ls" ++ [c_nl]), map RecvByte ($"pwd" ++ [c_nl]) ++ []) ∧
    (protocol_receive_message 4 (map RecvByte ($"pwd" ++ [c_nl]) ++ [])).1 =
      Message ($"pwd" ++ [c_nl]).
Proof.
  apply (newline_truncates 4); [lia|vmd|vmd|vmd|by vm_compute].
Defined.
