(* ===== verification/Wire.v ===== *)
(** * Messages on a connection

    What the receiver of a stream of bytes gets ([protocol_receive_message] over
    and over), and the lists of fields that arrive as they were sent. *)
From S2P Require Import Prelude CStr Utils Protocol.

(** The messages the receiver of these bytes gets: a message that does not fit
    the buffer ends the connection. *)
Fixpoint frames_loop (fuel : nat) (evs : list RecvResult) : list cstr :=
  match fuel with
  | O => []
  | S fuel =>
      match protocol_receive_message 0 evs with
      | (Message raw, evs) => raw :: frames_loop fuel evs
      | _ => []
      end
  end.

(** Every message has a byte. *)
Definition frames (bytes : cstr) : list cstr := frames_loop (length bytes) (map RecvByte bytes).

(** What is sent on one descriptor. *)
Definition sent_to (fd : Z) (out : Outbox) : cstr :=
  concat (map snd (List.filter (λ m, bool_decide (m.1 = fd)) out)).

(** ** Messages that arrive whole *)

Definition message (fields : list cstr) : cstr := join [c_bar] fields ++ [c_nl].

Definition plain (s : cstr) : Prop := (c_bar ∉ s) ∧ (c_nl ∉ s).

Record sendable (fields : list cstr) : Prop := {
  sd_fields : fields ≠ [];
  sd_count : length fields <= MAX_FIELDS;
  sd_plain : Forall plain fields;
  sd_length : (Z.of_nat (length (join [c_bar] fields)) < MAX_MESSAGE_SIZE - 1)%Z
}.

Definition framed (msg : cstr) : Prop :=
  ∃ body, msg = (body ++ [c_nl]) ∧ (c_nl ∉ body) ∧ (Z.of_nat (length body) < MAX_MESSAGE_SIZE - 1)%Z.

Lemma build_sendable fields : sendable fields → protocol_build_message fields = Some (message fields).
Proof. intros []. by apply protocol_build_message_join. Qed.

Lemma parse_sendable fields : sendable fields → protocol_parse_message (message fields) = fields.
Proof.
  intros []. unfold message. rewrite parse_build; [done| |done|by apply take_ge].
  by eapply Forall_impl; [done|intros f []].
Qed.

Lemma framed_sendable fields : sendable fields → framed (message fields).
Proof.
  intros []. exists (join [c_bar] fields). split; [done|]. split; [|done]. apply join_not_elem.
  - intros f Hf. rewrite Forall_forall in sd_plain0. by apply sd_plain0.
  - by intros [?|?%elem_of_nil]%elem_of_cons.
Qed.

Lemma frames_loop_concat fuel msgs :
  Forall framed msgs → length msgs <= fuel → frames_loop fuel (map RecvByte (concat msgs)) = msgs.
Proof.
  intros Hall. revert fuel. induction Hall as [|msg msgs (body & -> & Hnl & Hlen) _ IH]; intros fuel Hf.
  - by destruct fuel.
  - destruct fuel as [|fuel]; cbn [length] in Hf; [lia|]. cbn [concat frames_loop].
    unfold protocol_receive_message. rewrite Z.ltb_irrefl map_app receive_loop_bytes; [done|done|].
    rewrite IH; [lia|done].
Qed.

Lemma framed_nonempty msgs : Forall framed msgs → length msgs <= length (concat msgs).
Proof. induction 1 as [|msg msgs (body & -> & _) _ IH]; cbn [concat length]; len. Qed.

Lemma frames_concat msgs : Forall framed msgs → frames (concat msgs) = msgs.
Proof. intros H. apply frames_loop_concat; [done|]. by apply framed_nonempty. Qed.

Lemma frames_message fields : sendable fields → frames (message fields) = [message fields].
Proof.
  intros Hs. rewrite -{1}(app_nil_r (message fields)). apply (frames_concat [message fields]).
  by repeat constructor; apply framed_sendable.
Qed.

Lemma emit_sendable fd fields : (0 <= fd)%Z → sendable fields → (emit fd fields = [(fd, message fields)]).
Proof. intros Hfd Hs. unfold emit. rewrite build_sendable; [done|]. by rewrite (proj2 (Z.ltb_ge _ _) Hfd). Qed.

(** The answers on one descriptor arrive as they were sent. *)
Lemma sent_to_emits fd fss :
  (0 <= fd)%Z → Forall sendable fss → sent_to fd (concat (map (emit fd) fss)) = concat (map message fss).
Proof.
  intros Hfd Hall. induction Hall as [|fields fss Hs _ IH]; [done|]. cbn [map concat].
  rewrite emit_sendable; [done..|]. unfold sent_to in *. cbn [app List.filter fst]. rewrite bool_decide_eq_true_2; [done|].
  cbn [map concat snd]. by rewrite IH.
Qed.

Lemma frames_emits fd fss :
  (0 <= fd)%Z → Forall sendable fss → frames (sent_to fd (concat (map (emit fd) fss))) = map message fss.
Proof.
  intros Hfd Hall. rewrite sent_to_emits; [done..|]. apply frames_concat. rewrite Forall_map.
  by eapply Forall_impl; [done|apply framed_sendable].
Qed.

Lemma sent_to_app fd out1 out2 : sent_to fd (out1 ++ out2) = sent_to fd out1 ++ sent_to fd out2.
Proof. unfold sent_to. by rewrite List.filter_app map_app concat_app. Qed.

Lemma sent_to_other fd out : Forall (λ m, m.1 ≠ fd) out → sent_to fd out = [].
Proof.
  unfold sent_to. induction 1 as [|m out Hm _ IH]; [done|]. cbn [List.filter].
  by rewrite bool_decide_eq_false_2.
Qed.

Lemma emit_fds fd fields : Forall (λ m, m.1 = fd) (emit fd fields).
Proof. unfold emit. case_match; [|done]. case_match; by repeat constructor. Qed.

(** ** Checks *)

Fixpoint total_length (fields : list cstr) : nat :=
  match fields with [] => 0 | f :: rest => length f + S (total_length rest) end.

Lemma join_length fields : length (join [c_bar] fields) <= total_length fields.
Proof.
  induction fields as [|f [|g gs] IH]; [done|simpl; lia|].
  change (join [c_bar] (f :: g :: gs)) with (f ++ [c_bar] ++ join [c_bar] (g :: gs)). rewrite !length_app.
  cbn [total_length length] in *. lia.
Qed.

Lemma sendable_of fields :
  fields ≠ [] → length fields <= MAX_FIELDS → Forall plain fields → (Z.of_nat (total_length fields) < 65000)%Z →
  sendable fields.
Proof.
  intros Hne Hc Hp Hl. split; [done..|]. pose proof (join_length fields). unfold MAX_MESSAGE_SIZE. lia.
Qed.

Lemma plain_nil : plain [].
Proof. split; apply not_elem_of_nil. Qed.

Lemma plain_to_dec n : plain (to_dec n).
Proof. split; apply to_dec_no; done. Qed.

Lemma plain_fit n s : plain s → plain (fit n s).
Proof. intros [Hb Hn]. by split; intros H%fit_elem. Qed.

Lemma plain_username u : validate_username u = true → plain u.
Proof.
  intros (_ & _ & Hall)%validate_username_spec. rewrite Forall_forall in Hall.
  split; intros H%Hall%username_char_ok; naive_solver.
Qed.

Lemma plain_filename f : validate_filename f = true → c_nl ∉ f → plain f.
Proof.
  intros (_ & _ & Hall)%validate_filename_spec Hn. split; [|done]. intros Hb.
  rewrite Forall_forall in Hall. apply (Hall _ Hb). vmd.
Qed.

Create HintDb plain.
#[export] Hint Resolve plain_nil plain_to_dec plain_fit plain_username : plain.
#[export] Hint Extern 9 (plain (String.list_ascii_of_string _)) => split; vmd : plain.

Lemma plain_cons f fields : plain f → Forall plain fields → Forall plain (f :: fields).
Proof. by constructor. Qed.

(** A list of fields that are plain and not long. *)
Ltac sendable :=
  apply sendable_of;
  [done|vmd|repeat (apply plain_cons; [by auto with plain|]); apply Forall_nil_2|cbn [total_length String.list_ascii_of_string]; len].
