(* ===== verification/Disk.v ===== *)
(** * The file system as the storage server uses it

    A disk maps paths to the text of regular files, and has a set of
    directories.  What the operating system may refuse is an input: each path
    carries a fault, which denies access or makes a write stop short.  The
    helpers of the sources that are pure combinations of these calls are here
    too: [copy_file], [ss_copy_file], [ss_read_file_content],
    [ss_write_file_content] and [create_directory_recursive].

    Files hold text: the program writes them from C strings only, so a file
    content is a [cstr]. *)
From S2P Require Import Prelude CStr Utils.

(** What the operating system does with a path it is asked to open: it takes
    everything, denies access, or takes the first [n] bytes only.  The last is
    [noticed] when [fwrite] returns a smaller count; it is not when the bytes are
    still in the stream's buffer and only [fclose] fails, whose result the
    program never looks at. *)
Inductive Fault := NoFault | Denied | ShortWrite (n : nat) (noticed : bool).

Record Disk := mkDisk {
  dk_files : gmap cstr cstr;
  dk_dirs : gset cstr;
  dk_fault : cstr → Fault
}.

Definition set_files (d : Disk) (m : gmap cstr cstr) : Disk := mkDisk m (dk_dirs d) (dk_fault d).

Definition denied (d : Disk) (path : cstr) : bool :=
  match dk_fault d path with Denied => true | _ => false end.

(** The directory a path lies in: the part before the last slash, without
    trailing slashes ([.] for a bare name). *)
Definition dir_of (path : cstr) : cstr :=
  match drop_while (λ c, negb (bool_decide (c = c_slash))) (rev path) with
  | [] => $"."
  | above =>
      match drop_while (λ c, bool_decide (c = c_slash)) above with
      | [] => [c_slash]
      | dir => rev dir
      end
  end.

(** [fopen(path, "wb")] succeeds. *)
Definition can_create (d : Disk) (path : cstr) : bool :=
  bool_decide (path ≠ []) && bool_decide (dir_of path ∈ dk_dirs d) &&
  negb (bool_decide (path ∈ dk_dirs d)) && negb (denied d path).

(** [fopen(path, "rb")] and reading to the end. *)
Definition read_file (d : Disk) (path : cstr) : option cstr :=
  if denied d path then None else dk_files d !! path.

(** Opening for writing, [fwrite] and [fclose]: whether the file opened, and
    whether [fwrite] counted everything as written. *)
Inductive WriteResult := WOpenFailed | WShort | WOk.

Definition write_file (d : Disk) (path data : cstr) : Disk * WriteResult :=
  if can_create d path then
    match dk_fault d path with
    | ShortWrite n noticed =>
        if decide (length data <= n) then (set_files d (<[path := data]> (dk_files d)), WOk)
        else (set_files d (<[path := take n data]> (dk_files d)), if noticed then WShort else WOk)
    | _ => (set_files d (<[path := data]> (dk_files d)), WOk)
    end
  else (d, WOpenFailed).

Definition unlink (d : Disk) (path : cstr) : Disk :=
  if denied d path then d else set_files d (delete path (dk_files d)).

(** [rename]: [false] is the error result.  An existing target is replaced. *)
Definition rename (d : Disk) (old new : cstr) : Disk * bool :=
  match dk_files d !! old with
  | None => (d, false)
  | Some data =>
      if denied d old || negb (can_create d new) then (d, false)
      else (set_files d (<[new := data]> (delete old (dk_files d))), true)
  end.

(** [stat(path)] succeeds ([file_exists], [ss_file_exists]). *)
Definition file_exists (d : Disk) (path : cstr) : bool :=
  bool_decide (path ≠ []) &&
  (bool_decide (is_Some (dk_files d !! path)) || bool_decide (path ∈ dk_dirs d)).

Definition ss_file_exists (d : Disk) (path : cstr) : bool := file_exists d path.

(** [-1] when there is no such file. *)
Definition get_file_size (d : Disk) (path : cstr) : Z :=
  match dk_files d !! path with Some data => Z.of_nat (length data) | None => (-1)%Z end.

(** ** Combinations *)

Definition ss_read_file_content (d : Disk) (path : cstr) : option cstr := read_file d path.

(** [false] is the result -1; the file may have been truncated. *)
Definition ss_write_file_content (d : Disk) (path data : cstr) : Disk * bool :=
  match write_file d path data with
  | (d', WOk) => (d', true)
  | (d', _) => (d', false)
  end.

(** Opening the destination truncates it before the source is read, which
    matters when they are the same file. *)
Definition ss_copy_file (d : Disk) (src_path dest_path : cstr) : Disk * bool :=
  match read_file d src_path with
  | None => (d, false)
  | Some data =>
      let data := if decide (src_path = dest_path) then [] else data in
      match write_file d dest_path data with
      | (d', WOpenFailed) => (d', false)
      | (d', WShort) => (unlink d' dest_path, false)
      | (d', WOk) => (d', true)
      end
  end.

(** The copy of [utils.c] leaves a partial destination behind. *)
Definition copy_file (d : Disk) (src dest : cstr) : Disk * bool :=
  match read_file d src with
  | None => (d, false)
  | Some data =>
      let data := if decide (src = dest) then [] else data in
      match write_file d dest data with
      | (d', WOk) => (d', true)
      | (d', _) => (d', false)
      end
  end.

(** [mkdir]: [EEXIST] counts as success in the caller. *)
Definition mkdir (d : Disk) (path : cstr) : Disk * bool :=
  if bool_decide (path ∈ dk_dirs d) || bool_decide (is_Some (dk_files d !! path)) then (d, true)
  else if bool_decide (dir_of path ∈ dk_dirs d) && negb (denied d path) then
    (mkDisk (dk_files d) ({[ path ]} ∪ dk_dirs d) (dk_fault d), true)
  else (d, false).

(** The walk over [tmp + 1 ..]: a directory for every prefix that ends before
    a slash, then the leaf. *)
Fixpoint mkdir_walk (d : Disk) (prefix rest : cstr) : Disk * bool :=
  match rest with
  | [] => mkdir d prefix
  | c :: rest' =>
      if bool_decide (c = c_slash) then
        match mkdir d prefix with
        | (d', true) => mkdir_walk d' (prefix ++ [c]) rest'
        | (d', false) => (d', false)
        end
      else mkdir_walk d (prefix ++ [c]) rest'
  end.

Definition create_directory_recursive (d : Disk) (path : cstr) : Disk * bool :=
  let tmp := fit MAX_PATH_LENGTH path in
  let tmp := match last tmp with
             | Some c => if bool_decide (c = c_slash) then take (length tmp - 1) tmp else tmp
             | None => tmp
             end in
  match tmp with
  | [] => mkdir d []
  | c :: rest => mkdir_walk d [c] rest
  end.

(** [fgets(line, n, fp)] until end of file: the pieces it returns, each of at
    most [n - 1] bytes and ending after a newline when it meets one. *)
Fixpoint fgets_loop (n : nat) (cur : cstr) (data : cstr) : list cstr :=
  match data with
  | [] => match cur with [] => [] | _ => [cur] end
  | c :: rest =>
      if bool_decide (c = c_nl) then (cur ++ [c]) :: fgets_loop n [] rest
      else if decide (n <= length cur + 2) then (cur ++ [c]) :: fgets_loop n [] rest
      else fgets_loop n (cur ++ [c]) rest
  end.

Definition fgets_lines (n : nat) (data : cstr) : list cstr := fgets_loop n [] data.

(** ** Lemmas *)

(** No write of this disk stops short. *)
Definition no_short (d : Disk) : Prop := ∀ p n noticed, dk_fault d p ≠ ShortWrite n noticed.

Lemma read_set_files_ne d path path' data :
  path ≠ path' → read_file (set_files d (<[path' := data]> (dk_files d))) path = read_file d path.
Proof. intros Hne. unfold read_file. simpl. by rewrite lookup_insert_ne. Qed.

Lemma write_file_ne d path data d' r path' :
  write_file d path data = (d', r) → path' ≠ path → dk_files d' !! path' = dk_files d !! path'.
Proof.
  unfold write_file. intros Hw Hne. repeat case_match; simplify_eq/=; try done.
  all: by rewrite lookup_insert_ne.
Qed.

Lemma write_file_ok d path data d' :
  no_short d → write_file d path data = (d', WOk) → dk_files d' = <[path := data]> (dk_files d).
Proof. unfold write_file. intros Hn Hw. repeat case_match; simplify_eq/=; try done. by edestruct Hn. Qed.

Lemma write_file_open_failed d path data d' : write_file d path data = (d', WOpenFailed) → d' = d.
Proof. unfold write_file. intros Hw. by repeat case_match; simplify_eq/=. Qed.

Lemma write_file_same d path data d' r :
  write_file d path data = (d', r) → dk_dirs d' = dk_dirs d ∧ dk_fault d' = dk_fault d.
Proof. unfold write_file. intros Hw. by repeat case_match; simplify_eq/=. Qed.

(** On a path without faults in an existing directory a write succeeds. *)
Lemma write_file_good d path data :
  can_create d path = true → dk_fault d path = NoFault →
  write_file d path data = (set_files d (<[path := data]> (dk_files d)), WOk).
Proof. intros Hc Hf. unfold write_file. by rewrite Hc Hf. Qed.

Lemma write_file_cannot d path data :
  can_create d path = false → write_file d path data = (d, WOpenFailed).
Proof. intros Hc. unfold write_file. by rewrite Hc. Qed.

Lemma unlink_ne d path path' : path' ≠ path → dk_files (unlink d path) !! path' = dk_files d !! path'.
Proof. intros Hne. unfold unlink. case_match; [done|]. simpl. by rewrite lookup_delete_ne. Qed.

Lemma unlink_same d path : dk_dirs (unlink d path) = dk_dirs d ∧ dk_fault (unlink d path) = dk_fault d.
Proof. unfold unlink. by case_match. Qed.

Lemma ss_copy_file_ne d src dest d' b path :
  ss_copy_file d src dest = (d', b) → path ≠ dest → dk_files d' !! path = dk_files d !! path.
Proof.
  unfold ss_copy_file. intros Hc Hne.
  destruct (read_file d src) as [data|]; [|by simplify_eq].
  destruct (write_file d dest _) as [d1 []] eqn:Hw; simplify_eq.
  - by eapply write_file_ne.
  - rewrite unlink_ne; [done|]. by eapply write_file_ne.
  - by eapply write_file_ne.
Qed.

Lemma ss_copy_file_ok d src dest d' :
  no_short d → ss_copy_file d src dest = (d', true) → src ≠ dest →
  ∃ data, read_file d src = Some data ∧ dk_files d' = <[dest := data]> (dk_files d).
Proof.
  unfold ss_copy_file. intros Hn Hc Hne.
  destruct (read_file d src) as [data|]; [|by simplify_eq]. rewrite decide_False in Hc; [done|].
  destruct (write_file d dest data) as [d1 []] eqn:Hw; simplify_eq.
  exists data. split; [done|]. by eapply write_file_ok.
Qed.

Lemma ss_copy_file_same d src dest d' b :
  ss_copy_file d src dest = (d', b) → dk_dirs d' = dk_dirs d ∧ dk_fault d' = dk_fault d.
Proof.
  unfold ss_copy_file. intros Hc. destruct (read_file d src) as [data|]; [|by simplify_eq].
  destruct (write_file d dest _) as [d1 []] eqn:Hw; simplify_eq; apply write_file_same in Hw; [done| |done].
  by destruct (unlink_same d1 dest) as [-> ->].
Qed.

Lemma ss_write_file_content_ne d path data d' b path' :
  ss_write_file_content d path data = (d', b) → path' ≠ path →
  dk_files d' !! path' = dk_files d !! path'.
Proof.
  unfold ss_write_file_content. intros Hc Hne.
  destruct (write_file d path data) as [d1 []] eqn:Hw; simplify_eq; by eapply write_file_ne.
Qed.

Lemma ss_write_file_content_ok d path data d' :
  no_short d → ss_write_file_content d path data = (d', true) → dk_files d' = <[path := data]> (dk_files d).
Proof.
  unfold ss_write_file_content. intros Hn Hc.
  destruct (write_file d path data) as [d1 []] eqn:Hw; simplify_eq. by eapply write_file_ok.
Qed.

Lemma ss_write_file_content_same d path data d' b :
  ss_write_file_content d path data = (d', b) → dk_dirs d' = dk_dirs d ∧ dk_fault d' = dk_fault d.
Proof.
  unfold ss_write_file_content. intros Hc.
  destruct (write_file d path data) as [d1 []] eqn:Hw; simplify_eq; by eapply write_file_same.
Qed.

(** [fgets] splits at newlines when every line fits its buffer. *)
Lemma fgets_loop_line n cur line rest :
  c_nl ∉ line → length cur + length line + 1 < n →
  fgets_loop n cur (line ++ c_nl :: rest) = (cur ++ line ++ [c_nl]) :: fgets_loop n [] rest.
Proof.
  revert cur. induction line as [|c line IH]; intros cur Hnl Hlen; cbn [app fgets_loop].
  - by rewrite bool_decide_eq_true_2.
  - apply not_elem_of_cons in Hnl as [Hc Hnl]. rewrite bool_decide_eq_false_2; [done|].
    cbn [length] in Hlen. rewrite decide_False; [lia|].
    rewrite IH; [done|len|]. by rewrite -app_assoc.
Qed.

(** A last line without a newline. *)
Lemma fgets_loop_last n cur line :
  c_nl ∉ line → length cur + length line + 1 < n → cur ++ line ≠ [] → fgets_loop n cur line = [cur ++ line].
Proof.
  revert cur. induction line as [|c line IH]; intros cur Hnl Hlen Hne; cbn [fgets_loop].
  - rewrite app_nil_r in Hne |- *. by destruct cur.
  - apply not_elem_of_cons in Hnl as [Hc Hnl]. rewrite bool_decide_eq_false_2; [done|].
    cbn [length] in Hlen. rewrite decide_False; [lia|].
    rewrite IH; [done|len|by destruct cur|]. by rewrite -app_assoc.
Qed.

Definition unlines (lines : list cstr) : cstr := concat (map (λ l, l ++ [c_nl]) lines).

Lemma fgets_unlines n lines :
  Forall (λ l, (c_nl ∉ l) ∧ length l + 1 < n) lines →
  fgets_lines n (unlines lines) = map (λ l, l ++ [c_nl]) lines.
Proof.
  unfold fgets_lines, unlines. induction 1 as [|l ls [Hnl Hlen] _ IH]; [done|].
  cbn [map concat]. rewrite -app_assoc. cbn [app]. rewrite fgets_loop_line; [done|simpl; lia|].
  cbn [app]. by rewrite IH.
Qed.
