(* ===== verification/Sentences.v ===== *)
(** * Sentences and word edits of the storage server

    The pure text functions of [src/storage_server/storage_server.c]:
    [split_words], [join_words], [ss_get_sentence_bounds],
    [ss_apply_word_edit], [count_sentences_in_span] and the splice of a commit.
    The second half gives the reference view the locking proofs use: scanning
    a text is a left-to-right automaton that emits one span per sentence, and
    [ss_get_sentence_bounds] looks a span up in what it emits. *)
From S2P Require Import Prelude CStr Utils.

(** ** The functions of the source *)

Definition nonspace (c : ascii) : bool := negb (isspace c).

(** Skip whitespace, take a word, repeat; every turn consumes a byte, so the
    length of the text is enough fuel. *)
Fixpoint split_words_loop (fuel : nat) (ptr : cstr) (words : list cstr) : list cstr :=
  match fuel with
  | O => words
  | S fuel =>
      match drop_while isspace ptr with
      | [] => words
      | start => split_words_loop fuel (drop_while nonspace start)
                   (words ++ [take_while nonspace start])
      end
  end.

Definition split_words (text : cstr) : list cstr := split_words_loop (S (length text)) text [].

Definition ends_with_delimiter (w : cstr) : bool :=
  match last w with Some c => is_sentence_delimiter c | None => false end.

Definition last_word_ends (words : list cstr) : bool :=
  match last words with Some w => ends_with_delimiter w | None => false end.

(** The size pass of [join_words] without the closing delimiter. *)
Fixpoint join_total (words : list cstr) : nat :=
  match words with
  | [] => 0
  | [w] => length w
  | w :: ws => length w + 1 + join_total ws
  end.

(** [safe_strcat] whose result is ignored: on failure the buffer is unchanged. *)
Definition strcat_into (dest src : cstr) (size : nat) : cstr :=
  match safe_strcat dest src size with Some d => d | None => dest end.

Fixpoint join_loop (first : bool) (result : cstr) (words : list cstr) (size : nat) : cstr :=
  match words with
  | [] => result
  | w :: ws =>
      let result := if first then result else strcat_into result ($" ") size in
      join_loop false (strcat_into result w size) ws size
  end.

Definition join_words (words : list cstr) (delimiter : option ascii) : cstr :=
  let append := match delimiter with Some _ => negb (last_word_ends words) | None => false end in
  let total := join_total words + (if append then 1 else 0) in
  let result := join_loop true [] words (total + 1) in
  match delimiter with
  | Some c => if append then result ++ [c] else result
  | None => result
  end.

(** The scan of [ss_get_sentence_bounds] after the leading whitespace.  [skip]
    is set while the whitespace after a delimiter is skipped, [off] is the
    offset of the cursor. *)
Fixpoint bounds_loop (skip : bool) (current : Z) (start off : nat) (index : Z) (text : cstr)
  : option (nat * nat) :=
  match text with
  | [] => if (current =? index)%Z && bool_decide (start <= off) then Some (start, off) else None
  | c :: rest =>
      if skip && isspace c then bounds_loop true current (S off) (S off) index rest
      else if is_sentence_delimiter c then
        if (current =? index)%Z then Some (start, S off)
        else bounds_loop true (current + 1) (S off) (S off) index rest
      else bounds_loop false current start (S off) index rest
  end.

Definition ss_get_sentence_bounds (text : cstr) (sentence_index : Z) : option (nat * nat) :=
  if (sentence_index <? 0)%Z then None
  else
    let cursor := drop_while isspace text in
    let off := length text - length cursor in
    match cursor with
    | [] => if (sentence_index =? 0)%Z then Some (off, off) else None
    | _ => bounds_loop false 0 off off sentence_index cursor
    end.

(** The backward loop that cuts trailing whitespace. *)
Definition rtrim (s : cstr) : cstr := rev (drop_while isspace (rev s)).

(** What [ss_apply_word_edit] takes the working copy apart into: the words of
    its body and the delimiter that closes it, if any. *)
Definition edit_parts (sentence_working : cstr) : list cstr * option ascii :=
  let buffer := rtrim sentence_working in
  let delimiter := match last buffer with
                   | Some c => if is_sentence_delimiter c then Some c else None
                   | None => None
                   end in
  let buffer := match delimiter with Some _ => take (length buffer - 1) buffer | None => buffer end in
  (split_words buffer, delimiter).

(** [ss_apply_word_edit] on the working copy; [None] is the result -1. *)
Definition ss_apply_word_edit (sentence_working : cstr) (word_index : Z) (content : cstr)
  : option cstr :=
  if (word_index <? 0)%Z then None
  else
    let '(words, delimiter) := edit_parts sentence_working in
    if (Z.of_nat (length words) + 1 <? word_index)%Z then None
    else
      let new_words := split_words content in
      let words :=
        match new_words with
        | [] => words
        | _ =>
            let insert_pos := if (Z.of_nat (length words) <? word_index)%Z then length words
                              else Z.to_nat word_index in
            take insert_pos words ++ new_words ++ drop insert_pos words
        end in
      Some (join_words words delimiter).

Definition count_sentences_in_span (text : cstr) (start stop : nat) : Z :=
  if decide (stop <= start) then 0%Z
  else
    let count := countb is_sentence_delimiter (slice start stop text) in
    if decide (count = 0) then 1%Z else Z.of_nat count.

(** The three [memcpy]s of a commit. *)
Definition splice (text : cstr) (locked_start locked_end : nat) (replacement : cstr) : cstr :=
  take locked_start text ++ replacement ++ drop locked_end text.

(** ** Words *)

Lemma split_words_loop_strtok fuel ptr words :
  length ptr < fuel → split_words_loop fuel ptr words = words ++ strtok isspace ptr.
Proof.
  revert ptr words. induction fuel as [|fuel IH]; intros ptr words Hf; [lia|].
  cbn [split_words_loop].
  assert (Hskip : strtok isspace ptr = strtok isspace (drop_while isspace ptr)).
  { clear. induction ptr as [|c ptr IH]; [done|]. cbn [drop_while].
    destruct (isspace c) eqn:Hc; [|done]. rewrite -IH. unfold strtok. cbn [fields_on].
    rewrite Hc. rewrite filter_cons_False; [naive_solver|done]. }
  rewrite Hskip. destruct (drop_while isspace ptr) as [|c start] eqn:Hd; [by rewrite app_nil_r|].
  pose proof (drop_while_head _ _ _ _ Hd) as Hc.
  set (w := take_while nonspace (c :: start)). set (r := drop_while nonspace (c :: start)).
  assert (Hw : Forall (λ x, isspace x = false) w).
  { eapply Forall_impl; [apply take_while_all|]. intros x. unfold nonspace. by destruct (isspace x). }
  assert (Hwne : w ≠ []).
  { subst w. cbn [take_while]. unfold nonspace. by rewrite Hc. }
  rewrite -(take_drop_while nonspace (c :: start)) -/w -/r.
  assert (Hlen : length r < fuel).
  { pose proof (length_drop_while isspace ptr) as H1. rewrite Hd in H1.
    assert (length (c :: start) = length w + length r) as H2
      by (rewrite -length_app; subst w r; by rewrite take_drop_while).
    destruct w; [done|]. cbn [length] in *. lia. }
  rewrite IH; [done|]. rewrite -app_assoc. f_equal. cbn [app].
  destruct r as [|d r'] eqn:Hr.
  - rewrite app_nil_r. change (strtok isspace []) with (@nil cstr).
    unfold strtok. rewrite fields_on_no_sep; [done|]. rewrite filter_cons_True; [done|done].
  - assert (Hsp : isspace d = true).
    { assert (Hnd : nonspace d = false) by (eapply drop_while_head; exact Hr).
      unfold nonspace in Hnd. by destruct (isspace d). }
    unfold strtok. rewrite (fields_on_sep _ w d r'); [done|done|].
    rewrite filter_cons_True; [done|]. f_equal. cbn [fields_on]. rewrite Hsp.
    rewrite filter_cons_False; [naive_solver|done].
Qed.

(** [split_words] returns the maximal runs of non-whitespace bytes. *)
Lemma split_words_strtok text : split_words text = strtok isspace text.
Proof. unfold split_words. rewrite split_words_loop_strtok; [lia|done]. Qed.

Lemma split_words_words text :
  Forall (λ w, w ≠ [] ∧ Forall (λ c, isspace c = false) w) (split_words text).
Proof. rewrite split_words_strtok. apply strtok_tokens. Qed.

Lemma join_total_join words : join_total words = length (join ($" ") words).
Proof.
  induction words as [|w ws IH]; [done|]. destruct ws as [|v vs]; [done|].
  change (join_total (w :: v :: vs)) with (length w + 1 + join_total (v :: vs)).
  change (join ($" ") (w :: v :: vs)) with (w ++ ($" ") ++ join ($" ") (v :: vs)).
  rewrite IH !length_app. simpl. lia.
Qed.

Lemma strcat_into_fits dest src size :
  length dest + length src < size → strcat_into dest src size = dest ++ src.
Proof.
  intros Hs. unfold strcat_into, safe_strcat. rewrite decide_False; [lia|].
  case_decide as Hd.
  - destruct src; [by rewrite app_nil_r|]. cbn [length] in *. lia.
  - rewrite take_ge; [lia|done].
Qed.

(** The buffer [join_words] computes is large enough: nothing is cut off. *)
Lemma join_loop_false result words size :
  length result + length (concat (map (cons " "%char) words)) < size →
  join_loop false result words size = result ++ concat (map (cons " "%char) words).
Proof.
  revert result. induction words as [|w ws IH]; intros result Hs; cbn [join_loop map concat] in *.
  { by rewrite app_nil_r. }
  rewrite length_app in Hs. cbn [length] in Hs.
  rewrite (strcat_into_fits result); [simpl; lia|].
  rewrite strcat_into_fits; [rewrite length_app; simpl; lia|].
  rewrite IH; [rewrite !length_app; simpl; lia|]. by rewrite -!app_assoc.
Qed.

Lemma join_cons w ws : join ($" ") (w :: ws) = w ++ concat (map (cons " "%char) ws).
Proof.
  revert w. induction ws as [|v vs IH]; intros w; [by rewrite app_nil_r|].
  change (join ($" ") (w :: v :: vs)) with (w ++ ($" ") ++ join ($" ") (v :: vs)).
  by rewrite IH.
Qed.

Lemma join_words_spec words delimiter :
  join_words words delimiter =
  join ($" ") words ++
  match delimiter with
  | Some c => if last_word_ends words then [] else [c]
  | None => []
  end.
Proof.
  unfold join_words. set (size := join_total words + _ + 1).
  assert (Hsize : length (join ($" ") words) < size) by (rewrite -join_total_join; subst size; lia).
  assert (Hj : join_loop true [] words size = join ($" ") words).
  { destruct words as [|w ws]; [done|]. rewrite join_cons in Hsize *. rewrite length_app in Hsize.
    cbn [join_loop]. rewrite strcat_into_fits; [simpl; lia|]. by rewrite join_loop_false. }
  rewrite Hj. destruct delimiter as [c|]; [|by rewrite app_nil_r].
  destruct (last_word_ends words); simpl; [by rewrite app_nil_r|done].
Qed.

Lemma split_join_words words :
  Forall (λ w, w ≠ [] ∧ Forall (λ c, isspace c = false) w) words →
  split_words (join_words words None) = words.
Proof.
  intros Hall. rewrite split_words_strtok join_words_spec app_nil_r.
  by apply (strtok_join isspace " "%char).
Qed.

Lemma ends_with_delimiter_snoc w c : ends_with_delimiter (w ++ [c]) = is_sentence_delimiter c.
Proof. unfold ends_with_delimiter. by rewrite last_snoc. Qed.

Lemma ends_with_delimiter_app a b : b ≠ [] → ends_with_delimiter (a ++ b) = ends_with_delimiter b.
Proof.
  intros Hb. destruct (exists_last Hb) as (b' & c & ->).
  by rewrite app_assoc !ends_with_delimiter_snoc.
Qed.

Lemma last_word_ends_join words :
  Forall (λ w, w ≠ []) words → words ≠ [] →
  ends_with_delimiter (join ($" ") words) = last_word_ends words.
Proof.
  intros Hall Hne. induction Hall as [|w ws Hw Hws IH]; [done|]. destruct ws as [|v vs].
  - done.
  - change (join ($" ") (w :: v :: vs)) with (w ++ ($" ") ++ join ($" ") (v :: vs)).
    assert (join ($" ") (v :: vs) ≠ []).
    { rewrite join_cons. inversion Hws; subst. by destruct v. }
    rewrite app_assoc ends_with_delimiter_app; [done|]. by rewrite IH.
Qed.

(** ** Word edits *)

Lemma delimiter_not_space c : is_sentence_delimiter c = true → isspace c = false.
Proof.
  unfold is_sentence_delimiter. rewrite !orb_true_iff !bool_decide_eq_true.
  by intros [[->| ->]| ->].
Qed.

Lemma rtrim_snoc s c : isspace c = false → rtrim (s ++ [c]) = s ++ [c].
Proof. intros Hc. unfold rtrim. rewrite rev_app_distr /= Hc /=. by rewrite rev_involutive. Qed.

(** A sentence that is closed by a delimiter is taken apart into its body and
    that delimiter. *)
Lemma edit_parts_closed s c :
  is_sentence_delimiter c = true → edit_parts (s ++ [c]) = (split_words s, Some c).
Proof.
  intros Hc. unfold edit_parts. rewrite rtrim_snoc; [by apply delimiter_not_space|].
  rewrite last_snoc Hc length_app /= Nat.add_sub. by rewrite take_app_length.
Qed.

Lemma ends_with_delimiter_true s :
  ends_with_delimiter s = true ↔ ∃ s' c, s = s' ++ [c] ∧ is_sentence_delimiter c = true.
Proof.
  split.
  - destruct (decide (s = [])) as [->|Hne]; [done|].
    destruct (exists_last Hne) as (s' & c & ->). rewrite ends_with_delimiter_snoc. eauto.
  - intros (s' & c & -> & Hc). by rewrite ends_with_delimiter_snoc.
Qed.

Lemma join_words_ends words c :
  Forall (λ w, w ≠ []) words → is_sentence_delimiter c = true →
  ends_with_delimiter (join_words words (Some c)) = true.
Proof.
  intros Hall Hc. rewrite join_words_spec. destruct (last_word_ends words) eqn:Hl.
  - rewrite app_nil_r last_word_ends_join; [done| |done]. by intros ->.
  - by rewrite ends_with_delimiter_snoc.
Qed.

Lemma edit_parts_words s :
  Forall (λ w, w ≠ [] ∧ Forall (λ c, isspace c = false) w) (edit_parts s).1.
Proof. apply split_words_words. Qed.

(** The words and the delimiter of the result of an edit. *)
Lemma apply_word_edit_Some w i content w' :
  ss_apply_word_edit w i content = Some w' →
  let ws := (edit_parts w).1 in
  let p := Nat.min (Z.to_nat i) (length ws) in
  (0 <= i <= Z.of_nat (length ws) + 1)%Z ∧
  w' = join_words (take p ws ++ split_words content ++ drop p ws) (edit_parts w).2.
Proof.
  unfold ss_apply_word_edit. destruct (i <? 0)%Z eqn:Hi; [done|].
  destruct (edit_parts w) as [ws d]. simpl.
  destruct (_ <? i)%Z eqn:Hhi; [done|]. intros [= <-]. split; [lia|]. f_equal.
  destruct (split_words content) as [|n ns].
  - by rewrite app_nil_l take_drop.
  - destruct (Z.of_nat (length ws) <? i)%Z eqn:Hp.
    + by rewrite Nat.min_r; [lia|].
    + by rewrite Nat.min_l; [lia|].
Qed.

Lemma apply_word_edit_None w i content :
  ss_apply_word_edit w i content = None ↔
  (i < 0)%Z ∨ (Z.of_nat (length (edit_parts w).1) + 1 < i)%Z.
Proof.
  unfold ss_apply_word_edit. destruct (edit_parts w) as [ws d]. simpl.
  repeat case_match; split; try done; lia.
Qed.

Lemma edited_words_ok w p content :
  Forall (λ w, w ≠ [] ∧ Forall (λ c, isspace c = false) w)
    (take p (edit_parts w).1 ++ split_words content ++ drop p (edit_parts w).1).
Proof.
  pose proof (edit_parts_words w) as H.
  rewrite !Forall_app. split_and!; [by apply Forall_take|apply split_words_words|by apply Forall_drop].
Qed.

(** Edits keep a closed sentence closed. *)
Lemma apply_word_edit_ends w i content w' :
  ss_apply_word_edit w i content = Some w' → ends_with_delimiter w = true →
  ends_with_delimiter w' = true.
Proof.
  intros [_ ->]%apply_word_edit_Some (s & c & -> & Hc)%ends_with_delimiter_true.
  pose proof (edited_words_ok (s ++ [c]) (Nat.min (Z.to_nat i) (length (edit_parts (s ++ [c])).1)) content) as H.
  rewrite edit_parts_closed in H *; [done|]. apply join_words_ends; [|done].
  eapply Forall_impl; [exact H|]. by intros ? [].
Qed.

(** ** The scanning automaton

    The state is [(skip, start, off)]; a delimiter closes the span that began
    at [start].  The end of the text closes the last one. *)
Definition scan_state : Type := bool * nat * nat.

Fixpoint scan (st : scan_state) (text : cstr) : list (nat * nat) * scan_state :=
  match text with
  | [] => ([], st)
  | c :: rest =>
      let '(skip, start, off) := st in
      if skip && isspace c then scan (true, S off, S off) rest
      else if is_sentence_delimiter c then
        let '(l, st') := scan (true, S off, S off) rest in ((start, S off) :: l, st')
      else scan (false, start, S off) rest
  end.

(** All the spans of the text that is still to be scanned. *)
Definition spans_from (st : scan_state) (text : cstr) : list (nat * nat) :=
  let '(l, (_, start, off)) := scan st text in l ++ [(start, off)].

(** The sentences of a text. *)
Definition spans (text : cstr) : list (nat * nat) := spans_from (true, 0, 0) text.

Lemma scan_app st a b :
  scan st (a ++ b) =
  let '(l1, st1) := scan st a in let '(l2, st2) := scan st1 b in (l1 ++ l2, st2).
Proof.
  revert st. induction a as [|c a IH]; intros [[skip start] off]; cbn [app scan].
  { by destruct (scan _ b). }
  destruct (skip && isspace c); [by apply IH|]. destruct (is_sentence_delimiter c); [|by apply IH].
  rewrite IH. destruct (scan _ a) as [l1 st1]. by destruct (scan st1 b).
Qed.

Lemma spans_from_app st a b :
  spans_from st (a ++ b) = (scan st a).1 ++ spans_from (scan st a).2 b.
Proof.
  unfold spans_from. rewrite scan_app. destruct (scan st a) as [l1 st1]. simpl.
  destruct (scan st1 b) as [l2 [[skip start] off]]. by rewrite app_assoc.
Qed.

(** Every delimiter closes exactly one span. *)
Lemma scan_count st text : length (scan st text).1 = countb is_sentence_delimiter text.
Proof.
  revert st. induction text as [|c text IH]; intros [[skip start] off]; cbn [scan countb]; [done|].
  destruct (skip && isspace c) eqn:Hs.
  - rewrite IH. destruct (is_sentence_delimiter c) eqn:Hd; [|done].
    apply delimiter_not_space in Hd. apply andb_true_iff in Hs. naive_solver congruence.
  - destruct (is_sentence_delimiter c); [|by rewrite IH].
    specialize (IH (true, S off, S off)). destruct (scan _ text). simpl in *. lia.
Qed.

(** After a delimiter the automaton is back in its initial control state. *)
Lemma scan_ends st r :
  ends_with_delimiter r = true →
  (scan st r).2 = (true, st.2 + length r, st.2 + length r).
Proof.
  intros (s & c & -> & Hc)%ends_with_delimiter_true. rewrite scan_app.
  assert (Hoff : (scan st s).2.2 = st.2 + length s).
  { clear Hc. revert st. induction s as [|d s IH]; intros [[skip start] off]; cbn [scan]; [simpl; lia|].
    destruct (skip && isspace d); [rewrite IH; simpl; lia|].
    destruct (is_sentence_delimiter d); [|rewrite IH; simpl; lia].
    specialize (IH (true, S off, S off)). destruct (scan _ s). simpl in *. lia. }
  destruct (scan st s) as [l [[skip start] off]]. simpl in Hoff. subst off. cbn [scan].
  rewrite (delimiter_not_space c Hc) andb_false_r Hc. cbn [snd]. rewrite length_app. cbn [length]. repeat f_equal; lia.
Qed.

Definition shift_span (d : nat) (sp : nat * nat) : nat * nat := (sp.1 + d, sp.2 + d).

Lemma scan_shift skip start off d text :
  scan (skip, start + d, off + d) text =
  (map (shift_span d) (scan (skip, start, off) text).1,
   let '(k, s, o) := (scan (skip, start, off) text).2 in (k, s + d, o + d)).
Proof.
  revert skip start off. induction text as [|c text IH]; intros skip start off; cbn [scan]; [done|].
  destruct (skip && isspace c); [apply (IH true (S off) (S off))|].
  destruct (is_sentence_delimiter c); [|apply (IH false start (S off))].
  rewrite (IH true (S off) (S off)).
  destruct (scan (true, S off, S off) text) as [l [[k s] o]]. done.
Qed.

Lemma spans_from_shift skip start off d text :
  spans_from (skip, start + d, off + d) text = map (shift_span d) (spans_from (skip, start, off) text).
Proof.
  unfold spans_from. rewrite scan_shift.
  destruct (scan (skip, start, off) text) as [l [[k s] o]]. simpl. by rewrite map_app.
Qed.

(** The spans come in order and do not overlap. *)
Fixpoint chain (lo : nat) (l : list (nat * nat)) : Prop :=
  match l with
  | [] => True
  | (s, e) :: l' => lo <= s ∧ s <= e ∧ chain e l'
  end.

Lemma chain_weaken lo lo' l : lo' <= lo → chain lo l → chain lo' l.
Proof. destruct l as [|[s e] l]; simpl; [done|]. intuition lia. Qed.

Lemma spans_from_chain skip start off text :
  start <= off → chain start (spans_from (skip, start, off) text).
Proof.
  revert skip start off. induction text as [|c text IH]; intros skip start off Hle;
    unfold spans_from in *; cbn [scan]; [simpl; lia|].
  destruct (skip && isspace c).
  { eapply chain_weaken; [|apply IH]; lia. }
  destruct (is_sentence_delimiter c); [|apply IH; lia].
  specialize (IH true (S off) (S off) ltac:(lia)). destruct (scan _ text) as [l [[k s] o]].
  simpl. split_and!; [lia|lia|done].
Qed.

Lemma chain_lookup lo l i s e : chain lo l → l !! i = Some (s, e) → lo <= s ∧ s <= e.
Proof.
  revert lo i. induction l as [|[a b] l IH]; intros lo i Hc Hi; [done|].
  destruct Hc as (? & ? & Hc). destruct i as [|i]; simplify_eq/=; [lia|].
  destruct (IH b i Hc Hi). lia.
Qed.

Lemma chain_lookup2 lo l i j s e a b :
  chain lo l → l !! i = Some (s, e) → l !! j = Some (a, b) → i < j → e <= a.
Proof.
  revert lo i j. induction l as [|[x y] l IH]; intros lo i j Hc Hi Hj Hij; [done|].
  destruct Hc as (? & ? & Hc). destruct j as [|j]; [lia|]. destruct i as [|i]; simplify_eq/=.
  - by destruct (chain_lookup _ _ _ _ _ Hc Hj).
  - eapply (IH y i j); [done..|lia].
Qed.

(** *** [ss_get_sentence_bounds] looks a span up *)

Lemma bounds_loop_spans skip current start off index text :
  start <= off → (current <= index)%Z →
  bounds_loop skip current start off index text =
  spans_from (skip, start, off) text !! Z.to_nat (index - current).
Proof.
  revert skip current start off.
  induction text as [|c text IH]; intros skip current start off Hle Hci;
    unfold spans_from in *; cbn [bounds_loop scan].
  - rewrite (bool_decide_eq_true_2 _ Hle) andb_true_r. case_match eqn:Heq; simpl.
    + apply Z.eqb_eq in Heq as ->. by rewrite Z.sub_diag.
    + apply Z.eqb_neq in Heq. by destruct (Z.to_nat (index - current)) eqn:?; [lia|].
  - destruct (skip && isspace c); [apply IH; lia|].
    destruct (is_sentence_delimiter c); [|apply IH; lia].
    destruct (current =? index)%Z eqn:Heq.
    + apply Z.eqb_eq in Heq as ->. rewrite Z.sub_diag. by destruct (scan _ text) as [l [[k s] o]].
    + rewrite IH; [lia|lia|]. destruct (scan _ text) as [l [[k s] o]].
      replace (Z.to_nat (index - current)) with (S (Z.to_nat (index - (current + 1)))) by lia. done.
Qed.

Definition all_space (s : cstr) : Prop := Forall (λ c, isspace c = true) s.

Lemma scan_gap gap n : all_space gap → scan (true, n, n) gap = ([], (true, n + length gap, n + length gap)).
Proof.
  revert n. induction gap as [|c gap IH]; intros n; cbn [scan length]; [by rewrite Nat.add_0_r|].
  intros [Hc Hg]%Forall_cons. rewrite Hc. cbn [andb]. by rewrite IH ?Nat.add_succ_comm.
Qed.

Lemma spans_leading text :
  spans text =
  let off := length text - length (drop_while isspace text) in
  spans_from (true, off, off) (drop_while isspace text).
Proof.
  unfold spans. rewrite -{1}(take_drop_while isspace text) spans_from_app.
  rewrite scan_gap; [apply take_while_all|]. simpl.
  assert (length (take_while isspace text) = length text - length (drop_while isspace text)) as ->; [|done].
  rewrite -{2}(take_drop_while isspace text) length_app. lia.
Qed.

(** The index-based loop of the source computes the reference list. *)
Lemma bounds_spans text index :
  ss_get_sentence_bounds text index =
  if (index <? 0)%Z then None else spans text !! Z.to_nat index.
Proof.
  unfold ss_get_sentence_bounds. destruct (index <? 0)%Z eqn:Hi; [done|]. rewrite spans_leading.
  destruct (drop_while isspace text) as [|c rest] eqn:Hd.
  - unfold spans_from. simpl. destruct (index =? 0)%Z eqn:H0.
    + by apply Z.eqb_eq in H0 as ->.
    + apply Z.eqb_neq in H0. by destruct (Z.to_nat index) eqn:?; [lia|].
  - rewrite bounds_loop_spans; [lia|lia|]. rewrite Z.sub_0_r.
    apply drop_while_head in Hd. unfold spans_from. cbn [scan]. by rewrite Hd.
Qed.

(** *** A span cuts the text in three *)

Definition no_delims (s : cstr) : Prop := Forall (λ c, is_sentence_delimiter c = false) s.

(** [pre] ends where a sentence begins, after [n] closed ones: at the start of
    the text or after a delimiter, and after the whitespace there. *)
Definition at_start (pre : cstr) (n : nat) : Prop :=
  countb is_sentence_delimiter pre = n ∧
  ∃ front gap, pre = front ++ gap ∧ (front = [] ∨ ends_with_delimiter front = true) ∧ all_space gap.

(** It does not begin with whitespace. *)
Definition begins (mid : cstr) : Prop := match mid with c :: _ => isspace c = false | [] => True end.

(** [text] is [pre ++ mid ++ post], where [mid] is sentence [n]: either it is
    closed by its only delimiter, or it is the open end of the text. *)
Record Cut (text : cstr) (n : nat) (pre mid post : cstr) : Prop := {
  cut_text : text = pre ++ mid ++ post;
  cut_start : at_start pre n;
  cut_begins : begins mid;
  cut_mid : (∃ body c, mid = body ++ [c] ∧ no_delims body ∧ is_sentence_delimiter c = true) ∨
            (no_delims mid ∧ post = [])
}.

(** The automaton after [q]: sentence [n] has begun after [pre] and [mid] has
    been read of it. *)
Definition reading (q : cstr) (n : nat) (st : scan_state) : Prop :=
  ∃ pre mid, q = pre ++ mid ∧ at_start pre n ∧ no_delims mid ∧ begins mid ∧
    st.1.2 = length pre ∧ st.2 = length q ∧ (st.1.1 = true ↔ mid = []).

Lemma at_start_space pre n c : at_start pre n → isspace c = true → at_start (pre ++ [c]) n.
Proof.
  intros (<- & front & gap & -> & Hf & Hg) Hc. split.
  - rewrite countb_app /=. destruct (is_sentence_delimiter c) eqn:Hd; [|lia]. apply delimiter_not_space in Hd. congruence.
  - exists front, (gap ++ [c]). split_and!; [by rewrite app_assoc|done|]. apply Forall_app. by repeat constructor.
Qed.

Lemma at_start_delim pre mid n c :
  at_start pre n → no_delims mid → is_sentence_delimiter c = true →
  at_start (pre ++ mid ++ [c]) (S n).
Proof.
  intros (<- & _) Hm Hc. split.
  - rewrite !countb_app (proj2 (countb_zero _ mid) Hm) /= Hc. lia.
  - exists (pre ++ mid ++ [c]), []. split_and!; [by rewrite app_nil_r| |constructor]. right.
    by rewrite app_assoc ends_with_delimiter_snoc.
Qed.

(** The automaton has then closed [n] sentences and skips whitespace. *)
Lemma at_start_scan pre n :
  at_start pre n → ∃ l, scan (true, 0, 0) pre = (l, (true, length pre, length pre)) ∧ length l = n.
Proof.
  intros (<- & front & gap & -> & Hf & Hg). exists (scan (true, 0, 0) (front ++ gap)).1.
  split; [|apply scan_count]. rewrite scan_app.
  assert (Hs : (scan (true, 0, 0) front).2 = (true, length front, length front)).
  { destruct Hf as [->|Hf]; [done|]. by rewrite scan_ends. }
  destruct (scan (true, 0, 0) front) as [l st]. cbn [snd] in Hs. subst st. by rewrite scan_gap // length_app.
Qed.

Lemma scan_body body start off :
  no_delims body → scan (false, start, off) body = ([], (false, start, off + length body)).
Proof.
  revert off. induction body as [|c body IH]; intros off; cbn [scan length]; [by rewrite Nat.add_0_r|].
  intros [Hc Hb]%Forall_cons. cbn [andb]. by rewrite Hc IH ?Nat.add_succ_comm.
Qed.

Lemma scan_sentence body n :
  no_delims body → begins body →
  ∃ skip, scan (true, n, n) body = ([], (skip, n, n + length body)) ∧ (skip = true → body = []).
Proof.
  destruct body as [|c body]; cbn [scan length begins]; [exists true; by rewrite Nat.add_0_r|].
  intros [Hc Hb]%Forall_cons Hs. exists false. by rewrite Hs /= Hc scan_body // Nat.add_succ_comm.
Qed.

Lemma spans_from_cut q n st text i s e :
  reading q n st → spans_from st text !! i = Some (s, e) →
  ∃ pre mid post, Cut (q ++ text) (n + i) pre mid post ∧ s = length pre ∧ e = length pre + length mid.
Proof.
  revert q n st i. induction text as [|c text IH]; intros q n [[skip start] off] i
    (pre & mid & -> & Hat & Hm & Hbeg & Hst & Hoff & Hsk) Hi; simpl in Hst, Hoff, Hsk; subst start off;
    unfold spans_from in Hi; cbn [scan] in Hi.
  - destruct i as [|i]; simplify_eq/=. exists pre, mid, []. rewrite length_app. split; [|done].
    rewrite !app_nil_r Nat.add_0_r. constructor; [by rewrite app_nil_r|done|done|by right].
  - destruct (skip && isspace c) eqn:Hsp.
    { apply andb_true_iff in Hsp as [-> Hsp]. rewrite (proj1 Hsk eq_refl) app_nil_r in Hi *.
      rewrite cons_middle app_assoc. eapply IH; [|exact Hi].
      exists (pre ++ [c]), []. rewrite app_nil_r. split_and!; [done|by apply at_start_space|constructor|done| | |done].
      all: cbn; len. }
    assert (Hb : ∀ t, begins (mid ++ c :: t)).
    { intros t. destruct mid; [|done]. by rewrite (proj2 Hsk eq_refl) in Hsp. }
    destruct (is_sentence_delimiter c) eqn:Hd.
    + assert (Hsp' : spans_from (true, S (length (pre ++ mid)), S (length (pre ++ mid))) text =
        spans_from (true, S (length (pre ++ mid)), S (length (pre ++ mid))) text) by done.
      unfold spans_from in Hsp' at 1. destruct (scan (true, S (length (pre ++ mid)), S (length (pre ++ mid))) text)
        as [l [[k s0] o]]. destruct i as [|i].
      * simplify_eq/=. exists pre, (mid ++ [c]), text. rewrite Nat.add_0_r !length_app /=. split.
        { constructor; [by rewrite -!app_assoc|done|apply Hb|]. left. exists mid, c. done. }
        split; [done|lia].
      * simpl in Hi. rewrite Hsp' in Hi. rewrite -Nat.add_succ_comm cons_middle app_assoc.
        eapply IH; [|exact Hi]. exists ((pre ++ mid) ++ [c]), [].
        rewrite app_nil_r. split_and!; [done| |constructor|done| | |done].
        { rewrite -app_assoc. by apply at_start_delim. }
        all: cbn; len.
    + rewrite cons_middle app_assoc. eapply IH; [|exact Hi].
      exists pre, (mid ++ [c]). rewrite -app_assoc.
      split_and!; [done|done|apply Forall_app; by repeat constructor|apply Hb|done|cbn; len|].
      split; [done|]. by intros [_ ?]%app_nil.
Qed.

Lemma spans_cut text i s e :
  spans text !! i = Some (s, e) →
  ∃ pre mid post, Cut text i pre mid post ∧ s = length pre ∧ e = length pre + length mid.
Proof.
  intros Hi. eapply (spans_from_cut [] 0 (true, 0, 0)) in Hi; [done|].
  exists [], []. split_and!; try done; [|constructor]. split; [done|]. exists [], []. split_and!; [done|by left|constructor].
Qed.

(** There is no other way to cut the text. *)
Lemma cut_span text n pre mid post :
  Cut text n pre mid post → spans text !! n = Some (length pre, length pre + length mid).
Proof.
  intros [-> (l & Hscan & Hl)%at_start_scan Hb Hmid]. unfold spans. rewrite spans_from_app Hscan /=.
  rewrite lookup_app_r; [lia|]. rewrite Hl Nat.sub_diag. destruct Hmid as [(body & c & -> & Hnd & Hc)|[Hnd ->]].
  - assert (Hb' : begins body) by by destruct body.
    destruct (scan_sentence body (length pre) Hnd Hb') as (skip & Hs & Hsk).
    rewrite -app_assoc spans_from_app Hs /=. unfold spans_from. cbn [scan app].
    rewrite (delimiter_not_space c Hc) andb_false_r Hc. destruct (scan _ post) as [l2 [[k s] o]].
    rewrite length_app /=. repeat f_equal; lia.
  - destruct (scan_sentence mid (length pre) Hnd Hb) as (skip & Hs & _). rewrite app_nil_r. unfold spans_from. by rewrite Hs.
Qed.

Lemma spans_bound text i s e : spans text !! i = Some (s, e) → s <= e ∧ e <= length text.
Proof.
  intros (pre & mid & post & [-> _ _ _] & -> & ->)%spans_cut. len.
Qed.

Lemma spans_ordered text i j s e a b :
  spans text !! i = Some (s, e) → spans text !! j = Some (a, b) → i < j → e <= a.
Proof. apply chain_lookup2 with 0, spans_from_chain. lia. Qed.

Lemma spans_length text : length (spans text) = S (countb is_sentence_delimiter text).
Proof.
  unfold spans, spans_from. pose proof (scan_count (true, 0, 0) text) as H.
  destruct (scan _ text) as [l [[k s] o]]. simpl in H. rewrite length_app H /=. lia.
Qed.

(** A sentence that is not the last is closed by exactly one delimiter. *)
Lemma span_closed text i s e j :
  spans text !! i = Some (s, e) → i < j → is_Some (spans text !! j) →
  ends_with_delimiter (slice s e text) = true ∧
  countb is_sentence_delimiter (slice s e text) = 1 ∧ s < e.
Proof.
  intros Hi Hj Hs%lookup_lt_is_Some. rewrite spans_length in Hs.
  destruct (spans_cut _ _ _ _ Hi) as (pre & mid & post & [-> (l & Hscan & Hl)%at_start_scan _ Hmid] & -> & ->).
  rewrite slice_app_mid. destruct Hmid as [(body & c & -> & Hnd & Hc)|[Hnd ->]].
  - rewrite ends_with_delimiter_snoc countb_app (proj2 (countb_zero _ body) Hnd) /= Hc.
    split_and!; [done|done|len].
  - exfalso. pose proof (scan_count (true, 0, 0) pre) as Hcnt. rewrite Hscan /= Hl in Hcnt.
    rewrite app_nil_r countb_app (proj2 (countb_zero _ mid) Hnd) in Hs. lia.
Qed.

(** *** Replacing one sentence *)

Section splice.
Context (text : cstr) (i s e : nat) (r : cstr).
Hypothesis Hspan : spans text !! i = Some (s, e).
Hypothesis Hclosed :
  ends_with_delimiter (slice s e text) = true → ends_with_delimiter r = true.

Lemma splice_parts :
  ∃ pre mid post, Cut text i pre mid post ∧ s = length pre ∧ e = length pre + length mid ∧
    slice s e text = mid ∧ splice text s e r = pre ++ r ++ post.
Proof.
  destruct (spans_cut _ _ _ _ Hspan) as (pre & mid & post & Hcut & -> & ->).
  exists pre, mid, post. split_and!; try done.
  - destruct Hcut as [-> _ _ _]. apply slice_app_mid.
  - destruct Hcut as [-> _ _ _]. unfold splice. rewrite take_app_length app_assoc.
    by rewrite -length_app app_assoc drop_app_length app_assoc.
Qed.

(** The sentences before the edited one keep their spans. *)
Lemma splice_before j : j < i → spans (splice text s e r) !! j = spans text !! j.
Proof.
  intros Hj. destruct splice_parts as (pre & mid & post & Hcut & -> & -> & _ & ->).
  destruct (at_start_scan _ _ (cut_start _ _ _ _ _ Hcut)) as (l & Hscan & Hl). rewrite (cut_text _ _ _ _ _ Hcut).
  unfold spans. rewrite !spans_from_app Hscan /=. by rewrite !lookup_app_l; [lia..|].
Qed.

(** The sentences after it move by the change of length, and their numbers
    by the change in the number of delimiters. *)
Lemma splice_after j a b :
  i < j → spans text !! j = Some (a, b) →
  (0 < countb is_sentence_delimiter r) ∧ e <= a ∧
  spans (splice text s e r) !! (j + countb is_sentence_delimiter r - 1) =
    Some (a - (e - s) + length r, b - (e - s) + length r).
Proof.
  intros Hj Hab. pose proof (spans_ordered _ _ _ _ _ _ _ Hspan Hab Hj) as Hea.
  destruct splice_parts as (pre & mid & post & [Htext (l & Hscan & Hl)%at_start_scan _ Hmid] & Hs & He & Hsl & ->).
  pose proof Hclosed as Hcl. rewrite Hsl in Hcl.
  destruct (span_closed _ _ _ _ _ Hspan Hj (mk_is_Some _ _ Hab)) as (Hopen & Hcm & _).
  rewrite Hsl in Hopen Hcm.
  pose proof (Hcl Hopen) as Hr.
  assert (Hcr : 0 < countb is_sentence_delimiter r).
  { apply ends_with_delimiter_true in Hr as (r' & c & -> & Hc). rewrite countb_app /= Hc. lia. }
  split_and!; [done|done|].
  rewrite Htext in Hab. unfold spans in Hab |- *. rewrite !spans_from_app Hscan in Hab |- *.
  cbn [fst snd] in Hab |- *. rewrite !(scan_ends (true, length pre, length pre)) in Hab |- *; [done|done|].
  cbn [snd] in Hab |- *. rewrite lookup_app_r in Hab; [lia|]. rewrite lookup_app_r in Hab; [rewrite scan_count; lia|].
  rewrite lookup_app_r; [lia|]. rewrite lookup_app_r; [rewrite scan_count; lia|].
  rewrite scan_count Hl in Hab. rewrite scan_count Hl.
  replace (j + countb is_sentence_delimiter r - 1 - i - countb is_sentence_delimiter r)
    with (j - i - countb is_sentence_delimiter mid) by lia.
  pose proof (spans_from_shift true 0 0 (length pre + length mid) post) as H1.
  pose proof (spans_from_shift true 0 0 (length pre + length r) post) as H2.
  rewrite !Nat.add_0_l in H1 H2. rewrite H1 in Hab. rewrite H2.
  rewrite list_lookup_fmap in Hab. rewrite list_lookup_fmap.
  destruct (spans_from (true, 0, 0) post !! _) as [[x y]|]; [|done]. simplify_eq/=.
  unfold shift_span in *. simplify_eq/=. do 2 f_equal; lia.
Qed.

(** The change in the number of sentences, as the commit counts it. *)
Definition sentence_delta : Z :=
  (count_sentences_in_span r 0 (length r) - count_sentences_in_span text s e)%Z.

Lemma commit_before j a b : j < i → spans text !! j = Some (a, b) → a < e ∧ b <= s.
Proof.
  intros Hj Hab. pose proof (spans_ordered _ _ _ _ _ _ _ Hab Hspan Hj).
  destruct (span_closed _ _ _ _ _ Hab Hj (mk_is_Some _ _ Hspan)) as (_ & _ & ?).
  pose proof (spans_bound _ _ _ _ Hspan). lia.
Qed.

Lemma commit_after j a b :
  i < j → spans text !! j = Some (a, b) →
  e <= a ∧ (0 <= sentence_delta)%Z ∧
  spans (splice text s e r) !! Z.to_nat (Z.of_nat j + sentence_delta) =
    Some (a - (e - s) + length r, b - (e - s) + length r).
Proof.
  intros Hj Hab. destruct (splice_after j a b Hj Hab) as (Hr & Hea & Hsp).
  destruct (span_closed _ _ _ _ _ Hspan Hj (mk_is_Some _ _ Hab)) as (_ & Hc & Hlt).
  assert (Hd : sentence_delta = (Z.of_nat (countb is_sentence_delimiter r) - 1)%Z).
  { unfold sentence_delta, count_sentences_in_span. rewrite (decide_False (P := e <= s)); [lia|].
    rewrite Hc /=. assert (Hrl : 0 < length r) by (pose proof (countb_le is_sentence_delimiter r); lia).
    rewrite decide_False; [lia|]. unfold slice. rewrite Nat.sub_0_r drop_0 take_ge; [done|].
    rewrite decide_False; [lia|done]. }
  split_and!; [done|lia|]. rewrite -Hsp. f_equal. lia.
Qed.

Lemma slice_splice_before a b : b <= s → slice a b (splice text s e r) = slice a b text.
Proof.
  intros Hb. destruct splice_parts as (pre & mid & post & Hcut & Hs & _ & _ & ->).
  rewrite (cut_text _ _ _ _ _ Hcut). unfold slice.
  destruct (decide (b <= a)); [by replace (b - a) with 0 by lia|].
  rewrite !drop_app_le; [lia..|]. by rewrite !take_app_le; [rewrite length_drop; lia..|].
Qed.

Lemma slice_splice_after a b :
  e <= a → a <= b →
  slice (a - (e - s) + length r) (b - (e - s) + length r) (splice text s e r) = slice a b text.
Proof.
  intros Ha Hab. destruct splice_parts as (pre & mid & post & Hcut & Hs & He & _ & ->).
  rewrite (cut_text _ _ _ _ _ Hcut) !app_assoc. unfold slice.
  rewrite !drop_app_ge; [rewrite length_app; lia..|]. rewrite !length_app.
  f_equal; [lia|]. f_equal; lia.
Qed.

Lemma splice_length : length (splice text s e r) = length text - (e - s) + length r.
Proof.
  destruct splice_parts as (pre & mid & post & Hcut & Hs & He & _ & ->).
  rewrite (cut_text _ _ _ _ _ Hcut). len.
Qed.
End splice.

Lemma bounds_iff text i :
  is_Some (ss_get_sentence_bounds text i) ↔ (0 <= i <= Z.of_nat (count_sentences text))%Z.
Proof.
  rewrite bounds_spans. destruct (i <? 0)%Z eqn:Hi; [split; [by intros []|lia]|].
  rewrite lookup_lt_is_Some spans_length. unfold count_sentences. lia.
Qed.

Lemma bounds_le text i s e : ss_get_sentence_bounds text i = Some (s, e) → s <= e ∧ e <= length text.
Proof. rewrite bounds_spans. destruct (i <? 0)%Z; [done|]. apply spans_bound. Qed.

(** ** Properties *)

(** C20 Sentence lookup is exact: an index is accepted iff it is between zero
    and the number of delimiters of the text; sentence [i] then cuts the text
    in three.  It begins after [i] delimiters, at the start of the text or after
    the last of them, where the whitespace there ends, and it ends with its only
    delimiter or with the text.  No other span of the text is like that, and
    sentences never overlap. *)
Theorem sentence_bounds_correct text i :
  (is_Some (ss_get_sentence_bounds text i) ↔
     (0 <= i <= Z.of_nat (count_sentences text))%Z) ∧
  ∀ s e, ss_get_sentence_bounds text i = Some (s, e) →
    s <= e ∧ e <= length text ∧
    Cut text (Z.to_nat i) (take s text) (slice s e text) (drop e text) ∧
    (∀ pre mid post, Cut text (Z.to_nat i) pre mid post → length pre = s ∧ length mid = e - s) ∧
    ∀ j a b, (i < j)%Z → ss_get_sentence_bounds text j = Some (a, b) → e <= a.
Proof.
  split; [apply bounds_iff|]. intros s e Hb. destruct (bounds_le _ _ _ _ Hb) as [Hse Hel]. revert Hb. rewrite bounds_spans.
  destruct (i <? 0)%Z eqn:Hi; [done|]. intros Hs. split_and!; [done|done| | |].
  - destruct (spans_cut _ _ _ _ Hs) as (pre & mid & post & Hcut & -> & ->).
    pose proof (cut_text _ _ _ _ _ Hcut) as Htext.
    assert (take (length pre) text = pre) as -> by (rewrite Htext; apply take_app_length).
    assert (slice (length pre) (length pre + length mid) text = mid) as ->
      by (rewrite Htext; apply slice_app_mid).
    assert (drop (length pre + length mid) text = post) as ->; [|done].
    rewrite Htext app_assoc -length_app. apply drop_app_length.
  - intros pre mid post Hcut%cut_span. rewrite Hs in Hcut. injection Hcut as -> ->. lia.
  - intros j a b Hj. rewrite bounds_spans. destruct (j <? 0)%Z; [done|]. intros Hb.
    eapply spans_ordered; [exact Hs|exact Hb|lia].
Qed.

(** C21 A word edit inserts the words of its content into the sentence: it is
    refused exactly when the position is negative or more than one past the
    number of words, and otherwise the result is the old words with the new
    ones inserted at the position (at the end when it is past it), separated
    by single spaces, with the closing delimiter kept; reading the words of the
    result's body gives that list back, and a sentence that was closed by a
    delimiter still is. *)
Theorem word_edit_correct w i content :
  let '(ws, d) := edit_parts w in
  let p := Nat.min (Z.to_nat i) (length ws) in
  let ws' := take p ws ++ split_words content ++ drop p ws in
  match ss_apply_word_edit w i content with
  | None => (i < 0)%Z ∨ (Z.of_nat (length ws) + 1 < i)%Z
  | Some w' =>
      (0 <= i <= Z.of_nat (length ws) + 1)%Z ∧ w' = join_words ws' d ∧
      split_words (join_words ws' None) = ws' ∧
      (ends_with_delimiter w = true → ends_with_delimiter w' = true)
  end.
Proof.
  destruct (edit_parts w) as [ws d] eqn:Hp.
  destruct (ss_apply_word_edit w i content) as [w'|] eqn:He.
  - pose proof (apply_word_edit_Some _ _ _ _ He) as [Hi Hw]. rewrite Hp in Hi Hw. simpl in Hi, Hw.
    split_and!; [lia|lia|done| |by eapply apply_word_edit_ends].
    pose proof (edited_words_ok w (Nat.min (Z.to_nat i) (length ws)) content) as Hok.
    rewrite Hp in Hok. by apply split_join_words.
  - apply apply_word_edit_None in He. by rewrite Hp in He.
Qed.
