(* ===== verification/SSAcl.v ===== *)
(** * Access-control lists of the storage server

    [ss_acl_contains], [ss_acl_add], [ss_acl_remove] and [ss_join_acl] of
    [src/storage_server/storage_server.c].  The array of 128 names and its
    count are the list of the names in use. *)
From S2P Require Import Prelude CStr Utils.

Definition SS_MAX_USERS_PER_FILE : nat := 128.
Definition MAX_FIELD_SIZE : nat := Z.to_nat 4096.

Definition same_user (username entry : cstr) : bool := strneq MAX_USERNAME_LENGTH entry username.

Definition ss_acl_contains (entries : list cstr) (username : cstr) : bool :=
  existsb (same_user username) entries.

(** The new list and the result: 1 added, 0 already there, -1 full. *)
Definition ss_acl_add (entries : list cstr) (username : cstr) : list cstr * Z :=
  if ss_acl_contains entries username then (entries, 0%Z)
  else if decide (SS_MAX_USERS_PER_FILE <= length entries) then (entries, (-1)%Z)
  else match safe_strcpy username MAX_USERNAME_LENGTH with
       | None => (entries, (-1)%Z)
       | Some name => (entries ++ [name], 1%Z)
       end.

Definition ss_acl_remove (entries : list cstr) (username : cstr) : list cstr * bool :=
  match findb (same_user username) entries with
  | Some i => (swap_remove i entries, true)
  | None => (entries, false)
  end.

(** The copy loop: empty names are skipped, [None] is the overflow result. *)
Fixpoint join_acl_loop (buffer : cstr) (entries : list cstr) (buffer_size : nat) : option cstr :=
  match entries with
  | [] => Some buffer
  | [] :: es => join_acl_loop buffer es buffer_size
  | e :: es =>
      let sep := match buffer with [] => [] | _ => [","%char] end in
      if decide (buffer_size <= length buffer + length e + length sep) then None
      else join_acl_loop (buffer ++ sep ++ e) es buffer_size
  end.

Definition ss_join_acl (entries : list cstr) (buffer_size : nat) : option cstr :=
  if decide (buffer_size = 0) then None else join_acl_loop [] entries buffer_size.

(** ** Lemmas *)

(** What every reachable access list satisfies. *)
Record acl_wf (entries : list cstr) : Prop := {
  acl_nodup : NoDup entries;
  acl_short : Forall (λ e, length e < MAX_USERNAME_LENGTH) entries;
  acl_bound : length entries <= SS_MAX_USERS_PER_FILE
}.

Lemma acl_wf_nil : acl_wf [].
Proof. split; [constructor|constructor|simpl; lia]. Qed.

Lemma same_user_true u e :
  length u <= MAX_USERNAME_LENGTH → length e < MAX_USERNAME_LENGTH → same_user u e = true ↔ e = u.
Proof. intros Hu He. unfold same_user. apply strneq_exact; lia. Qed.

Lemma acl_contains_spec entries u :
  Forall (λ e, length e < MAX_USERNAME_LENGTH) entries → length u <= MAX_USERNAME_LENGTH →
  ss_acl_contains entries u = true ↔ u ∈ entries.
Proof.
  intros Hall Hu. unfold ss_acl_contains. rewrite existsb_exists.
  setoid_rewrite <- list_elem_of_In. rewrite Forall_forall in Hall. split.
  - intros (e & He & Hs). apply same_user_true in Hs as ->; [done|done|by apply Hall].
  - intros He. exists u. split; [done|]. apply same_user_true; [done|by apply Hall|done].
Qed.

Lemma acl_contains_false entries u :
  Forall (λ e, length e < MAX_USERNAME_LENGTH) entries → length u <= MAX_USERNAME_LENGTH →
  ss_acl_contains entries u = false ↔ u ∉ entries.
Proof. intros. rewrite -acl_contains_spec; [done|done|]. by rewrite not_true_iff_false. Qed.

Lemma acl_add_wf entries u : acl_wf entries → length u < MAX_USERNAME_LENGTH →
  acl_wf (ss_acl_add entries u).1.
Proof.
  intros [Hnd Hs Hb] Hu. unfold ss_acl_add. destruct (ss_acl_contains entries u) eqn:Hc; [by split|].
  case_decide; [by split|]. rewrite safe_strcpy_short; [done|]. simpl.
  apply acl_contains_false in Hc; [|done|lia].
  split; [|apply Forall_app; split; [done|by apply Forall_singleton]|rewrite length_app /=; lia].
  apply NoDup_app. split_and!; [done|set_solver|apply NoDup_singleton].
Qed.

Lemma acl_remove_wf entries u : acl_wf entries → acl_wf (ss_acl_remove entries u).1.
Proof.
  intros [Hnd Hs Hb]. unfold ss_acl_remove. destruct (findb _ entries) as [i|] eqn:Hf; [|by split].
  apply findb_lookup in Hf as (x & Hx & _). pose proof (swap_remove_Permutation _ _ _ Hx) as Hp.
  simpl. split.
  - rewrite Hp in Hnd. by inversion Hnd.
  - rewrite Hp in Hs. by inversion Hs.
  - rewrite (length_swap_remove _ _ _ Hx) in Hb. lia.
Qed.

Lemma acl_add_spec entries u :
  acl_wf entries → length u < MAX_USERNAME_LENGTH →
  let '(entries', r) := ss_acl_add entries u in
  (r = 1%Z ∧ (u ∉ entries) ∧ entries' = entries ++ [u]) ∨
  (r = 0%Z ∧ u ∈ entries ∧ entries' = entries) ∨
  (r = (-1)%Z ∧ (u ∉ entries) ∧ length entries = SS_MAX_USERS_PER_FILE ∧ entries' = entries).
Proof.
  intros [Hnd Hs Hb] Hu. unfold ss_acl_add. destruct (ss_acl_contains entries u) eqn:Hc.
  - apply acl_contains_spec in Hc; [|done|lia]. tauto.
  - apply acl_contains_false in Hc; [|done|lia]. case_decide.
    + right. right. split_and!; [done|done|lia|done].
    + rewrite safe_strcpy_short; [done|]. tauto.
Qed.

Lemma acl_remove_spec entries u :
  acl_wf entries → length u < MAX_USERNAME_LENGTH →
  let '(entries', r) := ss_acl_remove entries u in
  (r = true ∧ u ∈ entries ∧ entries ≡ₚ u :: entries') ∨ (r = false ∧ (u ∉ entries) ∧ entries' = entries).
Proof.
  intros [Hnd Hs Hb] Hu. unfold ss_acl_remove. destruct (findb _ entries) as [i|] eqn:Hf.
  - apply findb_lookup in Hf as (x & Hx & Hsx).
    pose proof (list_elem_of_lookup_2 _ _ _ Hx) as Hin.
    rewrite Forall_forall in Hs. apply same_user_true in Hsx as ->; [|lia|by apply Hs].
    left. split_and!; [done|done|by apply swap_remove_Permutation].
  - right. split_and!; [done| |done]. intros Hin. apply findb_None in Hf.
    rewrite Forall_forall in Hf. rewrite Forall_forall in Hs.
    specialize (Hf u Hin). rewrite (proj2 (same_user_true u u ltac:(lia) (Hs u Hin))) in Hf; done.
Qed.

Lemma join_acl_loop_spec buffer entries size b :
  Forall (λ e, e ≠ []) entries → join_acl_loop buffer entries size = Some b →
  b = join [","%char] (match buffer with [] => entries | _ => buffer :: entries end) ∧
  (length buffer < size → length b < size).
Proof.
  intros Hall. revert buffer. induction Hall as [|e es He _ IH]; intros buffer; cbn [join_acl_loop].
  { intros [= <-]. by destruct buffer. }
  destruct e as [|c e]; [done|]. case_decide as Hd; [done|]. intros Hj.
  apply IH in Hj as [-> Hlen]. destruct buffer as [|d buf]; simpl in *.
  - split; [done|]. intros. apply Hlen. lia.
  - split; [|intros; apply Hlen; rewrite length_app /=; lia].
    destruct es; simpl; by rewrite -?app_assoc.
Qed.

(** ** Properties *)

(** C27 An access list behaves as a finite set of at most 128 names: adding a
    name reports whether it was new, already there or refused because the list
    is full, and changes the list only in the first case; removing reports
    whether the name was there and takes out exactly that name; both keep the
    names distinct, short enough for their slot and within the bound. *)
Theorem acl_operations_correct entries u :
  acl_wf entries → length u < MAX_USERNAME_LENGTH →
  (let '(entries', r) := ss_acl_add entries u in
   acl_wf entries' ∧
   ((r = 1%Z ∧ (u ∉ entries) ∧ entries' = entries ++ [u]) ∨
    (r = 0%Z ∧ u ∈ entries ∧ entries' = entries) ∨
    (r = (-1)%Z ∧ (u ∉ entries) ∧ length entries = SS_MAX_USERS_PER_FILE ∧ entries' = entries))) ∧
  (let '(entries', r) := ss_acl_remove entries u in
   acl_wf entries' ∧
   ((r = true ∧ u ∈ entries ∧ (u ∉ entries') ∧ entries ≡ₚ u :: entries') ∨
    (r = false ∧ (u ∉ entries) ∧ entries' = entries))) ∧
  (ss_acl_contains entries u = true ↔ u ∈ entries).
Proof.
  intros Hwf Hu. split_and!.
  - pose proof (acl_add_wf _ u Hwf Hu). pose proof (acl_add_spec _ u Hwf Hu) as Hs.
    by destruct (ss_acl_add entries u).
  - pose proof (acl_remove_wf _ u Hwf). pose proof (acl_remove_spec _ u Hwf Hu) as Hs.
    destruct (ss_acl_remove entries u) as [es r]. split; [done|].
    destruct Hs as [(-> & Hin & Hp)|?]; [left|by right]. split_and!; try done.
    pose proof (acl_nodup _ Hwf) as Hnd. rewrite Hp in Hnd. by inversion Hnd.
  - apply acl_contains_spec; [by apply Hwf|lia].
Qed.

Lemma acl_operations_correct_witness :
  let entries := [$"ann"; $"bob"; $"cy"] in
  (let '(entries', r) := ss_acl_add entries ($"bob") in
   acl_wf entries' ∧
   ((r = 1%Z ∧ ($"bob" ∉ entries) ∧ entries' = entries ++ [$"bob"]) ∨
    (r = 0%Z ∧ $"bob" ∈ entries ∧ entries' = entries) ∨
    (r = (-1)%Z ∧ ($"bob" ∉ entries) ∧ length entries = SS_MAX_USERS_PER_FILE ∧ entries' = entries))) ∧
  (let '(entries', r) := ss_acl_remove entries ($"bob") in
   acl_wf entries' ∧
   ((r = true ∧ $"bob" ∈ entries ∧ ($"bob" ∉ entries') ∧ entries ≡ₚ $"bob" :: entries') ∨
    (r = false ∧ ($"bob" ∉ entries) ∧ entries' = entries))) ∧
  (ss_acl_contains entries ($"bob") = true ↔ $"bob" ∈ entries).
Proof. apply (acl_operations_correct [$"ann"; $"bob"; $"cy"] ($"bob")); [split; vmd|vmd]. Defined.
