(* ===== verification/SSFiles.v ===== *)
(** * Files and metadata of the storage server

    The [FileRecord] and [CheckpointRecord] of
    [src/storage_server/storage_server.h], and the functions of
    [storage_server.c] that build paths, keep checkpoints, and write and read
    the [.meta] sidecar.  A record has an identity [fr_id] that stands for its
    address: sessions point to a file by it, and it survives a rename.  The
    [migrating] flag is never used by the sources and is left out, like the
    mutex. *)
From S2P Require Import Prelude CStr Utils Disk SSAcl.

Record CheckpointRecord := mkCheckpoint { ck_tag : cstr; ck_filepath : cstr }.

Record FileRecord := mkFileRecord {
  fr_id : nat;
  fr_filename : cstr;
  fr_physical_name : cstr;
  fr_filepath : cstr;
  fr_metapath : cstr;
  fr_undopath : cstr;
  fr_owner : cstr;
  fr_read_users : list cstr;
  fr_write_users : list cstr;
  fr_created : Z;
  fr_modified : Z;
  fr_last_access : Z;
  fr_last_access_user : cstr;
  fr_undo_available : Z;
  fr_checkpoints : list CheckpointRecord
}.

(** Field updates. *)

Definition with_owner (r : FileRecord) (x : cstr) : FileRecord :=
  mkFileRecord (fr_id r) (fr_filename r) (fr_physical_name r) (fr_filepath r) (fr_metapath r) (fr_undopath r)
    x (fr_read_users r) (fr_write_users r) (fr_created r) (fr_modified r) (fr_last_access r)
    (fr_last_access_user r) (fr_undo_available r) (fr_checkpoints r).

Definition with_read_users (r : FileRecord) (x : list cstr) : FileRecord :=
  mkFileRecord (fr_id r) (fr_filename r) (fr_physical_name r) (fr_filepath r) (fr_metapath r) (fr_undopath r)
    (fr_owner r) x (fr_write_users r) (fr_created r) (fr_modified r) (fr_last_access r)
    (fr_last_access_user r) (fr_undo_available r) (fr_checkpoints r).

Definition with_write_users (r : FileRecord) (x : list cstr) : FileRecord :=
  mkFileRecord (fr_id r) (fr_filename r) (fr_physical_name r) (fr_filepath r) (fr_metapath r) (fr_undopath r)
    (fr_owner r) (fr_read_users r) x (fr_created r) (fr_modified r) (fr_last_access r)
    (fr_last_access_user r) (fr_undo_available r) (fr_checkpoints r).

Definition with_acl (r : FileRecord) (x y : list cstr) : FileRecord :=
  mkFileRecord (fr_id r) (fr_filename r) (fr_physical_name r) (fr_filepath r) (fr_metapath r) (fr_undopath r)
    (fr_owner r) x y (fr_created r) (fr_modified r) (fr_last_access r)
    (fr_last_access_user r) (fr_undo_available r) (fr_checkpoints r).

Definition with_created (r : FileRecord) (x : Z) : FileRecord :=
  mkFileRecord (fr_id r) (fr_filename r) (fr_physical_name r) (fr_filepath r) (fr_metapath r) (fr_undopath r)
    (fr_owner r) (fr_read_users r) (fr_write_users r) x (fr_modified r) (fr_last_access r)
    (fr_last_access_user r) (fr_undo_available r) (fr_checkpoints r).

Definition with_modified (r : FileRecord) (x : Z) : FileRecord :=
  mkFileRecord (fr_id r) (fr_filename r) (fr_physical_name r) (fr_filepath r) (fr_metapath r) (fr_undopath r)
    (fr_owner r) (fr_read_users r) (fr_write_users r) (fr_created r) x (fr_last_access r)
    (fr_last_access_user r) (fr_undo_available r) (fr_checkpoints r).

Definition with_last_access (r : FileRecord) (x : Z) : FileRecord :=
  mkFileRecord (fr_id r) (fr_filename r) (fr_physical_name r) (fr_filepath r) (fr_metapath r) (fr_undopath r)
    (fr_owner r) (fr_read_users r) (fr_write_users r) (fr_created r) (fr_modified r) x
    (fr_last_access_user r) (fr_undo_available r) (fr_checkpoints r).

Definition with_last_user (r : FileRecord) (x : cstr) : FileRecord :=
  mkFileRecord (fr_id r) (fr_filename r) (fr_physical_name r) (fr_filepath r) (fr_metapath r) (fr_undopath r)
    (fr_owner r) (fr_read_users r) (fr_write_users r) (fr_created r) (fr_modified r) (fr_last_access r)
    x (fr_undo_available r) (fr_checkpoints r).

Definition with_undo (r : FileRecord) (x : Z) : FileRecord :=
  mkFileRecord (fr_id r) (fr_filename r) (fr_physical_name r) (fr_filepath r) (fr_metapath r) (fr_undopath r)
    (fr_owner r) (fr_read_users r) (fr_write_users r) (fr_created r) (fr_modified r) (fr_last_access r)
    (fr_last_access_user r) x (fr_checkpoints r).

Definition with_checkpoints (r : FileRecord) (x : list CheckpointRecord) : FileRecord :=
  mkFileRecord (fr_id r) (fr_filename r) (fr_physical_name r) (fr_filepath r) (fr_metapath r) (fr_undopath r)
    (fr_owner r) (fr_read_users r) (fr_write_users r) (fr_created r) (fr_modified r) (fr_last_access r)
    (fr_last_access_user r) (fr_undo_available r) x.

Definition with_paths (r : FileRecord) (name physical file meta undo : cstr) : FileRecord :=
  mkFileRecord (fr_id r) name physical file meta undo
    (fr_owner r) (fr_read_users r) (fr_write_users r) (fr_created r) (fr_modified r) (fr_last_access r)
    (fr_last_access_user r) (fr_undo_available r) (fr_checkpoints r).

Definition SS_META_SUFFIX : cstr := $".meta".
Definition SS_UNDO_SUFFIX : cstr := $".undo".
Definition SS_STORAGE_PATH : cstr := $"./ss_storage/".
Definition SS_MAX_CHECKPOINTS : nat := 32.

(** ** Paths *)

(** [None] is the result -1: the path does not fit. *)
Definition build_path (size : nat) (base file : cstr) : option cstr :=
  let path := base ++ [c_slash] ++ file in
  if decide (size <= length path) then None else Some path.

Definition sanitize_ip_char (c : ascii) : ascii :=
  if isalnum c || bool_decide (c = "_"%char) then c else "_"%char.

Definition ss_build_storage_path (size : nat) (client_ip : cstr) (client_port : Z) : option cstr :=
  if decide (size = 0) then None
  else
    let ip_source := match client_ip with [] => $"local" | _ => client_ip end in
    match safe_strcpy ip_source MAX_IP_LENGTH with
    | None => None
    | Some copied =>
        let sanitized := map sanitize_ip_char copied in
        let sanitized := match sanitized with [] => $"local" | _ => sanitized end in
        let client_port := if (client_port <? 0)%Z then 0%Z else client_port in
        let path := SS_STORAGE_PATH ++ $"server_" ++ sanitized ++ $"_" ++ to_dec client_port ++ $"/" in
        if decide (size <= length path) then None else Some path
    end.

Definition path_or_empty (p : option cstr) : cstr := match p with Some p => p | None => [] end.

Definition ss_set_record_paths (storage_path : cstr) (rec : FileRecord) (logical_name : cstr)
  : FileRecord :=
  let filename := fit MAX_FILENAME_LENGTH logical_name in
  let physical := match flatten_logical_path logical_name MAX_FILENAME_LENGTH with
                  | Some p => p
                  | None => fit MAX_FILENAME_LENGTH logical_name
                  end in
  let meta_name := fit (MAX_FILENAME_LENGTH + 8) (physical ++ SS_META_SUFFIX) in
  let undo_name := fit (MAX_FILENAME_LENGTH + 8) (physical ++ SS_UNDO_SUFFIX) in
  with_paths rec filename physical
    (path_or_empty (build_path MAX_PATH_LENGTH storage_path physical))
    (path_or_empty (build_path MAX_PATH_LENGTH storage_path meta_name))
    (path_or_empty (build_path MAX_PATH_LENGTH storage_path undo_name)).

(** The zeroed record, with the identity of the new allocation. *)
Definition ss_init_file_record (storage_path : cstr) (id : nat) (filename : cstr) : FileRecord :=
  ss_set_record_paths storage_path
    (mkFileRecord id [] [] [] [] [] [] [] [] 0 0 0 [] 0 []) filename.

(** ** Checkpoint records *)

Fixpoint sanitize_loop (tag out : cstr) (size : nat) : cstr :=
  match tag with
  | [] => out
  | c :: rest =>
      if decide (length out + 1 < size) then
        let c' := if isalnum c || bool_decide (c = "_"%char) || bool_decide (c = "-"%char) then c
                  else if negb (isspace c) then "_"%char else "-"%char in
        sanitize_loop rest (out ++ [c']) size
      else out
  end.

Definition ss_sanitize_tag (tag : cstr) (size : nat) : cstr := sanitize_loop tag [] size.

Definition ss_find_checkpoint (rec : FileRecord) (tag : cstr) : option CheckpointRecord :=
  match tag with
  | [] => None
  | _ => firstb (λ ck, strneq MAX_FILENAME_LENGTH (ck_tag ck) tag) (fr_checkpoints rec)
  end.

(** Unlinks the snapshot of the oldest checkpoint and shifts the others. *)
Definition ss_prune_oldest_checkpoint (d : Disk) (rec : FileRecord) : Disk * FileRecord :=
  match fr_checkpoints rec with
  | [] => (d, rec)
  | oldest :: rest =>
      let d := match ck_filepath oldest with [] => d | path => unlink d path end in
      (d, with_checkpoints rec rest)
  end.

(** ** The metadata sidecar *)

(** The token loop of a [READ=] or [WRITE=] line. *)
Fixpoint load_acl (tokens : list cstr) (users : list cstr) : list cstr :=
  match tokens with
  | [] => users
  | token :: tokens =>
      if decide (SS_MAX_USERS_PER_FILE <= length users) then users
      else
        match trim_string token with
        | [] => load_acl tokens users
        | token => load_acl tokens (users ++ [fit MAX_USERNAME_LENGTH token])
        end
  end.

Definition is_comma (c : ascii) : bool := bool_decide (c = ","%char).

Definition load_checkpoint (rec : FileRecord) (body : cstr) : FileRecord :=
  if decide (length (fr_checkpoints rec) < SS_MAX_CHECKPOINTS) then
    match split_at ":"%char body with
    | None => rec
    | Some (tag, filepath) =>
        with_checkpoints rec (fr_checkpoints rec ++
          [mkCheckpoint (fit MAX_FILENAME_LENGTH (trim_string tag))
                        (fit MAX_PATH_LENGTH (trim_string filepath))])
    end
  else rec.

(** One line of the sidecar; the second component is [logical_override]. *)
Definition load_line (st : FileRecord * cstr) (raw : cstr) : FileRecord * cstr :=
  let '(rec, logical_override) := st in
  let line := trim_string raw in
  if string_starts_with line ($"LOGICAL=") then (rec, fit MAX_FILENAME_LENGTH (drop 8 line))
  else if string_starts_with line ($"OWNER=") then
    (with_owner rec (fit MAX_USERNAME_LENGTH (drop 6 line)), logical_override)
  else if string_starts_with line ($"READ=") then
    (with_read_users rec (load_acl (strtok is_comma (drop 5 line)) []), logical_override)
  else if string_starts_with line ($"WRITE=") then
    (with_write_users rec (load_acl (strtok is_comma (drop 6 line)) []), logical_override)
  else if string_starts_with line ($"CREATED=") then
    (with_created rec (atoll (drop 8 line)), logical_override)
  else if string_starts_with line ($"MODIFIED=") then
    (with_modified rec (atoll (drop 9 line)), logical_override)
  else if string_starts_with line ($"LAST_ACCESS=") then
    (with_last_access rec (atoll (drop 12 line)), logical_override)
  else if string_starts_with line ($"LAST_USER=") then
    (with_last_user rec (fit MAX_USERNAME_LENGTH (drop 10 line)), logical_override)
  else if string_starts_with line ($"UNDO=") then
    (with_undo rec (atoi (drop 5 line)), logical_override)
  else if string_starts_with line ($"CHECKPOINT=") then
    (load_checkpoint rec (drop 11 line), logical_override)
  else (rec, logical_override).

(** [None] is the result -1 (no sidecar to open): the record is untouched. *)
Definition ss_load_metadata (storage_path : cstr) (d : Disk) (rec : FileRecord) : option FileRecord :=
  match read_file d (fr_metapath rec) with
  | None => None
  | Some data =>
      let rec := with_checkpoints (with_undo (with_acl rec [] []) 0) [] in
      let '(rec, logical_override) := foldl load_line (rec, []) (fgets_lines 1024 data) in
      Some (match logical_override with
            | [] => rec
            | _ => ss_set_record_paths storage_path rec logical_override
            end)
  end.

(** The lines [ss_write_metadata] prints. *)
Definition metadata_lines (rec : FileRecord) : list cstr :=
  [$"LOGICAL=" ++ fr_filename rec;
   $"OWNER=" ++ fr_owner rec;
   $"CREATED=" ++ to_dec (fr_created rec);
   $"MODIFIED=" ++ to_dec (fr_modified rec);
   $"LAST_ACCESS=" ++ to_dec (fr_last_access rec);
   $"LAST_USER=" ++ fr_last_access_user rec;
   $"UNDO=" ++ to_dec (fr_undo_available rec);
   $"READ=" ++ join ($",") (fr_read_users rec);
   $"WRITE=" ++ join ($",") (fr_write_users rec)] ++
  map (λ ck, $"CHECKPOINT=" ++ ck_tag ck ++ $":" ++ ck_filepath ck)
    (take SS_MAX_CHECKPOINTS (fr_checkpoints rec)).

(** [false] is the result -1; only opening the file is checked. *)
Definition ss_write_metadata (d : Disk) (rec : FileRecord) : Disk * bool :=
  match write_file d (fr_metapath rec) (unlines (metadata_lines rec)) with
  | (d', WOpenFailed) => (d', false)
  | (d', _) => (d', true)
  end.

(** ** Access checks *)

Definition is_owner (rec : FileRecord) (user : cstr) : bool :=
  negb (bool_decide (fr_owner rec = [])) && strneq MAX_USERNAME_LENGTH (fr_owner rec) user.

Definition ss_check_read_access (rec : FileRecord) (user : cstr) : bool :=
  is_owner rec user || existsb (same_user user) (fr_read_users rec) ||
  existsb (same_user user) (fr_write_users rec).

Definition ss_check_write_access (rec : FileRecord) (user : cstr) : bool :=
  is_owner rec user || existsb (same_user user) (fr_write_users rec).
