(* ===== verification/SSMeta.v ===== *)
(** * The metadata sidecar survives a restart

    [ss_load_metadata] undoes [ss_write_metadata] on every record whose lines
    fit the 1024-byte buffer of the reader, and what goes wrong when the access
    list is longer than that. *)
From S2P Require Import Prelude CStr Utils Disk SSAcl SSFiles.

(** A name of an access list that survives the comma-separated line. *)
Definition acl_name (u : cstr) : Prop :=
  u ≠ [] ∧ length u < MAX_USERNAME_LENGTH ∧ Forall (λ c, isspace c = false ∧ c ≠ ","%char) u.

Definition checkpoint_ok (ck : CheckpointRecord) : Prop :=
  trim_string (ck_tag ck) = ck_tag ck ∧ trim_string (ck_filepath ck) = ck_filepath ck ∧
  (":"%char ∉ ck_tag ck) ∧ length (ck_tag ck) < MAX_FILENAME_LENGTH ∧
  length (ck_filepath ck) < MAX_PATH_LENGTH ∧ (c_nl ∉ ck_tag ck) ∧ line_text (ck_filepath ck) ∧
  ck_filepath ck ≠ [].

(** The records the program builds: canonical paths, sizes within the buffers. *)
Record meta_ok (sp : cstr) (rec : FileRecord) : Prop := {
  mo_paths : ss_set_record_paths sp rec (fr_filename rec) = rec;
  mo_name : fr_filename rec ≠ [] ∧ line_text (fr_filename rec);
  mo_owner : length (fr_owner rec) < MAX_USERNAME_LENGTH ∧ line_text (fr_owner rec);
  mo_user : length (fr_last_access_user rec) < MAX_USERNAME_LENGTH ∧ line_text (fr_last_access_user rec);
  mo_times : (LONG_MIN <= fr_created rec <= LONG_MAX)%Z ∧ (LONG_MIN <= fr_modified rec <= LONG_MAX)%Z ∧
             (LONG_MIN <= fr_last_access rec <= LONG_MAX)%Z;
  mo_undo : (INT_MIN <= fr_undo_available rec <= INT_MAX)%Z;
  mo_read : Forall acl_name (fr_read_users rec) ∧ length (fr_read_users rec) <= SS_MAX_USERS_PER_FILE;
  mo_write : Forall acl_name (fr_write_users rec) ∧ length (fr_write_users rec) <= SS_MAX_USERS_PER_FILE;
  mo_ckpts : Forall checkpoint_ok (fr_checkpoints rec) ∧ length (fr_checkpoints rec) <= SS_MAX_CHECKPOINTS;
  mo_lines : Forall (λ l, length l + 1 < 1024) (metadata_lines rec)
}.

#[export] Instance acl_name_dec u : Decision (acl_name u).
Proof. unfold acl_name. apply _. Defined.

#[export] Instance checkpoint_ok_dec ck : Decision (checkpoint_ok ck).
Proof. unfold checkpoint_ok. apply _. Defined.

(** ** Lemmas: one line *)

(** The prefix tests of [load_line] compute on a line with a known key. *)
Lemma load_line_logical rec lo s : line_text s →
  load_line (rec, lo) (($"LOGICAL=" ++ s) ++ [c_nl]) = (rec, fit MAX_FILENAME_LENGTH s).
Proof. intros Hs. unfold load_line. by rewrite (trim_key "L"%char ($"OGICAL=") "="%char s). Qed.

Lemma load_line_owner rec lo s : line_text s →
  load_line (rec, lo) (($"OWNER=" ++ s) ++ [c_nl]) = (with_owner rec (fit MAX_USERNAME_LENGTH s), lo).
Proof. intros Hs. unfold load_line. by rewrite (trim_key "O"%char ($"WNER=") "="%char s). Qed.

Lemma load_line_created rec lo s : line_text s →
  load_line (rec, lo) (($"CREATED=" ++ s) ++ [c_nl]) = (with_created rec (atoll s), lo).
Proof. intros Hs. unfold load_line. by rewrite (trim_key "C"%char ($"REATED=") "="%char s). Qed.

Lemma load_line_modified rec lo s : line_text s →
  load_line (rec, lo) (($"MODIFIED=" ++ s) ++ [c_nl]) = (with_modified rec (atoll s), lo).
Proof. intros Hs. unfold load_line. by rewrite (trim_key "M"%char ($"ODIFIED=") "="%char s). Qed.

Lemma load_line_access rec lo s : line_text s →
  load_line (rec, lo) (($"LAST_ACCESS=" ++ s) ++ [c_nl]) = (with_last_access rec (atoll s), lo).
Proof. intros Hs. unfold load_line. by rewrite (trim_key "L"%char ($"AST_ACCESS=") "="%char s). Qed.

Lemma load_line_user rec lo s : line_text s →
  load_line (rec, lo) (($"LAST_USER=" ++ s) ++ [c_nl]) = (with_last_user rec (fit MAX_USERNAME_LENGTH s), lo).
Proof. intros Hs. unfold load_line. by rewrite (trim_key "L"%char ($"AST_USER=") "="%char s). Qed.

Lemma load_line_undo rec lo s : line_text s →
  load_line (rec, lo) (($"UNDO=" ++ s) ++ [c_nl]) = (with_undo rec (atoi s), lo).
Proof. intros Hs. unfold load_line. by rewrite (trim_key "U"%char ($"NDO=") "="%char s). Qed.

Lemma load_line_read rec lo s : line_text s →
  load_line (rec, lo) (($"READ=" ++ s) ++ [c_nl]) =
  (with_read_users rec (load_acl (strtok is_comma s) []), lo).
Proof. intros Hs. unfold load_line. by rewrite (trim_key "R"%char ($"EAD=") "="%char s). Qed.

Lemma load_line_write rec lo s : line_text s →
  load_line (rec, lo) (($"WRITE=" ++ s) ++ [c_nl]) =
  (with_write_users rec (load_acl (strtok is_comma s) []), lo).
Proof. intros Hs. unfold load_line. by rewrite (trim_key "W"%char ($"RITE=") "="%char s). Qed.

Lemma load_line_checkpoint rec lo s : line_text s →
  load_line (rec, lo) (($"CHECKPOINT=" ++ s) ++ [c_nl]) = (load_checkpoint rec s, lo).
Proof. intros Hs. unfold load_line. by rewrite (trim_key "C"%char ($"HECKPOINT=") "="%char s). Qed.

(** ** Lemmas: the fields *)

Lemma acl_name_trim u : acl_name u → trim_string u = u.
Proof.
  intros (Hne & _ & Hall). unfold trim_string.
  destruct u as [|c u]; [done|]. apply Forall_cons in Hall as [[Hc _] Hall].
  cbn [drop_while]. rewrite Hc. cbn [trim_tail]. f_equal.
  destruct (decide (u = [])) as [->|Hu]; [done|]. destruct (exists_last Hu) as (u' & d & ->).
  rewrite rev_app_distr. cbn [rev app drop_while].
  apply Forall_app in Hall as [_ Hd]. apply Forall_singleton in Hd as [Hd _]. rewrite Hd.
  by rewrite -(rev_involutive (u' ++ [d])) rev_app_distr.
Qed.

Lemma load_acl_names l acc :
  Forall acl_name l → length acc + length l <= SS_MAX_USERS_PER_FILE → load_acl l acc = acc ++ l.
Proof.
  intros Hall. revert acc. induction Hall as [|u l Hu Hl IH]; intros acc Hlen; cbn [load_acl].
  { by rewrite app_nil_r. }
  cbn [length] in Hlen. rewrite decide_False; [lia|]. rewrite (acl_name_trim u Hu).
  destruct Hu as (Hne & Hlt & _). destruct u as [|c u]; [done|]. rewrite fit_short; [done|].
  rewrite IH; [len|]. by rewrite -app_assoc.
Qed.

Lemma acl_line_load l :
  Forall acl_name l → length l <= SS_MAX_USERS_PER_FILE →
  line_text (join ($",") l) ∧ load_acl (strtok is_comma (join ($",") l)) [] = l.
Proof.
  intros Hall Hlen. assert (Hchars : ∀ c, c ∈ join ($",") l → isspace c = false).
  { intros c Hc. destruct (isspace c) eqn:Hs; [|done]. exfalso. revert Hc. apply join_not_elem.
    - intros f Hf Hcf. rewrite Forall_forall in Hall. destruct (Hall f Hf) as (_ & _ & Hfa).
      rewrite Forall_forall in Hfa. destruct (Hfa c Hcf). congruence.
    - intros [->|Hn]%elem_of_cons; [done|by apply elem_of_nil in Hn]. }
  split.
  - split; [by intros Hn%Hchars|]. destruct (last _) as [c|] eqn:Hl; [|done].
    apply Hchars. by apply last_Some_elem_of.
  - rewrite (strtok_join is_comma ","%char l); [done| |by apply load_acl_names].
    eapply Forall_impl; [exact Hall|]. intros u (Hne & _ & Hu). split; [done|].
    eapply Forall_impl; [exact Hu|]. intros c [_ Hc]. unfold is_comma. by apply bool_decide_eq_false_2.
Qed.

Lemma load_checkpoints_fold cks rec lo :
  Forall checkpoint_ok cks → length (fr_checkpoints rec) + length cks <= SS_MAX_CHECKPOINTS →
  foldl load_line (rec, lo)
    (map (λ l, l ++ [c_nl]) (map (λ ck, $"CHECKPOINT=" ++ ck_tag ck ++ $":" ++ ck_filepath ck) cks)) =
  (with_checkpoints rec (fr_checkpoints rec ++ cks), lo).
Proof.
  intros Hall. revert rec. induction Hall as [|ck cks Hck _ IH]; intros rec Hlen; cbn [map foldl].
  { rewrite app_nil_r. by destruct rec. }
  destruct Hck as (Ht & Hp & Hcol & Htl & Hpl & Htn & [Hpn Hlast] & Hpne). cbn [length] in Hlen.
  rewrite load_line_checkpoint.
  { split.
    - rewrite !not_elem_of_app. split_and!; [done|vmd|done].
    - rewrite !last_app. destruct (last (ck_filepath ck)) eqn:Hl; [done|].
      by apply last_None in Hl. }
  unfold load_checkpoint. rewrite decide_True; [lia|].
  rewrite (proj2 (split_at_Some ":"%char _ (ck_tag ck) (ck_filepath ck))); [done|].
  rewrite Ht Hp !fit_short; [done|done|]. destruct ck as [tag path].
  rewrite IH; [cbn; len|]. cbn [fr_checkpoints with_checkpoints ck_tag ck_filepath].
  rewrite -app_assoc. done.
Qed.

Lemma metadata_lines_clean sp rec : meta_ok sp rec →
  Forall (λ l, (c_nl ∉ l) ∧ length l + 1 < 1024) (metadata_lines rec).
Proof.
  intros Hok. pose proof (mo_lines _ _ Hok) as Hlen. rewrite !Forall_forall in Hlen *. intros l Hl.
  split; [|by apply Hlen]. clear Hlen.
  destruct Hok as [_ [_ [Hn _]] [_ [Ho _]] [_ [Hu _]] _ _ [Hr Hrl] [Hw Hwl] [Hck _] _].
  apply acl_line_load in Hr as [[Hr _] _]; [|done]. apply acl_line_load in Hw as [[Hw _] _]; [|done].
  unfold metadata_lines in Hl. apply elem_of_app in Hl as [Hl|Hl].
  - repeat (apply elem_of_cons in Hl as [->|Hl]; [rewrite not_elem_of_app; split; [vmd|]|]);
      [done|done|by apply to_dec_line..|done|by apply to_dec_line|done|done|by apply elem_of_nil in Hl].
  - apply list_elem_of_In, in_map_iff in Hl as (ck & <- & Hin). apply list_elem_of_In in Hin.
    apply elem_of_take_l in Hin. rewrite Forall_forall in Hck.
    destruct (Hck ck Hin) as (_ & _ & _ & _ & _ & Htn & [Hpn _] & _).
    rewrite !not_elem_of_app. split_and!; [vmd|done|vmd|done].
Qed.

Lemma load_metadata_lines sp r0 rec : meta_ok sp rec → fr_id r0 = fr_id rec →
  fr_metapath r0 = fr_metapath rec →
  foldl load_line (with_checkpoints (with_undo (with_acl r0 [] []) 0) [], [])
    (map (λ l, l ++ [c_nl]) (metadata_lines rec)) =
  (with_paths rec (fr_filename r0) (fr_physical_name r0) (fr_filepath r0) (fr_metapath r0) (fr_undopath r0),
   fr_filename rec).
Proof.
  intros Hok Hid Hmp. unfold metadata_lines.
  destruct Hok as [Hpaths [Hne Hn] [Hol Ho] [Hul Hu] (Hc & Hm & Ha) Hun [Hr Hrl] [Hw Hwl] [Hck Hckl] _].
  destruct (acl_line_load _ Hr Hrl) as [Hrt Hrload]. destruct (acl_line_load _ Hw Hwl) as [Hwt Hwload].
  assert (Hfn : length (fr_filename rec) < MAX_FILENAME_LENGTH).
  { rewrite -Hpaths. cbn [fr_filename ss_set_record_paths with_paths].
    pose proof (length_fit MAX_FILENAME_LENGTH (fr_filename rec)) as H. unfold MAX_FILENAME_LENGTH in *. lia. }
  rewrite map_app foldl_app. cbn [map foldl].
  rewrite load_line_logical; [done|]. rewrite load_line_owner; [done|].
  rewrite load_line_created; [apply to_dec_line|]. rewrite load_line_modified; [apply to_dec_line|].
  rewrite load_line_access; [apply to_dec_line|]. rewrite load_line_user; [done|].
  rewrite load_line_undo; [apply to_dec_line|]. rewrite load_line_read; [done|].
  rewrite load_line_write; [done|]. rewrite !atoll_to_dec; [done..|]. rewrite atoi_to_dec; [done|].
  rewrite Hrload Hwload !fit_short; [done..|]. rewrite take_ge; [done|].
  rewrite load_checkpoints_fold; [done|cbn; lia|]. destruct rec. simpl in *. by subst.
Qed.

(** Reading a sidecar back. *)
Lemma load_written sp d rec r0 :
  meta_ok sp rec → dk_fault d (fr_metapath rec) = NoFault →
  dk_files d !! fr_metapath rec = Some (unlines (metadata_lines rec)) →
  fr_id r0 = fr_id rec → fr_metapath r0 = fr_metapath rec →
  ss_load_metadata sp d r0 = Some rec.
Proof.
  intros Hok Hf Hd Hid Hmp. unfold ss_load_metadata, read_file, denied.
  rewrite Hmp Hf Hd fgets_unlines; [by eapply metadata_lines_clean|].
  rewrite (load_metadata_lines sp r0 rec Hok Hid Hmp).
  destruct (mo_name _ _ Hok) as [Hne _]. pose proof (mo_paths _ _ Hok) as Hp.
  destruct (fr_filename rec) as [|c f] eqn:Hfn; [done|].
  rewrite -{2}Hp. by destruct rec.
Qed.

(** ** Properties *)

(** Reading back a sidecar that was written without a disk error gives the
    record it was written from: names, owner, times, undo flag, both access
    lists in order and all checkpoints, with the paths recomputed from the
    logical name. *)
Theorem metadata_roundtrip sp d rec d' r0 :
  meta_ok sp rec → dk_fault d (fr_metapath rec) = NoFault →
  ss_write_metadata d rec = (d', true) →
  fr_id r0 = fr_id rec → fr_metapath r0 = fr_metapath rec →
  ss_load_metadata sp d' r0 = Some rec.
Proof.
  intros Hok Hf Hw Hid Hmp. unfold ss_write_metadata in Hw.
  destruct (can_create d (fr_metapath rec)) eqn:Hc.
  2: { by rewrite (write_file_cannot _ _ _ Hc) in Hw. }
  rewrite (write_file_good _ _ _ Hc Hf) in Hw. simplify_eq/=.
  by apply load_written; [| |apply lookup_insert_eq|..].
Qed.

(** A record for [report.txt] of owner [ann] in the storage directory [./d/]. *)
Definition sample_record (readers : list cstr) : FileRecord :=
  ss_set_record_paths ($"./d/")
    (mkFileRecord 7 [] [] [] [] [] ($"ann") readers [$"bob"] 100 200 300 ($"bob") 1
       [mkCheckpoint ($"v 1") ($"./d//report.txt.ckpt_5_v-1")]) ($"report.txt").

Definition sample_disk : Disk := mkDisk ∅ {[ $"./d"; $"." ]} (λ _, NoFault).

Lemma metadata_roundtrip_witness :
  let rec := sample_record [$"cy"; $"dan"] in
  ss_load_metadata ($"./d/") (ss_write_metadata sample_disk rec).1
    (ss_init_file_record ($"./d/") 7 ($"report.txt")) = Some rec.
Proof.
  apply (metadata_roundtrip ($"./d/") sample_disk (sample_record [$"cy"; $"dan"])); try reflexivity.
  split; try reflexivity; vmd.
Defined.

(** A tag ends at its first colon when the sidecar is read, and the rest becomes
    part of the path: a checkpoint whose tag has a colon, which is not refused,
    has another tag and no snapshot after a restart. *)
Theorem colon_tag_changes rec a b path :
  length (fr_checkpoints rec) < SS_MAX_CHECKPOINTS → (":"%char ∉ a) →
  load_checkpoint rec ((a ++ $":" ++ b) ++ $":" ++ path) =
    with_checkpoints rec (fr_checkpoints rec ++
      [mkCheckpoint (fit MAX_FILENAME_LENGTH (trim_string a))
                    (fit MAX_PATH_LENGTH (trim_string (b ++ $":" ++ path)))]).
Proof.
  intros Hl Ha. unfold load_checkpoint. rewrite decide_True; [done|]. rewrite -!app_assoc.
  change ($":" ++ b ++ $":" ++ path) with (":"%char :: b ++ $":" ++ path).
  by rewrite (proj2 (split_at_Some ":"%char _ a (b ++ $":" ++ path))).

Qed.

(** Five readers with names of 250 characters, all of them valid. *)
Definition long_readers : list cstr :=
  map (λ c, replicate 250 c) ["a"; "b"; "c"; "d"; "e"]%char.

(** The reader's line buffer is 1024 bytes while an access list may take
    more than 32,000: with five long names the line is cut, so after a restart
    the fifth reader has lost access and a name that is only a prefix of it,
    never granted anything, has gained it. *)
Theorem metadata_long_acl_corrupted :
  let rec := sample_record long_readers in
  let user := replicate 250 "e"%char in
  let intruder := replicate 14 "e"%char in
  forallb validate_username long_readers = true ∧
  ss_check_read_access rec user = true ∧ ss_check_read_access rec intruder = false ∧
  match ss_load_metadata ($"./d/") (ss_write_metadata sample_disk rec).1
          (ss_init_file_record ($"./d/") 7 ($"report.txt")) with
  | Some rec' => ss_check_read_access rec' user = false ∧ ss_check_read_access rec' intruder = true
  | None => False
  end.
Proof. vm_compute. done. Qed.
