(* ===== verification/SSState.v ===== *)
(** * The state of a storage server and the operations on its files

    [StorageServer] and [WriteSession] of
    [src/storage_server/storage_server.h], and the functions of
    [storage_server.c] that look up, create, delete, rename and report files
    and keep the list of write sessions.  The mutexes are not fields: every
    operation here runs with the locks its caller holds, and [SSRaces] treats
    the interleavings the locks allow.  Messages sent are an outbox of pairs of
    a descriptor and the message text; the clock is the argument [now], read
    once per request.  Allocation never fails. *)
From S2P Require Import Prelude CStr Utils Protocol Disk Sentences SSAcl SSFiles.

Record WriteSession := mkSession {
  ws_client_fd : Z;
  ws_file : nat;
  ws_username : cstr;
  ws_sentence_index : Z;
  ws_sentence_start : nat;
  ws_sentence_end : nat;
  ws_file_snapshot : cstr;
  ws_sentence_working : cstr
}.

Definition with_working (s : WriteSession) (w : cstr) : WriteSession :=
  mkSession (ws_client_fd s) (ws_file s) (ws_username s) (ws_sentence_index s)
    (ws_sentence_start s) (ws_sentence_end s) (ws_file_snapshot s) w.

Definition with_span (s : WriteSession) (index : Z) (start stop : nat) : WriteSession :=
  mkSession (ws_client_fd s) (ws_file s) (ws_username s) index start stop
    (ws_file_snapshot s) (ws_sentence_working s).

(** [ss_next_id] is the allocator's next address. *)
Record StorageServer := mkSS {
  ss_ns_ip : cstr;
  ss_ns_port : Z;
  ss_client_ip : cstr;
  ss_client_port : Z;
  ss_ns_sockfd : Z;
  ss_storage_path : cstr;
  ss_running : bool;
  ss_files : list FileRecord;
  ss_sessions : list WriteSession;
  ss_disk : Disk;
  ss_next_id : nat
}.

Definition set_ss_files (ss : StorageServer) (x : list FileRecord) : StorageServer :=
  mkSS (ss_ns_ip ss) (ss_ns_port ss) (ss_client_ip ss) (ss_client_port ss)
    (ss_ns_sockfd ss) (ss_storage_path ss) (ss_running ss) x
    (ss_sessions ss) (ss_disk ss) (ss_next_id ss).

Definition set_ss_sessions (ss : StorageServer) (x : list WriteSession) : StorageServer :=
  mkSS (ss_ns_ip ss) (ss_ns_port ss) (ss_client_ip ss) (ss_client_port ss)
    (ss_ns_sockfd ss) (ss_storage_path ss) (ss_running ss) (ss_files ss)
    x (ss_disk ss) (ss_next_id ss).

Definition set_ss_disk (ss : StorageServer) (x : Disk) : StorageServer :=
  mkSS (ss_ns_ip ss) (ss_ns_port ss) (ss_client_ip ss) (ss_client_port ss)
    (ss_ns_sockfd ss) (ss_storage_path ss) (ss_running ss) (ss_files ss)
    (ss_sessions ss) x (ss_next_id ss).

Definition set_ss_running (ss : StorageServer) (x : bool) : StorageServer :=
  mkSS (ss_ns_ip ss) (ss_ns_port ss) (ss_client_ip ss) (ss_client_port ss)
    (ss_ns_sockfd ss) (ss_storage_path ss) x (ss_files ss)
    (ss_sessions ss) (ss_disk ss) (ss_next_id ss).

Definition set_ss_next (ss : StorageServer) (x : nat) : StorageServer :=
  mkSS (ss_ns_ip ss) (ss_ns_port ss) (ss_client_ip ss) (ss_client_port ss)
    (ss_ns_sockfd ss) (ss_storage_path ss) (ss_running ss) (ss_files ss)
    (ss_sessions ss) (ss_disk ss) x.

(** A record changed in place, found by its identity. *)
Definition update_rec (ss : StorageServer) (rec : FileRecord) : StorageServer :=
  set_ss_files ss (map (λ r, if decide (fr_id r = fr_id rec) then rec else r) (ss_files ss)).

(** ** Messages *)

Definition send_error_response (fd code : Z) (message : cstr) : Outbox :=
  match protocol_build_error code (Some message) with
  | Some msg => if (fd <? 0)%Z then [] else [(fd, msg)]
  | None => []
  end.

Definition ss_send_ns_error (ss : StorageServer) (code : Z) (message : cstr) : Outbox :=
  send_error_response (ss_ns_sockfd ss) code message.

Definition send_simple_ok (fd : Z) (detail : option cstr) : Outbox :=
  match detail with
  | Some d => emit fd [$"OK"; d]
  | None => emit fd [$"OK"]
  end.

(** ** Files *)

Definition same_name (filename : cstr) (rec : FileRecord) : bool :=
  strneq MAX_FILENAME_LENGTH (fr_filename rec) filename.

Definition ss_find_file (ss : StorageServer) (filename : cstr) : option FileRecord :=
  firstb (same_name filename) (ss_files ss).

(** The record a session or a later phase points to. *)
Definition deref (ss : StorageServer) (id : nat) : option FileRecord :=
  firstb (λ r, bool_decide (fr_id r = id)) (ss_files ss).

Definition ss_add_file_record (ss : StorageServer) (filename : cstr) (now : Z) : StorageServer :=
  let rec := ss_init_file_record (ss_storage_path ss) (ss_next_id ss) filename in
  let ss := set_ss_next ss (S (ss_next_id ss)) in
  match ss_load_metadata (ss_storage_path ss) (ss_disk ss) rec with
  | Some rec => set_ss_files ss (rec :: ss_files ss)
  | None =>
      let rec := with_acl (with_undo (with_last_access (with_modified (with_created rec now) now) now) 0)
                   [] [] in
      let '(d, _) := ss_write_metadata (ss_disk ss) rec in
      set_ss_files (set_ss_disk ss d) (rec :: ss_files ss)
  end.

(** The [strcmp] on the end of the name, for names longer than the suffix. *)
Definition has_suffix (name suffix : cstr) : bool :=
  bool_decide (length suffix < length name) && string_ends_with name suffix.

(** Which directory entries [ss_load_existing_files] takes for documents. *)
Definition is_document_entry (ss : StorageServer) (name : cstr) : bool :=
  negb (streq name ($".")) && negb (streq name ($"..")) &&
  negb (bool_decide (ss_storage_path ss ++ [c_slash] ++ name ∈ dk_dirs (ss_disk ss))) &&
  negb (bool_decide (name = [])) &&
  negb (has_suffix name SS_META_SUFFIX) && negb (has_suffix name SS_UNDO_SUFFIX) &&
  negb (contains_sub name ($".ckpt_")).

(** [entries] is what [readdir] returns, in its order. *)
Definition ss_load_existing_files (ss : StorageServer) (entries : list cstr) (now : Z)
  : StorageServer :=
  foldl (λ ss name, if is_document_entry ss name then ss_add_file_record ss name now else ss)
    ss entries.

Definition touch_record (rec : FileRecord) (username : option cstr) (update_modified : bool) (now : Z)
  : FileRecord :=
  let rec := with_last_access rec now in
  let rec := match username with
             | Some u => with_last_user rec (fit MAX_USERNAME_LENGTH u)
             | None => rec
             end in
  if update_modified then with_modified rec now else rec.

Definition ss_touch_file_metadata (ss : StorageServer) (rec : FileRecord) (username : option cstr)
    (update_modified : bool) (now : Z) : StorageServer :=
  let rec := touch_record rec username update_modified now in
  let '(d, _) := ss_write_metadata (ss_disk ss) rec in
  update_rec (set_ss_disk ss d) rec.

(** The word and character counts that accompany a file. *)
Definition content_counts (d : Disk) (path : cstr) : nat * nat :=
  match ss_read_file_content d path with
  | Some content => (count_words content, count_chars content)
  | None => (0, 0)
  end.

Definition ss_sync_metadata_to_ns (ss : StorageServer) (rec : FileRecord) : Outbox :=
  if (ss_ns_sockfd ss <? 0)%Z then []
  else
    let size := get_file_size (ss_disk ss) (fr_filepath rec) in
    let '(words, chars) := content_counts (ss_disk ss) (fr_filepath rec) in
    emit (ss_ns_sockfd ss)
      [$"WRITE_COMPLETE"; fr_filename rec; fit 32 (to_dec (if (0 <=? size)%Z then size else 0%Z));
       fit 32 (to_dec (Z.of_nat words)); fit 32 (to_dec (Z.of_nat chars))].

(** ** Write sessions *)

Definition ss_find_session (ss : StorageServer) (client_fd : Z) : option WriteSession :=
  firstb (λ s, (ws_client_fd s =? client_fd)%Z) (ss_sessions ss).

Definition ss_find_session_by_sentence (ss : StorageServer) (rec : FileRecord) (sentence_index : Z)
  : option WriteSession :=
  firstb (λ s, bool_decide (ws_file s = fr_id rec) && (ws_sentence_index s =? sentence_index)%Z)
    (ss_sessions ss).

Definition ss_file_has_active_writers (ss : StorageServer) (rec : FileRecord) : bool :=
  existsb (λ s, bool_decide (ws_file s = fr_id rec)) (ss_sessions ss).

Definition ss_detach_session (ss : StorageServer) (client_fd : Z) : StorageServer :=
  set_ss_sessions ss (remove_firstb (λ s, (ws_client_fd s =? client_fd)%Z) (ss_sessions ss)).

Definition ss_abort_session (ss : StorageServer) (client_fd : Z) : StorageServer :=
  ss_detach_session ss client_fd.

Definition ss_create_session (ss : StorageServer) (client_fd : Z) (rec : FileRecord) (username : cstr)
    (sentence_index : Z) (start_offset end_offset : nat) (file_snapshot sentence_text : cstr)
  : StorageServer * WriteSession :=
  let session := mkSession client_fd (fr_id rec) (fit MAX_USERNAME_LENGTH username) sentence_index
                   start_offset end_offset file_snapshot sentence_text in
  (set_ss_sessions ss (session :: ss_sessions ss), session).

(** ** Creating, deleting and renaming *)

(** [false] is the result -1. *)
Definition ss_create_file (ss : StorageServer) (filename owner : cstr) (now : Z)
  : StorageServer * bool :=
  match ss_find_file ss filename with
  | Some _ => (ss, false)
  | None =>
      let rec := ss_init_file_record (ss_storage_path ss) (ss_next_id ss) filename in
      let ss := set_ss_next ss (S (ss_next_id ss)) in
      let rec := with_last_user (with_owner rec (fit MAX_USERNAME_LENGTH owner))
                   (fit MAX_USERNAME_LENGTH owner) in
      let rec := with_last_access (with_modified (with_created rec now) now) now in
      let rec := with_acl (with_undo rec 0) [] [] in
      match write_file (ss_disk ss) (fr_filepath rec) [] with
      | (_, WOpenFailed) => (ss, false)
      | (d, _) =>
          let '(d, _) := ss_write_metadata d rec in
          (set_ss_files (set_ss_disk ss d) (rec :: ss_files ss), true)
      end
  end.

Inductive DeleteStatus := Deleted | DeleteNotFound | DeleteLocked.

(** Results 0, -1 and -2. *)
Definition ss_delete_file (ss : StorageServer) (filename : cstr) : StorageServer * DeleteStatus :=
  match ss_find_file ss filename with
  | None => (ss, DeleteNotFound)
  | Some node =>
      if ss_file_has_active_writers ss node then (ss, DeleteLocked)
      else
        let d := unlink (unlink (unlink (ss_disk ss) (fr_filepath node)) (fr_metapath node))
                   (fr_undopath node) in
        let d := foldl (λ d ck, match ck_filepath ck with [] => d | path => unlink d path end)
                   d (fr_checkpoints node) in
        (set_ss_files (set_ss_disk ss d) (remove_firstb (same_name filename) (ss_files ss)), Deleted)
  end.

(** [false] is the result -1. *)
Definition ss_handle_rename (ss : StorageServer) (old_logical new_logical old_flat new_flat : cstr)
    (now : Z) : StorageServer * bool :=
  match ss_find_file ss old_logical with
  | None => (ss, false)
  | Some rec =>
      match flatten_logical_path (fr_filename rec) MAX_FILENAME_LENGTH with
      | None => (ss, false)
      | Some expected_old_flat =>
          if negb (strneq MAX_FILENAME_LENGTH expected_old_flat old_flat) then (ss, false)
          else
            match build_path MAX_PATH_LENGTH (ss_storage_path ss) old_flat,
                  build_path MAX_PATH_LENGTH (ss_storage_path ss) new_flat with
            | Some current_path, Some new_path =>
                let current_meta := fit MAX_PATH_LENGTH (current_path ++ SS_META_SUFFIX) in
                let new_meta := fit MAX_PATH_LENGTH (new_path ++ SS_META_SUFFIX) in
                let current_undo := fit MAX_PATH_LENGTH (current_path ++ SS_UNDO_SUFFIX) in
                let new_undo := fit MAX_PATH_LENGTH (new_path ++ SS_UNDO_SUFFIX) in
                match rename (ss_disk ss) current_path new_path with
                | (_, false) => (ss, false)
                | (d, true) =>
                    let '(d, _) := rename d current_meta new_meta in
                    let '(d, _) := rename d current_undo new_undo in
                    let rec := with_paths rec (fit MAX_FILENAME_LENGTH new_logical)
                                 (fit MAX_FILENAME_LENGTH new_flat) (fit MAX_PATH_LENGTH new_path)
                                 (fit MAX_PATH_LENGTH new_meta) (fit MAX_PATH_LENGTH new_undo) in
                    (ss_touch_file_metadata (set_ss_disk ss d) rec None true now, true)
                end
            | _, _ => (ss, false)
            end
      end
  end.

(** ** Registration and the initial file list *)

(** The HELLO_SS message; the reply is the argument of [ss_hello_accepted]. *)
Definition ss_send_hello (ss : StorageServer) : Outbox :=
  emit (ss_ns_sockfd ss)
    [$"HELLO_SS"; ss_ns_ip ss; fit 16 (to_dec (ss_ns_port ss)); ss_client_ip ss;
     fit 16 (to_dec (ss_client_port ss))].

Definition ss_hello_accepted (reply : option cstr) : bool :=
  match reply with
  | None => false
  | Some raw => match protocol_parse_message raw with f :: _ => streq f ($"OK") | [] => false end
  end.

Definition has_file_fields (d : Disk) (node : FileRecord) : list cstr :=
  let '(words, chars) := content_counts d (fr_filepath node) in
  let acl l := match ss_join_acl l MAX_FIELD_SIZE with Some b => b | None => [] end in
  [$"SS_HAS_FILE"; fr_filename node; fr_owner node; acl (fr_read_users node); acl (fr_write_users node);
   fit 32 (to_dec (get_file_size d (fr_filepath node))); fit 32 (to_dec (Z.of_nat words));
   fit 32 (to_dec (Z.of_nat chars))].

Definition ss_emit_file_list (ss : StorageServer) : Outbox :=
  concat (map (λ node, emit (ss_ns_sockfd ss) (has_file_fields (ss_disk ss) node)) (ss_files ss)) ++
  emit (ss_ns_sockfd ss) [$"SS_FILES_DONE"].

(** [ss_init]: [None] is the result -1.  The structure is not cleared before:
    [rest] is what follows in memory after the two addresses, should they take
    the whole of their arrays. *)
Definition ss_init (rest : cstr * cstr) (d : Disk) (ns_ip : cstr) (ns_port : Z) (client_ip : cstr) (client_port : Z)
    (entries : list cstr) (now : Z) : option StorageServer :=
  let ns_ip := strncpy_into rest.1 MAX_IP_LENGTH ns_ip in
  let client_ip := strncpy_into rest.2 MAX_IP_LENGTH client_ip in
  match ss_build_storage_path MAX_PATH_LENGTH client_ip client_port with
  | None => None
  | Some storage_path =>
      match create_directory_recursive d storage_path with
      | (_, false) => None
      | (d, true) =>
          Some (ss_load_existing_files
                  (mkSS ns_ip ns_port client_ip client_port (-1) storage_path false [] [] d 0)
                  entries now)
      end
  end.
