(* ===== verification/SSClient.v ===== *)
(** * Requests of clients to a storage server

    The [handle_client_*] functions of [src/storage_server/storage_server.c]
    and the dispatch of [client_thread].  A handler takes the state, the
    client's descriptor, the fields of the message and the time, and gives the
    new state and what it sent.  Each is one atomic step: it holds the file's
    lock from the moment it has found the file; the two places where the code
    reads state before it takes that lock are split into phases here
    ([etirw_begin] and [etirw_commit], [write_lock_begin] and
    [write_lock_commit]) so that [SSRaces] can interleave them. *)
From S2P Require Import Prelude CStr Utils Protocol Disk Sentences SSAcl SSFiles SSState.

Definition Step : Type := StorageServer * Outbox.

Definition field (msg : list cstr) (i : nat) : cstr := nth i msg [].

(** [parse_int]: the whole text must be a number in the range of [int]. *)
Definition parse_int (text : cstr) : option Z :=
  let r := strtol text in
  match st_end r with
  | [] => if (st_value r <? INT_MIN)%Z || (INT_MAX <? st_value r)%Z then None else Some (st_value r)
  | _ => None
  end.

(** The common beginning of the handlers: find the file, check the right. *)
Definition with_file (ss : StorageServer) (fd : Z) (filename username : cstr)
    (allowed : FileRecord → cstr → bool) (refusal : cstr) (k : FileRecord → Step) : Step :=
  match ss_find_file ss filename with
  | None => (ss, send_error_response fd ERR_FILE_NOT_FOUND ($"File not found"))
  | Some rec =>
      if allowed rec username then k rec
      else (ss, send_error_response fd ERR_PERMISSION_DENIED refusal)
  end.

(** The copy of a tag: cut to its buffer and trimmed; [None] when empty. *)
Definition tag_copy (tag : cstr) : option cstr :=
  match trim_string (fit MAX_TAG_LENGTH tag) with [] => None | t => Some t end.

(** ** Reading *)

Definition handle_client_read (ss : StorageServer) (fd : Z) (msg : list cstr) (now : Z) : Step :=
  if decide (length msg < 3) then
    (ss, send_error_response fd ERR_INVALID_REQUEST ($"Missing fields in REQ_READ"))
  else
    let username := field msg 1 in
    with_file ss fd (field msg 2) username ss_check_read_access ($"No read access") (λ rec,
      match ss_read_file_content (ss_disk ss) (fr_filepath rec) with
      | None => (ss, send_error_response fd ERR_INTERNAL_ERROR ($"Failed to read file"))
      | Some content =>
          (ss_touch_file_metadata ss rec (Some username) false now,
           emit fd [$"OK_READ_START"; fr_filename rec] ++ emit fd [$"OK_CONTENT"; content] ++
           emit fd [$"OK_READ_END"])
      end).

(** The word loop is the one of [split_words], with a pause after each word. *)
Definition handle_client_stream (ss : StorageServer) (fd : Z) (msg : list cstr) (now : Z) : Step :=
  if decide (length msg < 3) then
    (ss, send_error_response fd ERR_INVALID_REQUEST ($"Missing fields in REQ_STREAM"))
  else
    let username := field msg 1 in
    with_file ss fd (field msg 2) username ss_check_read_access ($"No read access") (λ rec,
      match ss_read_file_content (ss_disk ss) (fr_filepath rec) with
      | None => (ss, send_error_response fd ERR_INTERNAL_ERROR ($"Failed to read file"))
      | Some content =>
          (ss_touch_file_metadata ss rec (Some username) false now,
           emit fd [$"OK_STREAM"; fr_filename rec] ++
           concat (map (λ word, emit fd [$"OK_CONTENT"; word]) (split_words content)) ++
           emit fd [$"OK_STREAM_END"])
      end).

(** ** Writing *)

(** Up to the point where the file's lock is held: the record, by identity. *)
Definition write_lock_begin (ss : StorageServer) (fd : Z) (username filename : cstr)
  : StorageServer * (Outbox + nat) :=
  let ss := ss_abort_session ss fd in
  match ss_find_file ss filename with
  | None => (ss, inl (send_error_response fd ERR_FILE_NOT_FOUND ($"File not found")))
  | Some rec =>
      if ss_check_write_access rec username then (ss, inr (fr_id rec))
      else (ss, inl (send_error_response fd ERR_PERMISSION_DENIED ($"No write access")))
  end.

(** With the lock of [rec] held. *)
Definition write_lock_commit (ss : StorageServer) (fd : Z) (rec : FileRecord) (username : cstr)
    (sentence_index : Z) (index_field : cstr) : Step :=
  match ss_find_session_by_sentence ss rec sentence_index with
  | Some _ => (ss, send_error_response fd ERR_SENTENCE_LOCKED ($"Sentence already locked"))
  | None =>
      match ss_read_file_content (ss_disk ss) (fr_filepath rec) with
      | None => (ss, send_error_response fd ERR_INTERNAL_ERROR ($"Failed to read file"))
      | Some file_data =>
          match ss_get_sentence_bounds file_data sentence_index with
          | None => (ss, send_error_response fd ERR_INVALID_REQUEST ($"Sentence index out of range"))
          | Some (start, stop) =>
              let sentence_text := if decide (start < stop) then slice start stop file_data else [] in
              let '(ss, session) := ss_create_session ss fd rec username sentence_index start stop
                                      file_data sentence_text in
              (ss, emit fd [$"OK_LOCKED"; fr_filename rec; index_field] ++
                   emit fd [$"OK_CONTENT"; ws_sentence_working session])
          end
      end
  end.

Definition handle_client_write_lock (ss : StorageServer) (fd : Z) (msg : list cstr) : Step :=
  if decide (length msg < 4) then
    (ss, send_error_response fd ERR_INVALID_REQUEST ($"Missing fields in REQ_WRITE_LOCK"))
  else
    let username := field msg 1 in
    match parse_int (field msg 3) with
    | Some sentence_index =>
        if (sentence_index <? 0)%Z then
          (ss, send_error_response fd ERR_INVALID_REQUEST ($"Invalid sentence index"))
        else
          match write_lock_begin ss fd username (field msg 2) with
          | (ss, inl out) => (ss, out)
          | (ss, inr id) =>
              match deref ss id with
              | Some rec => write_lock_commit ss fd rec username sentence_index (field msg 3)
              | None => (ss, [])
              end
          end
    | None => (ss, send_error_response fd ERR_INVALID_REQUEST ($"Invalid sentence index"))
    end.

Definition handle_client_write_data (ss : StorageServer) (fd : Z) (msg : list cstr) : Step :=
  if decide (length msg < 3) then
    (ss, send_error_response fd ERR_INVALID_REQUEST ($"Missing fields in WRITE_DATA"))
  else
    match parse_int (field msg 1) with
    | Some word_index =>
        if (word_index <? 0)%Z then
          (ss, send_error_response fd ERR_INVALID_REQUEST ($"Invalid word index"))
        else
          match ss_find_session ss fd with
          | None => (ss, send_error_response fd ERR_INVALID_REQUEST ($"No active WRITE session"))
          | Some session =>
              match ss_apply_word_edit (ws_sentence_working session) word_index (field msg 2) with
              | None => (ss, send_error_response fd ERR_INVALID_REQUEST ($"Failed to apply edit"))
              | Some joined =>
                  (set_ss_sessions ss
                     (update_firstb (λ s, (ws_client_fd s =? fd)%Z) (λ s, with_working s joined)
                        (ss_sessions ss)),
                   send_simple_ok fd (Some ($"WRITE_DATA applied")))
              end
          end
    | None => (ss, send_error_response fd ERR_INVALID_REQUEST ($"Invalid word index"))
    end.

(** What a commit does to another session: those of the same file that begin
    at or after the end of the edited span move with the text. *)
Definition shift_session (file : nat) (edit_start old_len new_len : nat) (sentence_delta : Z)
    (s : WriteSession) : WriteSession :=
  if bool_decide (ws_file s = file) && bool_decide (edit_start + old_len <= ws_sentence_start s) then
    with_span s
      (if (sentence_delta =? 0)%Z then ws_sentence_index s
       else Z.max 0 (ws_sentence_index s + sentence_delta))
      (ws_sentence_start s - old_len + new_len) (ws_sentence_end s - old_len + new_len)
  else s.

Definition ss_update_active_sessions (ss : StorageServer) (rec : FileRecord)
    (edit_start old_len new_len : nat) (sentence_delta : Z) (exclude : Z) : StorageServer :=
  set_ss_sessions ss
    (map (λ s, if (ws_client_fd s =? exclude)%Z then s
               else shift_session (fr_id rec) edit_start old_len new_len sentence_delta s)
       (ss_sessions ss)).

(** The session's file and bounds, read under the sessions lock only. *)
Definition etirw_begin (ss : StorageServer) (fd : Z) : Outbox + (nat * nat * nat) :=
  match ss_find_session ss fd with
  | None => inl (send_error_response fd ERR_INVALID_REQUEST ($"No active WRITE session"))
  | Some session => inr (ws_file session, ws_sentence_start session, ws_sentence_end session)
  end.

(** With the lock of [rec] held: splice the working copy into the file at the
    bounds read before. *)
Definition etirw_commit (ss : StorageServer) (fd : Z) (rec : FileRecord) (session : WriteSession)
    (locked_start locked_end : nat) (now : Z) : Step :=
  let replacement := ws_sentence_working session in
  match ss_read_file_content (ss_disk ss) (fr_filepath rec) with
  | None => (ss, send_error_response fd ERR_INTERNAL_ERROR ($"Failed to read file"))
  | Some current_snapshot =>
      let base_len := length current_snapshot in
      if decide (base_len < locked_start ∨ base_len < locked_end ∨ locked_end < locked_start) then
        (ss, send_error_response fd ERR_INTERNAL_ERROR ($"Invalid sentence bounds"))
      else
        let old_len := locked_end - locked_start in
        let replacement_len := length replacement in
        let old_sentences := count_sentences_in_span current_snapshot locked_start locked_end in
        let new_sentences := count_sentences_in_span replacement 0 replacement_len in
        let new_content := splice current_snapshot locked_start locked_end replacement in
        match ss_write_file_content (ss_disk ss) (fr_undopath rec) current_snapshot with
        | (d, false) =>
            (set_ss_disk ss d, send_error_response fd ERR_INTERNAL_ERROR ($"Failed to persist undo"))
        | (d, true) =>
            match ss_write_file_content d (fr_filepath rec) new_content with
            | (d, false) =>
                (set_ss_disk ss d, send_error_response fd ERR_INTERNAL_ERROR ($"Failed to write file"))
            | (d, true) =>
                let ss := ss_touch_file_metadata (set_ss_disk ss d) (with_undo rec 1)
                            (Some (ws_username session)) true now in
                let ss := ss_update_active_sessions ss rec locked_start old_len replacement_len
                            (new_sentences - old_sentences) fd in
                let ss := ss_detach_session ss fd in
                (ss, emit fd [$"OK_WRITE_DONE"] ++ ss_sync_metadata_to_ns ss rec)
            end
        end
  end.

Definition handle_client_etirw (ss : StorageServer) (fd : Z) (now : Z) : Step :=
  match etirw_begin ss fd with
  | inl out => (ss, out)
  | inr (id, locked_start, locked_end) =>
      match deref ss id, ss_find_session ss fd with
      | Some rec, Some session => etirw_commit ss fd rec session locked_start locked_end now
      | _, _ => (ss, [])
      end
  end.

(** ** Undo and checkpoints *)

Definition handle_client_undo (ss : StorageServer) (fd : Z) (msg : list cstr) (now : Z) : Step :=
  if decide (length msg < 3) then
    (ss, send_error_response fd ERR_INVALID_REQUEST ($"Missing fields in REQ_UNDO"))
  else
    let username := field msg 1 in
    with_file ss fd (field msg 2) username ss_check_write_access ($"No write access") (λ rec,
      if ss_file_has_active_writers ss rec then
        (ss, send_error_response fd ERR_SENTENCE_LOCKED ($"File locked for writing"))
      else if (fr_undo_available rec =? 0)%Z || negb (file_exists (ss_disk ss) (fr_undopath rec)) then
        (ss, send_error_response fd ERR_NO_UNDO_HISTORY ($"No undo available"))
      else
        match ss_read_file_content (ss_disk ss) (fr_undopath rec) with
        | None => (ss, send_error_response fd ERR_INTERNAL_ERROR ($"Failed to read undo data"))
        | Some undo_content =>
            match ss_write_file_content (ss_disk ss) (fr_filepath rec) undo_content with
            | (d, false) =>
                (set_ss_disk ss d, send_error_response fd ERR_INTERNAL_ERROR ($"Failed to restore file"))
            | (d, true) =>
                (ss_touch_file_metadata (set_ss_disk ss d) (with_undo rec 0) (Some username) true now,
                 emit fd [$"OK_UNDO"])
            end
        end).

(** [snprintf(message, 256, "...'%s'...")]. *)
Definition quoted (before tag after : cstr) : cstr := fit 256 (before ++ tag ++ after).

Definition handle_client_checkpoint (ss : StorageServer) (fd : Z) (msg : list cstr) (now : Z) : Step :=
  if decide (length msg < 4) then
    (ss, send_error_response fd ERR_INVALID_REQUEST ($"Missing fields in REQ_CHECKPOINT"))
  else
    let username := field msg 1 in
    match tag_copy (field msg 3) with
    | None => (ss, send_error_response fd ERR_INVALID_REQUEST ($"Checkpoint tag cannot be empty"))
    | Some tag =>
        with_file ss fd (field msg 2) username ss_check_write_access ($"No write access") (λ rec,
          if ss_file_has_active_writers ss rec then
            (ss, send_error_response fd ERR_SENTENCE_LOCKED ($"File locked for writing"))
          else
            match ss_find_checkpoint rec tag with
            | Some _ => (ss, send_error_response fd ERR_INVALID_REQUEST ($"Checkpoint already exists"))
            | None =>
                let sanitized := match ss_sanitize_tag tag MAX_TAG_LENGTH with
                                 | [] => $"checkpoint"
                                 | s => s
                                 end in
                let ckpt_filename :=
                  fit (MAX_FILENAME_LENGTH + MAX_TAG_LENGTH + 32)
                    (fr_filename rec ++ $".ckpt_" ++ to_dec now ++ $"_" ++ sanitized) in
                match build_path MAX_PATH_LENGTH (ss_storage_path ss) ckpt_filename with
                | None =>
                    (ss, send_error_response fd ERR_INTERNAL_ERROR ($"Failed to build checkpoint path"))
                | Some ckpt_path =>
                    match ss_copy_file (ss_disk ss) (fr_filepath rec) ckpt_path with
                    | (d, false) =>
                        (set_ss_disk ss (unlink d ckpt_path),
                         send_error_response fd ERR_INTERNAL_ERROR ($"Failed to persist checkpoint"))
                    | (d, true) =>
                        let '(d, rec) :=
                          if decide (SS_MAX_CHECKPOINTS <= length (fr_checkpoints rec))
                          then ss_prune_oldest_checkpoint d rec else (d, rec) in
                        let slot := mkCheckpoint (fit MAX_FILENAME_LENGTH tag)
                                      (fit MAX_PATH_LENGTH ckpt_path) in
                        let rec := with_checkpoints rec (fr_checkpoints rec ++ [slot]) in
                        (ss_touch_file_metadata (set_ss_disk ss d) rec (Some username) false now,
                         emit fd [$"OK_CHECKPOINT"; quoted ($"Checkpoint '") tag ($"' created.")])
                    end
                end
            end)
    end.

Definition handle_client_viewcheckpoint (ss : StorageServer) (fd : Z) (msg : list cstr) (now : Z)
  : Step :=
  if decide (length msg < 4) then
    (ss, send_error_response fd ERR_INVALID_REQUEST ($"Missing fields in REQ_VIEWCHECKPOINT"))
  else
    let username := field msg 1 in
    match tag_copy (field msg 3) with
    | None => (ss, send_error_response fd ERR_INVALID_REQUEST ($"Checkpoint tag cannot be empty"))
    | Some tag =>
        with_file ss fd (field msg 2) username ss_check_read_access ($"No read access") (λ rec,
          match ss_find_checkpoint rec tag with
          | None => (ss, send_error_response fd ERR_INVALID_REQUEST ($"Checkpoint not found"))
          | Some ckpt =>
              if negb (ss_file_exists (ss_disk ss) (ck_filepath ckpt)) then
                (ss, send_error_response fd ERR_INTERNAL_ERROR ($"Checkpoint data missing"))
              else
                match ss_read_file_content (ss_disk ss) (ck_filepath ckpt) with
                | None => (ss, send_error_response fd ERR_INTERNAL_ERROR ($"Failed to read checkpoint"))
                | Some content =>
                    let display_name :=
                      fit (MAX_FILENAME_LENGTH + MAX_TAG_LENGTH + 4)
                        (fr_filename rec ++ $" [" ++ tag ++ $"]") in
                    (ss_touch_file_metadata ss rec (Some username) false now,
                     emit fd [$"OK_READ_START"; display_name] ++ emit fd [$"OK_CONTENT"; content] ++
                     emit fd [$"OK_READ_END"])
                end
          end)
    end.

Definition handle_client_revert (ss : StorageServer) (fd : Z) (msg : list cstr) (now : Z) : Step :=
  if decide (length msg < 4) then
    (ss, send_error_response fd ERR_INVALID_REQUEST ($"Missing fields in REQ_REVERT"))
  else
    let username := field msg 1 in
    match tag_copy (field msg 3) with
    | None => (ss, send_error_response fd ERR_INVALID_REQUEST ($"Checkpoint tag cannot be empty"))
    | Some tag =>
        with_file ss fd (field msg 2) username ss_check_write_access ($"No write access") (λ rec,
          if ss_file_has_active_writers ss rec then
            (ss, send_error_response fd ERR_SENTENCE_LOCKED ($"File locked for writing"))
          else
            match ss_find_checkpoint rec tag with
            | None => (ss, send_error_response fd ERR_INVALID_REQUEST ($"Checkpoint not found"))
            | Some ckpt =>
                if negb (ss_file_exists (ss_disk ss) (ck_filepath ckpt)) then
                  (ss, send_error_response fd ERR_INTERNAL_ERROR ($"Checkpoint data missing"))
                else
                  match ss_copy_file (ss_disk ss) (fr_filepath rec) (fr_undopath rec) with
                  | (d, false) =>
                      (set_ss_disk ss d,
                       send_error_response fd ERR_INTERNAL_ERROR ($"Failed to create undo snapshot"))
                  | (d, true) =>
                      match ss_copy_file d (ck_filepath ckpt) (fr_filepath rec) with
                      | (d, false) =>
                          let '(d, _) := ss_copy_file d (fr_undopath rec) (fr_filepath rec) in
                          (set_ss_disk ss d,
                           send_error_response fd ERR_INTERNAL_ERROR ($"Failed to revert file"))
                      | (d, true) =>
                          (ss_touch_file_metadata (set_ss_disk ss d) (with_undo rec 1) (Some username)
                             true now,
                           emit fd [$"OK_REVERT"; quoted ($"File reverted to '") tag ($"'.")])
                      end
                  end
            end)
    end.

Definition handle_client_listcheckpoints (ss : StorageServer) (fd : Z) (msg : list cstr) (now : Z)
  : Step :=
  if decide (length msg < 3) then
    (ss, send_error_response fd ERR_INVALID_REQUEST ($"Missing fields in REQ_LIST_CHECKPOINTS"))
  else
    let username := field msg 1 in
    with_file ss fd (field msg 2) username ss_check_read_access ($"No read access") (λ rec,
      (ss_touch_file_metadata ss rec (Some username) false now,
       concat (map (λ ck, emit fd [$"OK_LIST_CHECKPOINT"; ck_tag ck]) (fr_checkpoints rec)) ++
       emit fd [$"OK_LIST_CHECKPOINT_END"])).

(** ** The dispatch of [client_thread] *)

Definition client_message (ss : StorageServer) (fd : Z) (msg : list cstr) (now : Z) : Step :=
  match msg with
  | [] => (ss, [])
  | command :: _ =>
      if streq command ($"REQ_READ") then handle_client_read ss fd msg now
      else if streq command ($"REQ_STREAM") then handle_client_stream ss fd msg now
      else if streq command ($"REQ_WRITE_LOCK") then handle_client_write_lock ss fd msg
      else if streq command ($"WRITE_DATA") then handle_client_write_data ss fd msg
      else if streq command ($"ETIRW") then handle_client_etirw ss fd now
      else if streq command ($"REQ_UNDO") then handle_client_undo ss fd msg now
      else if streq command ($"REQ_CHECKPOINT") then handle_client_checkpoint ss fd msg now
      else if streq command ($"REQ_VIEWCHECKPOINT") then handle_client_viewcheckpoint ss fd msg now
      else if streq command ($"REQ_REVERT") then handle_client_revert ss fd msg now
      else if streq command ($"REQ_LIST_CHECKPOINTS") then handle_client_listcheckpoints ss fd msg now
      else (ss, send_error_response fd ERR_INVALID_REQUEST ($"Unsupported command"))
  end.

(** One turn of the loop of [client_thread]: a raw message, or the end of the
    connection, which releases the client's lock. *)
Definition client_thread_turn (ss : StorageServer) (fd : Z) (raw : option cstr) (now : Z) : Step :=
  match raw with
  | Some raw => client_message ss fd (protocol_parse_message raw) now
  | None => (ss_abort_session ss fd, [])
  end.
