(* ===== verification/SSControl.v ===== *)
(** * Commands of the name server to a storage server

    The dispatch of [ns_control_loop] and [handle_ss_copy] of
    [src/storage_server/storage_server.c].  Every reply goes to the name
    server's descriptor.  The peer that a copy reads from is another process:
    what it does is the argument [Peer]. *)
From S2P Require Import Prelude CStr Utils Protocol Disk Sentences SSAcl SSFiles SSState SSClient.

Definition reply (ss : StorageServer) (fields : list cstr) : Outbox := emit (ss_ns_sockfd ss) fields.

Definition ns_create_file (ss : StorageServer) (msg : list cstr) (now : Z) : Step :=
  if decide (length msg < 3) then
    (ss, ss_send_ns_error ss ERR_INVALID_REQUEST ($"CREATE_FILE missing fields"))
  else
    let filename := field msg 1 in
    let owner := field msg 2 in
    if negb (validate_filename filename) || negb (validate_username owner) then
      (ss, ss_send_ns_error ss ERR_INVALID_REQUEST ($"Invalid filename or owner"))
    else
      match ss_create_file ss filename owner now with
      | (ss, false) => (ss, ss_send_ns_error ss ERR_FILE_EXISTS ($"File already exists"))
      | (ss, true) => (ss, reply ss [$"OK_CREATE"; filename])
      end.

Definition ns_delete_file (ss : StorageServer) (msg : list cstr) : Step :=
  if decide (length msg < 2) then
    (ss, ss_send_ns_error ss ERR_INVALID_REQUEST ($"DELETE_FILE missing filename"))
  else
    let filename := field msg 1 in
    if negb (validate_filename filename) then
      (ss, ss_send_ns_error ss ERR_INVALID_REQUEST ($"Invalid filename"))
    else
      match ss_delete_file ss filename with
      | (ss, DeleteNotFound) => (ss, ss_send_ns_error ss ERR_FILE_NOT_FOUND ($"File not found"))
      | (ss, DeleteLocked) => (ss, ss_send_ns_error ss ERR_SENTENCE_LOCKED ($"File is locked for writing"))
      | (ss, Deleted) => (ss, reply ss [$"OK_DELETE"; filename])
      end.

Definition ns_get_stats (ss : StorageServer) (msg : list cstr) : Step :=
  if decide (length msg < 2) then
    (ss, ss_send_ns_error ss ERR_INVALID_REQUEST ($"GET_STATS missing filename"))
  else
    match ss_find_file ss (field msg 1) with
    | None => (ss, ss_send_ns_error ss ERR_FILE_NOT_FOUND ($"Stats target missing"))
    | Some rec =>
        let size := get_file_size (ss_disk ss) (fr_filepath rec) in
        let '(words, chars) := content_counts (ss_disk ss) (fr_filepath rec) in
        (ss, reply ss
           [$"OK_STATS"; fr_filename rec; fr_owner rec;
            fit 32 (to_dec (if (0 <=? size)%Z then size else 0%Z));
            fit 32 (to_dec (Z.of_nat words)); fit 32 (to_dec (Z.of_nat chars));
            fit 32 (to_dec (fr_created rec)); fit 32 (to_dec (fr_modified rec));
            fit 32 (to_dec (fr_last_access rec)); fr_last_access_user rec])
    end.

Definition ns_get_content (ss : StorageServer) (msg : list cstr) : Step :=
  if decide (length msg < 2) then
    (ss, ss_send_ns_error ss ERR_INVALID_REQUEST ($"GET_CONTENT missing filename"))
  else
    match ss_find_file ss (field msg 1) with
    | None => (ss, ss_send_ns_error ss ERR_FILE_NOT_FOUND ($"Content file missing"))
    | Some rec =>
        match ss_read_file_content (ss_disk ss) (fr_filepath rec) with
        | None => (ss, ss_send_ns_error ss ERR_INTERNAL_ERROR ($"Failed to read file"))
        | Some content => (ss, reply ss [$"OK_CONTENT"; fr_filename rec; content])
        end
    end.

Definition ns_rename (ss : StorageServer) (msg : list cstr) (now : Z) : Step :=
  if decide (length msg < 5) then
    (ss, ss_send_ns_error ss ERR_INVALID_REQUEST ($"SS_RENAME missing fields"))
  else if negb (validate_filename (field msg 1)) || negb (validate_filename (field msg 2)) then
    (ss, ss_send_ns_error ss ERR_INVALID_REQUEST ($"Invalid logical path"))
  else
    match ss_handle_rename ss (field msg 1) (field msg 2) (field msg 3) (field msg 4) now with
    | (ss, false) => (ss, ss_send_ns_error ss ERR_INTERNAL_ERROR ($"Rename failed"))
    | (ss, true) => (ss, reply ss [$"OK"])
    end.

(** ** Access lists *)

(** The flags [want_read], [want_write] of a permission token. *)
Definition permission_flags (token : cstr) : bool * bool :=
  foldl (λ st c, let c := toupper c in
                 if bool_decide (c = "R"%char) then (true, st.2)
                 else if bool_decide (c = "W"%char) then (st.1, true) else st)
    (false, false) token.

(** One conditional [ss_acl_add]: the list, whether it grew, whether it failed. *)
Definition add_if (want had : bool) (entries : list cstr) (username : cstr) : list cstr * bool * bool :=
  if want && negb had then
    match ss_acl_add entries username with
    | (entries, r) => if (r <? 0)%Z then (entries, false, true) else (entries, (0 <? r)%Z, false)
    end
  else (entries, false, false).

Definition remove_if (added : bool) (entries : list cstr) (username : cstr) : list cstr :=
  if added then (ss_acl_remove entries username).1 else entries.

Definition ns_add_access (ss : StorageServer) (msg : list cstr) : Step :=
  if decide (length msg < 4) then
    (ss, ss_send_ns_error ss ERR_INVALID_REQUEST ($"ADDACCESS missing fields"))
  else
    let filename := field msg 1 in
    let username := field msg 2 in
    match ss_find_file ss filename with
    | None => (ss, ss_send_ns_error ss ERR_FILE_NOT_FOUND ($"File not found"))
    | Some rec =>
        let '(want_read, want_write) := permission_flags (field msg 3) in
        if negb want_read && negb want_write then
          (ss, ss_send_ns_error ss ERR_INVALID_REQUEST ($"Invalid permission token"))
        else
          let had_read := ss_acl_contains (fr_read_users rec) username in
          let had_write := ss_acl_contains (fr_write_users rec) username in
          let '(readers, added_read, failed_r) :=
            add_if want_read had_read (fr_read_users rec) username in
          let '(writers, added_write, failed_w) :=
            add_if (negb failed_r && want_write) had_write (fr_write_users rec) username in
          let failed := failed_r || failed_w in
          let rec' := with_acl rec readers writers in
          let '(d, written) :=
            if negb failed && (added_read || added_write)
            then ss_write_metadata (ss_disk ss) rec' else (ss_disk ss, true) in
          if failed || negb written then
            (update_rec (set_ss_disk ss d)
               (with_acl rec (remove_if added_read readers username)
                  (remove_if added_write writers username)),
             ss_send_ns_error ss ERR_INTERNAL_ERROR ($"Failed to update ACL metadata"))
          else
            (update_rec (set_ss_disk ss d) rec', reply ss [$"OK_ACCESS_CHANGED"; filename])
    end.

Definition ns_remove_access (ss : StorageServer) (msg : list cstr) : Step :=
  if decide (length msg < 3) then
    (ss, ss_send_ns_error ss ERR_INVALID_REQUEST ($"REMACCESS missing fields"))
  else
    let filename := field msg 1 in
    let username := field msg 2 in
    match ss_find_file ss filename with
    | None => (ss, ss_send_ns_error ss ERR_FILE_NOT_FOUND ($"File not found"))
    | Some rec =>
        let '(readers, removed_read) := ss_acl_remove (fr_read_users rec) username in
        let '(writers, removed_write) := ss_acl_remove (fr_write_users rec) username in
        if negb removed_read && negb removed_write then
          (ss, ss_send_ns_error ss ERR_USER_NOT_FOUND ($"User not present in ACL"))
        else
          match ss_write_metadata (ss_disk ss) (with_acl rec readers writers) with
          | (d, false) =>
              let back (removed : bool) entries :=
                if removed then (ss_acl_add entries username).1 else entries in
              (update_rec (set_ss_disk ss d)
                 (with_acl rec (back removed_read readers) (back removed_write writers)),
               ss_send_ns_error ss ERR_INTERNAL_ERROR ($"Failed to persist ACL metadata"))
          | (d, true) =>
              (update_rec (set_ss_disk ss d) (with_acl rec readers writers),
               reply ss [$"OK_ACCESS_CHANGED"; filename])
          end
    end.

(** ** Copying *)

(** The source server as seen through its socket: whether it can be reached,
    whether the request can be sent, and what each [protocol_receive_message]
    returns ([None] is NULL, also after the end of the list). *)
Record Peer := mkPeer { peer_reachable : bool; peer_sendable : bool; peer_replies : list (option cstr) }.

(** What the receive loop of a copy ends with. *)
Inductive CopyResult := CopyOk (data : cstr) | CopyFailed (failure_code : Z) (failure_msg : cstr).

(** Whether [fwrite] counts a chunk as written that makes the temporary file
    [total] bytes long. *)
Definition write_room (d : Disk) (path : cstr) (total : nat) : bool :=
  match dk_fault d path with ShortWrite n true => bool_decide (total <= n) | _ => true end.

Fixpoint copy_stream (d : Disk) (temp_path : cstr) (replies : list (option cstr)) (data : cstr)
  : CopyResult :=
  match replies with
  | [] | None :: _ => CopyFailed ERR_INTERNAL_ERROR ($"Connection dropped during COPY")
  | Some raw :: replies =>
      let peer_msg := protocol_parse_message raw in
      if protocol_is_error peer_msg then
        let peer_code := protocol_get_error_code peer_msg in
        if (peer_code =? ERR_FILE_NOT_FOUND)%Z then CopyFailed ERR_FILE_NOT_FOUND ($"Source file not found")
        else if (peer_code =? ERR_PERMISSION_DENIED)%Z then
          CopyFailed ERR_PERMISSION_DENIED ($"Source access denied")
        else CopyFailed ERR_INTERNAL_ERROR ($"Source server rejected COPY")
      else
        let type := field peer_msg 0 in
        if streq type ($"OK_CONTENT") && bool_decide (2 <= length peer_msg) then
          let chunk := field peer_msg 1 in
          if write_room d temp_path (length data + length chunk)
          then copy_stream d temp_path replies (data ++ chunk)
          else CopyFailed ERR_INTERNAL_ERROR ($"Failed to persist stream chunk")
        else if streq type ($"OK_READ_END") then CopyOk data
        else copy_stream d temp_path replies data
  end.

(** The content fetched from the peer into the temporary file. *)
Definition copy_remote (d : Disk) (temp_path : cstr) (peer : Peer) : Disk * CopyResult :=
  if negb (peer_reachable peer) then
    (d, CopyFailed ERR_INTERNAL_ERROR ($"Failed to reach source server"))
  else if negb (peer_sendable peer) then
    (d, CopyFailed ERR_INTERNAL_ERROR ($"Failed to request source content"))
  else
    match write_file d temp_path [] with
    | (_, WOpenFailed) => (d, CopyFailed ERR_INTERNAL_ERROR ($"Failed to create temporary file"))
    | (d, _) =>
        match copy_stream d temp_path (peer_replies peer) [] with
        | CopyOk data => ((write_file d temp_path data).1, CopyOk data)
        | failure => (unlink d temp_path, failure)
        end
    end.

(** The part under the two file locks, after the busy checks. *)
Definition copy_content (ss : StorageServer) (dest_rec : FileRecord) (src_rec : option FileRecord)
    (username : cstr) (peer : Peer) (now : Z) : Step :=
  let temp_path := fit MAX_PATH_LENGTH (fr_filepath dest_rec ++ $".copytmp") in
  let d := unlink (ss_disk ss) temp_path in
  let '(d, failure) :=
    match src_rec with
    | Some src_rec =>
        match ss_copy_file d (fr_filepath src_rec) temp_path with
        | (d, true) => (d, None)
        | (d, false) => (d, Some (ERR_INTERNAL_ERROR, $"Failed to clone local source file"))
        end
    | None =>
        match copy_remote d temp_path peer with
        | (d, CopyOk _) => (d, None)
        | (d, CopyFailed code msg) => (d, Some (code, msg))
        end
    end in
  let '(d, failure) :=
    match failure with
    | Some _ => (d, failure)
    | None =>
        match rename d temp_path (fr_filepath dest_rec) with
        | (d, true) => (d, None)
        | (d, false) => (d, Some (ERR_INTERNAL_ERROR, $"Failed to finalize destination file"))
        end
    end in
  match failure with
  | Some (code, msg) => (set_ss_disk ss (unlink d temp_path), ss_send_ns_error ss code msg)
  | None =>
      let ss := ss_touch_file_metadata (set_ss_disk ss d) dest_rec (Some username) true now in
      (ss, ss_sync_metadata_to_ns ss dest_rec ++
           send_simple_ok (ss_ns_sockfd ss) (Some ($"Copy successful")))
  end.

Definition handle_ss_copy (ss : StorageServer) (msg : list cstr) (peer : cstr → Z → Peer) (now : Z)
  : Step :=
  if decide (length msg < 6) then
    (ss, ss_send_ns_error ss ERR_INVALID_REQUEST ($"SS_COPY missing fields"))
  else
    let dest_filename := field msg 1 in
    let src_ip := field msg 2 in
    let src_filename := field msg 4 in
    let username := field msg 5 in
    if negb (validate_filename dest_filename) || negb (validate_filename src_filename) ||
       negb (validate_username username) then
      (ss, ss_send_ns_error ss ERR_INVALID_REQUEST ($"Invalid COPY request payload"))
    else
      let source_is_local := streq src_ip ($"LOCAL") in
      let src_port := match parse_int (field msg 3) with Some p => p | None => 0%Z end in
      if negb source_is_local && (src_port <=? 0)%Z then
        (ss, ss_send_ns_error ss ERR_INVALID_REQUEST ($"Invalid source endpoint"))
      else
        match ss_find_file ss dest_filename with
        | None => (ss, ss_send_ns_error ss ERR_FILE_NOT_FOUND ($"Destination file not found"))
        | Some dest_rec =>
            let src_rec := if source_is_local then ss_find_file ss src_filename else None in
            if source_is_local && bool_decide (src_rec = None) then
              (ss, ss_send_ns_error ss ERR_FILE_NOT_FOUND ($"Source file not found"))
            else if ss_file_has_active_writers ss dest_rec then
              (ss, ss_send_ns_error ss ERR_SENTENCE_LOCKED ($"Destination locked for writing"))
            else if match src_rec with
                    | Some src_rec => ss_file_has_active_writers ss src_rec
                    | None => false
                    end then
              (ss, ss_send_ns_error ss ERR_SENTENCE_LOCKED ($"Source locked for writing"))
            else copy_content ss dest_rec src_rec username (peer src_ip src_port) now
        end.

(** ** The dispatch of [ns_control_loop] *)

Definition ns_message (ss : StorageServer) (msg : list cstr) (peer : cstr → Z → Peer) (now : Z) : Step :=
  match msg with
  | [] => (ss, [])
  | command :: _ =>
      if streq command ($"CREATE_FILE") then ns_create_file ss msg now
      else if streq command ($"DELETE_FILE") then ns_delete_file ss msg
      else if streq command ($"GET_STATS") then ns_get_stats ss msg
      else if streq command ($"GET_CONTENT") then ns_get_content ss msg
      else if streq command ($"SS_RENAME") then ns_rename ss msg now
      else if streq command ($"SS_ADDACCESS") then ns_add_access ss msg
      else if streq command ($"SS_REMACCESS") then ns_remove_access ss msg
      else if streq command ($"SS_COPY") then handle_ss_copy ss msg peer now
      else (ss, [])
  end.

(** One turn of the loop: losing the name server stops the process. *)
Definition ns_control_turn (ss : StorageServer) (raw : option cstr) (peer : cstr → Z → Peer) (now : Z)
  : Step :=
  match raw with
  | Some raw => ns_message ss (protocol_parse_message raw) peer now
  | None => (set_ss_running ss false, [])
  end.
