(* ===== verification/SSInv.v ===== *)
(** * The lock invariant of the storage server

    What holds in every reachable state of a storage server: records have
    distinct identities and content paths, sidecars never coincide with
    documents, no two write sessions lock the same sentence or belong to the
    same client, and every session still points at the sentence it locked.
    This file has the definitions and the frame lemma that most handlers need;
    [SSInvClient] and [SSInvControl] show that each handler keeps it. *)
From S2P Require Import Prelude CStr Utils Disk Sentences SSAcl SSFiles SSState.

(** A path a document's content may have: not that of a sidecar. *)
Definition doc_path (p : cstr) : bool :=
  negb (bool_decide (p = [])) && negb (string_ends_with p SS_META_SUFFIX) &&
  negb (string_ends_with p SS_UNDO_SUFFIX) && negb (string_ends_with p ($".copytmp")) &&
  negb (contains_sub p ($".ckpt_")).

(** The part of a record that says which files it owns. *)
Definition rec_key (r : FileRecord) : nat * cstr * (cstr * cstr * cstr) :=
  (fr_id r, fr_filename r, (fr_filepath r, fr_metapath r, fr_undopath r)).

Record rec_ok (r : FileRecord) : Prop := {
  ro_name : length (fr_filename r) < MAX_FILENAME_LENGTH;
  ro_doc : doc_path (fr_filepath r) = true;
  ro_short : length (fr_filepath r) + 8 < MAX_PATH_LENGTH;
  ro_meta : doc_path (fr_metapath r) = false;
  ro_undo : doc_path (fr_undopath r) = false;
  ro_ckpts : Forall (λ ck, doc_path (ck_filepath ck) = false) (fr_checkpoints r)
}.

(** The content path of a document is that of its flattened name. *)
Definition canon (storage_path filename filepath : cstr) : Prop :=
  ∃ flat, flatten_logical_path filename MAX_FILENAME_LENGTH = Some flat ∧
    filepath = storage_path ++ [c_slash] ++ flat.

(** The session's bounds are those of its sentence in the file as it is now,
    and its working copy still closes the sentence if the sentence is closed. *)
Definition session_ok (ss : StorageServer) (s : WriteSession) : Prop :=
  ∃ rec text, deref ss (ws_file s) = Some rec ∧
    dk_files (ss_disk ss) !! fr_filepath rec = Some text ∧
    (0 <= ws_sentence_index s)%Z ∧
    spans text !! Z.to_nat (ws_sentence_index s) = Some (ws_sentence_start s, ws_sentence_end s) ∧
    (ends_with_delimiter (slice (ws_sentence_start s) (ws_sentence_end s) text) = true →
     ends_with_delimiter (ws_sentence_working s) = true).

Definition lock_of (s : WriteSession) : nat * Z := (ws_file s, ws_sentence_index s).

Record ss_inv (ss : StorageServer) : Prop := {
  inv_ids : NoDup (map fr_id (ss_files ss));
  inv_next : Forall (λ r, fr_id r < ss_next_id ss) (ss_files ss);
  inv_names : NoDup (map fr_filename (ss_files ss));
  inv_paths : NoDup (map fr_filepath (ss_files ss));
  inv_recs : Forall rec_ok (ss_files ss);
  inv_canon : Forall (λ r, canon (ss_storage_path ss) (fr_filename r) (fr_filepath r)) (ss_files ss);
  inv_disk : no_short (ss_disk ss);
  inv_fds : NoDup (map ws_client_fd (ss_sessions ss));
  inv_locks : NoDup (map lock_of (ss_sessions ss));
  inv_sessions : Forall (session_ok ss) (ss_sessions ss)
}.

(** ** Sidecars *)

Lemma string_ends_with_app a b : string_ends_with (a ++ b) b = true.
Proof.
  unfold string_ends_with. rewrite decide_False; [rewrite length_app; lia|].
  apply streq_true. rewrite length_app Nat.add_sub. apply drop_app_length.
Qed.

Lemma contains_sub_app a b n : contains_sub (a ++ n ++ b) n = true.
Proof.
  induction a as [|c a IH]; cbn [app contains_sub].
  - assert (string_starts_with (n ++ b) n = true) as H by (apply strneq_prefix; by exists b).
    destruct (n ++ b); cbn [contains_sub]; by rewrite H.
  - by rewrite IH orb_true_r.
Qed.

Lemma doc_path_meta p : doc_path (p ++ SS_META_SUFFIX) = false.
Proof. unfold doc_path. rewrite (string_ends_with_app p) /=. by rewrite !andb_false_r. Qed.

Lemma doc_path_undo p : doc_path (p ++ SS_UNDO_SUFFIX) = false.
Proof. unfold doc_path. rewrite (string_ends_with_app p SS_UNDO_SUFFIX) /=. by rewrite !andb_false_r. Qed.

Lemma doc_path_copytmp p : doc_path (p ++ $".copytmp") = false.
Proof. unfold doc_path. rewrite (string_ends_with_app p ($".copytmp")) /=. by rewrite !andb_false_r. Qed.

Lemma doc_path_ckpt a b : doc_path (a ++ $".ckpt_" ++ b) = false.
Proof. unfold doc_path. rewrite contains_sub_app. by rewrite !andb_false_r. Qed.

Lemma doc_path_empty : doc_path [] = false.
Proof. done. Qed.

(** ** Looking up records and sessions *)

Lemma deref_Some ss id rec : deref ss id = Some rec → rec ∈ ss_files ss ∧ fr_id rec = id.
Proof. intros [? ?%bool_decide_eq_true]%firstb_elem. done. Qed.

Lemma deref_elem ss rec : NoDup (map fr_id (ss_files ss)) → rec ∈ ss_files ss → deref ss (fr_id rec) = Some rec.
Proof.
  intros Hnd Hin. unfold deref. destruct (firstb _ (ss_files ss)) as [r|] eqn:Hf.
  - apply firstb_elem in Hf as [Hr Hid%bool_decide_eq_true]. f_equal.
    by eapply (NoDup_key_inj fr_id).
  - apply firstb_None in Hf. rewrite Forall_forall in Hf. specialize (Hf rec Hin).
    by apply bool_decide_eq_false in Hf.
Qed.

Lemma deref_iff ss id rec : NoDup (map fr_id (ss_files ss)) →
  deref ss id = Some rec ↔ rec ∈ ss_files ss ∧ fr_id rec = id.
Proof. intros Hnd. split; [apply deref_Some|]. intros [Hin <-]. by apply deref_elem. Qed.

Lemma find_file_Some ss name rec : ss_find_file ss name = Some rec → rec ∈ ss_files ss ∧ same_name name rec = true.
Proof. apply firstb_elem. Qed.

Lemma find_session_Some ss fd s : ss_find_session ss fd = Some s → s ∈ ss_sessions ss ∧ ws_client_fd s = fd.
Proof. intros [? ?%Z.eqb_eq]%firstb_elem. done. Qed.

Lemma no_writers ss rec s :
  ss_file_has_active_writers ss rec = false → s ∈ ss_sessions ss → ws_file s ≠ fr_id rec.
Proof.
  unfold ss_file_has_active_writers. intros Hf Hin Heq.
  apply not_true_iff_false in Hf. apply Hf. apply existsb_exists. exists s.
  split; [by apply list_elem_of_In|]. by apply bool_decide_eq_true.
Qed.

Lemma no_session_by_sentence ss rec i s :
  ss_find_session_by_sentence ss rec i = None → s ∈ ss_sessions ss → lock_of s ≠ (fr_id rec, i).
Proof.
  intros Hf%firstb_None Hin Heq. rewrite Forall_forall in Hf. specialize (Hf s Hin).
  unfold lock_of in Heq. simplify_eq. rewrite Z.eqb_refl bool_decide_eq_true_2 in Hf; done.
Qed.

Lemma detach_filter ss fd : NoDup (map ws_client_fd (ss_sessions ss)) →
  ss_sessions (ss_detach_session ss fd) = filter (λ s, (ws_client_fd s =? fd)%Z = false) (ss_sessions ss).
Proof. intros Hnd. apply (remove_firstb_filter ws_client_fd _ fd); [|done]. intros s. apply Z.eqb_eq. Qed.

(** ** Changing a record in place *)

Lemma update_rec_keys ss rec old :
  NoDup (map fr_id (ss_files ss)) → old ∈ ss_files ss → rec_key rec = rec_key old →
  map rec_key (ss_files (update_rec ss rec)) = map rec_key (ss_files ss).
Proof.
  intros Hnd Hold Hkey. cbn. rewrite map_map. apply map_ext_in. intros r Hr.
  apply list_elem_of_In in Hr. case_decide as Hid; [|done].
  assert (r = old) as ->; [|done]. eapply (NoDup_key_inj fr_id); [done..|].
  rewrite Hid. unfold rec_key in Hkey. congruence.
Qed.

Lemma update_rec_ok ss rec : Forall rec_ok (ss_files ss) → rec_ok rec →
  Forall rec_ok (ss_files (update_rec ss rec)).
Proof.
  intros Hall Hrec. cbn. rewrite !Forall_forall in Hall *. intros r Hr.
  apply list_elem_of_In, in_map_iff in Hr as (r0 & <- & Hr0). apply list_elem_of_In in Hr0.
  case_decide; auto.
Qed.

Lemma keys_ids fs fs' : map rec_key fs' = map rec_key fs → map fr_id fs' = map fr_id fs.
Proof.
  intros H. apply (f_equal (map (λ k, k.1.1))) in H. by rewrite !map_map in H.
Qed.

Lemma keys_names fs fs' : map rec_key fs' = map rec_key fs → map fr_filename fs' = map fr_filename fs.
Proof. intros H. apply (f_equal (map (λ k, k.1.2))) in H. by rewrite !map_map in H. Qed.

Lemma keys_paths fs fs' : map rec_key fs' = map rec_key fs → map fr_filepath fs' = map fr_filepath fs.
Proof. intros H. apply (f_equal (map (λ k, k.2.1.1))) in H. by rewrite !map_map in H. Qed.

Lemma keys_canon sp fs fs' : map rec_key fs' = map rec_key fs →
  Forall (λ r, canon sp (fr_filename r) (fr_filepath r)) fs →
  Forall (λ r, canon sp (fr_filename r) (fr_filepath r)) fs'.
Proof.
  intros Hk H. rewrite -(Forall_map rec_key (λ k, canon sp k.1.2 k.2.1.1)) in H.
  rewrite -(Forall_map rec_key (λ k, canon sp k.1.2 k.2.1.1)). by rewrite Hk.
Qed.

Lemma keys_deref ss ss' id rec :
  NoDup (map fr_id (ss_files ss)) → map rec_key (ss_files ss') = map rec_key (ss_files ss) →
  deref ss id = Some rec → ∃ rec', deref ss' id = Some rec' ∧ rec_key rec' = rec_key rec.
Proof.
  intros Hnd Hk [Hin <-]%deref_Some.
  assert (Hin' : rec_key rec ∈ map rec_key (ss_files ss')) by (rewrite Hk; by apply (list_elem_of_fmap_2 rec_key)).
  apply list_elem_of_In, in_map_iff in Hin' as (rec' & Hkey & Hin'). apply list_elem_of_In in Hin'.
  exists rec'. split; [|done]. rewrite (_ : fr_id rec = fr_id rec'); [unfold rec_key in Hkey; congruence|].
  apply deref_elem; [by rewrite (keys_ids _ _ Hk)|done].
Qed.

(** ** What a step leaves to the sessions *)

(** The text of the sentence a session holds, as it is in the file now. *)
Definition locked_text (ss : StorageServer) (s : WriteSession) : option cstr :=
  rec ← deref ss (ws_file s);
  text ← dk_files (ss_disk ss) !! fr_filepath rec;
  Some (slice (ws_sentence_start s) (ws_sentence_end s) text).

(** Every session, but those of [fd], is still there with the same file, user
    and working copy, and holds the same text. *)
Definition keeps (fd : option Z) (ss ss' : StorageServer) : Prop :=
  ∀ s, s ∈ ss_sessions ss → Some (ws_client_fd s) ≠ fd →
    ∃ s', s' ∈ ss_sessions ss' ∧ ws_client_fd s' = ws_client_fd s ∧ ws_file s' = ws_file s ∧
      ws_username s' = ws_username s ∧ ws_sentence_working s' = ws_sentence_working s ∧
      locked_text ss' s' = locked_text ss s.

(** The sessions are untouched, and so is the content of their files. *)
Record carry (ss ss' : StorageServer) : Prop := {
  ca_sessions : ss_sessions ss' = ss_sessions ss;
  ca_docs : ∀ s rec, s ∈ ss_sessions ss → deref ss (ws_file s) = Some rec →
    ∃ rec', deref ss' (ws_file s) = Some rec' ∧
      dk_files (ss_disk ss') !! fr_filepath rec' = dk_files (ss_disk ss) !! fr_filepath rec
}.

Definition safe_step (fd : option Z) (ss ss' : StorageServer) : Prop := ss_inv ss' ∧ keeps fd ss ss'.

Lemma keeps_refl fd ss : keeps fd ss ss.
Proof. intros s Hs _. by exists s. Qed.

Lemma safe_refl fd ss : ss_inv ss → safe_step fd ss ss.
Proof. split; [done|apply keeps_refl]. Qed.

Lemma carry_sessions_ok ss ss' :
  carry ss ss' → Forall (session_ok ss) (ss_sessions ss) → Forall (session_ok ss') (ss_sessions ss').
Proof.
  intros [Hs Hd] Hall. rewrite Hs. rewrite !Forall_forall in Hall *. intros s Hin.
  destruct (Hall s Hin) as (rec & text & Hde & Ht & H0 & Hsp & Hw).
  destruct (Hd s rec Hin Hde) as (rec' & Hde' & Heq). exists rec', text. by rewrite Heq.
Qed.

Lemma carry_keeps fd ss ss' :
  Forall (session_ok ss) (ss_sessions ss) → carry ss ss' → keeps fd ss ss'.
Proof.
  intros Hall [Hs Hd] s Hin _. exists s. rewrite Hs. split_and!; try done.
  rewrite Forall_forall in Hall. destruct (Hall s Hin) as (rec & text & Hde & _).
  destruct (Hd s rec Hin Hde) as (rec' & Hde' & Heq). unfold locked_text.
  by rewrite Hde Hde' /= Heq.
Qed.

Lemma carry_safe fd ss ss' : ss_inv ss → ss_inv ss' → carry ss ss' → safe_step fd ss ss'.
Proof. intros Hi Hi' Hc. split; [done|]. apply carry_keeps; [apply Hi|done]. Qed.

(** ** The frame lemma

    A step that keeps the keys of the records and the sessions, and leaves the
    content of every file with a session alone, keeps the invariant. *)
Record frame (ss ss' : StorageServer) : Prop := {
  fr_keys : map rec_key (ss_files ss') = map rec_key (ss_files ss);
  fr_recs : Forall rec_ok (ss_files ss');
  fr_next : ss_next_id ss' = ss_next_id ss;
  fr_storage : ss_storage_path ss' = ss_storage_path ss;
  fr_noshort : no_short (ss_disk ss');
  fr_sess : ss_sessions ss' = ss_sessions ss;
  fr_docs : ∀ s rec, s ∈ ss_sessions ss → deref ss (ws_file s) = Some rec →
    dk_files (ss_disk ss') !! fr_filepath rec = dk_files (ss_disk ss) !! fr_filepath rec
}.

Lemma sublist_map {A B} (f : A → B) l k : l `sublist_of` k → map f l `sublist_of` map f k.
Proof. induction 1; cbn; by constructor. Qed.

Lemma sublist_elem {A} (l k : list A) x : l `sublist_of` k → x ∈ l → x ∈ k.
Proof. induction 1; intros Hx; [done|apply elem_of_cons in Hx as [->|?]; [left|right; auto]|right; auto]. Qed.

Lemma frame_carry ss ss' : ss_inv ss → frame ss ss' → carry ss ss'.
Proof.
  intros Hi [Hk _ _ _ _ Hs Hd]. split; [done|]. intros s rec Hin Hde.
  destruct (keys_deref _ _ _ _ (inv_ids _ Hi) Hk Hde) as (rec' & Hde' & Hkey).
  exists rec'. split; [done|]. rewrite -(Hd s rec Hin Hde). f_equal. unfold rec_key in Hkey. congruence.
Qed.

Lemma frame_inv ss ss' : ss_inv ss → frame ss ss' → ss_inv ss'.
Proof.
  intros Hi Hf. pose proof (frame_carry _ _ Hi Hf) as Hc.
  destruct Hf as [Hk Hr Hn Hst Hs Hse Hd]. split.
  - rewrite (keys_ids _ _ Hk). apply Hi.
  - rewrite Hn. pose proof (inv_next _ Hi) as H.
    rewrite -(Forall_map fr_id (λ i, i < ss_next_id ss)) in H.
    rewrite -(Forall_map fr_id (λ i, i < ss_next_id ss)). by rewrite (keys_ids _ _ Hk).
  - rewrite (keys_names _ _ Hk). apply Hi.
  - rewrite (keys_paths _ _ Hk). apply Hi.
  - done.
  - rewrite Hst. eapply keys_canon; [exact Hk|apply Hi].
  - done.
  - rewrite Hse. apply Hi.
  - rewrite Hse. apply Hi.
  - eapply carry_sessions_ok; [done|apply Hi].
Qed.

Lemma frame_safe fd ss ss' : ss_inv ss → frame ss ss' → safe_step fd ss ss'.
Proof. intros Hi Hf. apply carry_safe; [done|by eapply frame_inv|by apply frame_carry]. Qed.
