(* ===== verification/SSInvClient.v ===== *)
(** * Client requests keep the lock invariant

    One lemma per handler of [SSClient]; the interesting ones are the grant of
    a sentence lock and the commit. *)
From S2P Require Import Prelude CStr Utils Protocol Disk Sentences SSAcl SSFiles SSState SSClient SSInv.

(** ** Disk effects *)

Lemma no_short_fault d d' : no_short d → dk_fault d' = dk_fault d → no_short d'.
Proof. intros H Hf p n. rewrite Hf. apply H. Qed.

Lemma write_metadata_effect d rec d' b :
  ss_write_metadata d rec = (d', b) →
  dk_fault d' = dk_fault d ∧ ∀ p, p ≠ fr_metapath rec → dk_files d' !! p = dk_files d !! p.
Proof.
  unfold ss_write_metadata. intros H. destruct (write_file _ _ _) as [d1 r] eqn:Hw.
  assert (d1 = d') as <- by (by destruct r; simplify_eq). split; [by eapply write_file_same|].
  intros p Hp. by eapply write_file_ne.
Qed.

Lemma touch_record_key rec u m now : rec_key (touch_record rec u m now) = rec_key rec.
Proof. unfold touch_record, rec_key. by destruct u, m. Qed.

Lemma touch_record_ckpts rec u m now : fr_checkpoints (touch_record rec u m now) = fr_checkpoints rec.
Proof. unfold touch_record. by destruct u, m. Qed.

Lemma rec_ok_key rec rec' :
  rec_ok rec → rec_key rec' = rec_key rec →
  Forall (λ ck, doc_path (ck_filepath ck) = false) (fr_checkpoints rec') → rec_ok rec'.
Proof.
  intros [H1 H2 H3 H4 H5 _] Hk Hc. unfold rec_key in Hk. simplify_eq.
  split; [congruence|congruence|congruence|congruence|congruence|done].
Qed.

(** ** Frames *)

(** Storing a changed record after changing the disk to [d]. *)
Lemma store_frame ss rec0 d rec :
  ss_inv ss → rec0 ∈ ss_files ss → rec_key rec = rec_key rec0 →
  Forall (λ ck, doc_path (ck_filepath ck) = false) (fr_checkpoints rec) →
  dk_fault d = dk_fault (ss_disk ss) →
  (∀ s r, s ∈ ss_sessions ss → deref ss (ws_file s) = Some r →
     dk_files d !! fr_filepath r = dk_files (ss_disk ss) !! fr_filepath r) →
  frame ss (update_rec (set_ss_disk ss d) rec).
Proof.
  intros Hi Hin Hkey Hck Hfault Hdocs.
  assert (Hok0 : rec_ok rec0) by by eapply Forall_forall; [apply (inv_recs _ Hi)|].
  split; try done.
  - apply (update_rec_keys ss rec rec0); [apply Hi|done|done].
  - apply (update_rec_ok ss); [apply Hi|by eapply rec_ok_key].
  - eapply no_short_fault; [apply (inv_disk _ Hi)|done].
Qed.

(** Storing it with its metadata. *)
Lemma touch_frame ss rec0 d rec u m now :
  ss_inv ss → rec0 ∈ ss_files ss → rec_key rec = rec_key rec0 →
  Forall (λ ck, doc_path (ck_filepath ck) = false) (fr_checkpoints rec) →
  dk_fault d = dk_fault (ss_disk ss) →
  (∀ s r, s ∈ ss_sessions ss → deref ss (ws_file s) = Some r →
     dk_files d !! fr_filepath r = dk_files (ss_disk ss) !! fr_filepath r) →
  frame ss (ss_touch_file_metadata (set_ss_disk ss d) rec u m now).
Proof.
  intros Hi Hin Hkey Hck Hfault Hdocs. unfold ss_touch_file_metadata.
  set (rec1 := touch_record rec u m now).
  assert (Hk1 : rec_key rec1 = rec_key rec0) by by rewrite /rec1 touch_record_key.
  destruct (ss_write_metadata _ rec1) as [d' b] eqn:Hw.
  apply write_metadata_effect in Hw as [Hf' Hd'].
  change (ss_disk (set_ss_disk ss d)) with d in Hf', Hd'.
  apply (store_frame ss rec0 d' rec1); [done|done|done|by rewrite touch_record_ckpts|congruence|].
  intros s r Hs Hr. rewrite Hd'; [|by eapply Hdocs].
  apply deref_Some in Hr as [Hr _]. intros Heq.
  pose proof (inv_recs _ Hi) as Hall. rewrite Forall_forall in Hall.
  pose proof (ro_doc _ (Hall r Hr)). pose proof (ro_meta _ (Hall _ Hin)).
  assert (fr_metapath rec1 = fr_metapath rec0) by (unfold rec_key in Hk1; congruence). congruence.
Qed.

Lemma frame_refl ss : ss_inv ss → frame ss ss.
Proof. intros Hi. split; try done; apply Hi. Qed.

(** A disk change that spares the files with sessions. *)
Lemma disk_frame ss d :
  ss_inv ss → dk_fault d = dk_fault (ss_disk ss) →
  (∀ s r, s ∈ ss_sessions ss → deref ss (ws_file s) = Some r →
     dk_files d !! fr_filepath r = dk_files (ss_disk ss) !! fr_filepath r) →
  frame ss (set_ss_disk ss d).
Proof.
  intros Hi Hf Hd. split; try done; [apply Hi|].
  eapply no_short_fault; [apply (inv_disk _ Hi)|done].
Qed.

Lemma rec_in ss rec : ss_inv ss → rec ∈ ss_files ss → rec_ok rec.
Proof. intros Hi Hin. by eapply Forall_forall; [apply (inv_recs _ Hi)|]. Qed.

(** A file without sessions may change; so may anything that is no document. *)
Lemma docs_spared ss rec d :
  ss_inv ss → rec ∈ ss_files ss → ss_file_has_active_writers ss rec = false →
  (∀ p, p ≠ fr_filepath rec → doc_path p = true → dk_files d !! p = dk_files (ss_disk ss) !! p) →
  ∀ s r, s ∈ ss_sessions ss → deref ss (ws_file s) = Some r →
     dk_files d !! fr_filepath r = dk_files (ss_disk ss) !! fr_filepath r.
Proof.
  intros Hi Hin Hw Hd s r Hs [Hr Hid]%deref_Some. apply Hd; [|by apply ro_doc, (rec_in ss)].
  intros Heq. apply (no_writers _ _ _ Hw Hs). rewrite -Hid.
  assert (r = rec) as ->; [|done]. by eapply (NoDup_key_inj fr_filepath); [apply Hi|..].
Qed.

(** The result of a handler keeps the invariant if every branch is framed. *)
Lemma with_file_safe ss fd name user allowed refusal k :
  ss_inv ss →
  (∀ rec, rec ∈ ss_files ss → allowed rec user = true → safe_step (Some fd) ss (k rec).1) →
  safe_step (Some fd) ss (with_file ss fd name user allowed refusal k).1.
Proof.
  intros Hi Hk. pose proof (safe_refl (Some fd) ss Hi) as Hstay. unfold with_file. destruct (ss_find_file ss name) as [rec|] eqn:Hf; [|done].
  apply find_file_Some in Hf as [Hin _]. destruct (allowed rec user) eqn:Ha; [by apply Hk|done].
Qed.

Lemma set_ss_disk_id ss : set_ss_disk ss (ss_disk ss) = ss.
Proof. by destruct ss. Qed.

Lemma touch_safe fd ss rec u m now :
  ss_inv ss → rec ∈ ss_files ss → safe_step fd ss (ss_touch_file_metadata ss rec u m now).
Proof.
  intros Hi Hin. eapply frame_safe; [done|]. rewrite -{2}(set_ss_disk_id ss).
  eapply touch_frame; [done|done|done|by apply ro_ckpts, (rec_in ss)|done|done].
Qed.

Lemma handle_client_read_safe ss fd msg now : ss_inv ss → safe_step (Some fd) ss (handle_client_read ss fd msg now).1.
Proof.
  intros Hi. pose proof (safe_refl (Some fd) ss Hi) as Hstay. unfold handle_client_read. case_decide; [done|]. apply with_file_safe; [done|].
  intros rec Hin _. case_match; [by apply touch_safe|done].
Qed.

Lemma handle_client_stream_safe ss fd msg now : ss_inv ss → safe_step (Some fd) ss (handle_client_stream ss fd msg now).1.
Proof.
  intros Hi. pose proof (safe_refl (Some fd) ss Hi) as Hstay. unfold handle_client_stream. case_decide; [done|]. apply with_file_safe; [done|].
  intros rec Hin _. case_match; [by apply touch_safe|done].
Qed.

Lemma handle_client_listcheckpoints_safe ss fd msg now :
  ss_inv ss → safe_step (Some fd) ss (handle_client_listcheckpoints ss fd msg now).1.
Proof.
  intros Hi. pose proof (safe_refl (Some fd) ss Hi) as Hstay. unfold handle_client_listcheckpoints. case_decide; [done|]. apply with_file_safe; [done|].
  intros rec Hin _. by apply touch_safe.
Qed.

Lemma handle_client_viewcheckpoint_safe ss fd msg now :
  ss_inv ss → safe_step (Some fd) ss (handle_client_viewcheckpoint ss fd msg now).1.
Proof.
  intros Hi. pose proof (safe_refl (Some fd) ss Hi) as Hstay. unfold handle_client_viewcheckpoint. case_decide; [done|]. case_match; [|done].
  apply with_file_safe; [done|]. intros rec Hin _. repeat case_match; try done. by apply touch_safe.
Qed.

(** *** Undo, revert and checkpoint *)

Lemma handle_client_undo_safe ss fd msg now : ss_inv ss → safe_step (Some fd) ss (handle_client_undo ss fd msg now).1.
Proof.
  intros Hi. pose proof (safe_refl (Some fd) ss Hi) as Hstay. unfold handle_client_undo. case_decide; [done|]. apply with_file_safe; [done|].
  intros rec Hin _. destruct (ss_file_has_active_writers ss rec) eqn:Hw; [done|].
  case_match; [done|]. case_match; [|done].
  destruct (ss_write_file_content _ _ _) as [d b] eqn:Hwr.
  destruct (ss_write_file_content_same _ _ _ _ _ Hwr) as [_ Hf].
  assert (Hd : ∀ p, p ≠ fr_filepath rec → doc_path p = true →
              dk_files d !! p = dk_files (ss_disk ss) !! p)
    by (intros p Hp _; by eapply ss_write_file_content_ne).
  destruct b; (eapply frame_safe; [done|]).
  - eapply touch_frame; [done|done|done| |done|by eapply docs_spared].
    by apply (ro_ckpts rec), (rec_in ss).
  - eapply disk_frame; [done|done|by eapply docs_spared].
Qed.

Lemma copy_docs d0 d src dest d' b p :
  ss_copy_file d src dest = (d', b) → p ≠ dest → dk_files d !! p = d0 → dk_files d' !! p = d0.
Proof. intros Hc Hp <-. by eapply ss_copy_file_ne. Qed.

Lemma handle_client_revert_safe ss fd msg now : ss_inv ss → safe_step (Some fd) ss (handle_client_revert ss fd msg now).1.
Proof.
  intros Hi. pose proof (safe_refl (Some fd) ss Hi) as Hstay. unfold handle_client_revert. case_decide; [done|]. case_match; [|done].
  apply with_file_safe; [done|]. intros rec Hin _.
  destruct (ss_file_has_active_writers ss rec) eqn:Hw; [done|].
  destruct (ss_find_checkpoint rec _) as [ck|]; [|done]. case_match; [done|].
  pose proof (ro_undo _ (rec_in ss rec Hi Hin)) as Hundo.
  destruct (ss_copy_file (ss_disk ss) _ _) as [d1 b1] eqn:Hc1.
  destruct (ss_copy_file_same _ _ _ _ _ Hc1) as [_ Hf1].
  assert (Hd1 : ∀ p, p ≠ fr_filepath rec → doc_path p = true →
              dk_files d1 !! p = dk_files (ss_disk ss) !! p).
  { intros p Hp Hdoc. eapply ss_copy_file_ne; [exact Hc1|]. congruence. }
  destruct b1.
  2: { eapply frame_safe; [done|]. eapply disk_frame; [done|done|by eapply docs_spared]. }
  destruct (ss_copy_file d1 _ _) as [d2 b2] eqn:Hc2.
  destruct (ss_copy_file_same _ _ _ _ _ Hc2) as [_ Hf2].
  assert (Hd2 : ∀ p, p ≠ fr_filepath rec → doc_path p = true →
              dk_files d2 !! p = dk_files (ss_disk ss) !! p).
  { intros p Hp Hdoc. eapply copy_docs; [exact Hc2|done|by apply Hd1]. }
  destruct b2.
  - eapply frame_safe; [done|].
    eapply touch_frame; [done|done|done| |congruence|by eapply docs_spared].
    by apply (ro_ckpts rec), (rec_in ss).
  - destruct (ss_copy_file d2 _ _) as [d3 b3] eqn:Hc3.
    destruct (ss_copy_file_same _ _ _ _ _ Hc3) as [_ Hf3].
    eapply frame_safe; [done|]. eapply disk_frame; [done|congruence|].
    eapply docs_spared; [done|done|done|]. intros p Hp Hdoc.
    eapply copy_docs; [exact Hc3|done|by apply Hd2].
Qed.

Lemma build_path_Some size base file p :
  build_path size base file = Some p → p = base ++ [c_slash] ++ file ∧ length p < size.
Proof. unfold build_path. case_decide; [done|]. intros [= <-]. split; [done|by apply Nat.nle_gt]. Qed.

Lemma ckpt_path_sidecar n base name rest p :
  length name < MAX_FILENAME_LENGTH → MAX_FILENAME_LENGTH + 32 <= n →
  build_path MAX_PATH_LENGTH base (fit n (name ++ $".ckpt_" ++ rest)) = Some p →
  doc_path p = false ∧ fit MAX_PATH_LENGTH p = p.
Proof.
  intros Hl Hn Hp%build_path_Some. destruct Hp as [-> Hlen]. split; [|by apply fit_short].
  assert (∃ rest', fit n (name ++ $".ckpt_" ++ rest) = name ++ $".ckpt_" ++ rest') as [rest' ->].
  { unfold fit. unfold MAX_FILENAME_LENGTH in *. rewrite take_app_ge; [lia|].
    rewrite take_app_ge; [cbn; lia|]. eauto. }
  rewrite !app_assoc -app_assoc. apply doc_path_ckpt.
Qed.

Lemma prune_effect d rec d' rec' :
  ss_prune_oldest_checkpoint d rec = (d', rec') → rec_ok rec →
  rec_key rec' = rec_key rec ∧ rec_ok rec' ∧ dk_fault d' = dk_fault d ∧
  ∀ p, doc_path p = true → dk_files d' !! p = dk_files d !! p.
Proof.
  unfold ss_prune_oldest_checkpoint. intros H Hok. pose proof (ro_ckpts _ Hok) as Hck.
  destruct (fr_checkpoints rec) as [|old rest] eqn:Hc; simplify_eq; [done|].
  apply Forall_cons in Hck as [Hold Hrest]. split_and!; [done|by eapply rec_ok_key| |].
  - destruct (ck_filepath old); [done|]. by apply unlink_same.
  - intros p Hp. destruct (ck_filepath old) eqn:Hpath; [done|]. apply unlink_ne. congruence.
Qed.

Lemma handle_client_checkpoint_safe ss fd msg now :
  ss_inv ss → safe_step (Some fd) ss (handle_client_checkpoint ss fd msg now).1.
Proof.
  intros Hi. pose proof (safe_refl (Some fd) ss Hi) as Hstay. unfold handle_client_checkpoint. case_decide; [done|]. case_match; [|done].
  apply with_file_safe; [done|]. intros rec Hin _. pose proof (rec_in ss rec Hi Hin) as Hok.
  destruct (ss_file_has_active_writers ss rec) eqn:Hw; [done|].
  destruct (ss_find_checkpoint rec _); [done|].
  destruct (build_path _ _ _) as [path|] eqn:Hb; [|done].
  apply ckpt_path_sidecar in Hb as [Hdoc Hfit]; [|by apply ro_name|unfold MAX_TAG_LENGTH; lia].
  destruct (ss_copy_file (ss_disk ss) _ path) as [d b] eqn:Hc.
  destruct (ss_copy_file_same _ _ _ _ _ Hc) as [_ Hf].
  assert (Hd : ∀ p, doc_path p = true → dk_files d !! p = dk_files (ss_disk ss) !! p).
  { intros p Hp. eapply ss_copy_file_ne; [exact Hc|congruence]. }
  destruct b.
  2: { eapply frame_safe; [done|]. eapply disk_frame; [done|rewrite -Hf; by apply unlink_same|].
       eapply docs_spared; [done|done|done|]. intros p _ Hp. rewrite unlink_ne; [congruence|by apply Hd]. }
  destruct (if decide _ then _ else _) as [d2 rec2] eqn:Hpr.
  assert (rec_key rec2 = rec_key rec ∧ rec_ok rec2 ∧ dk_fault d2 = dk_fault d ∧
          ∀ p, doc_path p = true → dk_files d2 !! p = dk_files d !! p) as (Hk2 & Hok2 & Hf2 & Hd2).
  { case_decide; [by eapply prune_effect|]. by simplify_eq. }
  eapply frame_safe; [done|]. eapply touch_frame; [done|done| | |congruence|].
  - by rewrite -Hk2.
  - apply Forall_app. split; [by apply ro_ckpts|]. apply Forall_singleton. cbn. by rewrite Hfit.
  - eapply docs_spared; [done|done|done|]. intros p _ Hp. by rewrite Hd2 ?Hd.
Qed.

(** *** Sessions *)

Lemma keeps_trans fd ss1 ss2 ss3 : keeps fd ss1 ss2 → keeps fd ss2 ss3 → keeps fd ss1 ss3.
Proof.
  intros H12 H23 s Hs Hfd. destruct (H12 s Hs Hfd) as (s2 & Hs2 & F2 & I2 & U2 & W2 & L2).
  destruct (H23 s2 Hs2 ltac:(congruence)) as (s3 & Hs3 & F3 & I3 & U3 & W3 & L3).
  exists s3. split_and!; congruence || done.
Qed.

Lemma safe_trans fd ss1 ss2 ss3 : safe_step fd ss1 ss2 → safe_step fd ss2 ss3 → safe_step fd ss1 ss3.
Proof. intros [_ H12] [Hi H23]. split; [done|by eapply keeps_trans]. Qed.

Lemma abort_safe ss fd : ss_inv ss → safe_step (Some fd) ss (ss_abort_session ss fd).
Proof.
  intros Hi. pose proof (remove_firstb_sublist (λ s, (ws_client_fd s =? fd)%Z) (ss_sessions ss)) as Hsub.
  split.
  - split; cbn; try apply Hi.
    + eapply sublist_NoDup; [apply (inv_fds _ Hi)|by apply sublist_map].
    + eapply sublist_NoDup; [apply (inv_locks _ Hi)|by apply sublist_map].
    + rewrite Forall_forall. intros s Hs. pose proof (inv_sessions _ Hi) as H. rewrite Forall_forall in H.
      apply H. by eapply sublist_elem.
  - intros s Hs Hfd. exists s. split_and!; try done. cbn. apply remove_firstb_keep; [done|].
    apply Z.eqb_neq. congruence.
Qed.

(** A new session on a sentence nobody holds. *)
Lemma write_lock_commit_safe ss fd rec user idx fld :
  ss_inv ss → rec ∈ ss_files ss → (0 <= idx)%Z →
  (∀ s, s ∈ ss_sessions ss → ws_client_fd s ≠ fd) →
  safe_step (Some fd) ss (write_lock_commit ss fd rec user idx fld).1.
Proof.
  intros Hi Hin H0 Hfd. pose proof (safe_refl (Some fd) ss Hi) as Hstay. unfold write_lock_commit.
  destruct (ss_find_session_by_sentence ss rec idx) eqn:Hs; [done|].
  destruct (ss_read_file_content _ _) as [text|] eqn:Hr; [|done].
  destruct (ss_get_sentence_bounds text idx) as [[start stop]|] eqn:Hb; [|done].
  rewrite bounds_spans in Hb. destruct (idx <? 0)%Z eqn:Hneg; [done|].
  destruct (spans_bound _ _ _ _ Hb) as [Hle _]. split; cbn.
  2: { intros s Hin' _. exists s. split_and!; try done. by right. }
  split; cbn; try apply Hi.
  - apply NoDup_cons. split; [|apply Hi]. intros Hx. apply list_elem_of_In, in_map_iff in Hx as (s & Heq & Hx).
    apply list_elem_of_In in Hx. by apply (Hfd s).
  - apply NoDup_cons. split; [|apply Hi]. intros Hx. apply list_elem_of_In, in_map_iff in Hx as (s & Heq & Hx).
    apply list_elem_of_In in Hx. by apply (no_session_by_sentence _ _ _ _ Hs Hx).
  - apply Forall_cons. split; [|apply Hi]. exists rec, text. cbn. split_and!; try done.
    + apply deref_elem; [apply Hi|done].
    + unfold ss_read_file_content, read_file in Hr. by case_match.
    + destruct (decide (start < stop)); [done|]. unfold slice. by replace (stop - start) with 0 by lia.
Qed.

Lemma handle_client_write_lock_safe ss fd msg :
  ss_inv ss → safe_step (Some fd) ss (handle_client_write_lock ss fd msg).1.
Proof.
  intros Hi. pose proof (safe_refl (Some fd) ss Hi) as Hstay.
  unfold handle_client_write_lock. case_decide; [done|].
  destruct (parse_int _) as [idx|]; [|done]. destruct (idx <? 0)%Z eqn:H0; [done|].
  pose proof (abort_safe ss fd Hi) as Ha. unfold write_lock_begin.
  destruct (ss_find_file _ _) as [rec|] eqn:Hf; [|done].
  destruct (ss_check_write_access _ _); [|done].
  apply find_file_Some in Hf as [Hin _]. rewrite (deref_elem _ rec); [apply Ha|done|].
  eapply safe_trans; [exact Ha|]. apply write_lock_commit_safe; [apply Ha|done|lia|].
  intros s Hs. unfold ss_abort_session in Hs. rewrite detach_filter in Hs; [apply Hi|].
  apply list_elem_of_filter in Hs as [Hs _]. lia.
Qed.

Lemma update_firstb_map {A} (p : A → bool) f (g : A → A) l :
  (∀ x, p x = true → g x = f x) → (∀ x, p x = false → g x = x) →
  NoDup l → (∀ x y, x ∈ l → y ∈ l → p x = true → p y = true → x = y) →
  update_firstb p f l = map g l.
Proof.
  intros Ht Hf. induction l as [|x l IH]; intros Hnd Hu; cbn [update_firstb map]; [done|].
  apply NoDup_cons in Hnd as [Hx Hnd]. destruct (p x) eqn:Hp.
  - rewrite (Ht x Hp). f_equal. symmetry. clear IH. induction l as [|y l IH]; [done|]. cbn [map].
    assert (p y = false) as Hy.
    { destruct (p y) eqn:Hy; [|done]. destruct Hx.
      rewrite (Hu x y); [left|right; left|done|done|left]. }
    rewrite (Hf y Hy). f_equal. apply IH; [set_solver|by inversion Hnd|].
    intros a b Ha Hb. apply Hu; set_solver.
  - rewrite (Hf x Hp). f_equal. apply IH; [done|]. intros a b Ha Hb. apply Hu; by right.
Qed.

Lemma handle_client_write_data_safe ss fd msg :
  ss_inv ss → safe_step (Some fd) ss (handle_client_write_data ss fd msg).1.
Proof.
  intros Hi. pose proof (safe_refl (Some fd) ss Hi) as Hstay. unfold handle_client_write_data. case_decide; [done|].
  destruct (parse_int _) as [idx|]; [|done]. destruct (idx <? 0)%Z; [done|].
  destruct (ss_find_session ss fd) as [s0|] eqn:Hs; [|done].
  destruct (ss_apply_word_edit _ _ _) as [w|] eqn:He; [|done].
  apply find_session_Some in Hs as [Hin0 Hfd0].
  set (g := λ s, if (ws_client_fd s =? fd)%Z then with_working s w else s).
  rewrite (update_firstb_map _ _ g); [intros x Hx; unfold g; by rewrite Hx
    |intros x Hx; unfold g; by rewrite Hx|apply (NoDup_of_map ws_client_fd), Hi| |].
  { intros x y Hx Hy Hpx%Z.eqb_eq Hpy%Z.eqb_eq.
    eapply (NoDup_key_inj ws_client_fd); [apply (inv_fds _ Hi)|done|done|congruence]. }
  pose proof (inv_sessions _ Hi) as Hall. pose proof (inv_fds _ Hi) as Hfds.
  assert (Hlock : ∀ s, locked_text (set_ss_sessions ss (map g (ss_sessions ss))) (g s) = locked_text ss s).
  { intros s. unfold g, locked_text. by case_match. }
  split; cbn.
  2: { intros s Hs Hfd. exists (g s). assert (Hg : g s = s).
       { unfold g. destruct (ws_client_fd s =? fd)%Z eqn:Hf; [|done]. apply Z.eqb_eq in Hf. congruence. }
       split; [by apply (list_elem_of_fmap_2 g)|]. rewrite Hlock Hg. by split_and!. }
  split; cbn; try apply Hi.
  - rewrite map_map. erewrite map_ext; [apply Hi|]. intros s. unfold g. by case_match.
  - rewrite map_map. erewrite map_ext; [apply Hi|]. intros s. unfold g. by case_match.
  - rewrite Forall_forall. intros s' Hs'. apply list_elem_of_In, in_map_iff in Hs' as (s & <- & Hs).
    apply list_elem_of_In in Hs. rewrite Forall_forall in Hall.
    destruct (Hall s Hs) as (rec & text & Hde & Ht & H0 & Hsp & Hw).
    exists rec, text. unfold g. destruct (ws_client_fd s =? fd)%Z eqn:Hf; cbn; split_and!; try done.
    intros Hends. apply Z.eqb_eq in Hf.
    assert (s = s0) as ->.
    { eapply (NoDup_key_inj ws_client_fd); [done|done|done|congruence]. }
    eapply apply_word_edit_ends; [exact He|by apply Hw].
Qed.

(** *** The commit *)

Lemma write_failed_same d path data d' :
  no_short d → ss_write_file_content d path data = (d', false) → d' = d.
Proof.
  intros Hn H. unfold ss_write_file_content in H.
  destruct (write_file d path data) as [d1 []] eqn:Hw; simplify_eq.
  - by eapply write_file_open_failed.
  - unfold write_file in Hw. repeat case_match; simplify_eq. by edestruct Hn.
Qed.

(** What a commit leaves behind: the new text under the document's path, the
    other documents untouched, and the sessions of the others shifted. *)
Record committed (ss ss' : StorageServer) (fd : Z) (rec : FileRecord) (edit_start old_len new_len : nat)
    (delta : Z) (new : cstr) : Prop := {
  cm_keys : map rec_key (ss_files ss') = map rec_key (ss_files ss);
  cm_recs : Forall rec_ok (ss_files ss');
  cm_next : ss_next_id ss' = ss_next_id ss;
  cm_storage : ss_storage_path ss' = ss_storage_path ss;
  cm_noshort : no_short (ss_disk ss');
  cm_text : dk_files (ss_disk ss') !! fr_filepath rec = Some new;
  cm_docs : ∀ p, p ≠ fr_filepath rec → doc_path p = true →
    dk_files (ss_disk ss') !! p = dk_files (ss_disk ss) !! p;
  cm_sess : ss_sessions ss' =
    map (shift_session (fr_id rec) edit_start old_len new_len delta)
      (filter (λ s, (ws_client_fd s =? fd)%Z = false) (ss_sessions ss))
}.

Lemma shift_session_fd f a b c d s : ws_client_fd (shift_session f a b c d s) = ws_client_fd s.
Proof. unfold shift_session. by case_match. Qed.

Lemma shift_session_file f a b c d s : ws_file (shift_session f a b c d s) = ws_file s.
Proof. unfold shift_session. by case_match. Qed.

Lemma shift_session_working f a b c d s : ws_sentence_working (shift_session f a b c d s) = ws_sentence_working s.
Proof. unfold shift_session. by case_match. Qed.

Lemma filter_map_excluded (sh : WriteSession → WriteSession) fd l :
  (∀ s, ws_client_fd (sh s) = ws_client_fd s) →
  filter (λ s, (ws_client_fd s =? fd)%Z = false)
    (map (λ s, if (ws_client_fd s =? fd)%Z then s else sh s) l) =
  map sh (filter (λ s, (ws_client_fd s =? fd)%Z = false) l).
Proof.
  intros Hsh. induction l as [|s l IH]; [done|]. cbn [map].
  destruct (ws_client_fd s =? fd)%Z eqn:Hs.
  - rewrite filter_cons_False; [congruence|]. rewrite filter_cons_False; [congruence|done].
  - rewrite filter_cons_True; [by rewrite Hsh|]. rewrite filter_cons_True; [done|].
    cbn [map]. by rewrite IH.
Qed.

(** A disk [d] with the new text gives such a state. *)
Lemma committed_intro ss fd rec rec1 d start old new delta text :
  ss_inv ss → rec ∈ ss_files ss → rec_key rec1 = rec_key rec → rec_ok rec1 →
  dk_fault d = dk_fault (ss_disk ss) → dk_files d !! fr_filepath rec = Some text →
  (∀ p, doc_path p = true → p ≠ fr_filepath rec → dk_files d !! p = dk_files (ss_disk ss) !! p) →
  committed ss (ss_detach_session (ss_update_active_sessions (update_rec (set_ss_disk ss d) rec1) rec start old new delta fd) fd)
    fd rec start old new delta text.
Proof.
  intros Hi Hin Hk1 Hok1 Hf Ht Hd. split.
  - cbn. apply (update_rec_keys ss rec1 rec); [apply Hi|done|done].
  - apply (update_rec_ok ss rec1); [apply Hi|done].
  - done.
  - done.
  - cbn. by eapply no_short_fault; [apply (inv_disk _ Hi)|].
  - exact Ht.
  - intros p Hp Hpd. by apply Hd.
  - unfold ss_update_active_sessions, ss_detach_session. cbn. rewrite (remove_firstb_filter ws_client_fd _ fd).
    + intros x. apply Z.eqb_eq.
    + rewrite map_map. erewrite map_ext; [apply Hi|]. intros x. cbn. case_match; [done|]. apply shift_session_fd.
    + rewrite filter_map_excluded; [apply shift_session_fd|done].
Qed.

(** The successful branch of [etirw_commit] does just that. *)
Lemma etirw_commit_committed ss fd rec s start stop now ss' out :
  ss_inv ss → rec ∈ ss_files ss →
  etirw_commit ss fd rec s start stop now = (ss', out) →
  (frame ss ss' ∧ (∃ code msg, out = send_error_response fd code msg)) ∨
  ∃ text, dk_files (ss_disk ss) !! fr_filepath rec = Some text ∧
    start <= stop ∧ stop <= length text ∧
    committed ss ss' fd rec start (stop - start) (length (ws_sentence_working s))
      (count_sentences_in_span (ws_sentence_working s) 0 (length (ws_sentence_working s)) -
       count_sentences_in_span text start stop)
      (splice text start stop (ws_sentence_working s)) ∧
    dk_files (ss_disk ss') !! fr_undopath rec =
      (if decide (fr_undopath rec = fr_metapath rec) then dk_files (ss_disk ss') !! fr_undopath rec
       else Some text) ∧
    out = emit fd [$"OK_WRITE_DONE"] ++ ss_sync_metadata_to_ns ss' rec.
Proof.
  intros Hi Hin. unfold etirw_commit. pose proof (rec_in ss rec Hi Hin) as Hok.
  destruct (ss_read_file_content _ _) as [text|] eqn:Hr.
  2: { intros [= <- <-]. left. split; [by apply frame_refl|eauto]. }
  case_decide as Hb; [intros [= <- <-]; left; split; [by apply frame_refl|eauto]|].
  destruct (ss_write_file_content (ss_disk ss) _ _) as [d1 b1] eqn:H1.
  destruct (ss_write_file_content_same _ _ _ _ _ H1) as [_ Hf1]. destruct b1.
  2: { intros [= <- <-]. left. split; [|eauto]. rewrite (write_failed_same _ _ _ _ (inv_disk _ Hi) H1).
       rewrite set_ss_disk_id. by apply frame_refl. }
  assert (Hn1 : no_short d1) by (eapply no_short_fault; [apply (inv_disk _ Hi)|done]).
  destruct (ss_write_file_content d1 _ _) as [d2 b2] eqn:H2.
  destruct (ss_write_file_content_same _ _ _ _ _ H2) as [_ Hf2].
  assert (Hne : fr_undopath rec ≠ fr_filepath rec).
  { pose proof (ro_doc _ Hok). pose proof (ro_undo _ Hok). congruence. }
  destruct b2.
  2: { intros [= <- <-]. left. split; [|eauto]. rewrite (write_failed_same _ _ _ _ Hn1 H2).
       eapply disk_frame; [done|done|]. intros s0 r0 _ [Hr0 _]%deref_Some.
       eapply ss_write_file_content_ne; [exact H1|].
       pose proof (ro_doc _ (rec_in _ _ Hi Hr0)). pose proof (ro_undo _ Hok). congruence. }
  apply ss_write_file_content_ok in H1, H2; [|done|apply (inv_disk _ Hi)].
  unfold ss_touch_file_metadata.
  set (rec1 := touch_record (with_undo rec 1) (Some (ws_username s)) true now).
  destruct (ss_write_metadata _ rec1) as [d3 b3] eqn:H3.
  apply write_metadata_effect in H3 as [Hf3 H3].
  change (ss_disk (set_ss_disk ss d2)) with d2 in Hf3, H3.
  assert (Hk1 : rec_key rec1 = rec_key rec) by by rewrite /rec1 touch_record_key.
  assert (Hok1 : rec_ok rec1).
  { eapply rec_ok_key; [exact Hok|done|]. rewrite /rec1 touch_record_ckpts. apply Hok. }
  assert (Hm1 : fr_metapath rec1 = fr_metapath rec) by (unfold rec_key in Hk1; congruence).
  rewrite Hm1 in H3. clearbody rec1.
  intros [= <- <-]. right. exists text.
  assert (Htext : dk_files (ss_disk ss) !! fr_filepath rec = Some text).
  { unfold ss_read_file_content, read_file in Hr. by case_match. }
  pose proof (ro_doc _ Hok) as Hdoc. pose proof (ro_meta _ Hok) as Hmeta. pose proof (ro_undo _ Hok) as Hundo.
  split_and!; [done|lia|lia| | |].
  - apply (committed_intro ss fd rec rec1 d3); try done.
    + cbn in Hf3. congruence.
    + rewrite H3; [congruence|]. by rewrite H2 lookup_insert_eq.
    + intros p Hpd Hp. rewrite H3; [congruence|]. rewrite H2 lookup_insert_ne; [done|].
      rewrite H1 lookup_insert_ne; [congruence|done].
  - cbn. case_decide; [done|]. rewrite H3; [congruence|].
    rewrite H2 lookup_insert_ne; [done|]. by rewrite H1 lookup_insert_eq.
  - done.
Qed.

Section committed.
Context (ss ss' : StorageServer) (s : WriteSession) (rec : FileRecord) (text : cstr).
Let start := ws_sentence_start s.
Let stop := ws_sentence_end s.
Let r := ws_sentence_working s.
Let i := Z.to_nat (ws_sentence_index s).
Hypothesis Hi : ss_inv ss.
Hypothesis Hs : s ∈ ss_sessions ss.
Hypothesis Hrec : deref ss (ws_file s) = Some rec.
Hypothesis Htext : dk_files (ss_disk ss) !! fr_filepath rec = Some text.
Hypothesis Hc : committed ss ss' (ws_client_fd s) rec start (stop - start) (length r)
                  (sentence_delta text start stop r) (splice text start stop r).

Let sh := shift_session (fr_id rec) start (stop - start) (length r) (sentence_delta text start stop r).

Lemma committed_span :
  (0 <= ws_sentence_index s)%Z ∧ spans text !! i = Some (start, stop) ∧
  (ends_with_delimiter (slice start stop text) = true → ends_with_delimiter r = true).
Proof.
  pose proof (inv_sessions _ Hi) as Hall. rewrite Forall_forall in Hall.
  destruct (Hall s Hs) as (rec' & text' & Hde & Ht & H0 & Hsp & Hw). rewrite Hrec in Hde. simplify_eq.
  done.
Qed.

(** Another session on the same file, before and after the commit. *)
Lemma committed_same_file s0 :
  s0 ∈ ss_sessions ss → ws_client_fd s0 ≠ ws_client_fd s → ws_file s0 = fr_id rec →
  (0 <= ws_sentence_index s0)%Z ∧ (0 <= ws_sentence_index (sh s0))%Z ∧
  spans (splice text start stop r) !! Z.to_nat (ws_sentence_index (sh s0)) =
    Some (ws_sentence_start (sh s0), ws_sentence_end (sh s0)) ∧
  slice (ws_sentence_start (sh s0)) (ws_sentence_end (sh s0)) (splice text start stop r) =
    slice (ws_sentence_start s0) (ws_sentence_end s0) text ∧
  ((ws_sentence_index s0 < ws_sentence_index s)%Z ∧ ws_sentence_index (sh s0) = ws_sentence_index s0 ∨
   (ws_sentence_index s < ws_sentence_index s0)%Z ∧ (0 <= sentence_delta text start stop r)%Z ∧
   ws_sentence_index (sh s0) = (ws_sentence_index s0 + sentence_delta text start stop r)%Z).
Proof.
  intros Hs0 Hfd Hfile. destruct committed_span as (Hi0 & Hspan & Hcl).
  pose proof (inv_sessions _ Hi) as Hall. rewrite Forall_forall in Hall.
  destruct (Hall s0 Hs0) as (rec' & text' & Hde & Ht & H0 & Hsp & Hw).
  pose proof (inv_ids _ Hi) as Hids.
  assert (rec' = rec) as ->.
  { apply deref_Some in Hde as [Hin Hid]. apply deref_Some in Hrec as [Hinr _].
    eapply (NoDup_key_inj fr_id); [done..|congruence]. }
  simplify_eq. destruct (spans_bound _ _ _ _ Hspan) as [Hse _].
  destruct (spans_bound _ _ _ _ Hsp) as [Hab _].
  assert (Hneq : ws_sentence_index s0 ≠ ws_sentence_index s).
  { intros Heq. apply Hfd. f_equal. eapply (NoDup_key_inj lock_of); [apply (inv_locks _ Hi)|done|done|].
    unfold lock_of. apply deref_Some in Hrec as [_ Hid]. congruence. }
  unfold sh, shift_session. rewrite Hfile bool_decide_eq_true_2; [done|]. cbn [andb].
  destruct (Z.lt_gt_cases (ws_sentence_index s0) (ws_sentence_index s)) as [[Hlt|Hgt] _]; [done| |].
  - destruct (commit_before text i start stop Hspan (Z.to_nat (ws_sentence_index s0)) _ _
      ltac:(unfold i; lia) Hsp) as [Ha Hb].
    rewrite bool_decide_eq_false_2; [lia|]. split_and!; [done|done| | |by left].
    + rewrite (splice_before text i start stop r Hspan Hcl); [unfold i; lia|done].
    + by apply (slice_splice_before text i start stop r Hspan Hcl).
  - destruct (commit_after text i start stop r Hspan Hcl (Z.to_nat (ws_sentence_index s0)) _ _
      ltac:(unfold i; lia) Hsp) as (Hea & Hd & Hnew).
    rewrite Z2Nat.id in Hnew; [done|].
    rewrite bool_decide_eq_true_2; [lia|]. cbn.
    assert (Hidx : (if (sentence_delta text start stop r =? 0)%Z then ws_sentence_index s0
                    else Z.max 0 (ws_sentence_index s0 + sentence_delta text start stop r)) =
                   (ws_sentence_index s0 + sentence_delta text start stop r)%Z).
    { destruct (_ =? 0)%Z eqn:Hz; lia. }
    rewrite Hidx. split_and!; [done|lia|done| |right; by split_and!].
    by apply (slice_splice_after text i start stop r Hspan Hcl).
Qed.

Lemma committed_lock_inj x y :
  x ∈ ss_sessions ss → y ∈ ss_sessions ss →
  ws_client_fd x ≠ ws_client_fd s → ws_client_fd y ≠ ws_client_fd s →
  lock_of (sh x) = lock_of (sh y) → x = y.
Proof.
  intros Hx Hy Hfx Hfy Heq.
  assert (Hfile : ws_file x = ws_file y).
  { unfold lock_of, sh in Heq. rewrite !shift_session_file in Heq. congruence. }
  eapply (NoDup_key_inj lock_of); [apply (inv_locks _ Hi)|done|done|].
  unfold lock_of in Heq |- *. f_equal; [done|]. assert (Hidx : ws_sentence_index (sh x) = ws_sentence_index (sh y)) by congruence.
  destruct (decide (ws_file x = fr_id rec)) as [Hf|Hf].
  - destruct (committed_same_file x Hx Hfx Hf) as (_ & _ & _ & _ & H1).
    destruct (committed_same_file y Hy Hfy ltac:(congruence)) as (_ & _ & _ & _ & H2). lia.
  - assert (Hsh : ∀ z, ws_file z ≠ fr_id rec → sh z = z).
    { intros z Hz. unfold sh, shift_session. by rewrite bool_decide_eq_false_2. }
    rewrite (Hsh x) in Hidx; [done|]. rewrite (Hsh y) in Hidx; [congruence|done].
Qed.

Lemma committed_session s0 :
  s0 ∈ ss_sessions ss → ws_client_fd s0 ≠ ws_client_fd s → session_ok ss' (sh s0).
Proof.
  intros Hs0 Hfd. pose proof (inv_ids _ Hi) as Hids. destruct Hc as [Hk _ _ _ _ Htx Hdocs _].
  pose proof (inv_sessions _ Hi) as Hall. rewrite Forall_forall in Hall.
  destruct (Hall s0 Hs0) as (rec0 & text0 & Hde & Ht & H0 & Hsp & Hw).
  destruct (keys_deref _ _ _ _ Hids Hk Hde) as (rec' & Hde' & Hkey).
  assert (Hp : fr_filepath rec' = fr_filepath rec0) by (unfold rec_key in Hkey; congruence).
  destruct (decide (ws_file s0 = fr_id rec)) as [Hf|Hf].
  - assert (rec0 = rec) as ->.
    { apply deref_Some in Hde as [Hin Hid]. apply deref_Some in Hrec as [Hinr _].
      eapply (NoDup_key_inj fr_id); [done..|congruence]. }
    simplify_eq. destruct (committed_same_file s0 Hs0 Hfd Hf) as (_ & H0' & Hsp' & Hsl & _).
    exists rec', (splice text start stop r). unfold sh. rewrite shift_session_file shift_session_working.
    split_and!; [done|by rewrite Hp|done|done|]. fold sh. by rewrite Hsl.
  - assert (Hsh : sh s0 = s0).
    { unfold sh, shift_session. by rewrite bool_decide_eq_false_2. }
    rewrite Hsh. exists rec', text0. split_and!; try done. rewrite Hp Hdocs; [|apply (rec_in ss); [done|by apply deref_Some in Hde as [? _]]|done].
    intros Heq. apply Hf. apply deref_Some in Hde as [Hin <-]. apply deref_Some in Hrec as [Hinr _].
    f_equal. by eapply (NoDup_key_inj fr_filepath); [apply Hi|..].
Qed.

Lemma committed_inv : ss_inv ss'.
Proof.
  destruct Hc as [Hk Hr Hn Hst Hns Htx Hdocs Hsess].
  assert (Hfilter : ∀ x, x ∈ filter (λ s0, (ws_client_fd s0 =? ws_client_fd s)%Z = false) (ss_sessions ss) →
                      x ∈ ss_sessions ss ∧ ws_client_fd x ≠ ws_client_fd s).
  { intros x [Hf Hx]%list_elem_of_filter. split; [done|lia]. }
  split; try done.
  - rewrite (keys_ids _ _ Hk). apply Hi.
  - rewrite Hn. pose proof (inv_next _ Hi) as H.
    rewrite -(Forall_map fr_id (λ i, i < ss_next_id ss)) in H.
    rewrite -(Forall_map fr_id (λ i, i < ss_next_id ss)). by rewrite (keys_ids _ _ Hk).
  - rewrite (keys_names _ _ Hk). apply Hi.
  - rewrite (keys_paths _ _ Hk). apply Hi.
  - rewrite Hst. eapply keys_canon; [exact Hk|apply Hi].
  - rewrite Hsess map_map. erewrite (map_ext _ ws_client_fd); [|intros; apply shift_session_fd].
    eapply sublist_NoDup; [apply (inv_fds _ Hi)|]. apply sublist_map, sublist_filter.
  - rewrite Hsess map_map. apply NoDup_map_strong.
    + intros x y [Hx Hfx]%Hfilter [Hy Hfy]%Hfilter. by apply committed_lock_inj.
    + apply NoDup_filter, (NoDup_of_map ws_client_fd), Hi.
  - rewrite Hsess Forall_forall. intros s' Hs'. apply list_elem_of_In, in_map_iff in Hs' as (s0 & <- & Hs0).
    apply list_elem_of_In, Hfilter in Hs0 as [Hs0 Hfd]. by apply committed_session.
Qed.

(** The sentences of the others are where they were, with the same text. *)
Lemma committed_safe : safe_step (Some (ws_client_fd s)) ss ss'.
Proof.
  split; [apply committed_inv|]. intros s0 Hs0 Hne.
  assert (Hfd : ws_client_fd s0 ≠ ws_client_fd s) by congruence.
  pose proof (committed_session s0 Hs0 Hfd) as (rec' & text' & Hde' & Ht' & _ & _ & _).
  pose proof (inv_sessions _ Hi) as Hall. rewrite Forall_forall in Hall.
  destruct (Hall s0 Hs0) as (rec0 & text0 & Hde & Ht & H0 & Hsp & Hw).
  pose proof (inv_ids _ Hi) as Hids. destruct Hc as [Hk _ _ _ _ Htx Hdocs Hsess].
  exists (sh s0). split_and!.
  - rewrite Hsess. apply (list_elem_of_fmap_2 sh), list_elem_of_filter. split; [by apply Z.eqb_neq|done].
  - apply shift_session_fd.
  - apply shift_session_file.
  - unfold sh, shift_session. by case_match.
  - apply shift_session_working.
  - destruct (keys_deref _ _ _ _ Hids Hk Hde) as (rec1 & Hde1 & Hkey).
    unfold locked_text. unfold sh in Hde' |- *. rewrite shift_session_file in Hde' |- *.
    fold sh in Hde' |- *. rewrite Hde1 in Hde'. simplify_eq. rewrite Hde Hde1 /= Ht Ht' /=. f_equal.
    assert (Hp : fr_filepath rec' = fr_filepath rec0) by (unfold rec_key in Hkey; congruence).
    destruct (decide (ws_file s0 = fr_id rec)) as [Hf|Hf].
    + destruct (committed_same_file s0 Hs0 Hfd Hf) as (_ & _ & _ & Hsl & _).
      assert (rec0 = rec) as ->.
      { apply deref_Some in Hde as [Hin Hid]. apply deref_Some in Hrec as [Hinr _].
        eapply (NoDup_key_inj fr_id); [done..|congruence]. }
      rewrite Hp Htx in Ht'. simplify_eq. exact Hsl.
    + assert (Hsh : sh s0 = s0).
      { unfold sh, shift_session. by rewrite bool_decide_eq_false_2. }
      rewrite Hsh. rewrite Hp Hdocs in Ht'; [|apply (rec_in ss); [done|by apply deref_Some in Hde as [? _]]|congruence].
      intros Heq. apply Hf. apply deref_Some in Hde as [Hin <-]. apply deref_Some in Hrec as [Hinr _].
      f_equal. by eapply (NoDup_key_inj fr_filepath); [apply Hi|..].
Qed.
End committed.

Lemma handle_client_etirw_safe ss fd now : ss_inv ss → safe_step (Some fd) ss (handle_client_etirw ss fd now).1.
Proof.
  intros Hi. pose proof (safe_refl (Some fd) ss Hi) as Hstay. unfold handle_client_etirw, etirw_begin.
  destruct (ss_find_session ss fd) as [s|] eqn:Hs; [|done].
  destruct (deref ss (ws_file s)) as [rec|] eqn:Hrec; [|done].
  apply find_session_Some in Hs as [Hs <-].
  destruct (etirw_commit _ _ _ _ _ _ _) as [ss' out] eqn:Hc. cbn.
  apply etirw_commit_committed in Hc as [[Hf _]|(text & Ht & _ & _ & Hc & _)];
    [by eapply frame_safe|by eapply committed_safe|done|by apply deref_Some in Hrec as [? _]].
Qed.

(** ** All requests *)

Lemma client_message_safe ss fd msg now : ss_inv ss → safe_step (Some fd) ss (client_message ss fd msg now).1.
Proof.
  intros Hi. unfold client_message. destruct msg as [|cmd msg]; [by apply safe_refl|].
  repeat case_match; auto using safe_refl, handle_client_read_safe, handle_client_stream_safe,
    handle_client_write_lock_safe, handle_client_write_data_safe, handle_client_etirw_safe,
    handle_client_undo_safe, handle_client_checkpoint_safe, handle_client_viewcheckpoint_safe,
    handle_client_revert_safe, handle_client_listcheckpoints_safe.
Qed.

Lemma client_thread_turn_safe ss fd raw now :
  ss_inv ss → safe_step (Some fd) ss (client_thread_turn ss fd raw now).1.
Proof. intros Hi. destruct raw; [by apply client_message_safe|by apply abort_safe]. Qed.
