(* ===== verification/SSInvControl.v ===== *)
(** * Commands of the name server keep the lock invariant

    Creation and renaming need a side condition on the names the name server
    sends: flattening is not injective, so a fresh logical name may have the
    path of an existing document.  [create_safe] and [rename_safe] say that it
    does not; [SSRaces] shows what happens otherwise. *)
From S2P Require Import Prelude CStr Utils Protocol Disk Sentences SSAcl SSFiles SSState SSClient SSControl SSInv SSInvClient.

(** A document path that can be given to a new record. *)
Definition path_free (ss : StorageServer) (path : cstr) : Prop :=
  doc_path path = true ∧ length path + 8 < MAX_PATH_LENGTH ∧ path ∉ map fr_filepath (ss_files ss).

Definition create_safe (ss : StorageServer) (filename : cstr) : Prop :=
  match flatten_logical_path filename MAX_FILENAME_LENGTH with
  | Some flat => path_free ss (ss_storage_path ss ++ [c_slash] ++ flat)
  | None => True
  end.

(** The name server sends the flattened names along with the logical ones. *)
Definition rename_safe (ss : StorageServer) (new_logical new_flat : cstr) : Prop :=
  flatten_logical_path new_logical MAX_FILENAME_LENGTH = Some new_flat ∧
  (new_logical ∉ map fr_filename (ss_files ss)) ∧
  path_free ss (ss_storage_path ss ++ [c_slash] ++ new_flat).

Definition ns_safe (ss : StorageServer) (msg : list cstr) : Prop :=
  (field msg 0 = $"CREATE_FILE" → create_safe ss (field msg 1)) ∧
  (field msg 0 = $"SS_RENAME" → rename_safe ss (field msg 2) (field msg 4)).

(** ** Access lists *)

Lemma acl_update_safe ss rec d rec' :
  ss_inv ss → rec ∈ ss_files ss → rec_key rec' = rec_key rec →
  fr_checkpoints rec' = fr_checkpoints rec → dk_fault d = dk_fault (ss_disk ss) →
  (∀ p, p ≠ fr_metapath rec → dk_files d !! p = dk_files (ss_disk ss) !! p) →
  safe_step None ss (update_rec (set_ss_disk ss d) rec').
Proof.
  intros Hi Hin Hk Hc Hf Hd. eapply frame_safe; [done|].
  eapply store_frame; [done|exact Hin|done| |done|].
  - rewrite Hc. by apply ro_ckpts, (rec_in ss).
  - intros s r _ [Hr _]%deref_Some. apply Hd.
    pose proof (ro_doc _ (rec_in _ _ Hi Hr)). pose proof (ro_meta _ (rec_in _ _ Hi Hin)). congruence.
Qed.

Lemma ns_add_access_safe ss msg : ss_inv ss → safe_step None ss (ns_add_access ss msg).1.
Proof.
  intros Hi. pose proof (safe_refl None ss Hi) as Hstay. unfold ns_add_access. case_decide; [done|].
  destruct (ss_find_file ss _) as [rec|] eqn:Hf; [|done]. apply find_file_Some in Hf as [Hin _].
  destruct (permission_flags _) as [wr ww]. case_match; [done|].
  destruct (add_if wr _ _ _) as [[readers ar] fr0]. destruct (add_if _ _ _ _) as [[writers aw] fw].
  destruct (if negb (fr0 || fw) && _ then _ else _) as [d written] eqn:Hw.
  assert (dk_fault d = dk_fault (ss_disk ss) ∧
          ∀ p, p ≠ fr_metapath rec → dk_files d !! p = dk_files (ss_disk ss) !! p) as [Hfl Hd].
  { case_match; [by apply write_metadata_effect in Hw|by simplify_eq]. }
  destruct (fr0 || fw || negb written); by eapply acl_update_safe.
Qed.

Lemma ns_remove_access_safe ss msg : ss_inv ss → safe_step None ss (ns_remove_access ss msg).1.
Proof.
  intros Hi. pose proof (safe_refl None ss Hi) as Hstay. unfold ns_remove_access. case_decide; [done|].
  destruct (ss_find_file ss _) as [rec|] eqn:Hf; [|done]. apply find_file_Some in Hf as [Hin _].
  destruct (ss_acl_remove _ _) as [readers rr]. destruct (ss_acl_remove _ _) as [writers rw].
  case_match; [done|]. destruct (ss_write_metadata _ _) as [d b] eqn:Hw.
  apply write_metadata_effect in Hw as [Hfl Hd]. destruct b; by eapply acl_update_safe.
Qed.

(** ** Copying *)

Lemma rename_effect d old new d' b :
  rename d old new = (d', b) →
  dk_fault d' = dk_fault d ∧ ∀ p, p ≠ old → p ≠ new → dk_files d' !! p = dk_files d !! p.
Proof.
  unfold rename. intros H. repeat case_match; simplify_eq; try done. split; [done|].
  intros p Ho Hn. cbn. by rewrite lookup_insert_ne ?lookup_delete_ne.
Qed.

Lemma copy_remote_effect d temp peer d' r :
  copy_remote d temp peer = (d', r) →
  dk_fault d' = dk_fault d ∧ ∀ p, p ≠ temp → dk_files d' !! p = dk_files d !! p.
Proof.
  unfold copy_remote. intros H. repeat (case_match; [by simplify_eq|]).
  destruct (write_file d temp []) as [d1 w] eqn:Hw.
  destruct (write_file_same _ _ _ _ _ Hw) as [_ Hf1].
  assert (Hd1 : ∀ p, p ≠ temp → dk_files d1 !! p = dk_files d !! p) by (intros; by eapply write_file_ne).
  destruct w; [by simplify_eq| |]; (destruct (copy_stream _ _ _ _) as [data|c m]; simplify_eq).
  all: try (split; [rewrite -Hf1; by apply unlink_same|]; intros p Hp; rewrite unlink_ne; auto; fail).
  all: destruct (write_file d1 temp data) as [d2 w2] eqn:Hw2; cbn;
    destruct (write_file_same _ _ _ _ _ Hw2) as [_ Hf2]; split; [congruence|];
    intros p Hp; rewrite (write_file_ne _ _ _ _ _ _ Hw2 Hp); auto.
Qed.

Lemma copy_content_safe ss dest_rec src_rec user peer now :
  ss_inv ss → dest_rec ∈ ss_files ss → ss_file_has_active_writers ss dest_rec = false →
  safe_step None ss (copy_content ss dest_rec src_rec user peer now).1.
Proof.
  intros Hi Hin Hw. unfold copy_content. pose proof (rec_in _ _ Hi Hin) as Hok.
  set (temp := fit _ _). set (d0 := unlink (ss_disk ss) temp).
  assert (Htemp : doc_path temp = false).
  { unfold temp. rewrite fit_short; [rewrite length_app; pose proof (ro_short _ Hok); cbn; lia|].
    apply doc_path_copytmp. }
  set (same d := dk_fault d = dk_fault (ss_disk ss) ∧
     ∀ p, p ≠ fr_filepath dest_rec → doc_path p = true → dk_files d !! p = dk_files (ss_disk ss) !! p).
  assert (H0 : same d0).
  { split; [by apply unlink_same|]. intros p _ Hp. apply unlink_ne. congruence. }
  destruct (match src_rec with Some _ => _ | None => _ end) as [d1 f1] eqn:H1.
  assert (Hd1 : same d1).
  { destruct H0 as [Hf0 Hd0]. destruct src_rec as [src|].
    - destruct (ss_copy_file d0 _ temp) as [d2 b] eqn:Hc.
      destruct (ss_copy_file_same _ _ _ _ _ Hc) as [_ Hf2].
      assert (d1 = d2) as -> by (by destruct b; simplify_eq). split; [congruence|].
      intros p Hp Hdoc. rewrite (ss_copy_file_ne _ _ _ _ _ _ Hc); [congruence|by apply Hd0].
    - destruct (copy_remote d0 temp peer) as [d2 r] eqn:Hc. apply copy_remote_effect in Hc as [Hf2 Hd2].
      assert (d1 = d2) as -> by (by destruct r; simplify_eq). split; [congruence|].
      intros p Hp Hdoc. rewrite Hd2; [congruence|by apply Hd0]. }
  clear H1. destruct (match f1 with Some _ => _ | None => _ end) as [d2 f2] eqn:H2.
  assert (Hd2 : same d2).
  { destruct Hd1 as [Hf1 Hd1]. destruct f1; [by simplify_eq|].
    destruct (rename d1 temp _) as [d3 b] eqn:Hr. apply rename_effect in Hr as [Hf3 Hd3].
    assert (d2 = d3) as -> by (by destruct b; simplify_eq). split; [congruence|].
    intros p Hp Hdoc. rewrite Hd3; [congruence|done|by apply Hd1]. }
  clear H2. destruct Hd2 as [Hf2 Hd2]. destruct f2 as [[code m]|]; (eapply frame_safe; [done|]).
  - eapply disk_frame; [done|rewrite -Hf2; by apply unlink_same|].
    eapply docs_spared; [done|done|done|]. intros p Hp Hdoc. rewrite unlink_ne; [congruence|by apply Hd2].
  - eapply touch_frame; [done|done|done|apply Hok|done|by eapply docs_spared].
Qed.

Lemma handle_ss_copy_safe ss msg peer now : ss_inv ss → safe_step None ss (handle_ss_copy ss msg peer now).1.
Proof.
  intros Hi. pose proof (safe_refl None ss Hi) as Hstay. unfold handle_ss_copy. case_decide; [done|]. case_match; [done|].
  destruct (streq _ _) eqn:Hl; cbn; repeat (case_match; try done).
  all: apply copy_content_safe; [done| |done].
  all: by match goal with H : ss_find_file _ _ = Some ?r |- ?r ∈ _ => apply find_file_Some in H as [? _] end.
Qed.

(** ** Deleting *)

Lemma unlink_all_effect d cks :
  Forall (λ ck, doc_path (ck_filepath ck) = false) cks →
  let d' := foldl (λ d ck, match ck_filepath ck with [] => d | path => unlink d path end) d cks in
  dk_fault d' = dk_fault d ∧ ∀ p, doc_path p = true → dk_files d' !! p = dk_files d !! p.
Proof.
  intros H. revert d. induction H as [|ck cks Hck _ IH]; intros d; cbn; [done|].
  destruct (IH (match ck_filepath ck with [] => d | path => unlink d path end)) as [Hf Hd].
  destruct (ck_filepath ck) as [|c p] eqn:Hp; [done|]. split.
  - rewrite Hf. by apply unlink_same.
  - intros q Hq. rewrite Hd; [done|]. apply unlink_ne. congruence.
Qed.

Lemma remove_elem_id ss p rec :
  NoDup (map fr_id (ss_files ss)) → firstb p (ss_files ss) = Some rec →
  ∀ r, r ∈ ss_files ss → fr_id r ≠ fr_id rec → r ∈ remove_firstb p (ss_files ss).
Proof.
  generalize (ss_files ss) as l. clear. intros l. induction l as [|x l IH]; cbn; intros Hnd Hf r Hr Hid; [done|].
  apply NoDup_cons in Hnd as [Hx Hnd]. destruct (p x); simplify_eq.
  - by apply elem_of_cons in Hr as [->|Hr].
  - apply elem_of_cons in Hr as [->|Hr]; [left|right; eauto].
Qed.

Lemma ss_delete_file_safe ss name : ss_inv ss → safe_step None ss (ss_delete_file ss name).1.
Proof.
  intros Hi. pose proof (safe_refl None ss Hi) as Hstay. unfold ss_delete_file. destruct (ss_find_file ss name) as [node|] eqn:Hf; [|done].
  destruct (ss_file_has_active_writers ss node) eqn:Hw; [done|]. cbn.
  pose proof (find_file_Some _ _ _ Hf) as [Hin _]. pose proof (rec_in _ _ Hi Hin) as Hok.
  set (d3 := unlink _ (fr_undopath node)).
  assert (Hf3 : dk_fault d3 = dk_fault (ss_disk ss)).
  { unfold d3. by rewrite !(proj2 (unlink_same _ _)). }
  assert (Hd3 : ∀ p, p ≠ fr_filepath node → doc_path p = true → dk_files d3 !! p = dk_files (ss_disk ss) !! p).
  { intros p Hp Hdoc. unfold d3. pose proof (ro_meta _ Hok). pose proof (ro_undo _ Hok).
    rewrite !unlink_ne; [congruence..|done]. }
  destruct (unlink_all_effect d3 _ (ro_ckpts _ Hok)) as [Hf4 Hd4].
  pose proof (remove_firstb_sublist (same_name name) (ss_files ss)) as Hsub.
  pose proof (inv_ids _ Hi) as Hids.
  match goal with |- safe_step None ss ?s => set (ss' := s) end.
  assert (Hcarry : carry ss ss').
  { split; [done|]. intros s rec Hs [Hr Hid]%deref_Some. exists rec. split.
    - apply deref_iff; [eapply sublist_NoDup; [exact Hids|by apply sublist_map]|]. split; [|done].
      eapply remove_elem_id; [done|exact Hf|done|]. rewrite Hid. by apply (no_writers ss).
    - cbn. rewrite Hd4; [by apply ro_doc, (rec_in ss)|]. rewrite Hd3; [|by apply ro_doc, (rec_in ss)|done].
      intros Heq. apply (no_writers _ _ _ Hw Hs). rewrite -Hid. f_equal.
      by eapply (NoDup_key_inj fr_filepath); [apply Hi|..]. }
  apply carry_safe; [done| |done].
  split; cbn; try apply Hi.
  - eapply sublist_NoDup; [exact Hids|by apply sublist_map].
  - rewrite Forall_forall. intros r Hr. pose proof (inv_next _ Hi) as H. rewrite Forall_forall in H.
    apply H. by eapply sublist_elem.
  - eapply sublist_NoDup; [apply (inv_names _ Hi)|by apply sublist_map].
  - eapply sublist_NoDup; [apply (inv_paths _ Hi)|by apply sublist_map].
  - rewrite Forall_forall. intros r Hr. eapply rec_in; [done|by eapply sublist_elem].
  - rewrite Forall_forall. intros r Hr. pose proof (inv_canon _ Hi) as H. rewrite Forall_forall in H.
    apply H. by eapply sublist_elem.
  - eapply no_short_fault; [apply (inv_disk _ Hi)|congruence].
  - by apply (carry_sessions_ok ss ss' Hcarry), Hi.
Qed.

(** ** Creating *)

Lemma path_or_empty_sidecar base physical suffix n :
  suffix = SS_META_SUFFIX ∨ suffix = SS_UNDO_SUFFIX → length physical < MAX_FILENAME_LENGTH →
  doc_path (path_or_empty (build_path n base (fit (MAX_FILENAME_LENGTH + 8) (physical ++ suffix)))) = false.
Proof.
  intros Hs Hp. destruct (build_path _ _ _) as [p|] eqn:Hb; [|done].
  apply build_path_Some in Hb as [-> _].
  assert (Hl : length suffix = 5) by by destruct Hs as [-> | ->].
  rewrite fit_short; [rewrite length_app Hl; lia|].
  rewrite !app_assoc. destruct Hs as [-> | ->]; [apply doc_path_meta|apply doc_path_undo].
Qed.

Lemma set_paths_fields sp rec name flat :
  flatten_logical_path name MAX_FILENAME_LENGTH = Some flat →
  let r := ss_set_record_paths sp rec name in
  fr_filename r = name ∧ fr_physical_name r = flat ∧
  fr_filepath r = path_or_empty (build_path MAX_PATH_LENGTH sp flat) ∧
  doc_path (fr_metapath r) = false ∧ doc_path (fr_undopath r) = false ∧
  length name < MAX_FILENAME_LENGTH.
Proof.
  intros Hfl. unfold ss_set_record_paths. rewrite Hfl.
  cbn [fr_filename fr_physical_name fr_filepath fr_metapath fr_undopath with_paths].
  rewrite flatten_spec in Hfl. case_decide as Hlen; simplify_eq.
  rewrite fit_short; [done|]. split_and!; try done;
    apply path_or_empty_sidecar; auto; by rewrite length_map.
Qed.

Lemma ss_find_file_None ss name r :
  ss_find_file ss name = None → length name < MAX_FILENAME_LENGTH → r ∈ ss_files ss →
  rec_ok r → fr_filename r ≠ name.
Proof.
  intros Hf%firstb_None Hl Hr Hok Heq. rewrite Forall_forall in Hf. specialize (Hf r Hr).
  apply not_true_iff_false in Hf. apply Hf. unfold same_name.
  apply strneq_exact; [pose proof (ro_name _ Hok); lia|lia|done].
Qed.

(** Adding a record for a path that no document has. *)
Lemma add_record_safe ss d rec :
  ss_inv ss → fr_id rec = ss_next_id ss → rec_ok rec →
  canon (ss_storage_path ss) (fr_filename rec) (fr_filepath rec) →
  fr_filename rec ∉ map fr_filename (ss_files ss) → fr_filepath rec ∉ map fr_filepath (ss_files ss) →
  dk_fault d = dk_fault (ss_disk ss) →
  (∀ p, p ≠ fr_filepath rec → doc_path p = true → dk_files d !! p = dk_files (ss_disk ss) !! p) →
  safe_step None ss (set_ss_files (set_ss_disk (set_ss_next ss (S (ss_next_id ss))) d) (rec :: ss_files ss)).
Proof.
  intros Hi Hid Hok Hcan Hname Hpath Hf Hd.
  assert (Hfresh : ∀ r, r ∈ ss_files ss → fr_id r ≠ fr_id rec).
  { intros r Hr. pose proof (inv_next _ Hi) as H. rewrite Forall_forall in H. specialize (H r Hr). cbn in H. lia. }
  assert (Hids : NoDup (map fr_id (rec :: ss_files ss))).
  { cbn. apply NoDup_cons. split; [|apply Hi]. intros Hx.
    apply list_elem_of_In, in_map_iff in Hx as (r & Heq & Hr). apply list_elem_of_In in Hr. by apply (Hfresh r). }
  match goal with |- safe_step None ss ?s => set (ss' := s) end.
  assert (Hcarry : carry ss ss').
  { split; [done|]. intros s r Hs [Hr Hrid]%deref_Some. exists r. split.
    - apply deref_iff; [done|]. split; [by right|done].
    - cbn. apply Hd; [|by apply ro_doc, (rec_in ss)]. intros Heq. apply Hpath. rewrite -Heq.
      by apply (list_elem_of_fmap_2 fr_filepath). }
  apply carry_safe; [done| |done].
  split; cbn; try apply Hi; try done.
  - apply Forall_cons. split; [lia|]. eapply Forall_impl; [apply (inv_next _ Hi)|]. cbn. lia.
  - apply NoDup_cons. split; [done|apply Hi].
  - apply NoDup_cons. split; [done|apply Hi].
  - apply Forall_cons. split; [done|apply Hi].
  - apply Forall_cons. split; [done|apply Hi].
  - eapply no_short_fault; [apply (inv_disk _ Hi)|done].
  - by apply (carry_sessions_ok ss ss' Hcarry), Hi.
Qed.

Lemma set_next_safe ss n : ss_inv ss → ss_next_id ss <= n → safe_step None ss (set_ss_next ss n).
Proof.
  intros Hi Hn. apply carry_safe; [done| |split; [done|by intros; eexists]].
  split; cbn; try apply Hi. eapply Forall_impl; [apply (inv_next _ Hi)|]. cbn. lia.
Qed.

Lemma create_record_safe ss d w d2 b rec :
  ss_inv ss → fr_id rec = ss_next_id ss → rec_ok rec →
  canon (ss_storage_path ss) (fr_filename rec) (fr_filepath rec) →
  fr_filename rec ∉ map fr_filename (ss_files ss) → fr_filepath rec ∉ map fr_filepath (ss_files ss) →
  write_file (ss_disk ss) (fr_filepath rec) [] = (d, w) → ss_write_metadata d rec = (d2, b) →
  safe_step None ss (set_ss_files (set_ss_disk (set_ss_next ss (S (ss_next_id ss))) d2) (rec :: ss_files ss)).
Proof.
  intros Hi Hid Hok Hcan Hn Hp Hw [Hf2 Hd2]%write_metadata_effect.
  destruct (write_file_same _ _ _ _ _ Hw) as [_ Hf1].
  apply add_record_safe; try done; [congruence|].
  intros p Hpne Hpd. rewrite Hd2; [|by eapply write_file_ne]. pose proof (ro_meta _ Hok). congruence.
Qed.

(** The record [ss_create_file] builds. *)
Lemma new_record_ok ss name flat owner now :
  flatten_logical_path name MAX_FILENAME_LENGTH = Some flat →
  doc_path (ss_storage_path ss ++ [c_slash] ++ flat) = true →
  length (ss_storage_path ss ++ [c_slash] ++ flat) + 8 < MAX_PATH_LENGTH →
  let rec0 := ss_init_file_record (ss_storage_path ss) (ss_next_id ss) name in
  let rec := with_acl (with_undo (with_last_access (with_modified (with_created
               (with_last_user (with_owner rec0 owner) owner) now) now) now) 0) [] [] in
  rec_ok rec ∧ fr_filename rec = name ∧ fr_filepath rec = ss_storage_path ss ++ [c_slash] ++ flat.
Proof.
  intros Hfl Hdoc Hlen. cbv zeta. unfold ss_init_file_record.
  match goal with |- context [ss_set_record_paths ?sp ?r0 name] =>
    destruct (set_paths_fields sp r0 name flat Hfl) as (Hn & Hph & Hp & Hm & Hu & Hnl);
    assert (Hck : fr_checkpoints (ss_set_record_paths sp r0 name) = []) by reflexivity;
    generalize dependent (ss_set_record_paths sp r0 name) end.
  intros rec0 Hn _ Hp Hm Hu Hck.
  assert (Hb : build_path MAX_PATH_LENGTH (ss_storage_path ss) flat =
               Some (ss_storage_path ss ++ [c_slash] ++ flat)).
  { unfold build_path. rewrite decide_False; [lia|done]. }
  rewrite Hb in Hp. cbn [path_or_empty] in Hp.
  split_and!; [|exact Hn|exact Hp].
  split; cbn [fr_filename fr_filepath fr_metapath fr_undopath fr_checkpoints with_acl with_undo
    with_last_access with_modified with_created with_last_user with_owner];
    rewrite ?Hn ?Hp ?Hck; first [assumption|constructor].
Qed.

Lemma ss_create_file_safe ss name owner now :
  ss_inv ss → length name < MAX_FILENAME_LENGTH → create_safe ss name →
  safe_step None ss (ss_create_file ss name owner now).1.
Proof.
  intros Hi Hlen Hsafe. pose proof (safe_refl None ss Hi) as Hstay. unfold ss_create_file.
  destruct (ss_find_file ss name) eqn:Hf; [exact Hstay|].
  destruct (flatten_logical_path name MAX_FILENAME_LENGTH) as [flat|] eqn:Hfl.
  - unfold create_safe in Hsafe. rewrite Hfl in Hsafe.
    destruct (new_record_ok ss name flat (fit MAX_USERNAME_LENGTH owner) now Hfl (proj1 Hsafe)
      (proj1 (proj2 Hsafe))) as (Hok & Hn & Hp).
    cbv zeta.
    match goal with |- context [write_file _ (fr_filepath ?r) []] =>
      assert (Hid : fr_id r = ss_next_id ss) by reflexivity; set (rec := r) in * end.
    clearbody rec. change (ss_disk (set_ss_next ss (S (ss_next_id ss)))) with (ss_disk ss).
    change (ss_files (set_ss_next ss (S (ss_next_id ss)))) with (ss_files ss).
    destruct (write_file (ss_disk ss) (fr_filepath rec) []) as [d w] eqn:Hw.
    destruct (ss_write_metadata d rec) as [d2 b] eqn:Hwm.
    assert (Hgo : safe_step None ss (set_ss_files (set_ss_disk (set_ss_next ss (S (ss_next_id ss))) d2) (rec :: ss_files ss))).
    { eapply create_record_safe; [exact Hi|exact Hid|exact Hok| | | |exact Hw|exact Hwm].
      - exists flat. by rewrite Hn Hp.
      - rewrite Hn. intros Hx. apply list_elem_of_In, in_map_iff in Hx as (r & Heq & Hr).
        apply list_elem_of_In in Hr.
        exact (ss_find_file_None ss name r Hf Hlen Hr (rec_in _ _ Hi Hr) Heq).
      - rewrite Hp. apply Hsafe. }
    destruct w; [|exact Hgo|exact Hgo]. apply set_next_safe; [exact Hi|lia].
  - rewrite flatten_spec decide_True in Hfl; [exact Hlen|done].
Qed.

(** ** Renaming *)

(** One record gets a new name and path, and its content moves with it. *)
Lemma rekey_safe ss d rec rec' :
  ss_inv ss → rec ∈ ss_files ss → fr_id rec' = fr_id rec → rec_ok rec' →
  canon (ss_storage_path ss) (fr_filename rec') (fr_filepath rec') →
  fr_filename rec' ∉ map fr_filename (ss_files ss) → fr_filepath rec' ∉ map fr_filepath (ss_files ss) →
  dk_fault d = dk_fault (ss_disk ss) →
  dk_files d !! fr_filepath rec' = dk_files (ss_disk ss) !! fr_filepath rec →
  (∀ p, doc_path p = true → p ≠ fr_filepath rec → p ≠ fr_filepath rec' →
     dk_files d !! p = dk_files (ss_disk ss) !! p) →
  safe_step None ss (update_rec (set_ss_disk ss d) rec').
Proof.
  intros Hi Hin Hid Hok Hcan Hn Hp Hf Hmove Hd.
  pose proof (inv_ids _ Hi) as Hids.
  set (u r := if decide (fr_id r = fr_id rec') then rec' else r).
  assert (Hfs : ss_files (update_rec (set_ss_disk ss d) rec') = map u (ss_files ss)) by reflexivity.
  assert (Hu : ∀ r, r ∈ ss_files ss → fr_id (u r) = fr_id r ∧ (u r = r ∧ r ≠ rec ∨ u r = rec' ∧ r = rec)).
  { intros r Hr. unfold u. case_decide as Hr'; [|split; [done|left; split; congruence]].
    split; [done|]. right. split; [done|]. eapply (NoDup_key_inj fr_id); [done..|congruence]. }
  assert (Hinj : ∀ {K} (g : FileRecord → K), NoDup (map g (ss_files ss)) → g rec' ∉ map g (ss_files ss) →
            NoDup (map g (map u (ss_files ss)))).
  { intros K g Hnd Hg. rewrite map_map. apply NoDup_map_strong; [|by apply (NoDup_of_map fr_id)].
    intros x y Hx Hy Heq. destruct (Hu x Hx) as [_ [[Hux _]|[Hux ->]]], (Hu y Hy) as [_ [[Huy _]|[Huy ->]]];
      rewrite ?Hux ?Huy in Heq; [by eapply (NoDup_key_inj g)| | |done].
    - destruct Hg. rewrite -Heq. by apply (list_elem_of_fmap_2 g).
    - destruct Hg. rewrite Heq. by apply (list_elem_of_fmap_2 g). }
  assert (Hids' : map fr_id (map u (ss_files ss)) = map fr_id (ss_files ss)).
  { rewrite map_map. apply map_ext_in. intros r Hr. apply list_elem_of_In in Hr. by apply Hu. }
  assert (Hall : ∀ P : FileRecord → Prop, P rec' → Forall P (ss_files ss) → Forall P (map u (ss_files ss))).
  { intros P HP HF. rewrite Forall_forall in HF. rewrite Forall_forall. intros r Hr.
    apply list_elem_of_In, in_map_iff in Hr as (r0 & <- & Hr0). apply list_elem_of_In in Hr0.
    destruct (Hu r0 Hr0) as [_ [[-> _]|[-> _]]]; auto. }
  assert (Hcarry : carry ss (update_rec (set_ss_disk ss d) rec')).
  { split; [done|]. intros s r Hs [Hr Hrid]%deref_Some.
    destruct (Hu r Hr) as [Hidu Hcase]. exists (u r). split.
    - apply deref_iff; [by rewrite Hfs Hids'|]. rewrite Hfs. split; [|congruence].
      by apply (list_elem_of_fmap_2 u).
    - cbn. destruct Hcase as [[-> Hne]|[-> ->]]; [|done]. apply Hd.
      + by apply ro_doc, (rec_in ss).
      + intros Heq. apply Hne. by eapply (NoDup_key_inj fr_filepath); [apply Hi|..].
      + intros Heq. apply Hp. rewrite -Heq. by apply (list_elem_of_fmap_2 fr_filepath). }
  apply carry_safe; [done| |done].
  split; rewrite ?Hfs; try apply Hi; try exact Hids.
  - by rewrite Hids'.
  - apply Hall; [|apply Hi]. pose proof (inv_next _ Hi) as H. rewrite Forall_forall in H.
    specialize (H rec Hin). cbn in H |- *. lia.
  - apply Hinj; [apply Hi|done].
  - apply Hinj; [apply Hi|done].
  - apply Hall; [done|apply Hi].
  - apply (Hall (λ r, canon (ss_storage_path ss) (fr_filename r) (fr_filepath r))); [done|apply Hi].
  - eapply no_short_fault; [apply (inv_disk _ Hi)|done].
  - apply (carry_sessions_ok ss _ Hcarry), Hi.
Qed.

Lemma rename_moves d old new d' :
  rename d old new = (d', true) → old ≠ new → dk_files d' !! new = dk_files d !! old.
Proof.
  unfold rename. intros H Hne. repeat case_match; simplify_eq. cbn. by rewrite lookup_insert_eq.
Qed.

(** What a successful [ss_handle_rename] did: the document and its sidecars moved,
    as far as the disk took it, and the record [rec2] describes them. *)
Record renamed (ss : StorageServer) (new_logical new_flat : cstr) (rec rec2 : FileRecord) (d1 d2 d3 : Disk) : Prop := {
  rn_in : rec ∈ ss_files ss;
  rn_id : fr_id rec2 = fr_id rec;
  rn_name : fr_filename rec2 = new_logical;
  rn_doc : fr_filepath rec2 = ss_storage_path ss ++ [c_slash] ++ new_flat;
  rn_meta : fr_metapath rec2 = fr_filepath rec2 ++ SS_META_SUFFIX;
  rn_undo : fr_undopath rec2 = fr_filepath rec2 ++ SS_UNDO_SUFFIX;
  rn_ckpts : fr_checkpoints rec2 = fr_checkpoints rec;
  rn_moved : rename (ss_disk ss) (fr_filepath rec) (fr_filepath rec2) = (d1, true);
  rn_moved_meta : ∃ b, rename d1 (fr_filepath rec ++ SS_META_SUFFIX) (fr_metapath rec2) = (d2, b);
  rn_moved_undo : ∃ b, rename d2 (fr_filepath rec ++ SS_UNDO_SUFFIX) (fr_undopath rec2) = (d3, b);
  rn_free : fr_filepath rec2 ∉ map fr_filepath (ss_files ss)
}.

Lemma flatten_short logical flat : flatten_logical_path logical MAX_FILENAME_LENGTH = Some flat →
  flat = map flat_char logical ∧ length flat < MAX_FILENAME_LENGTH ∧ length logical < MAX_FILENAME_LENGTH.
Proof. rewrite flatten_spec. case_decide; [|done]. intros [= <-]. by rewrite length_map. Qed.

Lemma rename_outcome ss old_logical new_logical old_flat new_flat now :
  ss_inv ss → rename_safe ss new_logical new_flat →
  (ss_handle_rename ss old_logical new_logical old_flat new_flat now).1 = ss ∨
  ∃ rec rec2 d1 d2 d3, renamed ss new_logical new_flat rec rec2 d1 d2 d3 ∧
    (ss_handle_rename ss old_logical new_logical old_flat new_flat now).1 =
      update_rec (set_ss_disk ss (ss_write_metadata d3 rec2).1) rec2.
Proof.
  intros Hi (Hfl & _ & Hdoc & Hlen & Hpath). unfold ss_handle_rename.
  destruct (ss_find_file ss old_logical) as [rec|] eqn:Hf; [|by left].
  apply find_file_Some in Hf as [Hin _]. pose proof (rec_in _ _ Hi Hin) as Hok.
  pose proof (inv_canon _ Hi) as Hcan. rewrite Forall_forall in Hcan.
  destruct (Hcan rec Hin) as (flat & Hflat & Hfp). rewrite Hflat.
  destruct (strneq _ flat old_flat) eqn:Hst; [|by left]. cbn [negb].
  apply strneq_short in Hst as <-; [|apply (flatten_short _ _ Hflat)].
  destruct (build_path _ _ flat) as [cur|] eqn:Hb1; [|by left].
  destruct (build_path _ _ new_flat) as [new|] eqn:Hb2; [|by left].
  apply build_path_Some in Hb1 as [Hcur _]. apply build_path_Some in Hb2 as [Hnew Hnl].
  assert (cur = fr_filepath rec) as -> by congruence. clear Hcur. rewrite -Hnew in Hdoc, Hlen, Hpath.
  destruct (rename (ss_disk ss) (fr_filepath rec) new) as [d1 b1] eqn:H1. destruct b1; [|by left]. right.
  pose proof (ro_short _ Hok) as Hshort.
  assert (Hsuf : ∀ p s, length s = 5 → length p + 8 < MAX_PATH_LENGTH → fit MAX_PATH_LENGTH (p ++ s) = p ++ s).
  { intros p s Hs Hp. apply fit_short. rewrite length_app. lia. }
  rewrite !(Hsuf _ SS_META_SUFFIX); try (reflexivity || assumption).
  rewrite !(Hsuf _ SS_UNDO_SUFFIX); try (reflexivity || assumption).
  destruct (rename d1 _ _) as [d2 b2] eqn:H2. destruct (rename d2 _ _) as [d3 b3] eqn:H3.
  apply flatten_short in Hfl as (_ & Hn1 & Hn2).
  rewrite !(fit_short MAX_FILENAME_LENGTH); [exact Hn2|exact Hn1|]. rewrite (fit_short MAX_PATH_LENGTH); [exact Hnl|].
  unfold ss_touch_file_metadata.
  set (rec1 := with_paths rec new_logical new_flat new (new ++ SS_META_SUFFIX) (new ++ SS_UNDO_SUFFIX)).
  pose proof (touch_record_key rec1 None true now) as Hk. pose proof (touch_record_ckpts rec1 None true now) as Hck.
  exists rec, (touch_record rec1 None true now), d1, d2, d3. change (ss_disk (set_ss_disk ss d3)) with d3.
  split; [|by destruct (ss_write_metadata d3 _)].
  destruct (touch_record rec1 None true now). unfold rec_key in Hk. subst rec1. cbn in Hk, Hck. simplify_eq. by split; eauto.
Qed.

Lemma ss_handle_rename_safe ss old_logical new_logical old_flat new_flat now :
  ss_inv ss → rename_safe ss new_logical new_flat →
  safe_step None ss (ss_handle_rename ss old_logical new_logical old_flat new_flat now).1.
Proof.
  intros Hi Hsafe. destruct (rename_outcome ss old_logical new_logical old_flat new_flat now Hi Hsafe)
    as [->|(rec & rec2 & d1 & d2 & d3 & Hrn & ->)]; [by apply safe_refl|].
  destruct Hsafe as (Hfl & Hname & Hdoc & Hlen & _). destruct Hrn as [Hin Hid Hn Hp Hm Hu Hck H1 [b2 H2] [b3 H3] Hfree].
  pose proof (rec_in _ _ Hi Hin) as Hok. rewrite -Hp in Hdoc, Hlen.
  destruct (flatten_short _ _ Hfl) as (_ & _ & Hshort).
  pose proof (rename_effect _ _ _ _ _ H1) as [Hf1 Hd1].
  apply rename_moves in H1; [|intros Heq; apply Hfree; rewrite -Heq; by apply (list_elem_of_fmap_2 fr_filepath)].
  apply rename_effect in H2 as [Hf2 Hd2], H3 as [Hf3 Hd3].
  destruct (ss_write_metadata d3 rec2) as [d4 b4] eqn:H4. apply write_metadata_effect in H4 as [Hf4 Hd4]. cbn [fst].
  pose proof (doc_path_meta (fr_filepath rec)). pose proof (doc_path_meta (fr_filepath rec2)).
  pose proof (doc_path_undo (fr_filepath rec)). pose proof (doc_path_undo (fr_filepath rec2)).
  assert (Hd : ∀ p, doc_path p = true → dk_files d3 !! p = dk_files d1 !! p).
  { intros p Hpd. rewrite Hd3; [congruence|congruence|]. apply Hd2; congruence. }
  apply (rekey_safe ss d4 rec rec2); [exact Hi|exact Hin|exact Hid| | |by rewrite Hn|exact Hfree|congruence| |].
  - split; [by rewrite Hn|done|done|by rewrite Hm|by rewrite Hu|]. rewrite Hck. apply Hok.
  - exists new_flat. by rewrite Hn Hp.
  - rewrite Hd4; [congruence|]. by rewrite Hd.
  - intros p Hpd Hp1 Hp2. rewrite Hd4; [congruence|]. rewrite Hd; [exact Hpd|]. apply Hd1; congruence.
Qed.

(** ** All commands *)

Lemma ns_message_safe ss msg peer now :
  ss_inv ss → ns_safe ss msg → safe_step None ss (ns_message ss msg peer now).1.
Proof.
  intros Hi [Hc Hr]. pose proof (safe_refl None ss Hi) as Hstay. unfold ns_message. destruct msg as [|cmd msg]; [exact Hstay|].
  destruct (streq cmd ($"CREATE_FILE")) eqn:H1.
  { apply streq_true in H1. unfold ns_create_file. case_decide; [exact Hstay|].
    destruct (negb _ || negb _) eqn:Hv; [exact Hstay|].
    pose proof (ss_create_file_safe ss (field (cmd :: msg) 1) (field (cmd :: msg) 2) now Hi) as Hinv.
    destruct (ss_create_file _ _ _ _) as [ss' b]. cbn [fst] in Hinv.
    assert (safe_step None ss ss') by (apply Hinv; [|by apply Hc]; apply orb_false_iff in Hv as [Hv _];
      apply negb_false_iff, validate_filename_spec in Hv; tauto).
    by destruct b. }
  destruct (streq cmd ($"DELETE_FILE")).
  { unfold ns_delete_file. case_decide; [exact Hstay|]. case_match; [exact Hstay|].
    pose proof (ss_delete_file_safe ss (field (cmd :: msg) 1) Hi) as Hinv.
    by destruct (ss_delete_file _ _) as [ss' []]. }
  destruct (streq cmd ($"GET_STATS")).
  { unfold ns_get_stats. repeat (case_match; try exact Hstay). }
  destruct (streq cmd ($"GET_CONTENT")).
  { unfold ns_get_content. repeat (case_match; try exact Hstay). }
  destruct (streq cmd ($"SS_RENAME")) eqn:H5.
  { apply streq_true in H5. unfold ns_rename. case_decide; [exact Hstay|].
    destruct (negb _ || negb _); [exact Hstay|].
    pose proof (ss_handle_rename_safe ss (field (cmd :: msg) 1) (field (cmd :: msg) 2)
      (field (cmd :: msg) 3) (field (cmd :: msg) 4) now Hi (Hr H5)) as Hinv.
    by destruct (ss_handle_rename _ _ _ _ _ _) as [ss' []]. }
  destruct (streq cmd ($"SS_ADDACCESS")); [by apply ns_add_access_safe|].
  destruct (streq cmd ($"SS_REMACCESS")); [by apply ns_remove_access_safe|].
  destruct (streq cmd ($"SS_COPY")); [by apply handle_ss_copy_safe|exact Hstay].
Qed.
