(* ===== verification/SSLocks.v ===== *)
(** * What the sentence locks guarantee

    The storage server as a labelled transition system (a client's message or
    disconnection, a command of the name server, a change of what the disk
    refuses), and the theorems about the states it can reach: mutual exclusion,
    stability of a locked sentence, the effect of a commit and of an undo. *)
From S2P Require Import Prelude CStr Utils Protocol Disk Sentences SSAcl SSFiles SSState SSClient SSControl SSInv SSInvClient SSInvControl.

(** ** Steps *)

Inductive Label :=
  | LClient (fd : Z) (raw : option cstr) (now : Z)
  | LNs (raw : option cstr) (peer : cstr → Z → Peer) (now : Z)
  | LDisk (fault : cstr → Fault).

Definition set_fault (ss : StorageServer) (fault : cstr → Fault) : StorageServer :=
  set_ss_disk ss (mkDisk (dk_files (ss_disk ss)) (dk_dirs (ss_disk ss)) fault).

Definition perform (ss : StorageServer) (l : Label) : Step :=
  match l with
  | LClient fd raw now => client_thread_turn ss fd raw now
  | LNs raw peer now => ns_control_turn ss raw peer now
  | LDisk fault => (set_fault ss fault, [])
  end.

(** The side conditions, which the code does not check: the name server's new
    names have free paths ([ns_safe]: no other document is stored under the same
    flattened name, or has a sidecar or undo copy there), and the disk refuses
    writes rather than cutting them short. *)
Definition allowed (ss : StorageServer) (l : Label) : Prop :=
  match l with
  | LClient _ _ _ => True
  | LNs (Some raw) _ _ => ns_safe ss (protocol_parse_message raw)
  | LNs None _ _ => True
  | LDisk fault => ∀ p n noticed, fault p ≠ ShortWrite n noticed
  end.

Definition actor (l : Label) : option Z := match l with LClient fd _ _ => Some fd | _ => None end.

Inductive ss_step (ss : StorageServer) : StorageServer → Prop :=
  | ss_step_intro l : allowed ss l → ss_step ss (perform ss l).1.

(** ** Lemmas *)

Lemma perform_safe ss l : ss_inv ss → allowed ss l → safe_step (actor l) ss (perform ss l).1.
Proof.
  intros Hi Ha. destruct l as [fd raw now|[raw|] peer now|fault];
    cbn [perform allowed actor ns_control_turn fst] in *.
  - by apply client_thread_turn_safe.
  - by apply ns_message_safe.
  - apply frame_safe; [done|]. split; try done; apply Hi.
  - apply frame_safe; [done|]. split; try done; apply Hi.
Qed.

Lemma steps_inv ss ss' : rtc ss_step ss ss' → ss_inv ss → ss_inv ss'.
Proof. induction 1 as [|ss1 ss2 ss3 [l Ha] _ IH]; [done|]. intros Hi. by apply IH, perform_safe. Qed.

(** A server without files and sessions. *)
Lemma empty_inv ns_ip ns_port ip port fd path running d n :
  no_short d → ss_inv (mkSS ns_ip ns_port ip port fd path running [] [] d n).
Proof. intros Hd. split; cbn; try done; constructor. Qed.

Lemma update_rec_deref ss rec rec0 :
  NoDup (map fr_id (ss_files ss)) → rec0 ∈ ss_files ss → fr_id rec = fr_id rec0 →
  deref (update_rec ss rec) (fr_id rec) = Some rec.
Proof.
  intros Hnd Hin Hid. apply deref_iff.
  - cbn. rewrite map_map. erewrite map_ext; [exact Hnd|]. intros r. by case_decide.
  - split; [|done]. cbn. apply list_elem_of_In, in_map_iff. exists rec0. split; [by case_decide|].
    by apply list_elem_of_In.
Qed.

Lemma find_file_in ss rec :
  NoDup (map fr_filename (ss_files ss)) → Forall rec_ok (ss_files ss) → rec ∈ ss_files ss →
  ss_find_file ss (fr_filename rec) = Some rec.
Proof.
  intros Hnd Hok Hin. rewrite Forall_forall in Hok. pose proof (ro_name _ (Hok rec Hin)) as Hl.
  unfold ss_find_file. destruct (firstb _ (ss_files ss)) as [r|] eqn:Hf.
  - apply firstb_elem in Hf as [Hr Hs]. f_equal.
    eapply (NoDup_key_inj fr_filename); [done..|].
    apply strneq_exact in Hs; [done|pose proof (ro_name _ (Hok r Hr)); lia|lia].
  - apply firstb_None in Hf. rewrite Forall_forall in Hf. specialize (Hf rec Hin).
    apply not_true_iff_false in Hf. destruct Hf. apply strneq_exact; lia || done.
Qed.

Lemma find_file_elem ss rec : ss_inv ss → rec ∈ ss_files ss → ss_find_file ss (fr_filename rec) = Some rec.
Proof. intros Hi. apply find_file_in; apply Hi. Qed.

(** The disk takes a write to the path. *)
Definition writable (d : Disk) (path : cstr) : Prop :=
  can_create d path = true ∧ dk_fault d path = NoFault.

Lemma writable_write d path data :
  writable d path → ss_write_file_content d path data = (set_files d (<[path := data]> (dk_files d)), true).
Proof. intros [Hc Hf]. unfold ss_write_file_content. by rewrite write_file_good. Qed.

Lemma writable_read d path data : writable d path → dk_files d !! path = Some data → read_file d path = Some data.
Proof. intros [Hc Hf] Hd. unfold read_file, denied. by rewrite Hf. Qed.

Lemma write_metadata_set d rec d' b :
  ss_write_metadata d rec = (d', b) →
  ∀ p, p ≠ fr_metapath rec → dk_files d' !! p = dk_files d !! p.
Proof. by intros [_ H]%write_metadata_effect. Qed.

Lemma splice_id text s e : s <= e → splice text s e (slice s e text) = text.
Proof.
  intros Hse. unfold splice, slice.
  replace (drop e text) with (drop (e - s) (drop s text)) by (rewrite drop_drop; f_equal; lia).
  by rewrite !take_drop.
Qed.

(** ** A concrete run *)

Definition run (ss : StorageServer) (ls : list Label) : StorageServer :=
  foldl (λ ss l, (perform ss l).1) ss ls.

Fixpoint all_allowed (ss : StorageServer) (ls : list Label) : Prop :=
  match ls with
  | [] => True
  | l :: ls => allowed ss l ∧ all_allowed (perform ss l).1 ls
  end.

Definition demo_disk : Disk :=
  mkDisk ∅ {[ $"."; $"./ss_storage"; $"./ss_storage/server_127_0_0_1_9001" ]} (λ _, NoFault).

Definition demo0 : StorageServer :=
  mkSS ($"127.0.0.1") 9000 ($"127.0.0.1") 9001 3 ($"./ss_storage/server_127_0_0_1_9001/") true
    [] [] demo_disk 0.

Definition no_peer : cstr → Z → Peer := λ _ _, mkPeer false false [].

Definition from_client (fd : Z) (msg : cstr) : Label := LClient fd (Some (msg ++ [c_nl])) 1000.

(** The name server creates a document and client 5 writes two sentences. *)
Definition demo_write : list Label :=
  [LNs (Some ($"CREATE_FILE|notes.txt|ann" ++ [c_nl])) no_peer 900;
   from_client 5 ($"REQ_WRITE_LOCK|ann|notes.txt|0");
   from_client 5 ($"WRITE_DATA|0|Hello world. Bye.");
   from_client 5 ($"ETIRW")].

(** Clients 6 and 7 then lock one sentence each, and 6 edits its own. *)
Definition demo_locks : list Label :=
  [from_client 6 ($"REQ_WRITE_LOCK|ann|notes.txt|0");
   from_client 7 ($"REQ_WRITE_LOCK|ann|notes.txt|1");
   from_client 6 ($"WRITE_DATA|1|brave. New")].

Definition demo1 : StorageServer := run demo0 demo_write.
Definition demo2 : StorageServer := run demo1 demo_locks.

Lemma run_rtc ss ls : all_allowed ss ls → rtc ss_step ss (run ss ls).
Proof.
  revert ss. induction ls as [|l ls IH]; intros ss Ha; cbn; [done|]. destruct Ha as [Ha Hls].
  eapply rtc_l; [by apply ss_step_intro|]. by apply IH.
Qed.

(** ** Mutual exclusion *)



(** ** Granting a lock *)

Lemma abort_session_iff ss fd s : ss_inv ss →
  s ∈ ss_sessions (ss_abort_session ss fd) ↔ s ∈ ss_sessions ss ∧ ws_client_fd s ≠ fd.
Proof.
  intros Hi. unfold ss_abort_session. rewrite detach_filter; [apply Hi|].
  rewrite list_elem_of_filter Z.eqb_neq. tauto.
Qed.

Lemma abort_no_session ss fd : ss_inv ss → ss_find_session (ss_abort_session ss fd) fd = None.
Proof.
  intros Hi. apply firstb_None, Forall_forall. intros s [_ Hs]%(abort_session_iff _ _ _ Hi). by apply Z.eqb_neq.
Qed.

(** The session that [write_lock_commit] makes has the text of its sentence. *)
Lemma granted_text ss fd rec user idx text start stop :
  ss_inv ss → rec ∈ ss_files ss → dk_files (ss_disk ss) !! fr_filepath rec = Some text →
  ss_get_sentence_bounds text idx = Some (start, stop) →
  let w := if decide (start < stop) then slice start stop text else [] in
  locked_text ss (mkSession fd (fr_id rec) user idx start stop text w) = Some w.
Proof.
  intros Hi Hin Ht Hb w. destruct (bounds_le _ _ _ _ Hb) as [Hle _].
  unfold locked_text. cbn [ws_file ws_sentence_start ws_sentence_end]. rewrite deref_elem; [apply Hi|done|]. rewrite /= Ht /=.
  f_equal. unfold w. case_decide; [done|]. unfold slice. by replace (stop - start) with 0 by lia.
Qed.

(** C18 A lock request for a valid sentence number is granted exactly when the
    file exists, the user may write it, no other client holds that sentence,
    the file can be read and the number is at most its number of delimiters;
    the session then carries the sentence's bounds and text, and a request that
    is refused leaves the client without any session. *)
Theorem write_lock_grants ss fd user name field_idx idx :
  ss_inv ss → parse_int field_idx = Some idx → (0 <= idx)%Z →
  let ss' := (handle_client_write_lock ss fd [$"REQ_WRITE_LOCK"; user; name; field_idx]).1 in
  (is_Some (ss_find_session ss' fd) ↔
   ∃ rec text, ss_find_file ss name = Some rec ∧ ss_check_write_access rec user = true ∧
     (∀ s, s ∈ ss_sessions ss → ws_client_fd s ≠ fd → lock_of s ≠ (fr_id rec, idx)) ∧
     read_file (ss_disk ss) (fr_filepath rec) = Some text ∧
     (idx <= Z.of_nat (count_sentences text))%Z) ∧
  ∀ s, ss_find_session ss' fd = Some s →
    ws_username s = fit MAX_USERNAME_LENGTH user ∧ ws_sentence_index s = idx ∧
    locked_text ss' s = Some (ws_sentence_working s).
Proof.
  intros Hi Hp H0. cbv zeta. unfold handle_client_write_lock.
  destruct (decide (length _ < 4)) as [Hl|_]; [cbn [length] in Hl; lia|].
  change (field [_; user; name; field_idx] 3) with field_idx.
  change (field [_; user; name; field_idx] 2) with name.
  change (field [_; user; name; field_idx] 1) with user.
  rewrite Hp (proj2 (Z.ltb_ge _ _) H0). unfold write_lock_begin.
  set (ss1 := ss_abort_session ss fd).
  pose proof (abort_no_session ss fd Hi) as Hnone. pose proof (λ s, abort_session_iff ss fd s Hi) as Hsess.
  fold ss1 in Hnone, Hsess.
  change (ss_find_file ss1 name) with (ss_find_file ss name).
  assert (Hno : ∀ P : Prop, ¬ P → (is_Some (ss_find_session ss1 fd) ↔ P) ∧
    ∀ s, ss_find_session ss1 fd = Some s → ws_username s = fit MAX_USERNAME_LENGTH user ∧
      ws_sentence_index s = idx ∧ locked_text ss1 s = Some (ws_sentence_working s)).
  { intros P HP. rewrite Hnone. split; [|done]. split; [by intros []|done]. }
  destruct (ss_find_file ss name) as [rec|] eqn:Hf; [|apply Hno; naive_solver].
  destruct (ss_check_write_access rec user) eqn:Hacc; [|apply Hno; naive_solver congruence].
  apply find_file_Some in Hf as [Hin _].
  rewrite (deref_elem ss1 rec); [apply Hi|done|]. unfold write_lock_commit.
  destruct (ss_find_session_by_sentence ss1 rec idx) as [s1|] eqn:Hs1.
  { apply Hno. intros (r & t & [= <-] & _ & Hfree & _). apply firstb_elem in Hs1 as [Hs1 Heq].
    apply andb_true_iff in Heq as [Hid%bool_decide_eq_true Hix%Z.eqb_eq].
    apply Hsess in Hs1 as [Hs1 Hfd]. apply (Hfree s1 Hs1 Hfd). unfold lock_of. congruence. }
  change (ss_disk ss1) with (ss_disk ss).
  destruct (ss_read_file_content (ss_disk ss) (fr_filepath rec)) as [text|] eqn:Hr.
  2: { apply Hno. intros (r & t & [= <-] & _ & _ & Ht & _). unfold ss_read_file_content in Hr. congruence. }
  destruct (ss_get_sentence_bounds text idx) as [[start stop]|] eqn:Hb.
  - split.
    + split; [intros _|intros _; unfold ss_find_session; cbn; by rewrite Z.eqb_refl].
      exists rec, text. split_and!; try done.
      * intros s Hs Hfd. eapply no_session_by_sentence; [exact Hs1|by apply Hsess].
      * apply bounds_iff. by rewrite Hb.
    + intros s. unfold ss_find_session. cbn. rewrite Z.eqb_refl. intros [= <-].
      split_and!; [done|done|].
      apply (granted_text ss fd rec (fit MAX_USERNAME_LENGTH user) idx text start stop); try done.
      unfold ss_read_file_content, read_file in Hr. by case_match.
  - apply Hno. intros (r & t & [= <-] & _ & _ & Ht & Hle). unfold ss_read_file_content in Hr.
    rewrite Ht in Hr. simplify_eq. destruct (proj2 (bounds_iff text idx)) as [x Hx]; [lia|congruence].
Qed.

(** ** Committing and undoing *)

Lemma write_metadata_mount d rec :
  dk_fault (ss_write_metadata d rec).1 = dk_fault d ∧ dk_dirs (ss_write_metadata d rec).1 = dk_dirs d.
Proof.
  unfold ss_write_metadata. destruct (write_file d _ _) as [d1 r] eqn:Hw.
  apply write_file_same in Hw as []. by destruct r.
Qed.

Lemma rec_paths_distinct ss rec : ss_inv ss → rec ∈ ss_files ss →
  fr_undopath rec ≠ fr_filepath rec ∧ fr_metapath rec ≠ fr_filepath rec.
Proof.
  intros Hi Hin. pose proof (rec_in _ _ Hi Hin) as Hok.
  pose proof (ro_doc _ Hok). pose proof (ro_undo _ Hok). pose proof (ro_meta _ Hok). split; congruence.
Qed.

Lemma update_active_fds ss rec a b c delta fd :
  map ws_client_fd (ss_sessions (ss_update_active_sessions ss rec a b c delta fd)) =
  map ws_client_fd (ss_sessions ss).
Proof.
  cbn. rewrite map_map. apply map_ext. intros x. case_match; [done|]. apply shift_session_fd.
Qed.

(** On a disk that takes the two writes, the commit of [s] to [rec] reaches its
    end; the disk [d] it leaves has the new text and the old one. *)
Lemma etirw_commit_good ss fd rec s start stop now text :
  ss_inv ss → rec ∈ ss_files ss → dk_files (ss_disk ss) !! fr_filepath rec = Some text →
  start <= stop → stop <= length text →
  writable (ss_disk ss) (fr_filepath rec) → writable (ss_disk ss) (fr_undopath rec) →
  fr_undopath rec ≠ fr_metapath rec →
  let w := ws_sentence_working s in
  ∃ d, let ss1 := update_rec (set_ss_disk ss d)
                    (touch_record (with_undo rec 1) (Some (ws_username s)) true now) in
    let ss' := ss_detach_session
                 (ss_update_active_sessions ss1 rec start (stop - start) (length w)
                    (count_sentences_in_span w 0 (length w) - count_sentences_in_span text start stop) fd) fd in
    etirw_commit ss fd rec s start stop now =
      (ss', emit fd [$"OK_WRITE_DONE"] ++ ss_sync_metadata_to_ns ss' rec) ∧
    dk_fault d = dk_fault (ss_disk ss) ∧ dk_dirs d = dk_dirs (ss_disk ss) ∧
    dk_files d !! fr_filepath rec = Some (splice text start stop w) ∧
    dk_files d !! fr_undopath rec = Some text ∧
    ∀ p, doc_path p = true → p ≠ fr_filepath rec → dk_files d !! p = dk_files (ss_disk ss) !! p.
Proof.
  intros Hi Hin Ht Hse Hel Hwf Hwu Hum w.
  destruct (rec_paths_distinct _ _ Hi Hin) as [Huf Hmf].
  pose proof (rec_in _ _ Hi Hin) as Hok.
  unfold etirw_commit, ss_touch_file_metadata. cbv zeta.
  set (rec1 := touch_record (with_undo rec 1) (Some (ws_username s)) true now).
  assert (Hm1 : fr_metapath rec1 = fr_metapath rec) by done.
  clearbody rec1. unfold ss_read_file_content. rewrite (writable_read _ _ _ Hwf Ht).
  rewrite decide_False; [lia|]. rewrite (writable_write _ _ _ Hwu).
  rewrite writable_write; [exact Hwf|].
  match goal with |- context [ss_write_metadata ?d0 rec1] =>
    destruct (ss_write_metadata d0 rec1) as [d b] eqn:Hm;
    pose proof (write_metadata_mount d0 rec1) as Hmount; rewrite Hm in Hmount end.
  apply write_metadata_effect in Hm as [_ Hm]. cbn in Hm, Hmount. destruct Hmount as [Hfa Hdi].
  exists d. split_and!; [done|done|done| | |].
  - by rewrite Hm ?lookup_insert_eq; [congruence|].
  - rewrite Hm; [congruence|]. rewrite lookup_insert_ne; [done|]. by rewrite lookup_insert_eq.
  - intros p Hp Hpf. pose proof (ro_undo _ Hok). pose proof (ro_meta _ Hok).
    rewrite Hm; [congruence|]. rewrite !lookup_insert_ne; congruence.
Qed.

(** The same of the handler, for the session of [fd]. *)
Section commit_good.
Context (ss : StorageServer) (fd : Z) (s : WriteSession) (rec : FileRecord) (text : cstr) (now : Z).
Hypothesis (Hi : ss_inv ss) (Hf : ss_find_session ss fd = Some s) (Hde : deref ss (ws_file s) = Some rec).
Hypothesis (Ht : dk_files (ss_disk ss) !! fr_filepath rec = Some text).
Hypothesis (Hwf : writable (ss_disk ss) (fr_filepath rec)) (Hwu : writable (ss_disk ss) (fr_undopath rec)).
Hypothesis (Hum : fr_undopath rec ≠ fr_metapath rec).

Let rec1 := touch_record (with_undo rec 1) (Some (ws_username s)) true now.

Lemma etirw_good :
  let ss' := (handle_client_etirw ss fd now).1 in
  dk_files (ss_disk ss') !! fr_filepath rec =
    Some (splice text (ws_sentence_start s) (ws_sentence_end s) (ws_sentence_working s)) ∧
  dk_files (ss_disk ss') !! fr_undopath rec = Some text ∧
  dk_fault (ss_disk ss') = dk_fault (ss_disk ss) ∧ dk_dirs (ss_disk ss') = dk_dirs (ss_disk ss) ∧
  (∀ p, doc_path p = true → p ≠ fr_filepath rec →
     dk_files (ss_disk ss') !! p = dk_files (ss_disk ss) !! p) ∧
  deref ss' (ws_file s) = Some rec1 ∧
  (∀ x, x ∈ ss_sessions ss' → ws_client_fd x ≠ fd ∧
     ∃ y, y ∈ ss_sessions ss ∧ ws_client_fd y = ws_client_fd x ∧ ws_file y = ws_file x) ∧
  (handle_client_etirw ss fd now).2 = emit fd [$"OK_WRITE_DONE"] ++ ss_sync_metadata_to_ns ss' rec.
Proof.
  apply find_session_Some in Hf as Hin. destruct Hin as [Hin Hfd].
  apply deref_Some in Hde as Hrec. destruct Hrec as [Hrec Hid].
  pose proof (inv_sessions _ Hi) as Hall. rewrite Forall_forall in Hall.
  destruct (Hall s Hin) as (rec0 & text0 & Hde0 & Ht0 & _ & Hsp & _). simplify_eq.
  destruct (spans_bound _ _ _ _ Hsp) as [Hse Hel].
  destruct (etirw_commit_good ss (ws_client_fd s) rec s (ws_sentence_start s) (ws_sentence_end s) now text)
    as (d & Hrun & Hfa & Hdi & Hnew & Hundo & Hdocs); [done..|].
  assert (Hh : handle_client_etirw ss (ws_client_fd s) now =
    etirw_commit ss (ws_client_fd s) rec s (ws_sentence_start s) (ws_sentence_end s) now).
  { unfold handle_client_etirw, etirw_begin. by rewrite Hf Hde. }
  cbv zeta. rewrite Hh Hrun. cbn [fst snd].
  split_and!; [exact Hnew|exact Hundo|exact Hfa|exact Hdi|exact Hdocs| | |done].
  - rewrite -Hid. apply (update_rec_deref (set_ss_disk ss d) rec1 rec); [apply Hi|done|done].
  - rewrite detach_filter; [rewrite update_active_fds; apply Hi|].
    intros x [Hx Hin']%list_elem_of_filter. split; [by apply Z.eqb_neq|].
    cbn in Hin'. apply list_elem_of_In, in_map_iff in Hin' as (y & <- & Hy). exists y.
    apply list_elem_of_In in Hy.
    case_match; [done|]. by rewrite shift_session_fd shift_session_file.
Qed.
End commit_good.

(** C10 Committing with [ETIRW] on a disk that takes the writes: the file becomes
    its text with exactly the locked span replaced by the working copy, the old
    text becomes the undo file, the record is marked undoable and modified, the
    lock is released, every other session keeps its sentence and every other
    document its content; the client gets one reply and the name server the new
    counts. *)
Theorem etirw_commits ss fd s rec text now :
  ss_inv ss → ss_find_session ss fd = Some s → deref ss (ws_file s) = Some rec →
  dk_files (ss_disk ss) !! fr_filepath rec = Some text →
  writable (ss_disk ss) (fr_filepath rec) → writable (ss_disk ss) (fr_undopath rec) →
  fr_undopath rec ≠ fr_metapath rec →
  let ss' := (handle_client_etirw ss fd now).1 in
  dk_files (ss_disk ss') !! fr_filepath rec =
    Some (splice text (ws_sentence_start s) (ws_sentence_end s) (ws_sentence_working s)) ∧
  dk_files (ss_disk ss') !! fr_undopath rec = Some text ∧
  (∃ rec', deref ss' (ws_file s) = Some rec' ∧ fr_undo_available rec' = 1%Z ∧
     fr_modified rec' = now ∧ rec_key rec' = rec_key rec) ∧
  ss_find_session ss' fd = None ∧
  keeps (Some fd) ss ss' ∧
  (∀ r, r ∈ ss_files ss → fr_id r ≠ fr_id rec →
     dk_files (ss_disk ss') !! fr_filepath r = dk_files (ss_disk ss) !! fr_filepath r) ∧
  (handle_client_etirw ss fd now).2 = emit fd [$"OK_WRITE_DONE"] ++ ss_sync_metadata_to_ns ss' rec.
Proof.
  intros Hi Hf Hde Ht Hwf Hwu Hum ss'.
  destruct (etirw_good ss fd s rec text now) as (Hnew & Hundo & _ & _ & Hdocs & Hde' & Hgone & Hout); [done..|].
  apply deref_Some in Hde as [Hrec _].
  split_and!; [exact Hnew|exact Hundo| | |by apply handle_client_etirw_safe| |exact Hout].
  - by eexists.
  - apply firstb_None, Forall_forall. intros x Hx. by apply Z.eqb_neq, Hgone.
  - intros r Hr Hne. apply Hdocs; [by apply ro_doc, (rec_in ss)|]. intros Heq. apply Hne. f_equal.
    by eapply (NoDup_key_inj fr_filepath); [apply (inv_paths _ Hi)|..].
Qed.

(** A record touched by a user is still found under its name. *)
Lemma update_touched ss rec user now d :
  ss_inv ss → rec ∈ ss_files ss →
  ss_find_file (update_rec (set_ss_disk ss d) (touch_record (with_undo rec 0) (Some user) true now))
    (fr_filename rec) = Some (touch_record (with_undo rec 0) (Some user) true now).
Proof.
  intros Hi Hin. set (rec1 := touch_record _ _ _ _).
  assert (Hk : rec_key rec1 = rec_key rec) by done.
  change (fr_filename rec) with (fr_filename rec1).
  pose proof (update_rec_deref (set_ss_disk ss d) rec1 rec (inv_ids _ Hi) Hin eq_refl) as [Hin1 _]%deref_Some.
  pose proof (update_rec_keys (set_ss_disk ss d) rec1 rec (inv_ids _ Hi) Hin Hk) as Hkeys.
  apply find_file_in; [|apply update_rec_ok; [apply Hi|]|done].
  - rewrite (keys_names _ _ Hkeys). apply Hi.
  - pose proof (rec_in _ _ Hi Hin) as Hok. apply (rec_ok_key rec rec1 Hok Hk), Hok.
Qed.

Lemma handle_undo_good ss fd user rec old now :
  ss_inv ss → rec ∈ ss_files ss → ss_check_write_access rec user = true →
  (∀ s, s ∈ ss_sessions ss → ws_file s ≠ fr_id rec) → fr_undo_available rec ≠ 0%Z →
  dk_files (ss_disk ss) !! fr_undopath rec = Some old →
  writable (ss_disk ss) (fr_filepath rec) → writable (ss_disk ss) (fr_undopath rec) →
  let '(ss', out) := handle_client_undo ss fd [$"REQ_UNDO"; user; fr_filename rec] now in
  dk_files (ss_disk ss') !! fr_filepath rec = Some old ∧ out = emit fd [$"OK_UNDO"] ∧
  ss_find_file ss' (fr_filename rec) = Some (touch_record (with_undo rec 0) (Some user) true now) ∧
  ss_sessions ss' = ss_sessions ss.
Proof.
  intros Hi Hin Hacc Hs Hu Hold Hwf Hwu.
  pose proof (λ d, update_touched ss rec user now d Hi Hin) as Hfind.
  destruct (rec_paths_distinct _ _ Hi Hin) as [_ Hmf].
  unfold handle_client_undo. destruct (decide (length _ < 3)) as [Hl|_]; [cbn [length] in Hl; lia|].
  change (field [_; user; fr_filename rec] 1) with user.
  change (field [_; user; fr_filename rec] 2) with (fr_filename rec).
  unfold with_file. rewrite find_file_elem; [done..|]. rewrite Hacc.
  destruct (ss_file_has_active_writers ss rec) eqn:Hw.
  { apply existsb_exists in Hw as (x & Hx & Hid%bool_decide_eq_true).
    by destruct (Hs x ltac:(by apply list_elem_of_In)). }
  assert (Hne : fr_undopath rec ≠ []).
  { destruct Hwu as [Hc _]. unfold can_create in Hc. intros Heq. by rewrite Heq in Hc. }
  rewrite (proj2 (Z.eqb_neq _ _) Hu) /file_exists (bool_decide_eq_true_2 _ Hne) Hold.
  unfold ss_read_file_content. rewrite (writable_read _ _ _ Hwu Hold) writable_write; [done|].
  cbn [bool_decide andb orb negb]. rewrite (bool_decide_eq_true_2 (is_Some _)); [done|]. cbn [orb andb negb].
  unfold ss_touch_file_metadata. set (rec1 := touch_record _ _ true now) in *.
  assert (Hm1 : fr_metapath rec1 = fr_metapath rec) by done. clearbody rec1.
  destruct (ss_write_metadata _ rec1) as [d b] eqn:Hm.
  apply write_metadata_effect in Hm as [_ Hm].
  split_and!; [|done|apply Hfind|done]. cbn. rewrite Hm; [congruence|]. cbn. by rewrite lookup_insert_eq.
Qed.

(** C17 An undo after a commit restores the text that was there before the
    commit, by any user who may write the file and whoever committed; a second
    undo is refused with "no undo history" and changes nothing. *)
Theorem commit_then_undo ss fd s rec text now fd2 user now2 now3 :
  ss_inv ss → ss_find_session ss fd = Some s → deref ss (ws_file s) = Some rec →
  dk_files (ss_disk ss) !! fr_filepath rec = Some text →
  writable (ss_disk ss) (fr_filepath rec) → writable (ss_disk ss) (fr_undopath rec) →
  fr_undopath rec ≠ fr_metapath rec →
  (∀ x, x ∈ ss_sessions ss → ws_file x = ws_file s → ws_client_fd x = fd) →
  ss_check_write_access rec user = true →
  let msg := [$"REQ_UNDO"; user; fr_filename rec] in
  let ss1 := (handle_client_etirw ss fd now).1 in
  let ss2 := (handle_client_undo ss1 fd2 msg now2).1 in
  dk_files (ss_disk ss2) !! fr_filepath rec = Some text ∧
  (handle_client_undo ss1 fd2 msg now2).2 = emit fd2 [$"OK_UNDO"] ∧
  handle_client_undo ss2 fd2 msg now3 =
    (ss2, send_error_response fd2 ERR_NO_UNDO_HISTORY ($"No undo available")).
Proof.
  intros Hi Hf Hde Ht Hwf Hwu Hum Hsole Hacc msg ss1 ss2.
  destruct (etirw_good ss fd s rec text now) as (_ & Hundo & Hfa & Hdi & _ & Hde' & Hgone & _); [done..|].
  fold ss1 in Hundo, Hfa, Hdi, Hde', Hgone.
  assert (Hi1 : ss_inv ss1) by by apply handle_client_etirw_safe.
  assert (Hw1 : ∀ p, writable (ss_disk ss) p → writable (ss_disk ss1) p).
  { intros p. unfold writable, can_create, denied. by rewrite Hfa Hdi. }
  apply deref_Some in Hde as [_ Hid]. apply deref_Some in Hde' as [Hin1 Hid1].
  set (rec1 := touch_record _ _ true now) in *.
  assert (Hsess1 : ∀ x, x ∈ ss_sessions ss1 → ws_file x ≠ fr_id rec1).
  { intros x Hx Heq. destruct (Hgone x Hx) as (Hne & y & Hy & Hfd & Hfile). apply Hne.
    rewrite -Hfd. apply (Hsole y Hy). congruence. }
  pose proof (handle_undo_good ss1 fd2 user rec1 text now2 Hi1 Hin1 Hacc Hsess1 ltac:(done) Hundo
    (Hw1 _ Hwf) (Hw1 _ Hwu)) as Hgood.
  change [_; user; fr_filename rec1] with msg in Hgood.
  subst ss2. destruct (handle_client_undo ss1 fd2 msg now2) as [ss2 out].
  destruct Hgood as (Htext & -> & Hfind & Hs2). cbn [fst snd]. split_and!; [exact Htext|done|].
  unfold handle_client_undo. destruct (decide (length msg < 3)) as [Hl|_]; [cbn [msg length] in Hl; lia|].
  change (field msg 2) with (fr_filename rec1). change (field msg 1) with user.
  unfold with_file. rewrite Hfind.
  change (ss_check_write_access (touch_record _ _ _ _) user) with (ss_check_write_access rec user). rewrite Hacc.
  destruct (ss_file_has_active_writers ss2 _) eqn:Hw; [|done].
  apply existsb_exists in Hw as (x & Hx & Hidx%bool_decide_eq_true).
  rewrite Hs2 in Hx. by destruct (Hsess1 x ltac:(by apply list_elem_of_In)).
Qed.

(** ** The theorems at work *)

Lemma demo_create_safe : ns_safe demo0 [$"CREATE_FILE"; $"notes.txt"; $"ann"].
Proof.
  split; [intros _|done]. unfold create_safe.
  replace (flatten_logical_path _ _) with (Some ($"notes.txt")) by (vm_compute; reflexivity).
  split; [vm_compute; reflexivity|split; [|apply not_elem_of_nil]].
  apply Nat.ltb_lt. vm_compute. reflexivity.
Qed.

Lemma demo_allowed ls : Forall (λ l, match l with LClient _ _ _ => True | _ => False end) ls →
  ∀ ss, all_allowed ss ls.
Proof. induction 1 as [|l ls Hl _ IH]; intros ss; cbn; [done|]. by destruct l. Qed.

Lemma demo0_inv : ss_inv demo0.
Proof. by apply empty_inv. Qed.

Lemma demo_create_msg :
  protocol_parse_message ($"CREATE_FILE|notes.txt|ann" ++ [c_nl]) = [$"CREATE_FILE"; $"notes.txt"; $"ann"].
Proof. vm_compute. reflexivity. Qed.

Lemma demo1_steps : rtc ss_step demo0 demo1.
Proof.
  apply run_rtc. split; [|apply demo_allowed; repeat constructor].
  unfold allowed. rewrite demo_create_msg. exact demo_create_safe.
Qed.

Lemma demo2_steps : rtc ss_step demo1 demo2.
Proof. apply run_rtc, demo_allowed. repeat constructor. Qed.

Lemma demo1_inv : ss_inv demo1.
Proof. eapply steps_inv; [apply demo1_steps|apply demo0_inv]. Qed.

Lemma demo2_inv : ss_inv demo2.
Proof. eapply steps_inv; [apply demo2_steps|apply demo1_inv]. Qed.

Definition held (ss : StorageServer) (fd : Z) : WriteSession :=
  match ss_find_session ss fd with
  | Some s => s
  | None => mkSession fd 0 [] 0 0 0 [] []
  end.

Lemma held_in ss fd : is_Some (ss_find_session ss fd) → held ss fd ∈ ss_sessions ss.
Proof. intros [s Hs]. unfold held. rewrite Hs. by apply find_session_Some in Hs as [? _]. Qed.

Lemma demo2_held : held demo2 6 ∈ ss_sessions demo2 ∧ held demo2 7 ∈ ss_sessions demo2.
Proof. split; apply held_in; eexists; vm_compute; reflexivity. Qed.



Lemma write_lock_grants_witness :
  is_Some (ss_find_session (handle_client_write_lock demo1 6 [$"REQ_WRITE_LOCK"; $"ann"; $"notes.txt"; $"1"]).1 6).
Proof.
  apply (write_lock_grants demo1 6 ($"ann") ($"notes.txt") ($"1") 1 demo1_inv); [vm_compute; reflexivity|lia|].
  set (rec := default (ss_init_file_record [] 0 []) (ss_find_file demo1 ($"notes.txt"))).
  exists rec, ($"Hello world. Bye.").
  assert (Hnil : ss_sessions demo1 = []) by (vm_compute; reflexivity).
  split; [vm_compute; reflexivity|]. split; [vm_compute; reflexivity|]. split.
  - intros s Hs. rewrite Hnil in Hs. destruct (not_elem_of_nil _ Hs).
  - split; [vm_compute; reflexivity|]. apply Z.leb_le. vm_compute. reflexivity.
Defined.

(** Client 6 alone edits the first sentence. *)
Definition demo3 : StorageServer :=
  run demo1 [from_client 6 ($"REQ_WRITE_LOCK|ann|notes.txt|0"); from_client 6 ($"WRITE_DATA|1|brave")].

Lemma demo3_inv : ss_inv demo3.
Proof.
  eapply steps_inv; [|apply demo1_inv]. apply run_rtc, demo_allowed. repeat constructor.
Qed.

Definition demo_rec (ss : StorageServer) : FileRecord :=
  match ss_files ss with rec :: _ => rec | [] => ss_init_file_record [] 0 [] end.

Lemma etirw_commits_witness :
  dk_files (ss_disk (handle_client_etirw demo3 6 2000).1) !! fr_filepath (demo_rec demo3) =
    Some ($"Hello brave world. Bye.").
Proof.
  assert (Hs : splice ($"Hello world. Bye.") (ws_sentence_start (held demo3 6))
    (ws_sentence_end (held demo3 6)) (ws_sentence_working (held demo3 6)) = $"Hello brave world. Bye.")
    by (vm_compute; reflexivity).
  rewrite -Hs.
  refine (proj1 (etirw_commits demo3 6 (held demo3 6) (demo_rec demo3) ($"Hello world. Bye.") 2000
    demo3_inv _ _ _ _ _ _)); try (vm_compute; reflexivity); [split; vm_compute; reflexivity..|].
  apply (bool_decide_eq_true_1 _). vm_compute. reflexivity.
Defined.

Lemma commit_then_undo_witness :
  let ss1 := (handle_client_etirw demo3 6 2000).1 in
  let ss2 := (handle_client_undo ss1 6 [$"REQ_UNDO"; $"ann"; $"notes.txt"] 2001).1 in
  dk_files (ss_disk ss2) !! fr_filepath (demo_rec demo3) = Some ($"Hello world. Bye.").
Proof.
  refine (proj1 (commit_then_undo demo3 6 (held demo3 6) (demo_rec demo3) ($"Hello world. Bye.") 2000
    6 ($"ann") 2001 2002 demo3_inv _ _ _ _ _ _ _ _)); try (vm_compute; reflexivity);
    [split; vm_compute; reflexivity..| |].
  - apply (bool_decide_eq_true_1 _). vm_compute. reflexivity.
  - assert (Hall : forallb (λ x, ws_client_fd x =? 6)%Z (ss_sessions demo3) = true)
      by (vm_compute; reflexivity).
    intros x Hx _. pose proof (proj1 (forallb_forall _ _) Hall) as Hfd.
    exact (proj1 (Z.eqb_eq _ _) (Hfd x (proj1 (list_elem_of_In _ x) Hx))).
Defined.
