(* ===== verification/SSRaces.v ===== *)
(** * Where the storage server's guarantees stop

    The hypotheses of [SSLocks] are needed: this file shows what happens when
    the steps of two handlers interleave between the locks they take, when two
    logical names share a physical one, and when the disk fills up during a
    commit. *)
From S2P Require Import Prelude CStr Utils Protocol Disk Sentences SSAcl SSFiles SSState SSClient SSControl SSInv SSInvClient SSInvControl SSLocks.

(** ** Two commits at once

    [handle_client_etirw] copies the bounds of its sentence before it waits for
    the file's lock.  This is the run in which the slow client has copied them
    and then waits while the fast one commits. *)

Definition etirw_interleaved (ss : StorageServer) (slow fast : Z) (now : Z) : Step :=
  match etirw_begin ss slow with
  | inl out => (ss, out)
  | inr (id, locked_start, locked_end) =>
      let ss := (handle_client_etirw ss fast now).1 in
      match deref ss id, ss_find_session ss slow with
      | Some rec, Some session => etirw_commit ss slow rec session locked_start locked_end now
      | _, _ => (ss, [])
      end
  end.

Definition doc_text (ss : StorageServer) (name : cstr) : option cstr :=
  rec ← ss_find_file ss name; dk_files (ss_disk ss) !! fr_filepath rec.

Lemma find_session_elem ss s :
  ss_inv ss → s ∈ ss_sessions ss → ss_find_session ss (ws_client_fd s) = Some s.
Proof.
  intros Hi Hs. destruct (ss_find_session ss (ws_client_fd s)) as [x|] eqn:Hf.
  - apply find_session_Some in Hf as [Hx Heq]. f_equal. by eapply (NoDup_key_inj ws_client_fd); [apply (inv_fds _ Hi)|..].
  - apply firstb_None in Hf. rewrite Forall_forall in Hf. specialize (Hf s Hs). by rewrite Z.eqb_refl in Hf.
Qed.

(** Two clients with sentences of one document, the fast one's first. *)
Section two_commits.
Context (ss : StorageServer) (fast slow : Z) (f s : WriteSession) (rec : FileRecord) (text : cstr) (now : Z).
Hypothesis (Hi : ss_inv ss).
Hypothesis (Hf : ss_find_session ss fast = Some f) (Hs : ss_find_session ss slow = Some s).
Hypothesis (Hfile : ws_file f = ws_file s) (Hlt : (ws_sentence_index f < ws_sentence_index s)%Z).
Hypothesis (Hde : deref ss (ws_file s) = Some rec) (Ht : dk_files (ss_disk ss) !! fr_filepath rec = Some text).
Hypothesis (Hwf : writable (ss_disk ss) (fr_filepath rec)) (Hwu : writable (ss_disk ss) (fr_undopath rec)).
Hypothesis (Hum : fr_undopath rec ≠ fr_metapath rec).

Let ss1 := (handle_client_etirw ss fast now).1.
Let w := ws_sentence_working f.
Let text1 := splice text (ws_sentence_start f) (ws_sentence_end f) w.
Let moved x := x - (ws_sentence_end f - ws_sentence_start f) + length w.

(** The fast commit keeps the slow session, at the place its sentence has now. *)
Lemma fast_first :
  ss_inv ss1 ∧ dk_files (ss_disk ss1) !! fr_filepath rec = Some text1 ∧
  (∀ p, writable (ss_disk ss) p → writable (ss_disk ss1) p) ∧
  (∃ rec1, deref ss1 (ws_file s) = Some rec1 ∧ rec_key rec1 = rec_key rec) ∧
  ∃ s1, ss_find_session ss1 slow = Some s1 ∧ ws_file s1 = ws_file s ∧ ws_sentence_working s1 = ws_sentence_working s ∧
    ws_sentence_start s1 = moved (ws_sentence_start s) ∧ ws_sentence_end s1 = moved (ws_sentence_end s).
Proof.
  pose proof Hde as Hdf. rewrite -Hfile in Hdf. destruct (etirw_good ss fast f rec text now) as (Htext & _ & Hfa & Hdi & _ & Hde1 & _); [done..|].
  assert (Hi1 : ss_inv ss1) by by apply handle_client_etirw_safe.
  split; [done|]. split; [done|]. split.
  { intros p. unfold writable, can_create, denied. by rewrite Hfa Hdi. }
  split; [rewrite -Hfile; by eexists|].
  apply find_session_Some in Hf as Hfin. destruct Hfin as [Hfin <-]. apply find_session_Some in Hs as [Hsin <-].
  apply deref_Some in Hdf as Hrec. destruct Hrec as [Hrec Hid].
  pose proof (inv_sessions _ Hi) as Hall. rewrite Forall_forall in Hall.
  destruct (Hall f Hfin) as (rf & tf & Hdf' & Htf & H0f & Hspf & Hwork).
  destruct (Hall s Hsin) as (rs & ts & Hds & Hts & H0s & Hsps & _). rewrite -Hfile in Hds.
  assert (rf = rec ∧ rs = rec) as [-> ->] by (split; congruence). assert (tf = text ∧ ts = text) as [-> ->] by (split; congruence).
  destruct (spans_bound _ _ _ _ Hspf) as [Hfe Hfl].
  destruct (etirw_commit_good ss (ws_client_fd f) rec f (ws_sentence_start f) (ws_sentence_end f) now text)
    as (d & Hrun & _); [done..|].
  assert (Hss1 : ss1 = (etirw_commit ss (ws_client_fd f) rec f (ws_sentence_start f) (ws_sentence_end f) now).1).
  { unfold ss1, handle_client_etirw, etirw_begin. by rewrite Hf Hdf. }
  rewrite Hrun in Hss1. cbn [fst] in Hss1.
  destruct (commit_after text (Z.to_nat (ws_sentence_index f)) _ _ w Hspf Hwork (Z.to_nat (ws_sentence_index s)) _ _
    ltac:(lia) Hsps) as (Hea & _ & _).
  match type of Hss1 with _ = ss_detach_session (ss_update_active_sessions _ _ _ _ _ ?delta _) _ =>
    pose (s1 := shift_session (fr_id rec) (ws_sentence_start f) (ws_sentence_end f - ws_sentence_start f) (length w) delta s) end.
  assert (Hne : ws_client_fd s ≠ ws_client_fd f).
  { intros Heq. assert (s = f) as ->; [|lia]. by eapply (NoDup_key_inj ws_client_fd); [apply (inv_fds _ Hi)|..]. }
  assert (Hs1 : s1 ∈ ss_sessions ss1).
  { rewrite Hss1 detach_filter; [rewrite update_active_fds; apply Hi|]. apply list_elem_of_filter.
    split; [unfold s1; rewrite shift_session_fd; by apply Z.eqb_neq|].
    cbn. apply list_elem_of_In, in_map_iff. exists s. split; [|by apply list_elem_of_In].
    by rewrite (proj2 (Z.eqb_neq _ _) Hne). }
  exists s1. split.
  { assert (Hfd1 : ws_client_fd s1 = ws_client_fd s) by apply shift_session_fd. rewrite -Hfd1.
    by apply find_session_elem. }
  split; [apply shift_session_file|]. split; [apply shift_session_working|].
  unfold s1, shift_session. rewrite bool_decide_eq_true_2; [congruence|]. rewrite bool_decide_eq_true_2; [lia|]. done.
Qed.

(** What was locked is still there, and then the stale splice. *)
Lemma moved_text : slice (moved (ws_sentence_start s)) (moved (ws_sentence_end s)) text1 =
  slice (ws_sentence_start s) (ws_sentence_end s) text.
Proof.
  apply find_session_Some in Hf as [Hfin _], Hs as [Hsin _].
  pose proof (inv_sessions _ Hi) as Hall. rewrite Forall_forall in Hall.
  destruct (Hall f Hfin) as (rf & tf & Hdf & Htf & H0f & Hspf & Hwork).
  destruct (Hall s Hsin) as (rs & ts & Hds & Hts & H0s & Hsps & _). rewrite Hfile in Hdf.
  assert (rf = rec ∧ rs = rec) as [-> ->] by (split; congruence).
  assert (tf = text ∧ ts = text) as [-> ->] by (split; congruence).
  destruct (spans_bound _ _ _ _ Hsps) as [Hse _].
  destruct (commit_after text (Z.to_nat (ws_sentence_index f)) _ _ w Hspf Hwork (Z.to_nat (ws_sentence_index s)) _ _
    ltac:(lia) Hsps) as (Hea & _ & _).
  by apply (slice_splice_after text (Z.to_nat (ws_sentence_index f)) _ _ w Hspf Hwork).
Qed.
End two_commits.

Lemma stale_splice text1 a b a' b' (w : cstr) :
  b <= a' → a' <= b' → b' <= length text1 →
  splice text1 a b w = take a text1 ++ w ++ slice b a' text1 ++ slice a' b' text1 ++ drop b' text1.
Proof.
  intros H1 H2 H3. unfold splice, slice. do 2 f_equal.
  rewrite -{1}(take_drop (a' - b) (drop b text1)). f_equal. rewrite drop_drop. replace (b + (a' - b)) with a' by lia.
  rewrite -{1}(take_drop (b' - a') (drop a' text1)). f_equal. rewrite drop_drop. f_equal. lia.
Qed.

(** C35 Two clients commit their sentences of one document, and the slow one has
    read its bounds before the fast one, whose sentence comes first, commits.
    The fast commit moves the slow sentence to [moved a .. moved b], and a slow
    commit that starts then replaces it there.  The one that has the bounds
    already replaces whatever is at [a .. b] now, unless the text ends before
    [b], and reports success too: when the first sentence has grown by the length
    of the second or more, it overwrites text it never locked, and the sentence
    it has locked stays in the document as it was. *)
Theorem etirw_race_corrupts ss fast slow f s rec text now :
  ss_inv ss → ss_find_session ss fast = Some f → ss_find_session ss slow = Some s →
  ws_file f = ws_file s → (ws_sentence_index f < ws_sentence_index s)%Z →
  deref ss (ws_file s) = Some rec → dk_files (ss_disk ss) !! fr_filepath rec = Some text →
  writable (ss_disk ss) (fr_filepath rec) → writable (ss_disk ss) (fr_undopath rec) →
  fr_undopath rec ≠ fr_metapath rec →
  let w := ws_sentence_working f in
  let w' := ws_sentence_working s in
  let a := ws_sentence_start s in
  let b := ws_sentence_end s in
  let text1 := splice text (ws_sentence_start f) (ws_sentence_end f) w in
  let moved x := x - (ws_sentence_end f - ws_sentence_start f) + length w in
  let content (r : Step) := dk_files (ss_disk r.1) !! fr_filepath rec in
  let serial := handle_client_etirw (handle_client_etirw ss fast now).1 slow now in
  let stale := etirw_interleaved ss slow fast now in
  slice (moved a) (moved b) text1 = slice a b text ∧
  content serial = Some (splice text1 (moved a) (moved b) w') ∧
  (b <= length text1 →
     content stale = Some (splice text1 a b w') ∧ ∃ out, stale.2 = emit slow [$"OK_WRITE_DONE"] ++ out) ∧
  (length text1 < b →
     content stale = Some text1 ∧
     stale.2 = send_error_response slow ERR_INTERNAL_ERROR ($"Invalid sentence bounds")) ∧
  (b <= moved a →
     splice text1 a b w' =
       take a text1 ++ w' ++ slice b (moved a) text1 ++ slice a b text ++ drop (moved b) text1).
Proof.
  intros Hi Hf Hs Hfile Hlt Hde Ht Hwf Hwu Hum w w' a b text1 moved content serial stale.
  pose proof (moved_text ss fast slow f s rec text Hi Hf Hs Hfile Hlt Hde Ht) as Hmoved. fold w text1 a b in Hmoved.
  destruct (fast_first ss fast slow f s rec text now Hi Hf Hs Hfile Hlt Hde Ht Hwf Hwu Hum)
    as (Hi1 & Ht1 & Hw1 & (rec1 & Hde1 & Hk) & s1 & Hs1 & Hfile1 & Hwork1 & Hstart1 & Hend1).
  set (ss1 := (handle_client_etirw ss fast now).1) in *. fold w text1 in Ht1. fold w w' a b in Hwork1, Hstart1, Hend1.
  injection Hk as _ _ Hp Hm Hu. rewrite -Hp in Ht1 Hwf. rewrite -Hu in Hwu Hum. rewrite -Hm in Hum.
  apply deref_Some in Hde1 as Hin1. destruct Hin1 as [Hin1 _].
  assert (Hse : a <= b).
  { apply find_session_Some in Hs as [Hsin _]. pose proof (inv_sessions _ Hi) as Hall. rewrite Forall_forall in Hall.
    destruct (Hall s Hsin) as (rs & ts & _ & _ & _ & Hsps & _). by apply spans_bound in Hsps as [? _]. }
  assert (Hstale : stale = etirw_commit ss1 slow rec1 s1 a b now).
  { unfold stale, etirw_interleaved, etirw_begin. rewrite Hs. fold ss1. by rewrite Hde1 Hs1. }
  split; [exact Hmoved|]. split; [|split; [|split]].
  - rewrite -Hfile1 in Hde1.
    destruct (etirw_good ss1 slow s1 rec1 text1 now) as (Hres & _); [done..|by apply Hw1|by apply Hw1|done|].
    unfold content. rewrite -Hp. fold serial in Hres. rewrite Hres. unfold moved. congruence.
  - intros Hb. destruct (etirw_commit_good ss1 slow rec1 s1 a b now text1) as (d & Hrun & _ & _ & Hres & _);
      [done..|by apply Hw1|by apply Hw1|done|].
    rewrite Hstale. unfold content. rewrite -Hp Hrun. cbn [fst snd]. split; [|by eexists]. rewrite -Hwork1. exact Hres.
  - intros Hb. rewrite Hstale. unfold content, etirw_commit, ss_read_file_content.
    rewrite (writable_read _ _ _ (Hw1 _ Hwf) Ht1). rewrite decide_True; [lia|]. by rewrite -Hp.
  - intros Hb. rewrite -Hmoved. apply stale_splice; [exact Hb|unfold moved; lia|].
    apply find_session_Some in Hs1 as [Hsin _]. pose proof (inv_sessions _ Hi1) as Hall. rewrite Forall_forall in Hall.
    destruct (Hall s1 Hsin) as (rs & ts & Hds & Hts & _ & Hsps & _).
    assert (rs = rec1) as -> by congruence. assert (ts = text1) as -> by congruence.
    apply spans_bound in Hsps as [_ Hl]. rewrite Hend1 in Hl. exact Hl.
Qed.

Lemma etirw_race_corrupts_witness :
  dk_files (ss_disk (etirw_interleaved demo2 7 6 1000).1) !! fr_filepath (demo_rec demo2) =
    Some ($"Hello brave. Bye.world. Bye.") ∧
  dk_files (ss_disk (handle_client_etirw (handle_client_etirw demo2 6 1000).1 7 1000).1) !! fr_filepath (demo_rec demo2) =
    Some ($"Hello brave. New world. Bye.").
Proof.
  destruct (etirw_race_corrupts demo2 6 7 (held demo2 6) (held demo2 7) (demo_rec demo2) ($"Hello world. Bye.") 1000
    demo2_inv) as (_ & Hserial & Hstale & _); try (vm_compute; reflexivity).
  - split; vm_compute; reflexivity.
  - split; vm_compute; reflexivity.
  - apply (bool_decide_eq_true_1 _). vm_compute. reflexivity.
  - split; [rewrite (proj1 (Hstale _))|rewrite Hserial]; [apply Nat.leb_le|..]; vm_compute; reflexivity.
Defined.

(** ** A disk that fills up *)

Lemma write_file_short d path data n :
  can_create d path = true → dk_fault d path = ShortWrite n true → n < length data →
  ss_write_file_content d path data = (set_files d (<[path := take n data]> (dk_files d)), false).
Proof.
  intros Hc Hf Hn. unfold ss_write_file_content, write_file. rewrite Hc Hf decide_False; [lia|done].
Qed.

(** A commit that runs out of space reports failure and keeps the lock, but
    leaves the document cut short: the first [n] bytes of the new text and
    nothing else, with the old text in the undo file; the record is not marked
    as undoable. *)
Theorem etirw_short_write ss0 fault fd s rec text n now :
  ss_inv ss0 → ss_find_session ss0 fd = Some s → deref ss0 (ws_file s) = Some rec →
  dk_files (ss_disk ss0) !! fr_filepath rec = Some text →
  fault (fr_filepath rec) = ShortWrite n true →
  writable (ss_disk (set_fault ss0 fault)) (fr_undopath rec) →
  can_create (ss_disk ss0) (fr_filepath rec) = true →
  let ss := set_fault ss0 fault in
  let new := splice text (ws_sentence_start s) (ws_sentence_end s) (ws_sentence_working s) in
  n < length new →
  ∃ d, handle_client_etirw ss fd now =
    (set_ss_disk ss d, send_error_response fd ERR_INTERNAL_ERROR ($"Failed to write file")) ∧
    dk_files d !! fr_filepath rec = Some (take n new) ∧ dk_files d !! fr_undopath rec = Some text.
Proof.
  intros Hi Hf Hde Ht Hs Hwu Hc ss new Hn.
  apply find_session_Some in Hf as Hin. destruct Hin as [Hin _].
  apply deref_Some in Hde as Hrec. destruct Hrec as [Hrec _].
  destruct (rec_paths_distinct _ _ Hi Hrec) as [Huf _].
  pose proof (inv_sessions _ Hi) as Hall. rewrite Forall_forall in Hall.
  destruct (Hall s Hin) as (rec0 & text0 & Hde0 & Ht0 & _ & Hsp & _). simplify_eq.
  destruct (spans_bound _ _ _ _ Hsp) as [Hse Hel].
  assert (Hr : read_file (ss_disk ss) (fr_filepath rec) = Some text).
  { unfold read_file, denied. cbn. by rewrite Hs. }
  assert (Hc' : can_create (ss_disk ss) (fr_filepath rec) = true).
  { revert Hc. unfold can_create, denied. cbn. rewrite Hs.
    rewrite !andb_true_iff. intros [[[-> ->] ->] _]. done. }
  unfold handle_client_etirw, etirw_begin.
  change (ss_find_session ss fd) with (ss_find_session ss0 fd). rewrite Hf.
  change (deref ss (ws_file s)) with (deref ss0 (ws_file s)). rewrite Hde.
  unfold etirw_commit, ss_read_file_content. rewrite Hr decide_False; [lia|].
  rewrite (writable_write _ _ _ Hwu) (write_file_short _ _ _ n); [exact Hc'|exact Hs|exact Hn|].
  eexists. split_and!; [done|by rewrite /= lookup_insert_eq|].
  by rewrite /= lookup_insert_ne ?lookup_insert_eq.
Qed.

Lemma etirw_short_write_witness :
  ∃ d, handle_client_etirw (set_fault demo3 (λ p, if string_ends_with p ($"txt") then ShortWrite 7 true else NoFault))
         6 2000 =
    (set_ss_disk (set_fault demo3 (λ p, if string_ends_with p ($"txt") then ShortWrite 7 true else NoFault)) d,
     send_error_response 6 ERR_INTERNAL_ERROR ($"Failed to write file")) ∧
    dk_files d !! fr_filepath (demo_rec demo3) = Some ($"Hello b").
Proof.
  destruct (etirw_short_write demo3 (λ p, if string_ends_with p ($"txt") then ShortWrite 7 true else NoFault)
    6 (held demo3 6) (demo_rec demo3) ($"Hello world. Bye.") 7 2000 demo3_inv) as (d & Hd & Ht & _).
  1-4, 6: vm_compute; reflexivity.
  - split; vm_compute; reflexivity.
  - apply Nat.ltb_lt. vm_compute. reflexivity.
  - exists d. split; [exact Hd|]. rewrite Ht. vm_compute. reflexivity.
Defined.

(** ** Deleting between two locks *)

Lemma remove_firstb_id (p : FileRecord → bool) l rec :
  NoDup (map fr_id l) → firstb p l = Some rec → Forall (λ r, fr_id r ≠ fr_id rec) (remove_firstb p l).
Proof.
  induction l as [|x l IH]; cbn; intros Hnd Hf; [done|]. apply NoDup_cons in Hnd as [Hx Hnd].
  destruct (p x); simplify_eq.
  - apply Forall_forall. intros r Hr Heq. apply Hx. rewrite -Heq. by apply (list_elem_of_fmap_2 fr_id).
  - apply Forall_cons. split; [|by apply IH]. intros Heq. apply Hx. rewrite Heq.
    apply (list_elem_of_fmap_2 fr_id). by apply firstb_elem in Hf as [? _].
Qed.

(** C39 A lock request that has found its file and waits for the file's lock
    does not stop a deletion: the deletion only looks for sessions, succeeds,
    and frees the record the request still points to. *)
Theorem delete_frees_record_in_use ss fd user name id ss1 :
  ss_inv ss → write_lock_begin ss fd user name = (ss1, inr id) →
  (∀ s, s ∈ ss_sessions ss1 → ws_file s ≠ id) → validate_filename name = true →
  let '(ss2, out) := ns_delete_file ss1 [$"DELETE_FILE"; name] in
  out = reply ss1 [$"OK_DELETE"; name] ∧ deref ss1 id ≠ None ∧ deref ss2 id = None.
Proof.
  intros Hi Hb Hno Hv. unfold write_lock_begin in Hb.
  assert (Hids : NoDup (map fr_id (ss_files (ss_abort_session ss fd)))) by apply Hi.
  set (ss0 := ss_abort_session ss fd) in *.
  destruct (ss_find_file ss0 name) as [rec|] eqn:Hf; [|by simplify_eq].
  destruct (ss_check_write_access rec user); [|done]. injection Hb as <- <-. fold ss0 in Hno |- *.
  unfold ns_delete_file. destruct (decide (length _ < 2)) as [Hl|_]; [cbn [length] in Hl; lia|].
  change (field [_; name] 1) with name. rewrite Hv. cbn [negb].
  unfold ss_delete_file. rewrite Hf. destruct (ss_file_has_active_writers ss0 rec) eqn:Hw.
  { apply existsb_exists in Hw as (s & Hs%list_elem_of_In & Hid%bool_decide_eq_true). by destruct (Hno s). }
  split_and!; [done| |].
  - rewrite deref_elem; [done|by apply firstb_elem in Hf as [? _]|done].
  - apply firstb_None. cbn. eapply Forall_impl; [by eapply remove_firstb_id|].
    intros r Hr. by apply bool_decide_eq_false.
Qed.

Lemma delete_frees_record_in_use_witness :
  let ss1 := ss_abort_session demo1 6 in
  deref (ns_delete_file ss1 [$"DELETE_FILE"; $"notes.txt"]).1 (fr_id (demo_rec demo1)) = None.
Proof.
  intros ss1.
  pose proof (delete_frees_record_in_use demo1 6 ($"ann") ($"notes.txt") (fr_id (demo_rec demo1)) ss1
    demo1_inv) as H.
  destruct (ns_delete_file ss1 _) as [ss2 out]. cbn [fst]. apply H.
  - unfold write_lock_begin. fold ss1.
    assert (Hf : ss_find_file ss1 ($"notes.txt") = Some (demo_rec demo1)) by (vm_compute; reflexivity).
    rewrite Hf. assert (Ha : ss_check_write_access (demo_rec demo1) ($"ann") = true) by (vm_compute; reflexivity).
    by rewrite Ha.
  - assert (Hnil : ss_sessions ss1 = []) by (vm_compute; reflexivity).
    intros s Hs. rewrite Hnil in Hs. destruct (not_elem_of_nil _ Hs).
  - vm_compute. reflexivity.
Defined.

(** ** Names that flatten alike *)

(** C40 Flattening is not injective, and creating a document whose flattened name
    is that of an existing one succeeds and empties the existing document, whose
    record stays in the list; nothing checks whether someone is editing it. *)
Theorem create_collision_truncates ss rec name owner now flat :
  ss_inv ss → rec ∈ ss_files ss → ss_find_file ss name = None →
  flatten_logical_path name MAX_FILENAME_LENGTH = Some flat →
  fr_filepath rec = ss_storage_path ss ++ [c_slash] ++ flat →
  writable (ss_disk ss) (fr_filepath rec) →
  let '(ss', created) := ss_create_file ss name owner now in
  created = true ∧ rec ∈ ss_files ss' ∧ dk_files (ss_disk ss') !! fr_filepath rec = Some [].
Proof.
  intros Hi Hin Hf Hfl Hp [Hc Hnf]. pose proof (rec_in _ _ Hi Hin) as Hok.
  pose proof (ro_doc _ Hok) as Hdoc. pose proof (ro_short _ Hok) as Hshort. rewrite Hp in Hdoc Hshort.
  destruct (new_record_ok ss name flat (fit MAX_USERNAME_LENGTH owner) now Hfl Hdoc Hshort) as (Hok' & _ & Hp').
  unfold ss_create_file. rewrite Hf. cbv zeta.
  match goal with |- context [write_file _ (fr_filepath ?r) []] => set (rec' := r) in * end.
  clearbody rec'. change (ss_disk (set_ss_next ss (S (ss_next_id ss)))) with (ss_disk ss).
  assert (Heq : fr_filepath rec' = fr_filepath rec) by congruence.
  rewrite Heq write_file_good; [done..|].
  destruct (ss_write_metadata _ rec') as [d b] eqn:Hm. apply write_metadata_effect in Hm as [_ Hm].
  split_and!; [done|by right|]. cbn. rewrite Hm /= ?lookup_insert_eq; [|done].
  pose proof (ro_meta _ Hok'). pose proof (ro_doc _ Hok). congruence.
Qed.

(** The documents ["a_b"] and ["a/b"] of the same server. *)
Definition demo_collision : StorageServer :=
  run demo0 [LNs (Some ($"CREATE_FILE|a_b|ann" ++ [c_nl])) no_peer 900;
             from_client 5 ($"REQ_WRITE_LOCK|ann|a_b|0"); from_client 5 ($"WRITE_DATA|0|Precious.");
             from_client 5 ($"ETIRW")].

Lemma demo_collision_inv : ss_inv demo_collision.
Proof.
  eapply steps_inv; [apply run_rtc; split; [|apply demo_allowed; repeat constructor]|apply demo0_inv].
  unfold allowed.
  assert (Hm : protocol_parse_message ($"CREATE_FILE|a_b|ann" ++ [c_nl]) = [$"CREATE_FILE"; $"a_b"; $"ann"])
    by (vm_compute; reflexivity).
  rewrite Hm. split; [intros _|done]. unfold create_safe. cbn [field nth].
  assert (Hfl : flatten_logical_path ($"a_b") MAX_FILENAME_LENGTH = Some ($"a_b")) by (vm_compute; reflexivity).
  rewrite Hfl. split; [vm_compute; reflexivity|split; [|apply not_elem_of_nil]].
  apply Nat.ltb_lt. vm_compute. reflexivity.
Qed.

Lemma create_collision_truncates_witness :
  doc_text demo_collision ($"a_b") = Some ($"Precious.") ∧
  dk_files (ss_disk (ss_create_file demo_collision ($"a/b") ($"bob") 950).1) !! fr_filepath (demo_rec demo_collision)
    = Some [].
Proof.
  split; [vm_compute; reflexivity|].
  pose proof (create_collision_truncates demo_collision (demo_rec demo_collision) ($"a/b") ($"bob") 950 ($"a_b")
    demo_collision_inv) as H.
  destruct (ss_create_file demo_collision ($"a/b") ($"bob") 950) as [ss' created]. cbn [fst]. apply H.
  - assert (Hf : ss_files demo_collision = [demo_rec demo_collision]) by (vm_compute; reflexivity).
    rewrite Hf. by apply list_elem_of_singleton.
  - vm_compute. reflexivity.
  - vm_compute. reflexivity.
  - vm_compute. reflexivity.
  - split; vm_compute; reflexivity.
Defined.
