(* ===== verification/SSCheckpoints.v ===== *)
(** * Checkpoints

    What creating a checkpoint saves, what reverting to one restores, and why
    documents in folders have no checkpoints: the snapshot's name is built from
    the logical name, whose folder does not exist on the disk. *)
From S2P Require Import Prelude CStr Utils Protocol Disk Sentences SSAcl SSFiles SSState SSClient SSControl SSInv SSInvClient SSInvControl SSLocks.

(** The path of the snapshot [handle_client_checkpoint] makes. *)
Definition checkpoint_path (ss : StorageServer) (rec : FileRecord) (tag : cstr) (now : Z) : option cstr :=
  let sanitized := match ss_sanitize_tag tag MAX_TAG_LENGTH with [] => $"checkpoint" | s => s end in
  build_path MAX_PATH_LENGTH (ss_storage_path ss)
    (fit (MAX_FILENAME_LENGTH + MAX_TAG_LENGTH + 32)
       (fr_filename rec ++ $".ckpt_" ++ to_dec now ++ $"_" ++ sanitized)).

#[global] Strategy expand [checkpoint_path].

(** The checkpoints after a new one: the oldest goes when there are 32. *)
Definition push_checkpoint (l : list CheckpointRecord) (ck : CheckpointRecord) : list CheckpointRecord :=
  (if decide (SS_MAX_CHECKPOINTS <= length l) then drop 1 l else l) ++ [ck].

Lemma ss_copy_file_good d src dest data :
  read_file d src = Some data → src ≠ dest → writable d dest →
  ss_copy_file d src dest = (set_files d (<[dest := data]> (dk_files d)), true).
Proof.
  intros Hr Hne [Hc Hf]. unfold ss_copy_file. rewrite Hr decide_False; [done|]. by rewrite write_file_good.
Qed.

Lemma ss_copy_file_refused d src dest :
  can_create d dest = false → ss_copy_file d src dest = (d, false).
Proof.
  intros Hc. unfold ss_copy_file. destruct (read_file d src); [|done]. by rewrite write_file_cannot.
Qed.

Lemma no_writers_iff ss rec :
  (∀ s, s ∈ ss_sessions ss → ws_file s ≠ fr_id rec) → ss_file_has_active_writers ss rec = false.
Proof.
  intros Hs. apply not_true_iff_false. intros (s & Hin%list_elem_of_In & Hid%bool_decide_eq_true)%existsb_exists.
  by destruct (Hs s).
Qed.

(** Storing a changed record and its metadata leaves the other files alone. *)
Lemma touch_effect ss d rec rec1 u m now :
  ss_inv ss → rec ∈ ss_files ss → rec_key rec1 = rec_key rec →
  let ss' := ss_touch_file_metadata (set_ss_disk ss d) rec1 u m now in
  deref ss' (fr_id rec) = Some (touch_record rec1 u m now) ∧
  ss_sessions ss' = ss_sessions ss ∧
  ∀ p, p ≠ fr_metapath rec → dk_files (ss_disk ss') !! p = dk_files d !! p.
Proof.
  intros Hi Hin Hk. cbv zeta. unfold ss_touch_file_metadata.
  assert (Hk1 : rec_key (touch_record rec1 u m now) = rec_key rec) by by rewrite touch_record_key.
  set (rec2 := touch_record rec1 u m now) in *. clearbody rec2.
  destruct (ss_write_metadata _ rec2) as [d' b] eqn:Hm. apply write_metadata_effect in Hm as [_ Hm].
  assert (Hid : fr_id rec2 = fr_id rec) by (unfold rec_key in Hk1; congruence).
  assert (Hmp : fr_metapath rec2 = fr_metapath rec) by (unfold rec_key in Hk1; congruence).
  split_and!; [|done|].
  - rewrite -Hid. apply (update_rec_deref (set_ss_disk (set_ss_disk ss d) d') rec2 rec); [apply Hi|done|done].
  - intros p Hp. cbn. apply Hm. congruence.
Qed.

Lemma find_checkpoint_elem rec t ck : ss_find_checkpoint rec t = Some ck → ck ∈ fr_checkpoints rec.
Proof. unfold ss_find_checkpoint. destruct t; [done|]. by intros [? _]%firstb_elem. Qed.

Lemma drop_while_stop {A} (p : A → bool) u c v :
  p c = false → ∃ w, drop_while p (u ++ c :: v) = w ++ c :: v.
Proof.
  intros Hc. induction u as [|x u IH]; cbn.
  - rewrite Hc. by exists [].
  - destruct (p x); [done|]. by exists (x :: u).
Qed.

(** A path below a directory below [base]. *)
Definition in_folder (name : cstr) : Prop := ∃ a c b, name = a ++ c :: c_slash :: b ∧ c ≠ c_slash.

Lemma dir_of_below base name rest :
  in_folder name → length base < length (dir_of (base ++ [c_slash] ++ name ++ rest)).
Proof.
  intros (a & c & b & -> & Hc). unfold dir_of.
  set (v := rev (base ++ [c_slash] ++ a)).
  assert (Hrev : rev (base ++ [c_slash] ++ (a ++ c :: c_slash :: b) ++ rest) = rev (b ++ rest) ++ c_slash :: c :: v).
  { unfold v. rewrite !rev_app_distr. cbn [rev app].
    by rewrite -!app_assoc. }
  rewrite Hrev. destruct (drop_while_stop (λ c, negb (bool_decide (c = c_slash))) (rev (b ++ rest)) c_slash (c :: v))
    as [w ->]; [done|].
  destruct (drop_while_stop (λ c, bool_decide (c = c_slash)) (w ++ [c_slash]) c v) as [w' Hw'].
  { by apply bool_decide_eq_false. }
  rewrite -app_assoc in Hw'. cbn [app] in Hw'. destruct w as [|x w]; cbn [app] in *; rewrite Hw';
    (destruct (w' ++ c :: v) eqn:E; [by destruct w'|]; rewrite -E; unfold v; rewrite length_rev length_app /= length_rev !length_app /=; lia).
Qed.

Lemma checkpoint_path_dir ss rec t now p :
  checkpoint_path ss rec t now = Some p → in_folder (fr_filename rec) →
  length (fr_filename rec) < MAX_FILENAME_LENGTH →
  length (ss_storage_path ss) < length (dir_of p).
Proof.
  unfold checkpoint_path. cbv zeta. intros [-> _]%build_path_Some Hs Hl.
  unfold fit. rewrite take_app_ge; [unfold MAX_TAG_LENGTH; lia|]. by apply dir_of_below.
Qed.

Lemma push_bound l ck : length l <= SS_MAX_CHECKPOINTS → length (push_checkpoint l ck) <= SS_MAX_CHECKPOINTS.
Proof. unfold push_checkpoint, SS_MAX_CHECKPOINTS. case_decide; len. Qed.

(** The snapshot survives the pruning, and so does the document. *)
Lemma pruned rec ck d d2 rec2 p text :
  (if decide (SS_MAX_CHECKPOINTS <= length (fr_checkpoints rec))
   then ss_prune_oldest_checkpoint d rec else (d, rec)) = (d2, rec2) →
  rec_ok rec → Forall (λ ck, ck_filepath ck ≠ p) (fr_checkpoints rec) →
  dk_files d !! p = Some text → dk_files d !! fr_filepath rec = Some text →
  rec_key rec2 = rec_key rec ∧ fr_checkpoints rec2 ++ [ck] = push_checkpoint (fr_checkpoints rec) ck ∧
  dk_files d2 !! p = Some text ∧ dk_files d2 !! fr_filepath rec = Some text.
Proof.
  intros Hpr Hok Hold Hp Hf. unfold push_checkpoint. case_decide as Hlen; [|by simplify_eq].
  unfold ss_prune_oldest_checkpoint in Hpr.
  destruct (fr_checkpoints rec) as [|old rest] eqn:Hc; [by unfold SS_MAX_CHECKPOINTS in Hlen; cbn in Hlen; lia|].
  simplify_eq. apply Forall_cons in Hold as [Hold _].
  assert (Hdoc : ck_filepath old ≠ fr_filepath rec).
  { pose proof (ro_ckpts _ Hok) as H. rewrite Hc in H. apply Forall_cons in H as [H _].
    pose proof (ro_doc _ Hok). congruence. }
  split_and!; [done|by cbn|..]; (destruct (ck_filepath old); [done|]); by rewrite unlink_ne.
Qed.

Section checkpoint.
Context (ss : StorageServer) (fd : Z) (rec : FileRecord) (user tag t text : cstr) (now : Z).
Hypothesis (Hi : ss_inv ss) (Hin : rec ∈ ss_files ss).
Hypothesis (Htag : tag_copy tag = Some t) (Hacc : ss_check_write_access rec user = true).
Hypothesis (Hfree : ∀ s, s ∈ ss_sessions ss → ws_file s ≠ fr_id rec).

Let msg (command : cstr) := [command; user; fr_filename rec; tag].

(** The branch that saves. *)
Lemma checkpoint_run m p d :
  4 <= length m → field m 3 = tag → field m 2 = fr_filename rec → field m 1 = user →
  ss_find_checkpoint rec t = None → checkpoint_path ss rec t now = Some p →
  ss_copy_file (ss_disk ss) (fr_filepath rec) p = (d, true) →
  handle_client_checkpoint ss fd m now =
    (let '(d2, rec2) := if decide (SS_MAX_CHECKPOINTS <= length (fr_checkpoints rec))
                        then ss_prune_oldest_checkpoint d rec else (d, rec) in
     ss_touch_file_metadata (set_ss_disk ss d2)
       (with_checkpoints rec2 (fr_checkpoints rec2 ++ [mkCheckpoint (fit MAX_FILENAME_LENGTH t)
          (fit MAX_PATH_LENGTH p)])) (Some user) false now,
     emit fd [$"OK_CHECKPOINT"; quoted ($"Checkpoint '") t ($"' created.")]).
Proof.
  intros Hl Hm3 Hm2 Hm1 Hnew Hp Hc. unfold handle_client_checkpoint.
  rewrite decide_False; [lia|]. rewrite Hm3 Hm2 Hm1.
  rewrite Htag. unfold with_file. rewrite find_file_elem; [exact Hi|exact Hin|].
  rewrite Hacc no_writers_iff; [exact Hfree|].
  rewrite Hnew. unfold checkpoint_path in Hp. cbv zeta in Hp |- *. rewrite Hp Hc.
  destruct (if decide _ then _ else _) as [d2 rec2]. reflexivity.
Qed.

(** The branch where the snapshot cannot be written. *)
Lemma checkpoint_fails m p d :
  4 <= length m → field m 3 = tag → field m 2 = fr_filename rec → field m 1 = user →
  ss_find_checkpoint rec t = None → checkpoint_path ss rec t now = Some p →
  ss_copy_file (ss_disk ss) (fr_filepath rec) p = (d, false) →
  handle_client_checkpoint ss fd m now =
    (set_ss_disk ss (unlink d p), send_error_response fd ERR_INTERNAL_ERROR ($"Failed to persist checkpoint")).
Proof.
  intros Hl Hm3 Hm2 Hm1 Hnew Hp Hc. unfold handle_client_checkpoint.
  rewrite decide_False; [lia|]. rewrite Hm3 Hm2 Hm1.
  rewrite Htag. unfold with_file. rewrite find_file_elem; [exact Hi|exact Hin|].
  rewrite Hacc no_writers_iff; [exact Hfree|].
  rewrite Hnew. unfold checkpoint_path in Hp. cbv zeta in Hp |- *. by rewrite Hp Hc.
Qed.

Lemma revert_run m ck d1 d2 :
  4 <= length m → field m 3 = tag → field m 2 = fr_filename rec → field m 1 = user →
  ss_find_checkpoint rec t = Some ck →
  ∀ saved, dk_files (ss_disk ss) !! ck_filepath ck = Some saved → ck_filepath ck ≠ [] →
  ss_copy_file (ss_disk ss) (fr_filepath rec) (fr_undopath rec) = (d1, true) →
  ss_copy_file d1 (ck_filepath ck) (fr_filepath rec) = (d2, true) →
  handle_client_revert ss fd m now =
    (ss_touch_file_metadata (set_ss_disk ss d2) (with_undo rec 1) (Some user) true now,
     emit fd [$"OK_REVERT"; quoted ($"File reverted to '") t ($"'.")]).
Proof.
  intros Hl Hm3 Hm2 Hm1 Hck saved Hsaved Hne H1 H2. unfold handle_client_revert.
  rewrite decide_False; [lia|]. rewrite Hm3 Hm2 Hm1.
  rewrite Htag. unfold with_file. rewrite find_file_elem; [exact Hi|exact Hin|].
  rewrite Hacc no_writers_iff; [exact Hfree|]. rewrite Hck.
  unfold ss_file_exists, file_exists. rewrite Hsaved (bool_decide_eq_true_2 _ Hne).
  rewrite (bool_decide_eq_true_2 (is_Some _)); [done|]. cbn [andb orb negb]. by rewrite H1 H2.
Qed.

(** C24 Creating a checkpoint under a new tag, on a disk that takes the snapshot:
    the snapshot file has the document's text, the document is unchanged, and
    the record's list ends with the new checkpoint and has lost the oldest one
    when there were 32, so that it never grows beyond 32. *)
Theorem checkpoint_saves p :
  dk_files (ss_disk ss) !! fr_filepath rec = Some text → denied (ss_disk ss) (fr_filepath rec) = false →
  ss_find_checkpoint rec t = None → checkpoint_path ss rec t now = Some p →
  writable (ss_disk ss) p → p ≠ fr_metapath rec → Forall (λ ck, ck_filepath ck ≠ p) (fr_checkpoints rec) →
  let '(ss', out) := handle_client_checkpoint ss fd (msg ($"REQ_CHECKPOINT")) now in
  out = emit fd [$"OK_CHECKPOINT"; quoted ($"Checkpoint '") t ($"' created.")] ∧
  dk_files (ss_disk ss') !! p = Some text ∧ dk_files (ss_disk ss') !! fr_filepath rec = Some text ∧
  ∃ rec', deref ss' (fr_id rec) = Some rec' ∧
    fr_checkpoints rec' = push_checkpoint (fr_checkpoints rec) (mkCheckpoint (fit MAX_FILENAME_LENGTH t) p) ∧
    (length (fr_checkpoints rec) <= SS_MAX_CHECKPOINTS → length (fr_checkpoints rec') <= SS_MAX_CHECKPOINTS).
Proof.
  intros Ht Hd Hnew Hp Hw Hpm Hold. pose proof (rec_in _ _ Hi Hin) as Hok.
  assert (doc_path p = false ∧ fit MAX_PATH_LENGTH p = p) as [Hdoc Hfit].
  { eapply ckpt_path_sidecar; [by apply (ro_name _ Hok)| |exact Hp]. unfold MAX_TAG_LENGTH. lia. }
  assert (Hne : fr_filepath rec ≠ p) by (pose proof (ro_doc _ Hok); congruence).
  assert (Hc : ss_copy_file (ss_disk ss) (fr_filepath rec) p =
    (set_files (ss_disk ss) (<[p := text]> (dk_files (ss_disk ss))), true)).
  { apply ss_copy_file_good; [by unfold read_file; rewrite Hd|done|done]. }
  rewrite (checkpoint_run (msg _) p _ ltac:(cbn; lia) eq_refl eq_refl eq_refl Hnew Hp Hc).
  destruct (rec_paths_distinct _ _ Hi Hin) as [_ Hmf]. rewrite Hfit.
  set (d := set_files _ _). set (ck := mkCheckpoint _ p).
  destruct (if decide _ then _ else _) as [d2 rec2] eqn:Hpr.
  assert (rec_key rec2 = rec_key rec ∧ fr_checkpoints rec2 ++ [ck] = push_checkpoint (fr_checkpoints rec) ck ∧
    dk_files d2 !! p = Some text ∧ dk_files d2 !! fr_filepath rec = Some text) as (Hk & Hck & Hd1 & Hd2).
  { apply (pruned rec ck d d2 rec2 p text); [done..| |]; cbn; by rewrite ?lookup_insert_eq ?lookup_insert_ne. }
  destruct (touch_effect ss d2 rec (with_checkpoints rec2 (fr_checkpoints rec2 ++ [ck])) (Some user) false now)
    as (Hde & _ & Hfiles); [done..|].
  split_and!; [done|by rewrite Hfiles|by rewrite Hfiles|].
  eexists. split_and!; [exact Hde|by rewrite touch_record_ckpts|].
  rewrite touch_record_ckpts. cbn [fr_checkpoints with_checkpoints]. rewrite Hck. apply push_bound.
Qed.

(** C23 Reverting to a checkpoint whose snapshot is there, on a disk that takes
    the writes: the document gets exactly the snapshot's text, the text it had
    becomes the undo text and the record is marked undoable. *)
Theorem revert_restores ck saved :
  dk_files (ss_disk ss) !! fr_filepath rec = Some text →
  writable (ss_disk ss) (fr_filepath rec) → writable (ss_disk ss) (fr_undopath rec) →
  ss_find_checkpoint rec t = Some ck → dk_files (ss_disk ss) !! ck_filepath ck = Some saved →
  ck_filepath ck ≠ [] → denied (ss_disk ss) (ck_filepath ck) = false → ck_filepath ck ≠ fr_undopath rec →
  fr_undopath rec ≠ fr_metapath rec →
  let '(ss', out) := handle_client_revert ss fd (msg ($"REQ_REVERT")) now in
  out = emit fd [$"OK_REVERT"; quoted ($"File reverted to '") t ($"'.")] ∧
  dk_files (ss_disk ss') !! fr_filepath rec = Some saved ∧
  dk_files (ss_disk ss') !! fr_undopath rec = Some text ∧
  ∃ rec', deref ss' (fr_id rec) = Some rec' ∧ fr_undo_available rec' = 1%Z.
Proof.
  intros Ht Hwf Hwu Hck Hsaved Hne Hden Hcu Hum.
  destruct (rec_paths_distinct _ _ Hi Hin) as [Huf Hmf].
  assert (Hcf : ck_filepath ck ≠ fr_filepath rec).
  { pose proof (rec_in _ _ Hi Hin) as Hok. pose proof (ro_ckpts _ Hok) as H. rewrite Forall_forall in H.
    pose proof (H ck (find_checkpoint_elem _ _ _ Hck)). pose proof (ro_doc _ Hok). congruence. }
  set (d1 := set_files (ss_disk ss) (<[fr_undopath rec := text]> (dk_files (ss_disk ss)))).
  assert (H1 : ss_copy_file (ss_disk ss) (fr_filepath rec) (fr_undopath rec) = (d1, true)).
  { apply ss_copy_file_good; [by apply writable_read|done|done]. }
  set (d2 := set_files d1 (<[fr_filepath rec := saved]> (dk_files d1))).
  assert (H2 : ss_copy_file d1 (ck_filepath ck) (fr_filepath rec) = (d2, true)).
  { apply ss_copy_file_good; [|done|exact Hwf].
    unfold read_file. change (denied d1 (ck_filepath ck)) with (denied (ss_disk ss) (ck_filepath ck)).
    rewrite Hden. cbn. by rewrite lookup_insert_ne. }
  rewrite (revert_run (msg _) ck d1 d2 ltac:(cbn; lia) eq_refl eq_refl eq_refl Hck saved Hsaved Hne H1 H2).
  destruct (touch_effect ss d2 rec (with_undo rec 1) (Some user) true now) as (Hde & _ & Hfiles); [done..|].
  split_and!; [done| | |by eexists].
  - rewrite Hfiles; [congruence|]. cbn. by rewrite lookup_insert_eq.
  - rewrite Hfiles; [done|]. cbn. rewrite lookup_insert_ne; [congruence|]. by rewrite lookup_insert_eq.
Qed.

(** A document in a folder (a slash after another character in its name)
    never gets a checkpoint: as long as the disk has
    no directories below the storage path (the server creates none), the
    request of any user who may write the file ends in "Failed to persist
    checkpoint" and leaves the records and all files as they were. *)
Theorem checkpoint_in_folder_fails :
  in_folder (fr_filename rec) → ss_find_checkpoint rec t = None →
  is_Some (checkpoint_path ss rec t now) →
  (∀ dir, dir ∈ dk_dirs (ss_disk ss) → length dir <= length (ss_storage_path ss)) →
  (∀ path, checkpoint_path ss rec t now = Some path → dk_files (ss_disk ss) !! path = None) →
  let '(ss', out) := handle_client_checkpoint ss fd (msg ($"REQ_CHECKPOINT")) now in
  out = send_error_response fd ERR_INTERNAL_ERROR ($"Failed to persist checkpoint") ∧
  ss_files ss' = ss_files ss ∧ dk_files (ss_disk ss') = dk_files (ss_disk ss).
Proof.
  intros Hslash Hnew [p Hp] Hdirs Hfresh. specialize (Hfresh p Hp).
  assert (Hc : can_create (ss_disk ss) p = false).
  { apply checkpoint_path_dir in Hp as Hlong; [|done|by apply ro_name, (rec_in ss)].
    unfold can_create. rewrite (bool_decide_eq_false_2 (dir_of p ∈ _)); [|by rewrite andb_false_r].
    intros Hd. specialize (Hdirs _ Hd). lia. }
  rewrite (checkpoint_fails (msg _) p _ ltac:(cbn; lia) eq_refl eq_refl eq_refl Hnew Hp
    (ss_copy_file_refused _ _ _ Hc)).
  split_and!; [done|done|]. cbn. unfold unlink. case_match; [done|]. cbn. by apply delete_id.
Qed.
End checkpoint.

(** ** The theorems at work *)

Lemma demo1_free s : s ∈ ss_sessions demo1 → ws_file s ≠ fr_id (demo_rec demo1).
Proof.
  assert (Hnil : ss_sessions demo1 = []) by (vm_compute; reflexivity).
  rewrite Hnil. intros Hs. destruct (not_elem_of_nil _ Hs).
Qed.

Lemma in_single (l : list FileRecord) r : l = [r] → r ∈ l.
Proof. intros ->. by apply list_elem_of_singleton. Qed.

Lemma checkpoint_saves_witness :
  dk_files (ss_disk (handle_client_checkpoint demo1 6
      [$"REQ_CHECKPOINT"; $"ann"; fr_filename (demo_rec demo1); $"v1"] 3000).1) !!
    ($"./ss_storage/server_127_0_0_1_9001//notes.txt.ckpt_3000_v1") = Some ($"Hello world. Bye.").
Proof.
  pose proof (checkpoint_saves demo1 6 (demo_rec demo1) ($"ann") ($"v1") ($"v1") ($"Hello world. Bye.") 3000
    demo1_inv) as H.
  destruct (handle_client_checkpoint _ _ _ _) as [ss' out]. cbn [fst].
  apply H; clear H.
  1: apply in_single. 1-3, 5-8: vm_compute; reflexivity.
  - exact demo1_free.
  - split; vm_compute; reflexivity.
  - apply (bool_decide_eq_true_1 _). vm_compute. reflexivity.
  - assert (Hc : fr_checkpoints (demo_rec demo1) = []) by (vm_compute; reflexivity). rewrite Hc. constructor.
Defined.

(** A checkpoint, then an edit of the first sentence. *)
Definition demo4 : StorageServer :=
  run demo1 [from_client 6 ($"REQ_CHECKPOINT|ann|notes.txt|v1");
             from_client 6 ($"REQ_WRITE_LOCK|ann|notes.txt|0"); from_client 6 ($"WRITE_DATA|1|brave");
             from_client 6 ($"ETIRW")].

Lemma demo4_inv : ss_inv demo4.
Proof. eapply steps_inv; [|apply demo1_inv]. apply run_rtc, demo_allowed. repeat constructor. Qed.

Lemma revert_restores_witness :
  dk_files (ss_disk demo4) !! fr_filepath (demo_rec demo4) = Some ($"Hello brave world. Bye.") ∧
  dk_files (ss_disk (handle_client_revert demo4 7
      [$"REQ_REVERT"; $"ann"; fr_filename (demo_rec demo4); $"v1"] 4000).1) !! fr_filepath (demo_rec demo4) =
    Some ($"Hello world. Bye.").
Proof.
  split; [vm_compute; reflexivity|].
  pose proof (revert_restores demo4 7 (demo_rec demo4) ($"ann") ($"v1") ($"v1") ($"Hello brave world. Bye.") 4000
    demo4_inv) as H.
  specialize (H ltac:(apply in_single; vm_compute; reflexivity) ltac:(vm_compute; reflexivity)
    ltac:(vm_compute; reflexivity)).
  set (ck := default (mkCheckpoint [] []) (fr_checkpoints (demo_rec demo4) !! 0)).
  assert (Hfree : ∀ s, s ∈ ss_sessions demo4 → ws_file s ≠ fr_id (demo_rec demo4)).
  { assert (Hnil : ss_sessions demo4 = []) by (vm_compute; reflexivity).
    rewrite Hnil. intros s Hs. destruct (not_elem_of_nil _ Hs). }
  specialize (H Hfree ck ($"Hello world. Bye.")).
  destruct (handle_client_revert _ _ _ _) as [ss' out]. cbn [fst]. apply H; clear H.
  1, 4, 5, 7: vm_compute; reflexivity.
  1, 2: split; vm_compute; reflexivity.
  all: apply (bool_decide_eq_true_1 _); vm_compute; reflexivity.
Defined.

Definition demo_folder : StorageServer :=
  run demo0 [LNs (Some ($"CREATE_FILE|docs/a|ann" ++ [c_nl])) no_peer 900].

Lemma demo_folder_inv : ss_inv demo_folder.
Proof.
  eapply steps_inv; [apply run_rtc; split; [|exact I]|apply demo0_inv].
  unfold allowed.
  assert (Hm : protocol_parse_message ($"CREATE_FILE|docs/a|ann" ++ [c_nl]) = [$"CREATE_FILE"; $"docs/a"; $"ann"])
    by (vm_compute; reflexivity).
  rewrite Hm. split; [intros _|done]. unfold create_safe. cbn [field nth].
  assert (Hfl : flatten_logical_path ($"docs/a") MAX_FILENAME_LENGTH = Some ($"docs_a")) by (vm_compute; reflexivity).
  rewrite Hfl. split; [vm_compute; reflexivity|split; [|apply not_elem_of_nil]].
  apply Nat.ltb_lt. vm_compute. reflexivity.
Qed.

Lemma dirs_short (X : gset cstr) n :
  forallb (λ dir, length dir <=? n) (elements X) = true → ∀ dir, dir ∈ X → length dir <= n.
Proof.
  intros Hd dir Hdir. rewrite forallb_forall in Hd. apply Nat.leb_le, Hd, list_elem_of_In.
  by apply elem_of_elements.
Qed.

Lemma checkpoint_in_folder_fails_witness :
  (handle_client_checkpoint demo_folder 6
      [$"REQ_CHECKPOINT"; $"ann"; fr_filename (demo_rec demo_folder); $"v1"] 3000).2 =
    send_error_response 6 ERR_INTERNAL_ERROR ($"Failed to persist checkpoint").
Proof.
  pose proof (checkpoint_in_folder_fails demo_folder 6 (demo_rec demo_folder) ($"ann") ($"v1") ($"v1") 3000
    demo_folder_inv) as H.
  destruct (handle_client_checkpoint _ _ _ _) as [ss' out]. cbn [snd]. apply H; clear H.
  1: apply in_single. 1-3, 6: vm_compute; reflexivity.
  - assert (Hnil : ss_sessions demo_folder = []) by (vm_compute; reflexivity).
    rewrite Hnil. intros s Hs. destruct (not_elem_of_nil _ Hs).
  - exists ($"doc"), ("s"%char), ($"a"). split; [vm_compute; reflexivity|done].
  - eexists. vm_compute. reflexivity.
  - apply dirs_short. vm_compute. reflexivity.
  - assert (Hp : checkpoint_path demo_folder (demo_rec demo_folder) ($"v1") 3000 =
      Some ($"./ss_storage/server_127_0_0_1_9001//docs/a.ckpt_3000_v1")) by (vm_compute; reflexivity).
    intros path Hpath. rewrite Hp in Hpath. injection Hpath as <-. vm_compute. reflexivity.
Defined.
