(* ===== verification/SSFits.v ===== *)
(** * What is stored fits

    The storage server keeps its strings and lists in arrays of fixed size.
    Whatever clients, the name server, other storage servers and the disk send
    it, every one of them holds what is stored in it, with its terminator. *)
From S2P Require Import Prelude CStr Utils Protocol Disk Sentences SSAcl SSFiles SSState SSClient SSControl SSInv.

(** ** The arrays *)

Record ckpt_fits (ck : CheckpointRecord) : Prop := {
  ft_tag : length (ck_tag ck) < MAX_FILENAME_LENGTH;
  ft_snapshot : length (ck_filepath ck) < MAX_PATH_LENGTH
}.

Definition users_fit (users : list cstr) : Prop :=
  length users <= SS_MAX_USERS_PER_FILE ∧ Forall (λ u, length u < MAX_USERNAME_LENGTH) users.

Record rec_fits (r : FileRecord) : Prop := {
  ft_filename : length (fr_filename r) < MAX_FILENAME_LENGTH;
  ft_physical : length (fr_physical_name r) < MAX_FILENAME_LENGTH;
  ft_filepath : length (fr_filepath r) < MAX_PATH_LENGTH;
  ft_metapath : length (fr_metapath r) < MAX_PATH_LENGTH;
  ft_undopath : length (fr_undopath r) < MAX_PATH_LENGTH;
  ft_owner : length (fr_owner r) < MAX_USERNAME_LENGTH;
  ft_user : length (fr_last_access_user r) < MAX_USERNAME_LENGTH;
  ft_readers : users_fit (fr_read_users r);
  ft_writers : users_fit (fr_write_users r);
  ft_checkpoints : length (fr_checkpoints r) <= SS_MAX_CHECKPOINTS ∧ Forall ckpt_fits (fr_checkpoints r)
}.

Record ss_fits (ss : StorageServer) : Prop := {
  ft_ns_ip : length (ss_ns_ip ss) < MAX_IP_LENGTH;
  ft_client_ip : length (ss_client_ip ss) < MAX_IP_LENGTH;
  ft_storage_path : length (ss_storage_path ss) < MAX_PATH_LENGTH;
  ft_files : Forall rec_fits (ss_files ss);
  ft_sessions : Forall (λ s, length (ws_username s) < MAX_USERNAME_LENGTH) (ss_sessions ss)
}.

(** Any message of anybody, another disk, and restarts; on any disk. *)
Inductive any_step (ss : StorageServer) : StorageServer → Prop :=
  | any_client fd raw now : any_step ss (client_thread_turn ss fd raw now).1
  | any_ns raw peer now : any_step ss (ns_control_turn ss raw peer now).1
  | any_disk d : any_step ss (set_ss_disk ss d)
  | any_restart rest d ns_ip ns_port ip port entries now ss' :
      length ns_ip < MAX_IP_LENGTH - 1 → length ip < MAX_IP_LENGTH - 1 →
      ss_init rest d ns_ip ns_port ip port entries now = Some ss' → any_step ss ss'.

(** ** Lemmas: strings *)

Lemma fit_fits n s : 0 < n → length (fit n s) < n.
Proof. intros H. pose proof (length_fit n s). lia. Qed.

Lemma username_fits s : length (fit MAX_USERNAME_LENGTH s) < MAX_USERNAME_LENGTH.
Proof. apply fit_fits. unfold MAX_USERNAME_LENGTH. lia. Qed.

Lemma filename_fits s : length (fit MAX_FILENAME_LENGTH s) < MAX_FILENAME_LENGTH.
Proof. apply fit_fits. unfold MAX_FILENAME_LENGTH. lia. Qed.

Lemma path_fits s : length (fit MAX_PATH_LENGTH s) < MAX_PATH_LENGTH.
Proof. apply fit_fits, Nat.ltb_lt. vm_compute. reflexivity. Qed.

Lemma build_fits base file : length (path_or_empty (build_path MAX_PATH_LENGTH base file)) < MAX_PATH_LENGTH.
Proof. unfold build_path. case_decide; cbn [path_or_empty length]; [apply Nat.ltb_lt; vm_compute; reflexivity|lia]. Qed.

Lemma no_users : users_fit [].
Proof. split; [cbn; lia|constructor]. Qed.

Create HintDb fits.
#[local] Hint Resolve username_fits filename_fits path_fits build_fits no_users : fits.

(** ** Lemmas: records *)

Lemma paths_fit sp rec name : rec_fits rec → rec_fits (ss_set_record_paths sp rec name).
Proof.
  intros []. unfold ss_set_record_paths. split; cbn [with_paths fr_filename fr_physical_name fr_filepath fr_metapath fr_undopath
    fr_owner fr_last_access_user fr_read_users fr_write_users fr_checkpoints]; auto with fits.
  rewrite flatten_spec. case_decide; [by rewrite length_map|auto with fits].
Qed.

Lemma init_fits sp id name : rec_fits (ss_init_file_record sp id name).
Proof.
  apply paths_fit. split; cbn [fr_filename fr_physical_name fr_filepath fr_metapath fr_undopath fr_owner fr_last_access_user
    fr_read_users fr_write_users fr_checkpoints]; auto with fits; try (apply Nat.ltb_lt; vm_compute; reflexivity).
  split; [cbn; lia|constructor].
Qed.

(** One kind of change each. *)
Lemma undo_fits rec x : rec_fits rec → rec_fits (with_undo rec x).
Proof. by intros []. Qed.

Lemma times_fit rec c m a : rec_fits rec → rec_fits (with_last_access (with_modified (with_created rec c) m) a).
Proof. by intros []. Qed.

Lemma acl_fits rec readers writers : rec_fits rec → users_fit readers → users_fit writers → rec_fits (with_acl rec readers writers).
Proof. by intros []. Qed.

Lemma checkpoints_fit rec cks :
  rec_fits rec → length cks <= SS_MAX_CHECKPOINTS → Forall ckpt_fits cks → rec_fits (with_checkpoints rec cks).
Proof. by intros []. Qed.

Lemma touch_fits rec u m now : rec_fits rec → rec_fits (touch_record rec u m now).
Proof. intros []. unfold touch_record. destruct u, m; split; cbn -[fit]; auto with fits. Qed.

#[local] Hint Resolve init_fits undo_fits times_fit acl_fits checkpoints_fit touch_fits : fits.

(** ** Lemmas: access lists *)

Lemma acl_add_fits entries user entries' r : users_fit entries → ss_acl_add entries user = (entries', r) → users_fit entries'.
Proof.
  intros [Hl Hn]. unfold ss_acl_add. destruct (ss_acl_contains entries user); [by intros [= <- _]|].
  case_decide; [by intros [= <- _]|]. unfold safe_strcpy. case_decide; intros [= <- _]; [done|]. split.
  - rewrite length_app. cbn. lia.
  - apply Forall_app. split; [done|]. apply Forall_singleton. apply username_fits.
Qed.

Lemma acl_remove_fits entries user : users_fit entries → users_fit (ss_acl_remove entries user).1.
Proof.
  intros [Hl Hn]. unfold ss_acl_remove. destruct (findb _ entries) as [i|] eqn:Hf; [|done]. cbn [fst].
  apply findb_lookup in Hf as (x & Hx & _). pose proof (swap_remove_Permutation entries i x Hx) as Hp. split.
  - pose proof (Permutation_length Hp) as Hlen. cbn in Hlen. lia.
  - rewrite Hp in Hn. by apply Forall_cons in Hn as [_ ?].
Qed.

Lemma add_if_fits want had entries user entries' a f :
  users_fit entries → add_if want had entries user = (entries', a, f) → users_fit entries'.
Proof.
  intros Hu. unfold add_if. destruct (want && negb had); [|by intros [= <- _ _]].
  destruct (ss_acl_add entries user) as [e r] eqn:Ha. apply acl_add_fits in Ha; [|done]. by case_match; intros [= <- _ _].
Qed.

Lemma load_acl_fits tokens users : users_fit users → users_fit (load_acl tokens users).
Proof.
  revert users. induction tokens as [|t tokens IH]; intros users [Hl Hn]; cbn [load_acl]; [done|]. case_decide; [done|].
  destruct (trim_string t); [by apply IH|]. apply IH. split; [rewrite length_app; cbn; lia|].
  apply Forall_app. split; [done|]. apply Forall_singleton. apply username_fits.
Qed.

(** ** Lemmas: sidecars, whatever is in them *)

Lemma load_checkpoint_fits rec body : rec_fits rec → rec_fits (load_checkpoint rec body).
Proof.
  intros Hr. unfold load_checkpoint. case_decide as Hl; [|done]. destruct (split_at _ _) as [[tag path]|]; [|done].
  apply checkpoints_fit; [done|rewrite length_app; cbn; lia|]. apply Forall_app. split; [apply Hr|]. apply Forall_singleton.
  split; cbn -[fit]; auto with fits.
Qed.

Lemma load_line_fits rec lo raw rec' lo' :
  rec_fits rec → load_line (rec, lo) raw = (rec', lo') → rec_fits rec'.
Proof.
  intros Hr. pose proof (λ ts, load_acl_fits ts [] no_users) as Hload. unfold load_line.
  repeat (case_match; [intros [= <- _]|]); [..|by intros [= <- _]]; try (by destruct Hr; split; cbn -[fit]; auto with fits).
  by apply load_checkpoint_fits.
Qed.

Lemma load_metadata_fits sp d rec rec' : rec_fits rec → ss_load_metadata sp d rec = Some rec' → rec_fits rec'.
Proof.
  intros Hr. unfold ss_load_metadata. destruct (read_file _ _) as [data|]; [|done].
  assert (Hr0 : rec_fits (with_checkpoints (with_undo (with_acl rec [] []) 0) [])).
  { apply checkpoints_fit; [auto with fits|cbn; lia|constructor]. }
  revert Hr0. generalize (with_checkpoints (with_undo (with_acl rec [] []) 0) []) as r. generalize (@nil ascii) as lo.
  induction (fgets_lines 1024 data) as [|l ls IH]; intros lo r Hr0; cbn [foldl].
  - intros [= <-]. destruct lo; [done|by apply paths_fit].
  - destruct (load_line (r, lo) l) as [r1 lo1] eqn:Hl. apply IH. by eapply load_line_fits.
Qed.

(** ** Operations *)

Lemma update_fits ss rec : ss_fits ss → rec_fits rec → ss_fits (update_rec ss rec).
Proof.
  intros [] Hr. split; try assumption. cbn. rewrite !Forall_forall in ft_files0 *.
  intros r (r0 & -> & Hr0)%list_elem_of_fmap. by case_decide; auto.
Qed.

Lemma disk_fits ss d : ss_fits ss → ss_fits (set_ss_disk ss d).
Proof. by intros []. Qed.

Lemma files_fit ss fs : ss_fits ss → Forall rec_fits fs → ss_fits (set_ss_files ss fs).
Proof. by intros []. Qed.

Lemma sessions_fit ss ses :
  ss_fits ss → Forall (λ s, length (ws_username s) < MAX_USERNAME_LENGTH) ses → ss_fits (set_ss_sessions ss ses).
Proof. by intros []. Qed.

Lemma next_fits ss n : ss_fits ss → ss_fits (set_ss_next ss n).
Proof. by intros []. Qed.

Lemma touched_fits ss rec u m now : ss_fits ss → rec_fits rec → ss_fits (ss_touch_file_metadata ss rec u m now).
Proof.
  intros Hs Hr. unfold ss_touch_file_metadata. destruct (ss_write_metadata _ _) as [d b].
  apply update_fits; [by apply disk_fits|by apply touch_fits].
Qed.

#[local] Hint Resolve update_fits disk_fits files_fit sessions_fit next_fits touched_fits : fits.

Lemma detach_fits ss fd : ss_fits ss → ss_fits (ss_detach_session ss fd).
Proof.
  intros Hs. apply sessions_fit; [done|]. pose proof (ft_sessions _ Hs) as H. rewrite !Forall_forall in H *.
  intros s Hin. by eapply H, remove_firstb_elem.
Qed.

Section steps.
Context (ss : StorageServer) (Hs : ss_fits ss).

Lemma found_fits name rec : ss_find_file ss name = Some rec → rec_fits rec.
Proof. intros [Hin _]%find_file_Some. by eapply Forall_forall; [apply (ft_files _ Hs)|]. Qed.

Lemma deref_fits id rec : deref ss id = Some rec → rec_fits rec.
Proof. intros [Hin _]%deref_Some. by eapply Forall_forall; [apply (ft_files _ Hs)|]. Qed.

#[local] Hint Resolve found_fits deref_fits : fits.

Lemma with_file_fits fd name user allowed refusal k :
  (∀ rec, rec_fits rec → ss_fits (k rec).1) → ss_fits (with_file ss fd name user allowed refusal k).1.
Proof.
  intros Hk. unfold with_file. destruct (ss_find_file ss name) as [rec|] eqn:Hf; [|done].
  case_match; [|done]. apply Hk. by eapply found_fits.
Qed.

Lemma prune_fits d rec d' rec' :
  rec_fits rec → ss_prune_oldest_checkpoint d rec = (d', rec') → rec_fits rec'.
Proof.
  intros Hr. unfold ss_prune_oldest_checkpoint. destruct (fr_checkpoints rec) as [|old rest] eqn:Hc; intros [= _ <-]; [done|].
  destruct (ft_checkpoints _ Hr) as [Hl Hn]. rewrite Hc in Hl, Hn. apply Forall_cons in Hn as [_ Hn].
  apply checkpoints_fit; [done|cbn in Hl; lia|done].
Qed.

Ltac handler :=
  repeat first [ done | progress cbn [fst snd] | apply with_file_fits; intros ? ? | case_match | case_decide ]; simplify_eq;
  eauto 6 with fits.

Lemma read_fits fd msg now : ss_fits (handle_client_read ss fd msg now).1.
Proof. unfold handle_client_read. handler. Qed.

Lemma stream_fits fd msg now : ss_fits (handle_client_stream ss fd msg now).1.
Proof. unfold handle_client_stream. handler. Qed.

Lemma undo_cmd_fits fd msg now : ss_fits (handle_client_undo ss fd msg now).1.
Proof. unfold handle_client_undo. handler. Qed.

Lemma view_fits fd msg now : ss_fits (handle_client_viewcheckpoint ss fd msg now).1.
Proof. unfold handle_client_viewcheckpoint. handler. Qed.

Lemma revert_fits fd msg now : ss_fits (handle_client_revert ss fd msg now).1.
Proof. unfold handle_client_revert. handler. Qed.

Lemma list_fits fd msg now : ss_fits (handle_client_listcheckpoints ss fd msg now).1.
Proof. unfold handle_client_listcheckpoints. handler. Qed.
Lemma lock_fits fd msg : ss_fits (handle_client_write_lock ss fd msg).1.
Proof.
  unfold handle_client_write_lock. case_decide; [done|]. destruct (parse_int _) as [index|]; [|done]. case_match; [done|].
  pose proof (detach_fits ss fd Hs) as Hd. unfold write_lock_begin, ss_abort_session.
  destruct (ss_find_file _ _) as [rec|]; [|done]. destruct (ss_check_write_access _ _); [|done].
  destruct (deref _ _) as [rec'|]; [|done]. unfold write_lock_commit.
  destruct (ss_find_session_by_sentence _ _ _); [done|]. destruct (ss_read_file_content _ _) as [text|]; [|done].
  destruct (ss_get_sentence_bounds _ _) as [[start stop]|]; [|done]. cbn [fst ss_create_session].
  apply sessions_fit; [done|]. apply Forall_cons. split; [apply username_fits|apply Hd].
Qed.

Lemma data_fits fd msg : ss_fits (handle_client_write_data ss fd msg).1.
Proof.
  unfold handle_client_write_data. case_decide; [done|]. destruct (parse_int _) as [index|]; [|done]. case_match; [done|].
  destruct (ss_find_session ss fd) as [s|]; [|done]. destruct (ss_apply_word_edit _ _ _) as [w|]; [|done].
  apply sessions_fit; [done|]. pose proof (ft_sessions _ Hs) as Hall.
  induction Hall as [|x l Hx Hl IH]; cbn [update_firstb]; [constructor|]. case_match; by constructor.
Qed.

Lemma etirw_fits fd now : ss_fits (handle_client_etirw ss fd now).1.
Proof.
  unfold handle_client_etirw. destruct (etirw_begin ss fd) as [|[[id start] stop]]; [done|].
  destruct (deref ss id) as [rec|] eqn:Hde; [|done]. apply deref_fits in Hde.
  destruct (ss_find_session ss fd) as [s|]; [|done]. unfold etirw_commit.
  destruct (ss_read_file_content _ _) as [text|]; [|done]. case_decide; [done|].
  destruct (ss_write_file_content _ (fr_undopath rec) _) as [d []]; [|by apply disk_fits].
  destruct (ss_write_file_content d _ _) as [d2 []]; [|by apply disk_fits]. cbn [fst].
  apply detach_fits. unfold ss_update_active_sessions.
  assert (Ht : ss_fits (ss_touch_file_metadata (set_ss_disk ss d2) (with_undo rec 1) (Some (ws_username s)) true now))
    by eauto with fits.
  apply sessions_fit; [done|]. pose proof (ft_sessions _ Ht) as Hall. rewrite !Forall_forall in Hall *.
  intros x (y & -> & Hy)%list_elem_of_fmap. unfold shift_session. repeat case_match; exact (Hall y Hy).
Qed.

Lemma checkpoint_fits fd msg now : ss_fits (handle_client_checkpoint ss fd msg now).1.
Proof.
  unfold handle_client_checkpoint. case_decide; [done|]. destruct (tag_copy _) as [tag|]; [|done].
  apply with_file_fits. intros rec Hr. case_match; [done|]. destruct (ss_find_checkpoint _ _); [done|].
  destruct (build_path _ _ _) as [path|]; [|done]. destruct (ss_copy_file _ _ _) as [d []]; [|by apply disk_fits].
  destruct (if decide _ then _ else _) as [d2 rec2] eqn:Hp. cbn [fst].
  assert (Hr2 : rec_fits rec2 ∧ length (fr_checkpoints rec2) < SS_MAX_CHECKPOINTS).
  { destruct (ft_checkpoints _ Hr) as [Hl Hn]. case_decide as Hfull; [|by simplify_eq; split; [|lia]]. split; [by eapply prune_fits|].
    unfold ss_prune_oldest_checkpoint in Hp. destruct (fr_checkpoints rec) as [|old rest] eqn:Hc; simplify_eq; rewrite ?Hc in Hl; rewrite ?Hc in Hfull;
      cbn in *; unfold SS_MAX_CHECKPOINTS in *; lia. }
  destruct Hr2 as [Hr2 Hlt]. destruct (ft_checkpoints _ Hr2) as [_ Hn].
  apply touched_fits; [by apply disk_fits|]. apply checkpoints_fit; [done|rewrite length_app; cbn; lia|].
  apply Forall_app. split; [done|]. apply Forall_singleton. split; cbn -[fit]; auto with fits.
Qed.

Lemma client_turn_fits fd raw now : ss_fits (client_thread_turn ss fd raw now).1.
Proof.
  destruct raw as [raw|]; [|by apply detach_fits]. unfold client_thread_turn, client_message.
  destruct (protocol_parse_message raw) as [|cmd msg]; [done|].
  repeat case_match; auto using read_fits, stream_fits, undo_cmd_fits, view_fits, revert_fits, list_fits, lock_fits, data_fits,
    etirw_fits, checkpoint_fits.
Qed.

(** ** Commands of the name server *)

Lemma create_fits name owner now : ss_fits (ss_create_file ss name owner now).1.
Proof.
  unfold ss_create_file. destruct (ss_find_file ss name); [done|]. pose proof (init_fits (ss_storage_path ss) (ss_next_id ss) name) as Hr.
  revert Hr. generalize (ss_init_file_record (ss_storage_path ss) (ss_next_id ss) name) as rec. intros rec Hr.
  destruct (write_file _ _ _) as [d []]; [by apply next_fits|..]; destruct (ss_write_metadata _ _) as [d2 b]; cbn [fst].
  all: apply files_fit; [by apply disk_fits, next_fits|]; apply Forall_cons; split; [|apply Hs].
  all: destruct Hr; split; cbn -[fit]; auto with fits.
Qed.

Lemma delete_fits name : ss_fits (ss_delete_file ss name).1.
Proof.
  unfold ss_delete_file. destruct (ss_find_file ss name); [|done]. case_match; [done|]. apply files_fit; [by apply disk_fits|].
  pose proof (ft_files _ Hs) as Hall. rewrite !Forall_forall in Hall *. intros r Hr. by eapply Hall, remove_firstb_elem.
Qed.

Lemma rename_fits old_logical new_logical old_flat new_flat now :
  ss_fits (ss_handle_rename ss old_logical new_logical old_flat new_flat now).1.
Proof.
  unfold ss_handle_rename. destruct (ss_find_file ss old_logical) as [rec|] eqn:Hf; [|done]. apply found_fits in Hf.
  destruct (flatten_logical_path _ _); [|done]. case_match; [done|]. do 2 (destruct (build_path _ _ _); [|done]).
  destruct (rename _ _ _) as [d1 []]; [|done]. destruct (rename d1 _ _) as [d2 b2]. destruct (rename d2 _ _) as [d3 b3]. cbn [fst].
  apply touched_fits; [by apply disk_fits|]. destruct Hf. split; cbn -[fit]; auto with fits.
Qed.

Lemma add_access_fits msg : ss_fits (ns_add_access ss msg).1.
Proof.
  unfold ns_add_access. case_decide; [done|]. destruct (ss_find_file ss _) as [rec|] eqn:Hf; [|done]. apply found_fits in Hf.
  destruct (permission_flags _) as [wr ww]. case_match; [done|]. destruct (ft_readers _ Hf), (ft_writers _ Hf).
  destruct (add_if wr _ _ _) as [[readers ar] fr0] eqn:Hr. apply add_if_fits in Hr; [|apply Hf].
  destruct (add_if (negb fr0 && ww) _ _ _) as [[writers aw] fw] eqn:Hw. apply add_if_fits in Hw; [|apply Hf].
  destruct (if negb _ && _ then _ else _) as [d written]. assert (Hd : ss_fits (set_ss_disk ss d)) by by apply disk_fits.
  case_match; apply update_fits; try done; apply acl_fits; try done; unfold remove_if; case_match; try done; by apply acl_remove_fits.
Qed.

Lemma remove_access_fits msg : ss_fits (ns_remove_access ss msg).1.
Proof.
  unfold ns_remove_access. case_decide; [done|]. destruct (ss_find_file ss _) as [rec|] eqn:Hf; [|done]. apply found_fits in Hf.
  pose proof (acl_remove_fits (fr_read_users rec) (field msg 2) (ft_readers _ Hf)) as Hr.
  pose proof (acl_remove_fits (fr_write_users rec) (field msg 2) (ft_writers _ Hf)) as Hw.
  destruct (ss_acl_remove (fr_read_users rec) _) as [readers rr]. destruct (ss_acl_remove (fr_write_users rec) _) as [writers rw].
  case_match; [done|]. destruct (ss_write_metadata _ _) as [d []]; apply update_fits; try (by apply disk_fits); apply acl_fits; try done.
  all: case_match; try done; destruct (ss_acl_add _ _) eqn:Ha; by eapply acl_add_fits; [|exact Ha].
Qed.

Lemma copy_content_fits dest src user peer now : rec_fits dest → ss_fits (copy_content ss dest src user peer now).1.
Proof.
  intros Hd. unfold copy_content.
  destruct (match src with Some _ => _ | None => _ end) as [d1 f1]. destruct (match f1 with Some _ => _ | None => _ end) as [d2 f2].
  destruct f2 as [[code m]|]; [by apply disk_fits|]. apply touched_fits; [by apply disk_fits|done].
Qed.

Lemma copy_fits msg peer now : ss_fits (handle_ss_copy ss msg peer now).1.
Proof.
  unfold handle_ss_copy. case_decide; [done|]. case_match; [done|]. case_match; [done|].
  destruct (ss_find_file ss (field msg 1)) as [rec|] eqn:Hf; [|done]. apply found_fits in Hf.
  destruct (_ && bool_decide _); [done|]. destruct (ss_file_has_active_writers ss rec); [done|].
  generalize (if streq (field msg 2) ($"LOCAL") then ss_find_file ss (field msg 4) else None) as src. intros src.
  destruct (match src with Some _ => _ | None => _ end); [done|by apply copy_content_fits].
Qed.

Lemma ns_turn_fits raw peer now : ss_fits (ns_control_turn ss raw peer now).1.
Proof.
  destruct raw as [raw|]; [|by destruct Hs]. unfold ns_control_turn, ns_message.
  destruct (protocol_parse_message raw) as [|cmd msg]; [done|]. repeat case_match; auto using add_access_fits, remove_access_fits, copy_fits.
  - unfold ns_create_file. repeat case_match; try done; pose proof (create_fits (field (cmd :: msg) 1) (field (cmd :: msg) 2) now) as Hc;
      by match goal with H : ss_create_file _ _ _ _ = _ |- _ => rewrite H in Hc end.
  - unfold ns_delete_file. repeat case_match; try done; pose proof (delete_fits (field (cmd :: msg) 1)) as Hc;
      by match goal with H : ss_delete_file _ _ = _ |- _ => rewrite H in Hc end.
  - unfold ns_get_stats. by repeat (case_match; try done).
  - unfold ns_get_content. by repeat (case_match; try done).
  - unfold ns_rename. repeat case_match; try done;
      pose proof (rename_fits (field (cmd :: msg) 1) (field (cmd :: msg) 2) (field (cmd :: msg) 3) (field (cmd :: msg) 4) now) as Hc;
      by match goal with H : ss_handle_rename _ _ _ _ _ _ = _ |- _ => rewrite H in Hc end.
Qed.
End steps.

(** ** Starting *)

Lemma add_record_fits ss name now : ss_fits ss → ss_fits (ss_add_file_record ss name now).
Proof.
  intros Hs. unfold ss_add_file_record. pose proof (init_fits (ss_storage_path ss) (ss_next_id ss) name) as Hr. revert Hr.
  generalize (ss_init_file_record (ss_storage_path ss) (ss_next_id ss) name) as r0. intros r0 Hr.
  destruct (ss_load_metadata _ _ r0) as [rec|] eqn:Hl.
  - apply load_metadata_fits in Hl; [|done]. apply files_fit; [by apply next_fits|]. apply Forall_cons. split; [done|apply Hs].
  - destruct (ss_write_metadata _ _) as [d b]. apply files_fit; [by apply disk_fits, next_fits|]. apply Forall_cons.
    split; [auto with fits|apply Hs].
Qed.

Lemma load_existing_fits ss entries now : ss_fits ss → ss_fits (ss_load_existing_files ss entries now).
Proof.
  unfold ss_load_existing_files. revert ss. induction entries as [|e entries IH]; intros ss Hs; cbn [foldl]; [done|].
  apply IH. case_match; [by apply add_record_fits|done].
Qed.

Lemma storage_path_fits size ip port sp : ss_build_storage_path size ip port = Some sp → length sp < size.
Proof.
  unfold ss_build_storage_path. case_decide; [done|]. destruct (safe_strcpy _ _); [|done]. cbv zeta.
  generalize (SS_STORAGE_PATH ++ $"server_" ++ match map sanitize_ip_char l with [] => $"local" | _ => map sanitize_ip_char l end ++
    $"_" ++ to_dec (if (port <? 0)%Z then 0%Z else port) ++ $"/") as path.
  intros path. case_decide; [done|]. intros [= <-]. lia.
Qed.

Lemma load_ns_ip entries now ss : ss_ns_ip (ss_load_existing_files ss entries now) = ss_ns_ip ss.
Proof.
  unfold ss_load_existing_files. revert ss. induction entries as [|e entries IH]; intros ss; cbn [foldl]; [done|]. rewrite IH.
  destruct (is_document_entry ss e); [|done]. unfold ss_add_file_record.
  generalize (ss_init_file_record (ss_storage_path ss) (ss_next_id ss) e) as r0. intros r0.
  destruct (ss_load_metadata _ _ r0); [done|]. by destruct (ss_write_metadata _ _).
Qed.

Lemma init_state_fits rest d ns_ip ns_port ip port entries now ss :
  length ns_ip < MAX_IP_LENGTH - 1 → length ip < MAX_IP_LENGTH - 1 →
  ss_init rest d ns_ip ns_port ip port entries now = Some ss → ss_fits ss.
Proof.
  intros Hns Hip. unfold ss_init. rewrite !strncpy_short //.
  destruct (ss_build_storage_path _ _ _) as [sp|] eqn:Hsp; [|done]. apply storage_path_fits in Hsp.
  destruct (create_directory_recursive d sp) as [d' []]; [|done]. intros Heq. injection Heq as <-. apply load_existing_fits.
  split; cbn; [lia|lia|exact Hsp|constructor..].
Qed.

Lemma any_step_fits ss ss' : any_step ss ss' → ss_fits ss → ss_fits ss'.
Proof.
  intros [fd raw now|raw peer now|d|rest d ns_ip ns_port ip port entries now ss1 Hns Hip Hi] Hs.
  - by apply client_turn_fits.
  - by apply ns_turn_fits.
  - by apply disk_fits.
  - exact (init_state_fits _ _ _ _ _ _ _ _ _ Hns Hip Hi).
Qed.

(** ** Property *)

(** An address of 63 bytes or more is left without a terminator: unless the byte
    behind it happens to be zero, what is read from its array does not fit it. *)
Lemma long_address_unterminated rest d ns_ip ns_port ip port entries now ss :
  ss_init rest d ns_ip ns_port ip port entries now = Some ss →
  MAX_IP_LENGTH - 1 <= length ns_ip → rest.1 ≠ [] → MAX_IP_LENGTH <= length (ss_ns_ip ss).
Proof.
  intros Hi Hl Hr. pose proof (strncpy_long rest.1 MAX_IP_LENGTH ns_ip ltac:(unfold MAX_IP_LENGTH; lia) Hl Hr) as Hlong.
  revert Hi. unfold ss_init.
  destruct (ss_build_storage_path _ _ _) as [sp|]; [|done]. destruct (create_directory_recursive d sp) as [d' []]; [|done].
  intros Heq. injection Heq as <-. rewrite load_ns_ip. exact Hlong.
Qed.

(** C30 Memory safety of the fixed-size arrays of the storage server: when the two
    addresses it is started with are shorter than 63 bytes (an IPv4 address has
    15 at most; [long_address_unterminated] says what happens otherwise), from
    [ss_init] on, whatever bytes clients, the name server and other storage
    servers send, whatever the disk holds and however it fails, every string is
    shorter than its array in [storage_server.h], an access list has at most 128
    users and a document at most 32 checkpoints. *)
Theorem buffers_fit rest d ns_ip ns_port ip port entries now ss0 ss :
  length ns_ip < MAX_IP_LENGTH - 1 → length ip < MAX_IP_LENGTH - 1 →
  ss_init rest d ns_ip ns_port ip port entries now = Some ss0 → rtc any_step ss0 ss → ss_fits ss.
Proof.
  intros Hns Hip Hi Hr. apply (init_state_fits _ _ _ _ _ _ _ _ _ Hns Hip) in Hi. induction Hr as [|ss1 ss2 ss3 Hstep _ IH]; [done|]. by eapply IH, any_step_fits.
Qed.

Lemma default_is {A} (x : A) (o : option A) : is_Some o → o = Some (default x o).
Proof. by intros [y ->]. Qed.

(** A sidecar with too long a name, too many readers and a checkpoint. *)
Definition wild_disk : Disk :=
  mkDisk {[ $"./ss_storage/server_local_9001//a.txt" := $"Hello.";
            $"./ss_storage/server_local_9001//a.txt.meta" :=
              unlines [$"OWNER=" ++ replicate 500 "o"%char; $"READ=" ++ join ($",") (replicate 400 ($"u"));
                       $"CHECKPOINT=" ++ replicate 300 "t"%char ++ $":x"] ]}
    {[ $"."; $"./ss_storage"; $"./ss_storage/server_local_9001" ]} (λ _, NoFault).

Definition wild : StorageServer :=
  default (mkSS [] 0 [] 0 0 [] false [] [] wild_disk 0) (ss_init ([], []) wild_disk ($"127.0.0.1") 9000 [] 9001 [$"."; $"a.txt"] 5).

Lemma wild_started : ss_init ([], []) wild_disk ($"127.0.0.1") 9000 [] 9001 [$"."; $"a.txt"] 5 = Some wild.
Proof. unfold wild. apply default_is. apply (bool_decide_unpack _). vm_compute. exact I. Qed.

Definition wilder : StorageServer :=
  (client_thread_turn wild 4 (Some ($"REQ_WRITE_LOCK|" ++ replicate 300 "o"%char ++ $"|a.txt|0" ++ [c_nl])) 6).1.

Lemma buffers_fit_witness :
  ss_fits wilder ∧ length (ss_files wilder) = 1 ∧ map (λ r, length (fr_read_users r)) (ss_files wilder) = [128].
Proof.
  split; [|split; vm_compute; reflexivity].
  exact (buffers_fit ([], []) wild_disk ($"127.0.0.1") 9000 [] 9001 [$"."; $"a.txt"] 5 wild wilder
    ltac:(vmd) ltac:(vmd) wild_started
    (rtc_once _ _ (any_client wild 4 _ 6))).
Defined.
