(* ===== verification/SSSaved.v ===== *)
(** * The storage server's files say what the server knows

    In every state that a storage server reaches on a disk that works, each
    record's sidecar is what [ss_write_metadata] prints for it, and nothing in the
    storage directory looks like a document but the documents.  [SSRestart] shows
    that a restart therefore finds every record again. *)
From S2P Require Import Prelude CStr Utils Protocol Disk Sentences SSAcl SSFiles SSState SSClient SSControl SSInv SSInvClient SSInvControl SSLocks.

(** ** Names in the storage directory *)

Definition is_meta (p : cstr) : bool := string_ends_with p SS_META_SUFFIX.

(** What [is_document_entry] asks of a name. *)
Definition document_name (name : cstr) : bool :=
  negb (streq name ($".")) && negb (streq name ($"..")) && negb (bool_decide (name = [])) &&
  negb (has_suffix name SS_META_SUFFIX) && negb (has_suffix name SS_UNDO_SUFFIX) && negb (contains_sub name ($".ckpt_")).

(** A path that a restart does not take for a document. *)
Definition hidden (sp p : cstr) : Prop := ∀ name, p = sp ++ [c_slash] ++ name → document_name name = false.

Lemma hidden_in sp name : document_name name = false → hidden sp (sp ++ [c_slash] ++ name).
Proof. intros H name' Heq. by apply app_inv_head, app_inv_head in Heq as ->. Qed.

Lemma ends_with_split s suffix : string_ends_with s suffix = true → ∃ front, s = front ++ suffix.
Proof.
  unfold string_ends_with. case_decide; [done|]. intros Hs%streq_true. exists (take (length s - length suffix) s).
  by rewrite -{1}(take_drop (length s - length suffix) s) Hs.
Qed.

Lemma has_suffix_app flat suffix : flat ≠ [] → has_suffix (flat ++ suffix) suffix = true.
Proof.
  intros Hf. unfold has_suffix. rewrite string_ends_with_app andb_true_r. apply bool_decide_eq_true.
  rewrite length_app. destruct flat; [done|]. cbn. lia.
Qed.

Lemma sidecar_name flat suffix :
  flat ≠ [] → suffix = SS_META_SUFFIX ∨ suffix = SS_UNDO_SUFFIX → document_name (flat ++ suffix) = false.
Proof.
  intros Hf Hs. unfold document_name. pose proof (has_suffix_app flat suffix Hf) as H.
  destruct Hs as [-> | ->]; rewrite H; cbn [negb]; by rewrite ?andb_false_r.
Qed.

Lemma snapshot_name a b : document_name (a ++ $".ckpt_" ++ b) = false.
Proof. unfold document_name. rewrite contains_sub_app. by rewrite andb_false_r. Qed.

(** A suffix in the way of another one of the same length. *)
Lemma is_meta_app p suffix : length suffix = 5 → suffix ≠ SS_META_SUFFIX → is_meta (p ++ suffix) = false.
Proof.
  intros Hl Hne. apply not_true_iff_false. intros [front Hf]%ends_with_split.
  apply app_inj_2 in Hf as [_ ?]; [done|]. by rewrite Hl.
Qed.

Lemma is_meta_undo p : is_meta (p ++ SS_UNDO_SUFFIX) = false.
Proof. by apply is_meta_app. Qed.

Lemma is_meta_self p : is_meta (p ++ SS_META_SUFFIX) = true.
Proof. apply string_ends_with_app. Qed.

Lemma is_meta_doc p : doc_path p = true → is_meta p = false.
Proof. unfold doc_path, is_meta. destruct (string_ends_with p SS_META_SUFFIX); [|done]. by rewrite !andb_false_r. Qed.

(** ** The invariant *)

(** The disk refuses nothing, and sidecars can be written to the storage
    directory, which contains itself and its parent. *)
Definition disk_works (sp : cstr) (d : Disk) : Prop :=
  (∀ p, dk_fault d p = NoFault) ∧
  (∀ flat, c_slash ∉ flat → can_create d (sp ++ [c_slash] ++ flat ++ SS_META_SUFFIX) = true) ∧
  sp ++ [c_slash] ++ $"." ∈ dk_dirs d ∧ sp ++ [c_slash] ++ $".." ∈ dk_dirs d.

Definition placed (sp : cstr) (r : FileRecord) : Prop :=
  (∃ flat, flat ≠ [] ∧ (c_slash ∉ flat) ∧ fr_filepath r = sp ++ [c_slash] ++ flat) ∧
  fr_metapath r = fr_filepath r ++ SS_META_SUFFIX ∧ fr_undopath r = fr_filepath r ++ SS_UNDO_SUFFIX ∧
  Forall (λ ck, is_meta (ck_filepath ck) = false) (fr_checkpoints r).

Definition sidecar_of (d : Disk) (r : FileRecord) : Prop :=
  dk_files d !! fr_metapath r = Some (unlines (metadata_lines r)).

Record saved (ss : StorageServer) : Prop := {
  sv_disk : disk_works (ss_storage_path ss) (ss_disk ss);
  sv_recs : Forall (placed (ss_storage_path ss)) (ss_files ss);
  sv_sidecars : Forall (sidecar_of (ss_disk ss)) (ss_files ss);
  sv_docs : ∀ p, is_Some (dk_files (ss_disk ss) !! p) → p ∈ map fr_filepath (ss_files ss) ∨ hidden (ss_storage_path ss) p;
  sv_present : Forall (λ r, is_Some (dk_files (ss_disk ss) !! fr_filepath r) ∧ fr_filepath r ∉ dk_dirs (ss_disk ss)) (ss_files ss)
}.

(** ** Changes of the disk that leave the sidecars alone *)

Record quiet (sp : cstr) (fs : list FileRecord) (d d' : Disk) : Prop := {
  qt_same : dk_dirs d' = dk_dirs d ∧ dk_fault d' = dk_fault d;
  qt_meta : ∀ p, is_meta p = true → dk_files d' !! p = dk_files d !! p;
  qt_docs : ∀ p, is_Some (dk_files d' !! p) → is_Some (dk_files d !! p) ∨ p ∈ map fr_filepath fs ∨ hidden sp p;
  qt_kept : ∀ p, p ∈ map fr_filepath fs → is_Some (dk_files d !! p) → is_Some (dk_files d' !! p)
}.

#[export] Instance quiet_preorder sp fs : PreOrder (quiet sp fs).
Proof.
  split; [by split; [|done|left|]|]. intros d1 d2 d3 [[H1 H2] H3 H4 H5] [[K1 K2] K3 K4 K5].
  split; [split; congruence| | |auto].
  - intros p Hp. by rewrite K3 ?H3.
  - intros p [Hp|Hp]%K4; [by apply H4|by right].
Qed.

Lemma quiet_at sp fs d d' p :
  dk_dirs d' = dk_dirs d ∧ dk_fault d' = dk_fault d → (∀ q, q ≠ p → dk_files d' !! q = dk_files d !! q) →
  (is_Some (dk_files d !! p) → is_Some (dk_files d' !! p)) →
  is_meta p = false → p ∈ map fr_filepath fs ∨ hidden sp p → quiet sp fs d d'.
Proof.
  intros Hs Hne Hk Hm Hp. split; [done| | |].
  - intros q Hq. apply Hne. congruence.
  - intros q Hq. destruct (decide (q = p)) as [->|Hqp]; [by right|]. left. by rewrite -(Hne q Hqp).
  - intros q _ Hq. destruct (decide (q = p)) as [->|Hqp]; [by apply Hk|]. by rewrite Hne.
Qed.

Lemma write_keeps d p data d' r q : write_file d p data = (d', r) → is_Some (dk_files d !! q) → is_Some (dk_files d' !! q).
Proof.
  unfold write_file. intros H Hq. repeat case_match; simplify_eq; try done; cbn;
    (destruct (decide (q = p)) as [->|Hne]; [by rewrite lookup_insert_eq|by rewrite lookup_insert_ne]).
Qed.

Lemma content_keeps d p data d' b q :
  ss_write_file_content d p data = (d', b) → is_Some (dk_files d !! q) → is_Some (dk_files d' !! q).
Proof.
  unfold ss_write_file_content. destruct (write_file d p data) as [d1 r] eqn:Hw. intros H.
  assert (d1 = d') as <- by (by destruct r; simplify_eq). by eapply write_keeps.
Qed.

(** Only a short write takes a copy away. *)
Lemma copy_keeps d src p d' b q :
  (∀ p, dk_fault d p = NoFault) → ss_copy_file d src p = (d', b) → is_Some (dk_files d !! q) → is_Some (dk_files d' !! q).
Proof.
  intros Hf. unfold ss_copy_file. destruct (read_file d src); [|by intros [= <- _]].
  destruct (write_file d p _) as [d1 r] eqn:Hw. intros H Hq. destruct r; simplify_eq; [|exfalso|].
  - by eapply write_keeps.
  - unfold write_file in Hw. rewrite Hf in Hw. by repeat case_match; simplify_eq.
  - by eapply write_keeps.
Qed.

Lemma quiet_write sp fs d p data d' b :
  ss_write_file_content d p data = (d', b) → is_meta p = false → p ∈ map fr_filepath fs ∨ hidden sp p → quiet sp fs d d'.
Proof.
  intros Hw. apply quiet_at; [by eapply ss_write_file_content_same| |by eapply content_keeps].
  intros q Hq. by eapply ss_write_file_content_ne.
Qed.

Lemma quiet_copy sp fs d src p d' b :
  (∀ p, dk_fault d p = NoFault) →
  ss_copy_file d src p = (d', b) → is_meta p = false → p ∈ map fr_filepath fs ∨ hidden sp p → quiet sp fs d d'.
Proof.
  intros Hf Hw. apply quiet_at; [by eapply ss_copy_file_same| |by eapply copy_keeps]. intros q Hq. by eapply ss_copy_file_ne.
Qed.

Lemma unlink_gone d p : (∀ q, dk_fault d q = NoFault) → dk_files (unlink d p) !! p = None.
Proof. intros Hf. unfold unlink, denied. rewrite Hf. cbn. apply lookup_delete_eq. Qed.

Lemma unlink_sub d p q : is_Some (dk_files (unlink d p) !! q) → is_Some (dk_files d !! q).
Proof.
  unfold unlink. case_match; [done|]. cbn. intros [x Hx%lookup_delete_Some]. exists x. apply Hx.
Qed.

Lemma quiet_unlink sp fs d p : is_meta p = false → p ∉ map fr_filepath fs → quiet sp fs d (unlink d p).
Proof.
  intros Hm Hp. split; [apply unlink_same| | |].
  - intros q Hq. apply unlink_ne. congruence.
  - intros q Hq. left. by eapply unlink_sub.
  - intros q Hq. rewrite unlink_ne; [congruence|done].
Qed.

Lemma works_same sp d d' : dk_dirs d' = dk_dirs d ∧ dk_fault d' = dk_fault d → disk_works sp d → disk_works sp d'.
Proof.
  intros [Hd Hf] (H1 & H2 & H3). split; [by rewrite Hf|]. split; [|by rewrite Hd]. intros flat Hn. rewrite -(H2 flat Hn).
  unfold can_create, denied. by rewrite Hd Hf.
Qed.

(** ** Storing a record *)

Lemma saved_disk ss d : saved ss → quiet (ss_storage_path ss) (ss_files ss) (ss_disk ss) d → saved (set_ss_disk ss d).
Proof.
  intros [Hd Hr Hs Ho Hp] Hq. split; [by eapply works_same; [apply Hq|]|done| | |].
  - cbn. rewrite !Forall_forall in Hs Hr *. intros r Hin. unfold sidecar_of. rewrite (qt_meta _ _ _ _ Hq); [|by apply Hs].
    destruct (Hr r Hin) as (_ & -> & _). apply is_meta_self.
  - intros p [Hx|Hx]%(qt_docs _ _ _ _ Hq); [by apply Ho|done].
  - cbn. rewrite !Forall_forall in Hp *. intros r Hin. destruct (Hp r Hin) as [Hx Hdir]. split.
    + apply (qt_kept _ _ _ _ Hq); [by apply (list_elem_of_fmap_2 fr_filepath)|done].
    + by rewrite (proj1 (qt_same _ _ _ _ Hq)).
Qed.

(** What only concerns sessions. *)
Lemma saved_same ss ss' :
  saved ss → ss_storage_path ss' = ss_storage_path ss → ss_files ss' = ss_files ss → ss_disk ss' = ss_disk ss → saved ss'.
Proof. intros [] Hp Hf Hd. by split; rewrite ?Hp ?Hf ?Hd. Qed.

Lemma write_metadata_works sp d rec :
  disk_works sp d → placed sp rec →
  ss_write_metadata d rec = (set_files d (<[fr_metapath rec := unlines (metadata_lines rec)]> (dk_files d)), true).
Proof.
  intros (Hf & Hc & _) ((flat & Hne & Hsl & Hp) & Hm & _). unfold ss_write_metadata. rewrite write_file_good; [|done|done].
  rewrite Hm Hp -!app_assoc. by apply Hc.
Qed.

Lemma placed_key sp r r' :
  placed sp r → rec_key r' = rec_key r → Forall (λ ck, is_meta (ck_filepath ck) = false) (fr_checkpoints r') → placed sp r'.
Proof. intros (H1 & H2 & H3 & _) Hk Hc. unfold rec_key in Hk. unfold placed. by injection Hk as _ _ -> -> ->. Qed.

Lemma placed_meta sp r r' : placed sp r → placed sp r' → fr_metapath r = fr_metapath r' → fr_filepath r = fr_filepath r'.
Proof. intros (_ & -> & _) (_ & -> & _). apply app_inv_tail. Qed.

(** A record replaced by one that is saved. *)
Lemma saved_replace ss d rec0 rec :
  ss_inv ss → saved ss → rec0 ∈ ss_files ss → rec_key rec = rec_key rec0 →
  Forall (λ ck, is_meta (ck_filepath ck) = false) (fr_checkpoints rec) →
  quiet (ss_storage_path ss) (ss_files ss) (ss_disk ss) d →
  saved (update_rec (set_ss_disk ss (ss_write_metadata d rec).1) rec).
Proof.
  intros Hi Hs Hin Hk Hc Hq. pose proof (saved_disk ss d Hs Hq) as [Hd Hr Hsc Ho Hpr]. cbn in Hd, Hr, Hsc, Ho, Hpr.
  rewrite !Forall_forall in Hr Hsc Hpr. assert (Hpl : placed (ss_storage_path ss) rec) by (eapply placed_key; [by apply Hr|done|done]).
  rewrite (write_metadata_works (ss_storage_path ss)); [done..|].
  assert (Hall : ∀ r, r ∈ ss_files (update_rec (set_ss_disk ss d) rec) → r = rec ∨ (r ∈ ss_files ss ∧ fr_metapath r ≠ fr_metapath rec)).
  { intros r Hr'. cbn in Hr'. apply list_elem_of_In, in_map_iff in Hr' as (r0 & <- & Hr0). apply list_elem_of_In in Hr0.
    case_decide as Hid; [by left|]. right. split; [done|]. intros Hm. apply Hid.
    assert (Hp : fr_filepath r0 = fr_filepath rec0).
    { unfold rec_key in Hk. injection Hk as _ _ _ Hkm _. eapply placed_meta; [by apply Hr|by apply Hr|congruence]. }
    assert (r0 = rec0) as -> by (by eapply (NoDup_key_inj fr_filepath); [apply (inv_paths _ Hi)|..]).
    unfold rec_key in Hk. congruence. }
  cbn [fst]. split.
  - eapply works_same; [|exact Hd]. done.
  - rewrite Forall_forall. intros r [->|[Hr' _]]%Hall; [done|by apply Hr].
  - rewrite Forall_forall. intros r [->|[Hr' Hne]]%Hall; unfold sidecar_of; cbn.
    + by rewrite lookup_insert_eq.
    + rewrite lookup_insert_ne; [done|]. by apply Hsc.
  - intros p. cbn -[update_rec]. intros Hp. destruct (decide (p = fr_metapath rec)) as [->|Hne].
    + right. destruct Hpl as ((flat & Hfn & _ & Hfp) & Hm & _). rewrite Hm Hfp -!app_assoc. apply hidden_in, sidecar_name; auto.
    + rewrite lookup_insert_ne in Hp; [done|]. destruct (Ho p Hp) as [Hx|Hx]; [left|by right].
      pose proof (update_rec_keys (set_ss_disk ss d) rec rec0 (inv_ids _ Hi) Hin Hk) as Hkeys.
      by rewrite (keys_paths _ _ Hkeys).
  - rewrite Forall_forall. assert (Hold : ∀ r, r ∈ ss_files ss → is_Some (<[fr_metapath rec := unlines (metadata_lines rec)]> (dk_files d) !! fr_filepath r) ∧
      fr_filepath r ∉ dk_dirs d).
    { intros r Hr'. destruct (Hpr r Hr') as [Hx Hdir]. split; [|done].
      destruct (decide (fr_filepath r = fr_metapath rec)) as [->|Hne]; [by rewrite lookup_insert_eq|by rewrite lookup_insert_ne]. }
    intros r [->|[Hr' _]]%Hall; [|by apply Hold]. unfold rec_key in Hk. injection Hk as _ _ -> _ _. by apply Hold.
Qed.

Lemma saved_touch ss d rec0 rec u m now :
  ss_inv ss → saved ss → rec0 ∈ ss_files ss → rec_key rec = rec_key rec0 →
  Forall (λ ck, is_meta (ck_filepath ck) = false) (fr_checkpoints rec) →
  quiet (ss_storage_path ss) (ss_files ss) (ss_disk ss) d →
  saved (ss_touch_file_metadata (set_ss_disk ss d) rec u m now).
Proof.
  intros Hi Hs Hin Hk Hc Hq. unfold ss_touch_file_metadata. change (ss_disk (set_ss_disk ss d)) with d.
  pose proof (saved_replace ss d rec0 (touch_record rec u m now) Hi Hs Hin) as H.
  rewrite touch_record_key touch_record_ckpts in H. specialize (H Hk Hc Hq).
  by destruct (ss_write_metadata d _).
Qed.

(** *** Snapshots *)

Lemma is_meta_tail a t : "."%char ∉ t → 5 <= length t → is_meta (a ++ t) = false.
Proof.
  intros Ht Hl. apply not_true_iff_false. intros [front Hf]%ends_with_split. apply Ht.
  assert (Hlen : length a + length t = length front + 5) by (rewrite -!length_app Hf length_app; done).
  assert (Hat : (a ++ t) !! length front = Some "."%char) by by rewrite Hf lookup_app_r // Nat.sub_diag.
  rewrite lookup_app_r in Hat; [lia|]. by eapply list_elem_of_lookup_2.
Qed.

Lemma sanitize_no_dot tag n : "."%char ∉ ss_sanitize_tag tag n.
Proof.
  unfold ss_sanitize_tag. assert (Hout : "."%char ∉ @nil ascii) by apply not_elem_of_nil. revert Hout. generalize (@nil ascii) as out.
  induction tag as [|c tag IH]; intros out Hout; cbn [sanitize_loop]; [done|]. case_decide; [|done]. apply IH.
  intros [?|Hc%list_elem_of_singleton]%elem_of_app; [done|]. destruct (isalnum c || _ || _) eqn:Ha.
  - subst c. vm_compute in Ha. done.
  - by destruct (negb _).
Qed.

Lemma snapshot_hidden n sp name now tag path :
  length name < MAX_FILENAME_LENGTH → "."%char ∉ tag →
  build_path MAX_PATH_LENGTH sp (fit (MAX_FILENAME_LENGTH + MAX_TAG_LENGTH + n) (name ++ $".ckpt_" ++ to_dec now ++ $"_" ++ tag)) = Some path →
  is_meta path = false ∧ hidden sp path ∧ fit MAX_PATH_LENGTH path = path.
Proof.
  intros Hl Htag Hb. pose proof (build_path_Some _ _ _ _ Hb) as [-> Hlen]. clear Hb.
  assert (Hcut : ∃ t, fit (MAX_FILENAME_LENGTH + MAX_TAG_LENGTH + n) (name ++ $".ckpt_" ++ to_dec now ++ $"_" ++ tag) =
                      name ++ $".ckpt_" ++ t ∧ ("."%char ∉ t)).
  { exists (take (MAX_FILENAME_LENGTH + MAX_TAG_LENGTH + n - 1 - length name - 6) (to_dec now ++ $"_" ++ tag)). split.
    - unfold fit, MAX_TAG_LENGTH. rewrite take_app_ge; [lia|]. rewrite take_app_ge; [cbn [length String.list_ascii_of_string]; lia|]. f_equal.
    - intros Hx%elem_of_take_l. rewrite !elem_of_app in Hx. destruct Hx as [Hx|[Hx|Hx]]; [by apply to_dec_no in Hx| |done].
      by apply list_elem_of_singleton in Hx. }
  destruct Hcut as (t & Heq & Ht). rewrite Heq in Hlen |- *. split_and!.
  - assert (Hsp : sp ++ [c_slash] ++ name ++ $".ckpt_" ++ t = (sp ++ [c_slash] ++ name ++ $".") ++ $"ckpt_" ++ t) by by rewrite -!app_assoc.
    rewrite Hsp. apply is_meta_tail; [|rewrite length_app; cbn [length String.list_ascii_of_string]; lia]. intros [Hx|Hx]%elem_of_app; [|done]. revert Hx. vmd.
  - apply hidden_in, snapshot_name.
  - by apply fit_short.
Qed.

(** ** Clients *)

Section steps.
Context (ss : StorageServer) (Hi : ss_inv ss) (Hs : saved ss).

Abbreviation quiet_here := (quiet (ss_storage_path ss) (ss_files ss)).

Lemma rec_placed rec : rec ∈ ss_files ss → placed (ss_storage_path ss) rec.
Proof. intros Hin. by eapply Forall_forall; [apply (sv_recs _ Hs)|]. Qed.

(** Nothing that does not look like a document is one. *)
Lemma not_doc p : doc_path p = false → p ∉ map fr_filepath (ss_files ss).
Proof.
  intros Hp Hin. apply list_elem_of_In, in_map_iff in Hin as (r & <- & Hr). apply list_elem_of_In in Hr.
  pose proof (ro_doc _ (rec_in ss r Hi Hr)). congruence.
Qed.

Lemma no_fault d : quiet_here (ss_disk ss) d → ∀ p, dk_fault d p = NoFault.
Proof. intros Hq. rewrite (proj2 (qt_same _ _ _ _ Hq)). apply (sv_disk _ Hs). Qed.

Lemma copy_here d src p d' b :
  quiet_here (ss_disk ss) d → ss_copy_file d src p = (d', b) → is_meta p = false →
  p ∈ map fr_filepath (ss_files ss) ∨ hidden (ss_storage_path ss) p → quiet_here (ss_disk ss) d'.
Proof. intros Hq Hc Hm Hp. etrans; [exact Hq|]. eapply quiet_copy; [by apply no_fault|done..]. Qed.

(** The paths of a record that handlers write to. *)
Lemma doc_writable rec : rec ∈ ss_files ss →
  is_meta (fr_filepath rec) = false ∧ (fr_filepath rec ∈ map fr_filepath (ss_files ss) ∨ hidden (ss_storage_path ss) (fr_filepath rec)).
Proof.
  intros Hin. split; [by apply is_meta_doc, ro_doc, (rec_in ss)|]. left. by apply (list_elem_of_fmap_2 fr_filepath).
Qed.

Lemma undo_writable rec : rec ∈ ss_files ss →
  is_meta (fr_undopath rec) = false ∧ (fr_undopath rec ∈ map fr_filepath (ss_files ss) ∨ hidden (ss_storage_path ss) (fr_undopath rec)).
Proof.
  intros Hin. destruct (rec_placed rec Hin) as ((flat & Hne & _ & Hp) & _ & -> & _). split; [apply is_meta_undo|].
  right. rewrite Hp -!app_assoc. apply hidden_in, sidecar_name; auto.
Qed.

Lemma touched rec d u m now :
  rec ∈ ss_files ss → quiet_here (ss_disk ss) d → saved (ss_touch_file_metadata (set_ss_disk ss d) rec u m now).
Proof. intros Hin Hq. by eapply saved_touch; [..|apply rec_placed|]. Qed.

Lemma touched_here rec u m now : rec ∈ ss_files ss → saved (ss_touch_file_metadata ss rec u m now).
Proof. intros Hin. rewrite -{1}(set_ss_disk_id ss). by apply touched. Qed.

Lemma with_file_saved fd name user allowed refusal k :
  (∀ rec, rec ∈ ss_files ss → saved (k rec).1) → saved (with_file ss fd name user allowed refusal k).1.
Proof.
  intros Hk. unfold with_file. destruct (ss_find_file ss name) as [rec|] eqn:Hf; [|done].
  apply find_file_Some in Hf as [Hin _]. case_match; [by apply Hk|done].
Qed.

Lemma read_saved fd msg now : saved (handle_client_read ss fd msg now).1.
Proof.
  unfold handle_client_read. case_decide; [done|]. apply with_file_saved. intros rec Hin. case_match; [by apply touched_here|done].
Qed.

Lemma stream_saved fd msg now : saved (handle_client_stream ss fd msg now).1.
Proof.
  unfold handle_client_stream. case_decide; [done|]. apply with_file_saved. intros rec Hin. case_match; [by apply touched_here|done].
Qed.

Lemma list_saved fd msg now : saved (handle_client_listcheckpoints ss fd msg now).1.
Proof. unfold handle_client_listcheckpoints. case_decide; [done|]. apply with_file_saved. intros rec Hin. by apply touched_here. Qed.

Lemma view_saved fd msg now : saved (handle_client_viewcheckpoint ss fd msg now).1.
Proof.
  unfold handle_client_viewcheckpoint. case_decide; [done|]. case_match; [|done]. apply with_file_saved. intros rec Hin.
  repeat case_match; try done. by apply touched_here.
Qed.

(** Locks and edits concern the sessions only. *)
Lemma lock_saved fd msg : saved (handle_client_write_lock ss fd msg).1.
Proof.
  apply (saved_same ss); [done|..];
    unfold handle_client_write_lock, write_lock_begin, write_lock_commit, ss_abort_session, ss_detach_session, ss_create_session;
    by repeat (case_match || case_decide || simplify_eq/=).
Qed.

Lemma data_saved fd msg : saved (handle_client_write_data ss fd msg).1.
Proof. apply (saved_same ss); [done|..]; unfold handle_client_write_data; by repeat (case_match || case_decide || simplify_eq/=). Qed.

Lemma etirw_saved fd now : saved (handle_client_etirw ss fd now).1.
Proof.
  unfold handle_client_etirw. destruct (etirw_begin ss fd) as [|[[id start] stop]]; [done|].
  destruct (deref ss id) as [rec|] eqn:Hde; [|done]. apply deref_Some in Hde as [Hin _].
  destruct (ss_find_session ss fd) as [s|]; [|done]. unfold etirw_commit.
  destruct (ss_read_file_content _ _) as [text|]; [|done]. case_decide; [done|].
  destruct (undo_writable rec Hin) as [Hu1 Hu2]. destruct (doc_writable rec Hin) as [Hd1 Hd2].
  destruct (ss_write_file_content _ (fr_undopath rec) _) as [d b] eqn:Hw.
  pose proof (quiet_write _ _ _ _ _ _ _ Hw Hu1 Hu2) as Hq. destruct b; [|by apply saved_disk].
  destruct (ss_write_file_content d _ _) as [d2 b2] eqn:Hw2.
  pose proof (quiet_write _ _ _ _ _ _ _ Hw2 Hd1 Hd2) as Hq2. assert (Hq3 : quiet_here (ss_disk ss) d2) by by etrans.
  destruct b2; [|by apply saved_disk]. cbn [fst].
  apply (saved_same (ss_touch_file_metadata (set_ss_disk ss d2) (with_undo rec 1) (Some (ws_username s)) true now));
    [|reflexivity..]. eapply saved_touch; [done|done|exact Hin|done|by apply (rec_placed rec)|done].
Qed.

Lemma undo_saved fd msg now : saved (handle_client_undo ss fd msg now).1.
Proof.
  unfold handle_client_undo. case_decide; [done|]. apply with_file_saved. intros rec Hin. case_match; [done|]. case_match; [done|].
  case_match; [|done]. destruct (doc_writable rec Hin) as [Hd1 Hd2].
  destruct (ss_write_file_content _ _ _) as [d b] eqn:Hw. pose proof (quiet_write _ _ _ _ _ _ _ Hw Hd1 Hd2) as Hq.
  destruct b; [|by apply saved_disk]. eapply saved_touch; [done|done|exact Hin|done|by apply (rec_placed rec)|done].
Qed.

Lemma revert_saved fd msg now : saved (handle_client_revert ss fd msg now).1.
Proof.
  unfold handle_client_revert. case_decide; [done|]. case_match; [|done]. apply with_file_saved. intros rec Hin. case_match; [done|].
  destruct (ss_find_checkpoint rec _) as [ck|]; [|done]. case_match; [done|].
  destruct (undo_writable rec Hin) as [Hu1 Hu2]. destruct (doc_writable rec Hin) as [Hd1 Hd2].
  destruct (ss_copy_file (ss_disk ss) _ _) as [d1 b1] eqn:Hc1. pose proof (copy_here _ _ _ _ _ (reflexivity _) Hc1 Hu1 Hu2) as Hq1.
  destruct b1; [|by apply saved_disk]. destruct (ss_copy_file d1 _ _) as [d2 b2] eqn:Hc2.
  pose proof (copy_here _ _ _ _ _ Hq1 Hc2 Hd1 Hd2) as Hq.
  destruct b2.
  - eapply saved_touch; [done|done|exact Hin|done|by apply (rec_placed rec)|done].
  - destruct (ss_copy_file d2 _ _) as [d3 b3] eqn:Hc3. apply saved_disk; [done|]. by eapply copy_here.
Qed.

Lemma prune_saved rec d d' rec' :
  rec ∈ ss_files ss → ss_prune_oldest_checkpoint d rec = (d', rec') →
  quiet_here d d' ∧ rec_key rec' = rec_key rec ∧ Forall (λ ck, is_meta (ck_filepath ck) = false) (fr_checkpoints rec').
Proof.
  intros Hin. destruct (rec_placed rec Hin) as (_ & _ & _ & Hck). unfold ss_prune_oldest_checkpoint.
  destruct (fr_checkpoints rec) as [|old rest] eqn:Hc; intros H; simplify_eq; [by rewrite Hc|].
  apply Forall_cons in Hck as [Hold Hrest]. split; [|done]. pose proof (ro_ckpts _ (rec_in ss rec Hi Hin)) as Hno.
  rewrite Hc in Hno. apply Forall_cons in Hno as [Hno _]. destruct (ck_filepath old); [done|]. by apply quiet_unlink, not_doc.
Qed.

Lemma checkpoint_saved fd msg now : saved (handle_client_checkpoint ss fd msg now).1.
Proof.
  unfold handle_client_checkpoint. case_decide; [done|]. destruct (tag_copy _) as [tg|]; [|done]. apply with_file_saved. intros rec Hin.
  pose proof (rec_in ss rec Hi Hin) as Hok. case_match; [done|]. destruct (ss_find_checkpoint rec _); [done|].
  destruct (build_path _ _ _) as [path|] eqn:Hb; [|done]. set (tag := match ss_sanitize_tag _ _ with [] => _ | _ => _ end) in Hb.
  assert (Htag : "."%char ∉ tag).
  { unfold tag. pose proof (sanitize_no_dot tg MAX_TAG_LENGTH). case_match; [vmd|done]. }
  clearbody tag. destruct (snapshot_hidden _ _ _ _ _ _ (ro_name _ Hok) Htag Hb) as (Hm & Hh & Hfit).
  assert (Hnd : doc_path path = false) by (eapply ckpt_path_sidecar; [apply (ro_name _ Hok)| |exact Hb]; apply Nat.leb_le; vmd).
  destruct (ss_copy_file (ss_disk ss) _ path) as [d b] eqn:Hc. pose proof (copy_here _ _ _ _ _ (reflexivity _) Hc Hm (or_intror Hh)) as Hq.
  destruct b; [|apply saved_disk; [done|etrans; [exact Hq|by apply quiet_unlink, not_doc]]].
  destruct (if decide _ then _ else _) as [d2 rec2] eqn:Hpr.
  assert (Hp2 : quiet_here d d2 ∧ rec_key rec2 = rec_key rec ∧ Forall (λ ck, is_meta (ck_filepath ck) = false) (fr_checkpoints rec2)).
  { case_decide; [by eapply prune_saved|]. simplify_eq. split; [done|]. split; [done|]. by apply rec_placed. }
  destruct Hp2 as (Hq2 & Hk2 & Hc2). eapply saved_touch; [done|done|exact Hin| | |by etrans].
  - by rewrite -Hk2.
  - apply Forall_app. split; [done|]. apply Forall_singleton. cbn. by rewrite Hfit.
Qed.

Lemma abort_saved fd : saved (ss_abort_session ss fd).
Proof. by apply (saved_same ss). Qed.

Lemma client_turn_saved fd raw now : saved (client_thread_turn ss fd raw now).1.
Proof.
  destruct raw as [raw|]; [|apply abort_saved]. unfold client_thread_turn, client_message.
  destruct (protocol_parse_message raw) as [|cmd msg]; [done|].
  destruct (streq cmd ($"REQ_READ")); [apply read_saved|].
  destruct (streq cmd ($"REQ_STREAM")); [apply stream_saved|].
  destruct (streq cmd ($"REQ_WRITE_LOCK")); [apply lock_saved|].
  destruct (streq cmd ($"WRITE_DATA")); [apply data_saved|].
  destruct (streq cmd ($"ETIRW")); [apply etirw_saved|].
  destruct (streq cmd ($"REQ_UNDO")); [apply undo_saved|].
  destruct (streq cmd ($"REQ_CHECKPOINT")); [apply checkpoint_saved|].
  destruct (streq cmd ($"REQ_VIEWCHECKPOINT")); [apply view_saved|].
  destruct (streq cmd ($"REQ_REVERT")); [apply revert_saved|].
  destruct (streq cmd ($"REQ_LIST_CHECKPOINTS")); [apply list_saved|done].
Qed.
End steps.
