(* ===== verification/SSSavedNs.v ===== *)
(** * Commands of the name server keep the files up to date

    The other half of the invariant of [SSSaved]: creation, deletion, renaming,
    access lists and copies. *)
From S2P Require Import Prelude CStr Utils Protocol Disk Sentences SSAcl SSFiles SSState SSClient SSControl SSInv SSInvClient SSInvControl SSLocks SSSaved.

(** ** New records *)

(** The path of a document is that of its flattened name. *)
Definition doc_file (ss : StorageServer) (filename : cstr) : cstr :=
  ss_storage_path ss ++ [c_slash] ++ map flat_char filename.

Lemma strneq_refl n s : strneq n s s = true.
Proof. by apply bool_decide_eq_true. Qed.

Lemma build_path_short sp s : length (sp ++ [c_slash] ++ s) < MAX_PATH_LENGTH →
  path_or_empty (build_path MAX_PATH_LENGTH sp s) = sp ++ [c_slash] ++ s.
Proof. intros H. unfold build_path. rewrite decide_False; [lia|done]. Qed.

(** The paths of the record of a new document. *)
Lemma new_paths ss id filename :
  length filename < MAX_FILENAME_LENGTH → length (doc_file ss filename) + 8 < MAX_PATH_LENGTH →
  let rec := ss_init_file_record (ss_storage_path ss) id filename in
  fr_filepath rec = doc_file ss filename ∧ fr_undopath rec = doc_file ss filename ++ SS_UNDO_SUFFIX ∧
  fr_metapath rec = doc_file ss filename ++ SS_META_SUFFIX ∧ fr_filename rec = filename ∧ fr_id rec = id ∧
  fr_checkpoints rec = [].
Proof.
  unfold doc_file. intros Hl Hp. cbv zeta. unfold ss_init_file_record, ss_set_record_paths.
  rewrite flatten_spec decide_True; [done|]. rewrite (fit_short _ filename Hl).
  cbn [fr_filepath fr_undopath fr_metapath fr_filename fr_id fr_checkpoints with_paths].
  assert (Hs : ∀ suffix, length suffix = 5 → fit (MAX_FILENAME_LENGTH + 8) (map flat_char filename ++ suffix) =
                                        map flat_char filename ++ suffix).
  { intros suffix H5. apply fit_short. rewrite length_app length_map. lia. }
  rewrite !Hs; [done..|]. assert (Hb : ∀ suffix, length suffix <= 5 →
    path_or_empty (build_path MAX_PATH_LENGTH (ss_storage_path ss) (map flat_char filename ++ suffix)) =
    (ss_storage_path ss ++ [c_slash] ++ map flat_char filename) ++ suffix).
  { intros suffix H5. rewrite build_path_short -?app_assoc; [rewrite !length_app in Hp |- *; lia|done]. }
  rewrite !Hb; [apply Nat.le_refl..|]. split; [|done].
  pose proof (Hb [] (Nat.le_0_l 5)) as H0. by rewrite !app_nil_r in H0.
Qed.

(** The record that [ss_create_file] adds. *)
Definition stamped (r0 : FileRecord) (owner : cstr) (now : Z) : FileRecord :=
  with_acl (with_undo (with_last_access (with_modified (with_created (with_last_user (with_owner r0 owner) owner) now)
    now) now) 0) [] [].

Lemma stamped_fields r0 owner now :
  rec_key (stamped r0 owner now) = rec_key r0 ∧ fr_owner (stamped r0 owner now) = owner ∧
  fr_checkpoints (stamped r0 owner now) = fr_checkpoints r0.
Proof. done. Qed.

Lemma create_written ss filename owner now :
  ss_find_file ss filename = None → length owner < MAX_USERNAME_LENGTH →
  let rec := stamped (ss_init_file_record (ss_storage_path ss) (ss_next_id ss) filename) owner now in
  can_create (ss_disk ss) (fr_filepath rec) = true → dk_fault (ss_disk ss) (fr_filepath rec) = NoFault →
  ss_create_file ss filename owner now =
    (set_ss_files
       (set_ss_disk (set_ss_next ss (S (ss_next_id ss)))
          (ss_write_metadata (set_files (ss_disk ss) (<[fr_filepath rec := []]> (dk_files (ss_disk ss)))) rec).1)
       (rec :: ss_files ss), true).
Proof.
  intros Hf Ho. cbv zeta. intros Hc Hn. unfold ss_create_file. rewrite Hf (fit_short _ owner Ho). cbv zeta.
  fold (stamped (ss_init_file_record (ss_storage_path ss) (ss_next_id ss) filename) owner now).
  cbn [ss_disk set_ss_next]. rewrite (write_file_good _ _ _ Hc Hn). by destruct (ss_write_metadata _ _).
Qed.

Lemma create_refused ss filename owner now :
  ss_find_file ss filename = None → length owner < MAX_USERNAME_LENGTH →
  let rec := stamped (ss_init_file_record (ss_storage_path ss) (ss_next_id ss) filename) owner now in
  can_create (ss_disk ss) (fr_filepath rec) = false →
  ss_create_file ss filename owner now = (set_ss_next ss (S (ss_next_id ss)), false).
Proof.
  intros Hf Ho. cbv zeta. intros Hc. unfold ss_create_file. rewrite Hf (fit_short _ owner Ho). cbv zeta.
  fold (stamped (ss_init_file_record (ss_storage_path ss) (ss_next_id ss) filename) owner now).
  cbn [ss_disk set_ss_next]. by rewrite (write_file_cannot _ _ _ Hc).
Qed.

Section steps.
Context (ss : StorageServer) (Hi : ss_inv ss) (Hs : saved ss).

Abbreviation quiet_here := (quiet (ss_storage_path ss) (ss_files ss)).

(** ** Access lists *)

(** A name that was added is taken out again. *)
Lemma add_then_remove entries user entries' r :
  length user < MAX_USERNAME_LENGTH → ss_acl_contains entries user = false → ss_acl_add entries user = (entries', r) →
  (0 < r)%Z → (ss_acl_remove entries' user).1 = entries.
Proof.
  intros Hu Hc. unfold ss_acl_add. rewrite Hc. case_decide; [by intros [= <- <-]|].
  rewrite safe_strcpy_short; [done|]. intros [= <- <-] _. unfold ss_acl_remove.
  assert (Hf : findb (same_user user) (entries ++ [user]) = Some (length entries)).
  { clear Hu H. induction entries as [|e entries IH]; cbn [app findb length].
    - unfold same_user, strneq. by rewrite bool_decide_eq_true_2.
    - unfold ss_acl_contains in Hc. cbn [existsb] in Hc. apply orb_false_iff in Hc as [-> Hc]. by rewrite IH. }
  rewrite Hf. cbn [fst]. unfold swap_remove. rewrite last_snoc insert_app_r_alt; [lia|].
  rewrite Nat.sub_diag length_app Nat.add_sub. by apply take_app_length.
Qed.

(** A failed addition leaves the list as it was. *)
Lemma add_if_effect want entries user readers added failed :
  length user < MAX_USERNAME_LENGTH →
  add_if want (ss_acl_contains entries user) entries user = (readers, added, failed) →
  (added = false → readers = entries) ∧ remove_if added readers user = entries ∧ (failed = true → added = false).
Proof.
  intros Hu. unfold add_if. destruct (ss_acl_contains entries user) eqn:Hc; rewrite ?andb_false_r ?andb_true_r.
  { by intros [= <- <- <-]. }
  destruct want; cbn [andb negb]; [|by intros [= <- <- <-]].
  destruct (ss_acl_add entries user) as [entries' r] eqn:Ha. destruct (r <? 0)%Z eqn:Hr; intros [= <- <- <-].
  - unfold ss_acl_add in Ha. rewrite Hc in Ha. case_decide; [by simplify_eq|].
    rewrite safe_strcpy_short in Ha; [done|]. by simplify_eq.
  - destruct (0 <? r)%Z eqn:Hp.
    + split; [done|]. split; [|done]. cbn. eapply add_then_remove; [done|done|exact Ha|lia].
    + unfold ss_acl_add in Ha. rewrite Hc in Ha. case_decide; [by simplify_eq|].
      rewrite safe_strcpy_short in Ha; [done|]. by simplify_eq.
Qed.

(** A record stored as it was. *)
Lemma stored_back rec d : rec ∈ ss_files ss → saved (set_ss_disk ss d) → saved (update_rec (set_ss_disk ss d) rec).
Proof.
  intros Hin Hsd. apply (saved_same (set_ss_disk ss d)); [done|done| |done]. cbn.
  rewrite -{2}(map_id (ss_files ss)). apply map_ext_in. intros r Hr. apply list_elem_of_In in Hr.
  case_decide as Hid; [|done]. symmetry. by eapply (NoDup_key_inj fr_id); [apply (inv_ids _ Hi)|..].
Qed.

Lemma with_acl_same rec : with_acl rec (fr_read_users rec) (fr_write_users rec) = rec.
Proof. by destruct rec. Qed.

Lemma acl_stored rec readers writers : rec ∈ ss_files ss →
  let '(d, written) := ss_write_metadata (ss_disk ss) (with_acl rec readers writers) in
  written = true ∧ saved (update_rec (set_ss_disk ss d) (with_acl rec readers writers)).
Proof.
  intros Hin. pose proof (rec_placed ss Hs rec Hin) as Hpl.
  pose proof (saved_replace ss (ss_disk ss) rec (with_acl rec readers writers) Hi Hs Hin eq_refl) as H.
  specialize (H ltac:(apply Hpl) ltac:(done)).
  pose proof (write_metadata_works (ss_storage_path ss) _ (with_acl rec readers writers) (sv_disk _ Hs) Hpl) as Hw.
  rewrite Hw in H |- *. by split.
Qed.

Lemma add_access_saved msg : length (field msg 2) < MAX_USERNAME_LENGTH → saved (ns_add_access ss msg).1.
Proof.
  intros Hu. unfold ns_add_access. case_decide; [done|]. destruct (ss_find_file ss _) as [rec|] eqn:Hf; [|done].
  apply find_file_Some in Hf as [Hin _]. destruct (permission_flags _) as [wr ww]. case_match; [done|].
  destruct (add_if wr _ _ _) as [[readers ar] fr0] eqn:Hr. destruct (add_if (negb fr0 && ww) _ _ _) as [[writers aw] fw] eqn:Hw.
  apply add_if_effect in Hr as (Hr1 & Hr2 & Hr3); [|done]. apply add_if_effect in Hw as (Hw1 & Hw2 & Hw3); [|done].
  rewrite Hr2 Hw2 with_acl_same. destruct (fr0 || fw) eqn:Hfail; cbn [negb andb orb].
  { apply stored_back; [done|]. by rewrite set_ss_disk_id. }
  destruct (ar || aw) eqn:Hadd.
  - pose proof (acl_stored rec readers writers Hin) as Hst. destruct (ss_write_metadata _ _) as [d written]. by destruct Hst as [-> ?].
  - apply orb_false_iff in Hadd as [-> ->]. rewrite Hr1 // Hw1 // with_acl_same. apply stored_back; [done|]. by rewrite set_ss_disk_id.
Qed.

Lemma remove_access_saved msg : saved (ns_remove_access ss msg).1.
Proof.
  unfold ns_remove_access. case_decide; [done|]. destruct (ss_find_file ss _) as [rec|] eqn:Hf; [|done].
  apply find_file_Some in Hf as [Hin _]. destruct (ss_acl_remove _ _) as [readers rr]. destruct (ss_acl_remove _ _) as [writers rw].
  case_match; [done|]. pose proof (acl_stored rec readers writers Hin) as Hst.
  destruct (ss_write_metadata _ _) as [d written]. by destruct Hst as [-> ?].
Qed.

(** ** Copying *)

(** Quiet but for one path, which may hold anything until it is removed. *)
Record quiet_but (t : cstr) (d d' : Disk) : Prop := {
  qb_same : dk_dirs d' = dk_dirs d ∧ dk_fault d' = dk_fault d;
  qb_meta : ∀ p, is_meta p = true → dk_files d' !! p = dk_files d !! p;
  qb_docs : ∀ p, p ≠ t → is_Some (dk_files d' !! p) →
    is_Some (dk_files d !! p) ∨ p ∈ map fr_filepath (ss_files ss) ∨ hidden (ss_storage_path ss) p;
  qb_kept : ∀ p, p ∈ map fr_filepath (ss_files ss) → is_Some (dk_files d !! p) → is_Some (dk_files d' !! p)
}.

#[local] Instance quiet_but_preorder t : PreOrder (quiet_but t).
Proof.
  split; [by split; [|done|left|]|]. intros d1 d2 d3 [[H1 H2] H3 H4 H5] [[K1 K2] K3 K4 K5].
  split; [split; congruence| | |auto].
  - intros p Hp. by rewrite K3 ?H3.
  - intros p Hpt [Hp|Hp]%K4; [by apply H4|by right|done].
Qed.

Lemma quiet_is_but t d d' : quiet_here d d' → quiet_but t d d'.
Proof. intros []. split; [done|done| |done]. intros p _. auto. Qed.

Lemma but_is_quiet t d d' : quiet_but t d d' → dk_files d' !! t = None → quiet_here d d'.
Proof. intros [] Hn. split; [done|done| |done]. intros p Hp. apply qb_docs0; [|done]. intros ->. rewrite Hn in Hp. by destruct Hp. Qed.

Lemma but_at t d d' :
  is_meta t = false → t ∉ map fr_filepath (ss_files ss) → dk_dirs d' = dk_dirs d ∧ dk_fault d' = dk_fault d →
  (∀ q, q ≠ t → dk_files d' !! q = dk_files d !! q) → quiet_but t d d'.
Proof.
  intros Hm Ht Hsame Hne. split; [done| | |by intros p Hp; rewrite Hne; [congruence|]].
  - intros p Hp. apply Hne. congruence.
  - intros p Hp Hq. left. by rewrite -(Hne p Hp).
Qed.

Lemma remote_but t d peer d' r :
  is_meta t = false → t ∉ map fr_filepath (ss_files ss) → copy_remote d t peer = (d', r) → quiet_but t d d'.
Proof.
  intros Hm Ht Hc. pose proof (copy_remote_effect _ _ _ _ _ Hc) as [Hf Hd]. apply but_at; [done|done| |done]. split; [|done].
  unfold copy_remote in Hc. repeat (case_match; [by simplify_eq|]). destruct (write_file d t []) as [d1 w] eqn:Hw.
  apply write_file_same in Hw as [Hw _]. destruct w; [by simplify_eq| |];
    destruct (copy_stream _ _ _ _) as [data|]; simplify_eq; try (by rewrite (proj1 (unlink_same _ _)));
    cbn; destruct (write_file d1 t data) as [d2 w2] eqn:Hw2; apply write_file_same in Hw2 as [Hw2 _]; cbn; congruence.
Qed.

Lemma rename_keeps d t p d' b q :
  rename d t p = (d', b) → q ≠ t → is_Some (dk_files d !! q) → is_Some (dk_files d' !! q).
Proof.
  unfold rename. intros H Hq Hx. repeat case_match; simplify_eq; try done. cbn.
  destruct (decide (q = p)) as [->|Hne]; [by rewrite lookup_insert_eq|by rewrite lookup_insert_ne ?lookup_delete_ne].
Qed.

(** The temporary file takes the place of the document. *)
Lemma rename_but t p d d' b :
  t ∉ map fr_filepath (ss_files ss) → is_meta t = false → is_meta p = false → p ∈ map fr_filepath (ss_files ss) → rename d t p = (d', b) → quiet_but t d d'.
Proof.
  intros Hno Ht Hp Hin Hr. pose proof (rename_effect _ _ _ _ _ Hr) as [Hf Hd]. split.
  - split; [|done]. unfold rename in Hr. by repeat case_match; simplify_eq.
  - intros q Hq. apply Hd; congruence.
  - intros q Hq Hx. destruct (decide (q = p)) as [->|Hqp]; [by right; left|]. left. by rewrite -(Hd q Hq Hqp).
  - intros q Hq. eapply rename_keeps; [exact Hr|congruence].
Qed.

Lemma rename_gone d t p d' : rename d t p = (d', true) → t ≠ p → dk_files d' !! t = None.
Proof. unfold rename. intros H Hne. repeat case_match; simplify_eq. cbn. rewrite lookup_insert_ne; [done|]. apply lookup_delete_eq. Qed.

Lemma copy_content_saved dest_rec src_rec user peer now :
  dest_rec ∈ ss_files ss → saved (copy_content ss dest_rec src_rec user peer now).1.
Proof.
  intros Hin. unfold copy_content. pose proof (rec_in _ _ Hi Hin) as Hok. pose proof (rec_placed ss Hs _ Hin) as Hpl.
  set (temp := fit _ _). set (d0 := unlink (ss_disk ss) temp).
  assert (Htemp : temp = fr_filepath dest_rec ++ $".copytmp").
  { unfold temp. apply fit_short. rewrite length_app. pose proof (ro_short _ Hok). cbn. lia. }
  assert (Hm : is_meta temp = false).
  { rewrite Htemp. change ($".copytmp") with ($".co" ++ $"pytmp"). rewrite app_assoc. by apply is_meta_app. }
  assert (Hne : temp ≠ fr_filepath dest_rec).
  { rewrite Htemp -{2}(app_nil_r (fr_filepath dest_rec)). by intros ?%app_inv_head. }
  assert (Hno : temp ∉ map fr_filepath (ss_files ss)) by (rewrite Htemp; apply not_doc, doc_path_copytmp; done).
  assert (Hq0 : quiet_but temp (ss_disk ss) d0) by by apply quiet_is_but, quiet_unlink.
  destruct (doc_writable ss Hi dest_rec Hin) as [Hdm _]. pose proof (list_elem_of_fmap_2 fr_filepath _ _ Hin) as Hdin.
  destruct (match src_rec with Some _ => _ | None => _ end) as [d1 f1] eqn:Hd1.
  assert (Hq1 : quiet_but temp (ss_disk ss) d1).
  { etrans; [exact Hq0|]. destruct src_rec as [src|].
    - destruct (ss_copy_file d0 _ temp) as [d2 b] eqn:Hc. assert (d1 = d2) as -> by (by destruct b; simplify_eq).
      apply but_at; [done|done|by eapply ss_copy_file_same|]. intros q Hq. by eapply ss_copy_file_ne.
    - destruct (copy_remote d0 temp peer) as [d2 r] eqn:Hc. assert (d1 = d2) as -> by (by destruct r; simplify_eq).
      by eapply remote_but. }
  clear Hd1. destruct (match f1 with Some _ => _ | None => _ end) as [d2 f2] eqn:Hd2.
  assert (Hq2 : quiet_but temp (ss_disk ss) d2 ∧ (f2 = None → dk_files d2 !! temp = None)).
  { destruct f1; [by simplify_eq|]. destruct (rename d1 temp _) as [d3 b] eqn:Hr.
    assert (d2 = d3) as -> by (by destruct b; simplify_eq). split; [etrans; [exact Hq1|by eapply rename_but]|].
    destruct b; simplify_eq; [|done]. intros _. by eapply rename_gone. }
  destruct Hq2 as [Hq2 Hgone]. destruct f2 as [[code m]|].
  - apply saved_disk; [done|]. apply (but_is_quiet temp); [etrans; [exact Hq2|by apply quiet_is_but, quiet_unlink]|].
    apply unlink_gone. rewrite (proj2 (qb_same _ _ _ Hq2)). apply (sv_disk _ Hs).
  - eapply saved_touch; [done|done|exact Hin|done|apply Hpl|]. apply (but_is_quiet temp); auto.
Qed.

Lemma copy_saved msg peer now : saved (handle_ss_copy ss msg peer now).1.
Proof.
  unfold handle_ss_copy. case_decide; [done|]. case_match; [done|].
  destruct (streq _ _) eqn:Hl; cbn; repeat (case_match; try done).
  all: apply copy_content_saved.
  all: by match goal with H : ss_find_file _ _ = Some ?r |- ?r ∈ _ => apply find_file_Some in H as [? _] end.
Qed.

(** ** Deleting *)

Lemma unlink_all_quiet cks d :
  Forall (λ ck, is_meta (ck_filepath ck) = false) cks → Forall (λ ck, doc_path (ck_filepath ck) = false) cks →
  quiet_here d (foldl (λ d ck, match ck_filepath ck with [] => d | path => unlink d path end) d cks).
Proof.
  intros H. revert d. induction H as [|ck cks Hck _ IH]; intros d; cbn; [done|]. intros [Hno Hnos]%Forall_cons.
  transitivity (match ck_filepath ck with [] => d | path => unlink d path end); [|exact (IH _ Hnos)].
  destruct (ck_filepath ck); [done|]. by apply quiet_unlink, not_doc.
Qed.

Lemma unlink_all_sub cks d p :
  is_Some (dk_files (foldl (λ d ck, match ck_filepath ck with [] => d | path => unlink d path end) d cks) !! p) →
  is_Some (dk_files d !! p).
Proof.
  revert d. induction cks as [|ck cks IH]; intros d; cbn; [done|]. intros H%IH. destruct (ck_filepath ck); [done|].
  by eapply unlink_sub.
Qed.

Lemma delete_saved name : saved (ss_delete_file ss name).1.
Proof.
  unfold ss_delete_file. destruct (ss_find_file ss name) as [node|] eqn:Hf; [|done].
  destruct (ss_file_has_active_writers ss node); [done|]. cbn [fst].
  pose proof (find_file_Some _ _ _ Hf) as [Hin _]. pose proof (rec_placed ss Hs node Hin) as Hpl. destruct Hpl as (_ & Hm & Hu & Hck).
  set (d0 := unlink (ss_disk ss) (fr_filepath node)). set (d1 := unlink d0 (fr_metapath node)). set (d2 := unlink d1 (fr_undopath node)).
  pose proof (rec_in ss node Hi Hin) as Hok. pose proof (unlink_all_quiet _ d2 Hck (ro_ckpts _ Hok)) as Hq3. set (d3 := foldl _ d2 _) in *.
  assert (Hq2 : quiet_here d1 d3) by (etrans; [|exact Hq3]; apply quiet_unlink; [rewrite Hu; apply is_meta_undo|apply not_doc, Hok; done]).
  pose proof (is_meta_doc _ (ro_doc _ Hok)) as Hnm. pose proof (unlink_same (ss_disk ss) (fr_filepath node)) as Hs0. fold d0 in Hs0.
  pose proof (remove_firstb_sublist (same_name name) (ss_files ss)) as Hsub.
  assert (Hrest : ∀ r, r ∈ remove_firstb (same_name name) (ss_files ss) → r ∈ ss_files ss ∧ fr_filepath r ≠ fr_filepath node).
  { intros r Hr. split; [by eapply sublist_elem|]. intros Heq.
    pose proof (inv_paths _ Hi) as Hnd. revert Hnd Hf Hr Heq. unfold ss_find_file. generalize (ss_files ss) as l. clear.
    intros l. induction l as [|x l IH]; cbn; [done|]. intros [Hx Hnd]%NoDup_cons Hf Hr Heq. destruct (same_name name x); simplify_eq.
    - apply Hx. rewrite -Heq. by apply (list_elem_of_fmap_2 fr_filepath).
    - apply elem_of_cons in Hr as [->|Hr]; [|by apply IH]. apply firstb_elem in Hf as [Hn _]. apply Hx. rewrite Heq.
      by apply (list_elem_of_fmap_2 fr_filepath). }
  split; cbn [ss_files ss_disk ss_storage_path set_ss_files set_ss_disk].
  - eapply works_same; [|apply (sv_disk _ Hs)]. pose proof (qt_same _ _ _ _ Hq2) as [H1 H2].
    pose proof (unlink_same d0 (fr_metapath node)) as [K1 K2]. fold d1 in K1, K2. split; [rewrite H1 K1|rewrite H2 K2]; by apply Hs0.
  - rewrite Forall_forall. intros r [Hr _]%Hrest. by apply rec_placed.
  - rewrite Forall_forall. intros r [Hr Hne]%Hrest. pose proof (sv_sidecars _ Hs) as Hall. rewrite Forall_forall in Hall.
    pose proof (Hall r Hr) as Hsc. unfold sidecar_of in *. destruct (rec_placed ss Hs r Hr) as (_ & Hrm & _).
    rewrite (qt_meta _ _ _ _ Hq2); [rewrite Hrm; apply is_meta_self|]. unfold d1. rewrite unlink_ne.
    + rewrite Hrm Hm. by intros ?%app_inv_tail.
    + unfold d0. rewrite unlink_ne; [|done]. intros Heq. rewrite -Heq Hrm is_meta_self in Hnm. done.
  - intros p Hp. apply (unlink_all_sub (fr_checkpoints node)), unlink_sub, unlink_sub in Hp.
    destruct (decide (p = fr_filepath node)) as [->|Hne].
    { unfold d0 in Hp. rewrite unlink_gone in Hp; [apply (sv_disk _ Hs)|]. by destruct Hp. }
    apply unlink_sub in Hp. destruct (sv_docs _ Hs p Hp) as [Hfp|]; [left|by right].
    apply list_elem_of_In, in_map_iff in Hfp as (r & <- & Hr). apply list_elem_of_In in Hr. apply (list_elem_of_fmap_2 fr_filepath).
    eapply remove_elem_id; [apply Hi|exact Hf|done|]. intros Hid. apply Hne. f_equal.
    by eapply (NoDup_key_inj fr_id); [apply (inv_ids _ Hi)|..].
  - rewrite Forall_forall. intros r [Hr Hne]%Hrest. pose proof (sv_present _ Hs) as Hall. rewrite Forall_forall in Hall.
    destruct (Hall r Hr) as [Hx Hdir]. pose proof (unlink_same d0 (fr_metapath node)) as [K1 _]. fold d1 in K1. split.
    + apply (qt_kept _ _ _ _ Hq2); [by apply (list_elem_of_fmap_2 fr_filepath)|]. unfold d1, d0. rewrite unlink_ne; [|rewrite unlink_ne; done].
      intros Heq. pose proof (ro_doc _ (rec_in ss r Hi Hr)) as Hd. rewrite Heq (ro_meta _ Hok) in Hd. done.
    + by rewrite (proj1 (qt_same _ _ _ _ Hq2)) K1 (proj1 Hs0).
Qed.

(** ** Creating *)

Lemma sidecar_hidden flat suffix :
  flat ≠ [] → suffix = SS_META_SUFFIX ∨ suffix = SS_UNDO_SUFFIX →
  hidden (ss_storage_path ss) ((ss_storage_path ss ++ [c_slash] ++ flat) ++ suffix).
Proof. intros Hf Hsuf. rewrite -!app_assoc. by apply hidden_in, sidecar_name. Qed.

Lemma insert_present d p data fs :
  Forall (λ r, is_Some (dk_files d !! fr_filepath r) ∧ fr_filepath r ∉ dk_dirs d) fs →
  Forall (λ r, is_Some (dk_files (set_files d (<[p := data]> (dk_files d))) !! fr_filepath r) ∧
    fr_filepath r ∉ dk_dirs (set_files d (<[p := data]> (dk_files d)))) fs.
Proof.
  intros H. eapply Forall_impl; [exact H|]. intros r [Hx Hdir]. split; [|done]. cbn.
  destruct (decide (fr_filepath r = p)) as [->|Hne]; [by rewrite lookup_insert_eq|by rewrite lookup_insert_ne].
Qed.

Lemma can_create_not_dir d p : can_create d p = true → p ∉ dk_dirs d.
Proof. unfold can_create. intros [[[_ _]%andb_prop Hd]%andb_prop _]%andb_prop. by apply negb_true_iff, bool_decide_eq_false in Hd. Qed.

(** A new record whose files are written. *)
Lemma saved_cons rec d :
  placed (ss_storage_path ss) rec → doc_path (fr_filepath rec) = true → fr_filepath rec ∉ map fr_filepath (ss_files ss) →
  dk_dirs d = dk_dirs (ss_disk ss) ∧ dk_fault d = dk_fault (ss_disk ss) →
  (∀ p, p ≠ fr_filepath rec → dk_files d !! p = dk_files (ss_disk ss) !! p) →
  is_Some (dk_files d !! fr_filepath rec) → fr_filepath rec ∉ dk_dirs d →
  saved (set_ss_files (set_ss_disk (set_ss_next ss (S (ss_next_id ss))) (ss_write_metadata d rec).1) (rec :: ss_files ss)).
Proof.
  intros Hpl Hdoc Hfresh Hsame Hd Hnew Hnewd. pose proof (works_same _ _ _ Hsame (sv_disk _ Hs)) as Hw.
  rewrite (write_metadata_works (ss_storage_path ss)); [done..|]. cbn [fst].
  split; cbn [ss_files ss_disk ss_storage_path set_ss_files set_ss_disk set_ss_next].
  - by eapply works_same; [|exact Hw].
  - apply Forall_cons. split; [done|apply Hs].
  - apply Forall_cons. split; [by unfold sidecar_of; cbn; rewrite lookup_insert_eq|]. rewrite Forall_forall. intros r Hr.
    pose proof (rec_placed ss Hs r Hr) as Hplr. pose proof (sv_sidecars _ Hs) as Hall. rewrite Forall_forall in Hall.
    unfold sidecar_of. cbn. rewrite lookup_insert_ne.
    + intros Hm. apply Hfresh. rewrite (placed_meta _ _ _ Hpl Hplr Hm). by apply (list_elem_of_fmap_2 fr_filepath).
    + rewrite Hd; [|by apply Hall]. apply is_meta_doc in Hdoc. destruct Hplr as (_ & -> & _). intros Hp.
      rewrite -Hp is_meta_self in Hdoc. done.
  - intros p. cbn. destruct (decide (p = fr_metapath rec)) as [->|Hm].
    { intros _. right. destruct Hpl as ((flat & Hfn & _ & Hfp) & Hm & _). rewrite Hm Hfp. apply sidecar_hidden; auto. }
    rewrite lookup_insert_ne; [done|]. destruct (decide (p = fr_filepath rec)) as [->|Hp]; [by left; left|].
    rewrite Hd; [done|]. intros [Hx|Hx]%(sv_docs _ Hs); [left; by right|by right].
  - apply insert_present. apply Forall_cons. split; [done|]. pose proof (sv_present _ Hs) as Hall. rewrite !Forall_forall in Hall |- *.
    intros r Hr. destruct (Hall r Hr). rewrite Hd ?(proj1 Hsame) //.
    intros Heq. apply Hfresh. rewrite -Heq. by apply (list_elem_of_fmap_2 fr_filepath).
Qed.

Lemma create_saved name owner now :
  name ≠ [] → length name < MAX_FILENAME_LENGTH → length owner < MAX_USERNAME_LENGTH → create_safe ss name →
  saved (ss_create_file ss name owner now).1.
Proof.
  intros Hne Hl Ho Hsafe. destruct (ss_find_file ss name) eqn:Hf; [by unfold ss_create_file; rewrite Hf|].
  unfold create_safe in Hsafe. rewrite flatten_spec decide_True in Hsafe; [done|]. destruct Hsafe as (Hdoc & Hlen & Hfresh).
  change (ss_storage_path ss ++ [c_slash] ++ map flat_char name) with (doc_file ss name) in *.
  destruct (new_paths ss (ss_next_id ss) name Hl Hlen) as (Hp & Hu & Hm & _ & _ & Hnock).
  pose proof (create_written ss name owner now Hf Ho) as Hgood. pose proof (create_refused ss name owner now Hf Ho) as Hbad.
  cbv zeta in Hgood, Hbad.
  pose proof (stamped_fields (ss_init_file_record (ss_storage_path ss) (ss_next_id ss) name) owner now) as (Hk & _ & Hck).
  rewrite Hnock in Hck. revert Hgood Hbad Hk Hck.
  generalize (stamped (ss_init_file_record (ss_storage_path ss) (ss_next_id ss) name) owner now) as rec.
  intros rec Hgood Hbad Hk Hck. unfold rec_key in Hk. rewrite Hp Hu Hm in Hk. injection Hk as _ _ Hp' Hm' Hu'. rewrite Hp' in Hgood, Hbad.
  destruct (can_create (ss_disk ss) (doc_file ss name)) eqn:Hc.
  - rewrite (Hgood eq_refl (proj1 (sv_disk _ Hs) _)). cbn [fst]. apply saved_cons; rewrite ?Hp'; try done.
    + split; [|by rewrite Hm' Hu' Hp' Hck]. exists (map flat_char name). split; [by destruct name|]. split; [apply flatten_no_slash|done].
    + intros p Hpp. cbn. by rewrite lookup_insert_ne.
    + cbn. by rewrite lookup_insert_eq.
    + cbn. by eapply can_create_not_dir.
  - rewrite (Hbad eq_refl). by apply (saved_same ss).
Qed.

(** ** Renaming *)

(** A record that gets a new place, where its sidecar is written. *)
Lemma saved_rekey rec rec' d :
  rec ∈ ss_files ss → fr_id rec' = fr_id rec → placed (ss_storage_path ss) rec' →
  fr_filepath rec' ∉ map fr_filepath (ss_files ss) →
  dk_dirs d = dk_dirs (ss_disk ss) ∧ dk_fault d = dk_fault (ss_disk ss) →
  (∀ r, r ∈ ss_files ss → r ≠ rec → dk_files d !! fr_metapath r = dk_files (ss_disk ss) !! fr_metapath r) →
  (∀ p, is_Some (dk_files d !! p) → p = fr_filepath rec' ∨ hidden (ss_storage_path ss) p ∨
     (p ≠ fr_filepath rec ∧ is_Some (dk_files (ss_disk ss) !! p))) →
  is_Some (dk_files d !! fr_filepath rec') → fr_filepath rec' ∉ dk_dirs d →
  (∀ r, r ∈ ss_files ss → r ≠ rec → is_Some (dk_files (ss_disk ss) !! fr_filepath r) → is_Some (dk_files d !! fr_filepath r)) →
  saved (update_rec (set_ss_disk ss (ss_write_metadata d rec').1) rec').
Proof.
  intros Hin Hid Hpl Hfresh Hsame Hmeta Hdocs Hnew Hnewd Hkept. pose proof (works_same _ _ _ Hsame (sv_disk _ Hs)) as Hw.
  rewrite (write_metadata_works (ss_storage_path ss)); [done..|]. cbn [fst].
  set (u r := if decide (fr_id r = fr_id rec') then rec' else r).
  assert (Hu : ∀ r, r ∈ ss_files ss → (u r = r ∧ r ≠ rec) ∨ (u r = rec' ∧ r = rec)).
  { intros r Hr. unfold u. case_decide as Hr'; [right|left; split; [done|congruence]].
    split; [done|]. eapply (NoDup_key_inj fr_id); [apply (inv_ids _ Hi)|done|done|congruence]. }
  assert (Hfs : ∀ r, r ∈ map u (ss_files ss) → r = rec' ∨ (r ∈ ss_files ss ∧ r ≠ rec)).
  { intros r Hr. apply list_elem_of_In, in_map_iff in Hr as (r0 & <- & Hr0). apply list_elem_of_In in Hr0.
    destruct (Hu r0 Hr0) as [[-> ?]|[-> _]]; auto. }
  split; cbn [update_rec ss_files ss_disk ss_storage_path set_ss_files set_ss_disk]; fold u.
  - by eapply works_same; [|exact Hw].
  - rewrite Forall_forall. intros r [->|[Hr _]]%Hfs; [done|by apply rec_placed].
  - rewrite Forall_forall. intros r [->|[Hr Hne]]%Hfs; unfold sidecar_of; cbn; [by rewrite lookup_insert_eq|].
    rewrite lookup_insert_ne.
    + intros Hm. apply Hfresh. rewrite (placed_meta _ _ _ Hpl (rec_placed ss Hs r Hr) Hm). by apply (list_elem_of_fmap_2 fr_filepath).
    + rewrite Hmeta; [done..|]. pose proof (sv_sidecars _ Hs) as Hall. rewrite Forall_forall in Hall. by apply Hall.
  - intros p. cbn. destruct (decide (p = fr_metapath rec')) as [->|Hm].
    { intros _. right. destruct Hpl as ((flat & Hfn & _ & Hfp) & Hm & _). rewrite Hm Hfp. apply sidecar_hidden; auto. }
    rewrite lookup_insert_ne; [done|]. intros [->|[Hh|[Hp Hx]]]%Hdocs; [left|by right|].
    + apply list_elem_of_In, in_map_iff. exists rec'. split; [done|]. apply list_elem_of_In, list_elem_of_In, in_map_iff.
      exists rec. split; [|by apply list_elem_of_In]. by destruct (Hu rec Hin) as [[_ ?]|[-> _]].
    + destruct (sv_docs _ Hs p Hx) as [Hfp|]; [left|by right].
      apply list_elem_of_In, in_map_iff in Hfp as (r & <- & Hr). apply list_elem_of_In in Hr.
      apply list_elem_of_In, in_map_iff. exists r. split; [done|]. apply in_map_iff. exists r. split; [|by apply list_elem_of_In].
      destruct (Hu r Hr) as [[-> _]|[_ ->]]; [done|]. by destruct Hp.
  - apply insert_present. pose proof (sv_present _ Hs) as Hall. rewrite !Forall_forall in Hall |- *.
    intros r [->|[Hr Hne]]%Hfs; [done|]. destruct (Hall r Hr). rewrite (proj1 Hsame). auto.
Qed.

Lemma doc_ne_suffix p q suffix : doc_path p = true → p = q ++ suffix → suffix = SS_META_SUFFIX ∨ suffix = SS_UNDO_SUFFIX → False.
Proof. intros Hp -> [-> | ->]; [by rewrite doc_path_meta in Hp|by rewrite doc_path_undo in Hp]. Qed.

Lemma rename_dirs d old new d' b : rename d old new = (d', b) → dk_dirs d' = dk_dirs d.
Proof. unfold rename. intros H. by repeat case_match; simplify_eq. Qed.

Lemma rename_some d old new d' b p :
  rename d old new = (d', b) → is_Some (dk_files d' !! p) → p = new ∨ is_Some (dk_files d !! p).
Proof.
  unfold rename. intros H. repeat case_match; simplify_eq; try by right. cbn. destruct (decide (p = new)) as [->|Hn]; [by left|].
  rewrite lookup_insert_ne; [done|]. intros [x Hx%lookup_delete_Some]. right. exists x. apply Hx.
Qed.

(** What three renames leave of the paths on disk. *)
Lemma moved_some new_logical new_flat rec rec2 d1 d2 d3 p :
  renamed ss new_logical new_flat rec rec2 d1 d2 d3 → is_Some (dk_files d3 !! p) →
  p = fr_undopath rec2 ∨ p = fr_metapath rec2 ∨ p = fr_filepath rec2 ∨
  (p ≠ fr_filepath rec ∧ is_Some (dk_files (ss_disk ss) !! p)).
Proof.
  intros [Hin _ _ _ _ _ _ H1 [b2 H2] [b3 H3] Hfree] Hp.
  destruct (rename_some _ _ _ _ _ p H3 Hp) as [->|Hp2]; [by left|].
  destruct (rename_some _ _ _ _ _ p H2 Hp2) as [->|Hp1]; [auto|].
  destruct (rename_some _ _ _ _ _ p H1 Hp1) as [->|Hp0]; [auto|]. do 3 right. split; [|done]. intros ->.
  rewrite (rename_gone _ _ _ _ H1) in Hp1; [|by destruct Hp1].
  intros Heq. apply Hfree. rewrite -Heq. by apply (list_elem_of_fmap_2 fr_filepath).
Qed.

(** A document stays unless it is the one that moves. *)
Lemma moved_keeps new_logical new_flat rec rec2 d1 d2 d3 p :
  renamed ss new_logical new_flat rec rec2 d1 d2 d3 → doc_path p = true →
  is_Some (dk_files d1 !! p) → is_Some (dk_files d3 !! p).
Proof.
  intros [_ _ _ _ _ _ _ _ [b2 H2] [b3 H3] _] Hp Hx.
  eapply rename_keeps; [exact H3|intros Heq; exact (doc_ne_suffix _ _ _ Hp Heq (or_intror eq_refl))|].
  eapply rename_keeps; [exact H2|intros Heq; exact (doc_ne_suffix _ _ _ Hp Heq (or_introl eq_refl))|done].
Qed.

(** The sidecars of the other documents stay as they are. *)
Lemma moved_meta new_logical new_flat rec rec2 d1 d2 d3 r :
  renamed ss new_logical new_flat rec rec2 d1 d2 d3 → doc_path (fr_filepath rec2) = true →
  r ∈ ss_files ss → r ≠ rec → dk_files d3 !! fr_metapath r = dk_files (ss_disk ss) !! fr_metapath r.
Proof.
  intros [Hin _ _ _ Hm Hu _ H1 [b2 H2] [b3 H3] Hfree] Hdoc Hr Hne.
  apply rename_effect in H1 as [_ Hd1], H2 as [_ Hd2], H3 as [_ Hd3].
  destruct (rec_placed ss Hs r Hr) as (_ & -> & _). rewrite Hm in Hd2. rewrite Hu in Hd3.
  assert (Hpr : fr_filepath r ≠ fr_filepath rec) by (intros ?; apply Hne; by eapply (NoDup_key_inj fr_filepath); [apply (inv_paths _ Hi)|..]).
  assert (Hpn : fr_filepath r ≠ fr_filepath rec2) by (intros Heq; apply Hfree; rewrite -Heq; by apply (list_elem_of_fmap_2 fr_filepath)).
  pose proof (is_meta_self (fr_filepath r)). pose proof (is_meta_undo (fr_filepath rec)). pose proof (is_meta_undo (fr_filepath rec2)).
  pose proof (is_meta_doc _ Hdoc). pose proof (is_meta_doc _ (ro_doc _ (rec_in _ _ Hi Hin))).
  rewrite Hd3; [congruence..|]. rewrite Hd2; [by intros ?%app_inv_tail..|]. apply Hd1; congruence.
Qed.

Lemma moved_mount new_logical new_flat rec rec2 d1 d2 d3 :
  renamed ss new_logical new_flat rec rec2 d1 d2 d3 →
  dk_dirs d3 = dk_dirs (ss_disk ss) ∧ dk_fault d3 = dk_fault (ss_disk ss) ∧ fr_filepath rec2 ∉ dk_dirs d3.
Proof.
  intros [_ _ _ _ _ _ _ H1 [b2 H2] [b3 H3] _].
  rewrite (rename_dirs _ _ _ _ _ H3) (rename_dirs _ _ _ _ _ H2) (rename_dirs _ _ _ _ _ H1).
  apply rename_effect in H2 as [H2 _], H3 as [H3 _]. pose proof (rename_effect _ _ _ _ _ H1) as [Hf1 _].
  split_and!; [done|congruence|]. unfold rename in H1. repeat case_match; simplify_eq. eapply can_create_not_dir.
  by match goal with H : _ || negb (can_create _ _) = false |- _ => apply orb_false_iff in H as [_ ?%negb_false_iff] end.
Qed.

Lemma rename_saved old_logical new_logical old_flat new_flat now :
  new_logical ≠ [] → rename_safe ss new_logical new_flat →
  saved (ss_handle_rename ss old_logical new_logical old_flat new_flat now).1.
Proof.
  intros Hnl0 Hsafe. destruct (rename_outcome ss old_logical new_logical old_flat new_flat now Hi Hsafe)
    as [->|(rec & rec2 & d1 & d2 & d3 & Hrn & ->)]; [done|].
  destruct Hsafe as (Hfl & _ & Hdoc & _). apply flatten_short in Hfl as (Hflat & Hn1 & _).
  pose proof Hrn as [Hin Hid _ Hp Hm Hu Hck H1 _ _ Hfree]. rewrite -Hp in Hdoc.
  assert (Hn3 : new_flat ≠ []) by (rewrite Hflat; by destruct new_logical).
  assert (Hn4 : c_slash ∉ new_flat) by (rewrite Hflat; apply flatten_no_slash).
  destruct (rec_placed ss Hs rec Hin) as (_ & _ & _ & Hck0).
  assert (Hpl : placed (ss_storage_path ss) rec2).
  { split; [by exists new_flat|]. rewrite Hck. by split_and!. }
  destruct (moved_mount _ _ _ _ _ _ _ Hrn) as (Hdirs & Hfault & Hdir).
  apply (saved_rekey rec rec2 d3 Hin Hid Hpl Hfree); [done|by intros; eapply moved_meta|  | |done|].
  - intros p [->|[->|[->|Hx]]]%(moved_some _ _ _ _ _ _ _ _ Hrn); [right; left..|by left|auto];
      rewrite ?Hu ?Hm Hp; apply sidecar_hidden; auto.
  - pose proof (sv_present _ Hs) as Hall. rewrite Forall_forall in Hall. destruct (Hall rec Hin) as [Hx _].
    eapply moved_keeps; [exact Hrn|done|]. rewrite (rename_moves _ _ _ _ H1); [|done].
    intros Heq. apply Hfree. rewrite -Heq. by apply (list_elem_of_fmap_2 fr_filepath).
  - intros r Hr Hne Hx. eapply moved_keeps; [exact Hrn|apply ro_doc, (rec_in _ _ Hi Hr)|].
    eapply rename_keeps; [exact H1| |done]. intros ?. apply Hne. by eapply (NoDup_key_inj fr_filepath); [apply (inv_paths _ Hi)|..].
Qed.

(** ** All commands *)

(** The name server sends valid user names. *)
Definition ns_valid (msg : list cstr) : Prop :=
  field msg 0 = $"SS_ADDACCESS" → length (field msg 2) < MAX_USERNAME_LENGTH.

Lemma ns_message_saved msg peer now : ns_safe ss msg → ns_valid msg → saved (ns_message ss msg peer now).1.
Proof.
  intros [Hc Hr] Hv. unfold ns_message. destruct msg as [|cmd msg]; [done|].
  destruct (streq cmd ($"CREATE_FILE")) eqn:H1.
  { apply streq_true in H1. unfold ns_create_file. case_decide; [done|].
    destruct (negb _ || negb _) eqn:Hval; [done|]. apply orb_false_iff in Hval as [Hvf Hvu].
    apply negb_false_iff, validate_filename_spec in Hvf as (? & ? & _). apply negb_false_iff, validate_username_spec in Hvu as (_ & ? & _).
    pose proof (create_saved (field (cmd :: msg) 1) (field (cmd :: msg) 2) now) as Hsv.
    destruct (ss_create_file _ _ _ _) as [ss' b]. cbn [fst] in Hsv.
    assert (saved ss') by (apply Hsv; [done..|by apply Hc]). by destruct b. }
  destruct (streq cmd ($"DELETE_FILE")).
  { unfold ns_delete_file. case_decide; [done|]. case_match; [done|].
    pose proof (delete_saved (field (cmd :: msg) 1)) as Hsv. by destruct (ss_delete_file _ _) as [ss' []]. }
  destruct (streq cmd ($"GET_STATS")); [unfold ns_get_stats; by repeat (case_match; try done)|].
  destruct (streq cmd ($"GET_CONTENT")); [unfold ns_get_content; by repeat (case_match; try done)|].
  destruct (streq cmd ($"SS_RENAME")) eqn:H5.
  { apply streq_true in H5. unfold ns_rename. case_decide; [done|]. destruct (negb _ || negb _) eqn:Hval; [done|].
    apply orb_false_iff in Hval as [_ Hvf]. apply negb_false_iff, validate_filename_spec in Hvf as (Hne & _ & _).
    pose proof (rename_saved (field (cmd :: msg) 1) (field (cmd :: msg) 2) (field (cmd :: msg) 3) (field (cmd :: msg) 4) now Hne (Hr H5)) as Hsv.
    by destruct (ss_handle_rename _ _ _ _ _ _) as [ss' []]. }
  destruct (streq cmd ($"SS_ADDACCESS")) eqn:H6; [apply streq_true in H6; by apply add_access_saved, Hv|].
  destruct (streq cmd ($"SS_REMACCESS")); [apply remove_access_saved|].
  destruct (streq cmd ($"SS_COPY")); [apply copy_saved|done].
Qed.
End steps.
