(* ===== verification/SSGrants.v ===== *)
(** * Who may do what, at the storage server

    The rights that the records of a storage server give, and what commands do
    to them: the commands of clients nothing at all, on any disk, and each
    command of the name server only what it says, errors included. *)
From S2P Require Import Prelude CStr Utils Protocol Wire Disk Sentences SSAcl SSFiles SSState SSClient SSControl SSInv SSInvClient.

(** ** Rights *)

(** The user may read, or with [write] write, the document. *)
Definition may (r : FileRecord) (write : bool) (user : cstr) : Prop :=
  user = fr_owner r ∨ user ∈ fr_write_users r ∨ (write = false ∧ user ∈ fr_read_users r).

(** What identifies a record and gives rights on it. *)
Definition held (r : FileRecord) : nat * cstr * cstr * list cstr * list cstr :=
  (fr_id r, fr_filename r, fr_owner r, fr_read_users r, fr_write_users r).

(** With the descriptor that commands are answered on, and the next identity. *)
Definition grants (ss : StorageServer) : list (nat * cstr * cstr * list cstr * list cstr) * Z * nat :=
  (map held (ss_files ss), ss_ns_sockfd ss, ss_next_id ss).

(** Records can be told apart, and their lists are sets of short names. *)
Record tidy (ss : StorageServer) : Prop := {
  td_ids : NoDup (map fr_id (ss_files ss));
  td_next : Forall (λ r, fr_id r < ss_next_id ss) (ss_files ss);
  td_names : NoDup (map fr_filename (ss_files ss));
  td_short : Forall (λ r, length (fr_filename r) < MAX_FILENAME_LENGTH ∧ length (fr_owner r) < MAX_USERNAME_LENGTH) (ss_files ss);
  td_lists : Forall (λ r, acl_wf (fr_read_users r) ∧ acl_wf (fr_write_users r)) (ss_files ss)
}.

Lemma held_map {A} (f : FileRecord → A) (g : nat * cstr * cstr * list cstr * list cstr → A) l :
  (∀ r, f r = g (held r)) → map f l = map g (map held l).
Proof. intros Hf. rewrite map_map. by apply map_ext. Qed.

Lemma held_Forall (P : FileRecord → Prop) (Q : nat * cstr * cstr * list cstr * list cstr → Prop) l :
  (∀ r, P r ↔ Q (held r)) → Forall P l ↔ Forall Q (map held l).
Proof. intros Hf. rewrite Forall_map. split; intros H; (eapply Forall_impl; [exact H|]); intros r; apply Hf. Qed.

(** It is all in the grants. *)
Lemma tidy_same ss ss' : grants ss' = grants ss → tidy ss → tidy ss'.
Proof.
  unfold grants. intros [= Hg _ Hn] [Hi Hx Hnm Hs Hl].
  assert (Hmap : ∀ {A} (f : FileRecord → A) g, (∀ r, f r = g (held r)) → map f (ss_files ss') = map f (ss_files ss)).
  { intros A f g Hf. by rewrite !(held_map f g) // Hg. }
  assert (Hall : ∀ (P : FileRecord → Prop) Q, (∀ r, P r ↔ Q (held r)) → Forall P (ss_files ss) → Forall P (ss_files ss')).
  { intros P Q Hf. by rewrite !(held_Forall P Q) // Hg. }
  split.
  - by rewrite (Hmap _ fr_id (λ x, x.1.1.1.1)).
  - rewrite Hn. by apply (Hall _ (λ x, x.1.1.1.1 < ss_next_id ss)).
  - by rewrite (Hmap _ fr_filename (λ x, x.1.1.1.2)).
  - by apply (Hall _ (λ x, length x.1.1.1.2 < MAX_FILENAME_LENGTH ∧ length x.1.1.2 < MAX_USERNAME_LENGTH)).
  - by apply (Hall _ (λ x, acl_wf x.1.2 ∧ acl_wf x.2)).
Qed.

(** No document is new, and nobody has lost a right. *)
Definition no_less (ss ss' : StorageServer) : Prop :=
  ∀ r', r' ∈ ss_files ss' → ∃ r, r ∈ ss_files ss ∧ fr_filename r = fr_filename r' ∧ fr_owner r = fr_owner r' ∧
    ∀ write user, may r write user → may r' write user.

(** The same, but for one user and one document. *)
Definition no_less_but (name user : cstr) (ss ss' : StorageServer) : Prop :=
  ∀ r', r' ∈ ss_files ss' → ∃ r, r ∈ ss_files ss ∧ fr_filename r = fr_filename r' ∧ fr_owner r = fr_owner r' ∧
    ∀ write v, fr_filename r ≠ name ∨ v ≠ user → may r write v → may r' write v.

#[export] Instance no_less_preorder : PreOrder no_less.
Proof.
  split; [intros ss r Hr; exists r; by split_and!|]. intros s1 s2 s3 H12 H23 r3 (r2 & Hr2 & Hn2 & Ho2 & Hm2)%H23.
  destruct (H12 r2 Hr2) as (r1 & Hr1 & Hn1 & Ho1 & Hm1). exists r1. split_and!; [done|congruence|congruence|auto].
Qed.

Lemma held_may r r' write user : held r' = held r → may r write user ↔ may r' write user.
Proof. intros [= _ _ Ho Hr Hw]. unfold may. by rewrite Ho Hr Hw. Qed.

Lemma same_no_less ss ss' : grants ss' = grants ss → no_less ss ss'.
Proof.
  unfold grants. intros [= Hg _ _] r' Hr'. apply (list_elem_of_fmap_2 held) in Hr'. change (held r' ∈ map held (ss_files ss')) in Hr'.
  rewrite Hg in Hr'. apply list_elem_of_fmap in Hr' as (r & Hh & Hr). exists r.
  pose proof (λ w u, proj1 (held_may r r' w u Hh)). injection Hh as _ Hn Ho _ _. by split_and!.
Qed.

(** The checks of the handlers. *)
Lemma check_may r user :
  acl_wf (fr_read_users r) ∧ acl_wf (fr_write_users r) → length (fr_owner r) < MAX_USERNAME_LENGTH →
  user ≠ [] → length user < MAX_USERNAME_LENGTH →
  (ss_check_read_access r user = true ↔ may r false user) ∧ (ss_check_write_access r user = true ↔ may r true user).
Proof.
  intros [Hr Hw] Ho Hne Hl.
  assert (Hown : is_owner r user = true ↔ user = fr_owner r).
  { unfold is_owner. rewrite andb_true_iff negb_true_iff bool_decide_eq_false strneq_exact; [lia|lia|].
    split; [intros [_ H]; exact (eq_sym H)|intros ->; by split]. }
  unfold ss_check_read_access, ss_check_write_access, may. rewrite !orb_true_iff Hown.
  change (existsb (same_user user) (fr_read_users r)) with (ss_acl_contains (fr_read_users r) user).
  change (existsb (same_user user) (fr_write_users r)) with (ss_acl_contains (fr_write_users r) user).
  rewrite !acl_contains_spec; [by apply Hr|lia|by apply Hw|lia|]. naive_solver.
Qed.

(** ** Commands of clients *)

Section client.
Context (ss : StorageServer) (Hids : NoDup (map fr_id (ss_files ss))).

(** A record replaced by one that gives the same rights. *)
Lemma update_grants fs rec0 rec :
  NoDup (map fr_id (ss_files fs)) → rec0 ∈ ss_files fs → held rec = held rec0 → grants (update_rec fs rec) = grants fs.
Proof.
  intros Hnd Hin Hh. unfold grants, update_rec. cbn. do 2 f_equal. rewrite map_map. apply map_ext_in. intros r Hr%list_elem_of_In.
  case_decide as Hid; [|done]. rewrite Hh. f_equal. eapply (NoDup_key_inj fr_id); [exact Hnd|done..|].
  injection Hh as Hi _ _ _ _. congruence.
Qed.

Lemma touch_held rec u m now : held (touch_record rec u m now) = held rec.
Proof. unfold touch_record. by destruct u, m. Qed.

Lemma touched_grants d rec0 rec u m now :
  rec0 ∈ ss_files ss → held rec = held rec0 → grants (ss_touch_file_metadata (set_ss_disk ss d) rec u m now) = grants ss.
Proof.
  intros Hin Hh. unfold ss_touch_file_metadata. destruct (ss_write_metadata _ _) as [d' b].
  etrans; [eapply (update_grants (set_ss_disk (set_ss_disk ss d) d') rec0)|]; [done|done| |done]. by rewrite touch_held.
Qed.

Lemma touch_leaves_grants rec u m now : rec ∈ ss_files ss → grants (ss_touch_file_metadata ss rec u m now) = grants ss.
Proof.
  intros Hin. pose proof (touched_grants (ss_disk ss) rec rec u m now Hin eq_refl) as H. by destruct ss.
Qed.

Lemma with_file_grants fd name user allowed refusal k :
  (∀ rec, rec ∈ ss_files ss → grants (k rec).1 = grants ss) → grants (with_file ss fd name user allowed refusal k).1 = grants ss.
Proof.
  intros Hk. unfold with_file. destruct (ss_find_file ss name) as [rec|] eqn:Hf; [|done].
  case_match; [|done]. apply Hk. by apply firstb_elem in Hf as [? _].
Qed.

Ltac handler :=
  repeat first [ done | progress cbn [fst snd] | apply with_file_grants; intros ? ? | case_match | case_decide ]; simplify_eq;
  first [ by apply touch_leaves_grants | by eapply touched_grants ].

Lemma read_grants fd msg now : grants (handle_client_read ss fd msg now).1 = grants ss.
Proof. unfold handle_client_read. handler. Qed.

Lemma stream_grants fd msg now : grants (handle_client_stream ss fd msg now).1 = grants ss.
Proof. unfold handle_client_stream. handler. Qed.

Lemma undo_grants fd msg now : grants (handle_client_undo ss fd msg now).1 = grants ss.
Proof. unfold handle_client_undo. handler. Qed.

Lemma view_grants fd msg now : grants (handle_client_viewcheckpoint ss fd msg now).1 = grants ss.
Proof. unfold handle_client_viewcheckpoint. handler. Qed.

Lemma revert_grants fd msg now : grants (handle_client_revert ss fd msg now).1 = grants ss.
Proof. unfold handle_client_revert. handler. Qed.

Lemma list_grants fd msg now : grants (handle_client_listcheckpoints ss fd msg now).1 = grants ss.
Proof. unfold handle_client_listcheckpoints. handler. Qed.

Lemma lock_grants fd msg : grants (handle_client_write_lock ss fd msg).1 = grants ss.
Proof.
  unfold handle_client_write_lock. case_decide; [done|]. destruct (parse_int _) as [index|]; [|done]. case_match; [done|].
  unfold write_lock_begin. destruct (ss_find_file _ _) as [rec|]; [|done]. destruct (ss_check_write_access _ _); [|done].
  destruct (deref _ _) as [rec'|]; [|done]. unfold write_lock_commit.
  destruct (ss_find_session_by_sentence _ _ _); [done|]. destruct (ss_read_file_content _ _) as [text|]; [|done].
  by destruct (ss_get_sentence_bounds _ _) as [[start stop]|].
Qed.

Lemma data_grants fd msg : grants (handle_client_write_data ss fd msg).1 = grants ss.
Proof.
  unfold handle_client_write_data. case_decide; [done|]. destruct (parse_int _) as [index|]; [|done]. case_match; [done|].
  destruct (ss_find_session ss fd) as [s|]; [|done]. by destruct (ss_apply_word_edit _ _ _).
Qed.

Lemma etirw_grants fd now : grants (handle_client_etirw ss fd now).1 = grants ss.
Proof.
  unfold handle_client_etirw. destruct (etirw_begin ss fd) as [|[[id start] stop]]; [done|].
  destruct (deref ss id) as [rec|] eqn:Hde; [|done]. apply deref_Some in Hde as [Hin _].
  destruct (ss_find_session ss fd) as [s|]; [|done]. unfold etirw_commit.
  destruct (ss_read_file_content _ _) as [text|]; [|done]. case_decide; [done|].
  destruct (ss_write_file_content _ (fr_undopath rec) _) as [d []]; [|done].
  destruct (ss_write_file_content d _ _) as [d2 []]; [|done]. cbn [fst].
  exact (touched_grants d2 rec (with_undo rec 1) (Some (ws_username s)) true now Hin eq_refl).
Qed.

Lemma checkpoint_grants fd msg now : grants (handle_client_checkpoint ss fd msg now).1 = grants ss.
Proof.
  unfold handle_client_checkpoint. case_decide; [done|]. destruct (tag_copy _) as [tag|]; [|done].
  apply with_file_grants. intros rec Hr. case_match; [done|]. destruct (ss_find_checkpoint _ _); [done|].
  destruct (build_path _ _ _) as [path|]; [|done]. destruct (ss_copy_file _ _ _) as [d []]; [|done].
  destruct (if decide _ then _ else _) as [d2 rec2] eqn:Hp. cbn [fst]. apply (touched_grants _ rec); [done|].
  assert (Hh : held rec2 = held rec); [|done]. case_decide; [|by simplify_eq].
  unfold ss_prune_oldest_checkpoint in Hp. by destruct (fr_checkpoints rec); simplify_eq.
Qed.

Lemma client_grants fd raw now : grants (client_thread_turn ss fd raw now).1 = grants ss.
Proof.
  destruct raw as [raw|]; [|done]. unfold client_thread_turn, client_message.
  destruct (protocol_parse_message raw) as [|cmd msg]; [done|].
  repeat match goal with |- grants (if streq cmd ?c then _ else _).1 = _ => destruct (streq cmd c) end;
    auto using read_grants, stream_grants, undo_grants, view_grants, revert_grants, list_grants, lock_grants, data_grants,
      etirw_grants, checkpoint_grants.
Qed.

(** *** Commands of the name server that only read, or copy a text *)

Lemma copy_content_grants dest src user peer now :
  dest ∈ ss_files ss → grants (copy_content ss dest src user peer now).1 = grants ss.
Proof.
  intros Hin. unfold copy_content. destruct (match src with Some _ => _ | None => _ end) as [d f].
  destruct (match f with Some _ => _ | None => _ end) as [d2 [[code m]|]]; [done|]. by apply (touched_grants d2 dest).
Qed.

Lemma copy_grants msg peer now : grants (handle_ss_copy ss msg peer now).1 = grants ss.
Proof.
  unfold handle_ss_copy. case_decide; [done|]. destruct (negb _ || _ || _); [done|]. cbv zeta.
  destruct (negb _ && _); [done|].
  destruct (ss_find_file ss (field msg 1)) as [dest|] eqn:Hf; [|done]. apply firstb_elem in Hf as [Hin _].
  do 3 match goal with |- context [if ?b then (ss, _) else _] => destruct b; [done|] end. by apply copy_content_grants.
Qed.

Lemma stats_grants msg : grants (ns_get_stats ss msg).1 = grants ss.
Proof. unfold ns_get_stats. repeat case_match; done. Qed.

Lemma content_grants msg : grants (ns_get_content ss msg).1 = grants ss.
Proof. unfold ns_get_content. repeat case_match; done. Qed.
End client.

(** ** Commands of the name server that change rights *)

(** An answer that says that the command was refused. *)
Definition refusal (answer : list cstr) : Prop := sendable answer ∧ protocol_is_error answer = true.

Lemma error_reply ss code text : ss_send_ns_error ss code text = reply ss [$"ERR"; fit 16 (to_dec code); text].
Proof. done. Qed.

Lemma error_refusal code text : plain text → length text < 1000 → refusal [$"ERR"; fit 16 (to_dec code); text].
Proof.
  intros Hp Hl. split; [|done]. pose proof (length_fit 16 (to_dec code)).
  apply sendable_of; [done|cbn; unfold MAX_FIELDS; lia|repeat apply plain_cons; auto with plain|].
  cbn [total_length length String.list_ascii_of_string]. lia.
Qed.

(** What a command did and answered. *)
Record outcome (ss ss' : StorageServer) (answer : list cstr) : Prop := {
  oc_tidy : tidy ss';
  oc_socket : ss_ns_sockfd ss' = ss_ns_sockfd ss;
  oc_sendable : sendable answer
}.

Section control.
Context (ss : StorageServer) (Htidy : tidy ss).

Lemma tidy_file rec : rec ∈ ss_files ss →
  length (fr_filename rec) < MAX_FILENAME_LENGTH ∧ length (fr_owner rec) < MAX_USERNAME_LENGTH ∧
  acl_wf (fr_read_users rec) ∧ acl_wf (fr_write_users rec).
Proof.
  intros Hin. pose proof (td_short _ Htidy) as Hs. pose proof (td_lists _ Htidy) as Hl. rewrite Forall_forall in Hs. rewrite Forall_forall in Hl.
  destruct (Hs rec Hin), (Hl rec Hin). by split_and!.
Qed.

(** A lookup finds the record of the name. *)
Lemma tidy_find name rec : length name < MAX_FILENAME_LENGTH →
  ss_find_file ss name = Some rec → rec ∈ ss_files ss ∧ fr_filename rec = name.
Proof.
  intros Hl [Hin Hn]%firstb_elem. split; [done|]. destruct (tidy_file rec Hin) as (Hlr & _).
  unfold same_name in Hn. apply strneq_exact in Hn; [done|lia|lia].
Qed.

Lemma tidy_absent name : length name < MAX_FILENAME_LENGTH → ss_find_file ss name = None → name ∉ map fr_filename (ss_files ss).
Proof.
  intros Hl Hf%firstb_None (rec & -> & Hin)%list_elem_of_fmap. rewrite Forall_forall in Hf. specialize (Hf rec Hin).
  unfold same_name, strneq in Hf. by rewrite bool_decide_eq_true_2 in Hf.
Qed.

(** A command that is refused: nothing changed but the next identity. *)
Lemma refused_outcome ss' code text :
  plain text → length text < 1000 → ss_files ss' = ss_files ss → ss_ns_sockfd ss' = ss_ns_sockfd ss → ss_next_id ss <= ss_next_id ss' →
  ∃ answer, ss_send_ns_error ss' code text = reply ss' answer ∧ outcome ss ss' answer ∧ refusal answer ∧ no_less ss ss'.
Proof.
  intros Hp Hl Hf Hs Hn. exists [$"ERR"; fit 16 (to_dec code); text]. pose proof (error_refusal code text Hp Hl) as Hr.
  split; [done|]. split; [|split; [done|]].
  - destruct Htidy. split; [|done|apply Hr]. split; rewrite ?Hf; try done. eapply Forall_impl; [exact td_next0|]. cbn. lia.
  - intros r Hr'. rewrite Hf in Hr'. exists r. by split_and!.
Qed.

Lemma create_outcome filename owner peer now :
  validate_filename filename = true → plain filename → validate_username owner = true →
  ∃ ss' answer, ns_message ss [$"CREATE_FILE"; filename; owner] peer now = (ss', reply ss' answer) ∧ outcome ss ss' answer ∧
    ((answer = [$"OK_CREATE"; filename] ∧
      ∃ r, ss_files ss' = r :: ss_files ss ∧ fr_filename r = filename ∧ fr_owner r = owner) ∨
     (refusal answer ∧ no_less ss ss')).
Proof.
  intros Hvf Hpf Hvo. pose proof (proj1 (validate_filename_spec _) Hvf) as (_ & Hlf & _).
  pose proof (proj1 (validate_username_spec _) Hvo) as (_ & Hlo & _).
  change (ns_message ss [$"CREATE_FILE"; filename; owner] peer now) with (ns_create_file ss [$"CREATE_FILE"; filename; owner] now).
  unfold ns_create_file. case_decide as Hlen; [cbn in Hlen; lia|]. change (field _ 1) with filename. change (field _ 2) with owner.
  rewrite Hvf Hvo. cbn [negb orb]. unfold ss_create_file.
  assert (Hno : ∀ ss', ss_files ss' = ss_files ss → ss_ns_sockfd ss' = ss_ns_sockfd ss → ss_next_id ss <= ss_next_id ss' →
    ∃ answer, ss_send_ns_error ss' ERR_FILE_EXISTS ($"File already exists") = reply ss' answer ∧ outcome ss ss' answer ∧
      refusal answer ∧ no_less ss ss').
  { intros ss' H1 H2 H3. apply refused_outcome; auto with plain. cbn. lia. }
  destruct (ss_find_file ss filename) as [old|] eqn:Hf.
  { destruct (Hno ss) as (a & Ha & Ho & Hr); [done..|]. exists ss, a. rewrite Ha. auto. }
  apply tidy_absent in Hf; [|done]. cbv zeta.
  set (rec := with_acl (with_undo (with_last_access _ now) 0) [] []).
  destruct (write_file _ _ _) as [d w].
  assert (Hok : ∀ d, let ss' := set_ss_files (set_ss_disk (set_ss_next ss (S (ss_next_id ss))) d) (rec :: ss_files ss) in
    ∃ ss'' answer, (ss', reply ss' [$"OK_CREATE"; filename]) = (ss'', reply ss'' answer) ∧ outcome ss ss'' answer ∧
    ((answer = [$"OK_CREATE"; filename] ∧ ∃ r, ss_files ss'' = r :: ss_files ss ∧ fr_filename r = filename ∧ fr_owner r = owner) ∨
     (refusal answer ∧ no_less ss ss''))).
  { intros d' ss'. exists ss', [$"OK_CREATE"; filename]. split; [done|].
    assert (Hname : fr_filename rec = filename) by (cbn -[fit]; by apply fit_short).
    assert (Hown : fr_owner rec = owner) by (cbn -[fit]; by apply fit_short).
    split; [|left; split; [done|]; by exists rec]. destruct Htidy. unfold MAX_FILENAME_LENGTH in Hlf. split; [|done|sendable].
    split; cbn [ss' set_ss_files ss_files ss_next_id set_ss_disk set_ss_next map].
    - apply NoDup_cons. split; [|done]. intros (r & Hid & Hr)%list_elem_of_fmap. rewrite Forall_forall in td_next0.
      specialize (td_next0 r Hr). change (fr_id rec) with (ss_next_id ss) in Hid. lia.
    - apply Forall_cons. split; [cbn; lia|]. eapply Forall_impl; [exact td_next0|]. cbn. lia.
    - apply NoDup_cons. by rewrite Hname.
    - apply Forall_cons. by rewrite Hname Hown.
    - apply Forall_cons. split; [split; apply acl_wf_nil|done]. }
  destruct w; [|destruct (ss_write_metadata d rec) as [d2 b]; apply Hok..].
  destruct (Hno (set_ss_next ss (S (ss_next_id ss)))) as (a & Ha & Ho & Hr); [done|done|cbn; lia|].
  exists (set_ss_next ss (S (ss_next_id ss))), a. rewrite Ha. auto.
Qed.

(** *** DELETE_FILE *)

Lemma removed_first {A} (p : A → bool) l x : firstb p l = Some x → l ≡ₚ x :: remove_firstb p l.
Proof.
  induction l as [|y l IH]; cbn; [done|]. destruct (p y); [by intros [= ->]|]. intros H%IH. rewrite {1}H. constructor.
Qed.

Lemma delete_outcome name peer now :
  plain name → length name < MAX_FILENAME_LENGTH →
  ∃ ss' answer, ns_message ss [$"DELETE_FILE"; name] peer now = (ss', reply ss' answer) ∧ outcome ss ss' answer ∧ no_less ss ss' ∧
    ((answer = [$"OK_DELETE"; name] ∧ name ∉ map fr_filename (ss_files ss')) ∨ refusal answer).
Proof.
  intros Hp Hl. change (ns_message ss [$"DELETE_FILE"; name] peer now) with (ns_delete_file ss [$"DELETE_FILE"; name]).
  unfold ns_delete_file. case_decide as Hlen; [cbn in Hlen; lia|]. change (field _ 1) with name.
  assert (Hno : ∀ code text, plain text → length text < 1000 →
    ∃ ss' answer, (ss, ss_send_ns_error ss code text) = (ss', reply ss' answer) ∧ outcome ss ss' answer ∧ no_less ss ss' ∧
    ((answer = [$"OK_DELETE"; name] ∧ name ∉ map fr_filename (ss_files ss')) ∨ refusal answer)).
  { intros code text Hpt Hlt. destruct (refused_outcome ss code text) as (a & Ha & Ho & Hr & Hn); [done..|].
    exists ss, a. rewrite Ha. auto. }
  destruct (negb _); [apply Hno; [auto with plain|cbn; lia]|]. unfold ss_delete_file.
  destruct (ss_find_file ss name) as [node|] eqn:Hf; [|apply Hno; [auto with plain|cbn; lia]].
  destruct (ss_file_has_active_writers _ _); [apply Hno; [auto with plain|cbn; lia]|]. cbv zeta.
  generalize (foldl (λ d ck, match ck_filepath ck with [] => d | path => unlink d path end)
    (unlink (unlink (unlink (ss_disk ss) (fr_filepath node)) (fr_metapath node)) (fr_undopath node)) (fr_checkpoints node)) as d.
  intros d. eexists _, [$"OK_DELETE"; name]. split; [reflexivity|].
  pose proof (tidy_find _ _ Hl Hf) as [_ Hname]. pose proof (removed_first _ _ _ Hf) as Hperm.
  pose proof (remove_firstb_sublist (same_name name) (ss_files ss)) as Hsub.
  unfold MAX_FILENAME_LENGTH in Hl. split; [split; [|done|sendable]|split; [|left; split; [done|]]].
  - destruct Htidy. split; cbn.
    + eapply sublist_NoDup; [exact td_ids0|by apply sublist_map].
    + rewrite Hperm in td_next0. by apply Forall_cons in td_next0 as [_ ?].
    + eapply sublist_NoDup; [exact td_names0|by apply sublist_map].
    + rewrite Hperm in td_short0. by apply Forall_cons in td_short0 as [_ ?].
    + rewrite Hperm in td_lists0. by apply Forall_cons in td_lists0 as [_ ?].
  - intros r Hr. cbn in Hr. exists r. split; [|by split_and!]. rewrite Hperm. by right.
  - cbn. pose proof (td_names _ Htidy) as Hnd. rewrite Hperm in Hnd. cbn in Hnd. rewrite Hname in Hnd. by apply NoDup_cons in Hnd as [? _].
Qed.

(** *** Records changed in place *)

Section change.
Context (rec rec' : FileRecord) (d : Disk) (Hin : rec ∈ ss_files ss).
Context (Hsame : fr_id rec' = fr_id rec ∧ fr_filename rec' = fr_filename rec ∧ fr_owner rec' = fr_owner rec).
Context (Hlists : acl_wf (fr_read_users rec') ∧ acl_wf (fr_write_users rec')).

Abbreviation changed := (update_rec (set_ss_disk ss d) rec').

Lemma changed_elem r : r ∈ ss_files changed → r = rec' ∨ (r ∈ ss_files ss ∧ fr_filename r ≠ fr_filename rec).
Proof.
  cbn. intros (x & -> & Hx)%list_elem_of_fmap. case_decide as Hid; [by left|right]. split; [done|].
  intros Hn. apply Hid. assert (x = rec) as ->; [|by destruct Hsame].
  by eapply (NoDup_key_inj fr_filename); [apply (td_names _ Htidy)|..].
Qed.

Lemma changed_map {A} (f : FileRecord → A) : f rec' = f rec → map f (ss_files changed) = map f (ss_files ss).
Proof.
  intros Hf. cbn. rewrite map_map. apply map_ext_in. intros r Hr%list_elem_of_In. case_decide as Hid; [|done].
  rewrite Hf. f_equal. eapply (NoDup_key_inj fr_id); [apply (td_ids _ Htidy)|done..|]. destruct Hsame. congruence.
Qed.

Lemma changed_tidy : tidy changed.
Proof.
  destruct Hsame as (Hi & Hn & Ho). destruct (tidy_file rec Hin) as (Hl1 & Hl2 & _). pose proof Htidy as [Hd Hx Hnm Hs Hls].
  assert (Hall : ∀ P, Forall P (ss_files ss) → P rec' → Forall P (ss_files changed)).
  { intros P HP Hr'. apply Forall_forall. intros r [->|[Hr _]]%changed_elem; [done|]. by eapply Forall_forall in HP. }
  split.
  - by rewrite changed_map.
  - apply (Hall (λ r, fr_id r < ss_next_id ss)); [done|]. rewrite Hi. by eapply Forall_forall in Hx.
  - by rewrite changed_map.
  - apply Hall; [done|]. by rewrite Hn Ho.
  - by apply Hall.
Qed.

Lemma changed_no_less : (∀ write user, may rec write user → may rec' write user) → no_less ss changed.
Proof.
  intros Hm r [->|[Hr _]]%changed_elem; [|exists r; by split_and!]. exists rec. destruct Hsame as (_ & Hn & Ho). by split_and!.
Qed.
End change.

(** *** SS_ADDACCESS *)

Lemma acl_add_back l u : acl_wf l → length u < MAX_USERNAME_LENGTH → (u ∉ l) →
  acl_wf (ss_acl_remove (l ++ [u]) u).1 ∧ ∀ v, v ∈ (ss_acl_remove (l ++ [u]) u).1 ↔ v ∈ l.
Proof.
  intros Hl Hu Hn. pose proof (acl_add_wf l u Hl Hu) as Hwf. pose proof (acl_add_spec l u Hl Hu) as Ha.
  unfold ss_acl_remove. destruct (findb (same_user u) (l ++ [u])) as [i|] eqn:Hf.
  - apply findb_Some in Hf as (x & Hx & Hxu & _). apply lookup_app_Some in Hx as [Hx|[Hi Hx]].
    + exfalso. apply list_elem_of_lookup_2 in Hx as Hin. destruct Hl as [_ Hs _]. rewrite Forall_forall in Hs.
      apply same_user_true in Hxu as ->; [done|lia|by apply Hs].
    + destruct (i - length l) as [|k] eqn:Hk; [|by destruct k]. injection Hx as <-. assert (i = length l) as -> by lia.
      assert (Hp : swap_remove (length l) (l ++ [u]) = l).
      { unfold swap_remove. rewrite last_snoc list_insert_id; [by rewrite lookup_app_r // Nat.sub_diag|].
        rewrite length_app /= Nat.add_sub. apply take_app_length. }
      cbn [fst]. by rewrite Hp.
  - exfalso. apply findb_None in Hf. apply Forall_app in Hf as [_ Hf].
    apply Forall_cons in Hf as [Hf _]. pose proof (proj2 (same_user_true u u ltac:(lia) Hu) eq_refl) as Ht. by rewrite Ht in Hf.
Qed.

Lemma add_if_spec want l u : acl_wf l → length u < MAX_USERNAME_LENGTH →
  let '(l', added, failed) := add_if want (ss_acl_contains l u) l u in
  acl_wf l' ∧ (∀ v, v ∈ l → v ∈ l') ∧ (failed = false → want = true → u ∈ l') ∧
  acl_wf (remove_if added l' u) ∧ (∀ v, v ∈ remove_if added l' u ↔ v ∈ l).
Proof.
  intros Hl Hu. pose proof (acl_contains_spec l u (acl_short _ Hl) ltac:(lia)) as Hc. unfold add_if.
  destruct (want && negb (ss_acl_contains l u)) eqn:Hw; cbn [remove_if].
  - apply andb_true_iff in Hw as [_ Hn%negb_true_iff]. rewrite -not_true_iff_false Hc in Hn.
    pose proof (acl_add_wf l u Hl Hu) as Hwf. pose proof (acl_add_spec l u Hl Hu) as Ha.
    destruct (ss_acl_add l u) as [l' r]. destruct Ha as [(-> & _ & ->)|[(_ & Hin & _)|(-> & _ & _ & ->)]]; [|done|].
    + cbn. destruct (acl_add_back l u Hl Hu Hn) as [H1 H2]. split_and!; [done|set_solver|set_solver|done|done].
    + cbn. by split_and!.
  - split_and!; [done|done| |done|done]. intros _ ->. rewrite andb_true_l negb_false_iff Hc in Hw. done.
Qed.

Lemma grant_outcome name user token peer now :
  plain name → length name < MAX_FILENAME_LENGTH → validate_username user = true →
  ∃ ss' answer, ns_message ss [$"SS_ADDACCESS"; name; user; token] peer now = (ss', reply ss' answer) ∧
    outcome ss ss' answer ∧ no_less ss ss' ∧
    (refusal answer ∨
     ∀ r, r ∈ ss_files ss' → fr_filename r = name →
       let '(want_read, want_write) := permission_flags token in
       (want_read = true → may r false user) ∧ (want_write = true → may r false user ∧ may r true user)).
Proof.
  intros Hp Hl (_ & Hlu & _)%validate_username_spec.
  change (ns_message ss [$"SS_ADDACCESS"; name; user; token] peer now) with (ns_add_access ss [$"SS_ADDACCESS"; name; user; token]).
  unfold ns_add_access. case_decide as Hlen; [cbn in Hlen; lia|]. change (field _ 1) with name. change (field _ 2) with user.
  change (field _ 3) with token.
  assert (Hno : ∀ code text, plain text → length text < 1000 →
    ∃ ss' answer, (ss, ss_send_ns_error ss code text) = (ss', reply ss' answer) ∧ outcome ss ss' answer ∧ no_less ss ss' ∧
    (refusal answer ∨ ∀ r, r ∈ ss_files ss' → fr_filename r = name → let '(want_read, want_write) := permission_flags token in
       (want_read = true → may r false user) ∧ (want_write = true → may r false user ∧ may r true user))).
  { intros code text Hpt Hlt. destruct (refused_outcome ss code text) as (a & Ha & Ho & Hr & Hn); [done..|].
    exists ss, a. rewrite Ha. auto. }
  destruct (ss_find_file ss name) as [rec|] eqn:Hf; [|apply Hno; [auto with plain|cbn; lia]].
  destruct (tidy_find _ _ Hl Hf) as [Hin Hname]. destruct (permission_flags token) as [want_read want_write].
  destruct (negb want_read && negb want_write); [apply Hno; [auto with plain|cbn; lia]|]. clear Hno. cbv zeta.
  destruct (tidy_file rec Hin) as (_ & _ & Hrd & Hwr).
  pose proof (add_if_spec want_read _ user Hrd Hlu) as Har. destruct (add_if want_read _ _ _) as [[readers added_r] failed_r].
  destruct Har as (Hr1 & Hr2 & Hr3 & Hr4 & Hr5).
  pose proof (add_if_spec (negb failed_r && want_write) _ user Hwr Hlu) as Haw. destruct (add_if (negb failed_r && want_write) _ _ _) as [[writers added_w] failed_w].
  destruct Haw as (Hw1 & Hw2 & Hw3 & Hw4 & Hw5).
  destruct (if negb (failed_r || failed_w) && (added_r || added_w) then _ else _) as [d written].
  destruct ((failed_r || failed_w) || negb written) eqn:Hfail.
  - exists (update_rec (set_ss_disk ss d) (with_acl rec (remove_if added_r readers user) (remove_if added_w writers user))).
    eexists. split; [reflexivity|]. pose proof (error_refusal ERR_INTERNAL_ERROR ($"Failed to update ACL metadata") ltac:(auto with plain) ltac:(cbn; lia)) as Hr.
    split; [split; [by apply (changed_tidy rec)|done|apply Hr]|]. split; [|by left].
    apply (changed_no_less rec); [done..|]. unfold may. cbn. intros w u. by rewrite Hr5 Hw5.
  - rewrite !orb_false_iff negb_false_iff in Hfail. destruct Hfail as [[-> ->] ->].
    exists (update_rec (set_ss_disk ss d) (with_acl rec readers writers)), [$"OK_ACCESS_CHANGED"; name]. split; [reflexivity|].
    unfold MAX_FILENAME_LENGTH in Hl.
    split; [split; [by apply (changed_tidy rec)|done|sendable]|]. split; [|right].
    + apply (changed_no_less rec); [done..|]. unfold may. cbn. intros w u [?|[?|[-> ?]]]; auto.
    + intros r [->|[_ Hne]]%(changed_elem rec); [|congruence|done|done]. intros _. unfold may. cbn.
      split; [auto|]. intros Hww. specialize (Hw3 eq_refl). cbn in Hw3. auto.
Qed.

(** *** SS_REMACCESS *)

Lemma removed_or_listed l u : acl_wf l → length u < MAX_USERNAME_LENGTH →
  let '(l', removed) := ss_acl_remove l u in
  acl_wf l' ∧ (∀ v, v ≠ u → v ∈ l → v ∈ l') ∧
  acl_wf (if removed then (ss_acl_add l' u).1 else l') ∧ (∀ v, v ∈ (if removed then (ss_acl_add l' u).1 else l') ↔ v ∈ l).
Proof.
  intros Hl Hu. pose proof (acl_remove_wf l u Hl) as Hwf. pose proof (acl_remove_spec l u Hl Hu) as Hr.
  destruct (ss_acl_remove l u) as [l' removed]. destruct Hr as [(-> & Hin & Hp)|(-> & Hn & ->)]; [|by split_and!].
  split; [done|]. split; [intros v Hv; rewrite Hp; set_solver|]. split; [by apply acl_add_wf|].
  pose proof (acl_add_spec l' u Hwf Hu) as Ha. destruct (ss_acl_add l' u) as [l2 r]. cbn [fst]. intros v. rewrite Hp.
  destruct Ha as [(_ & _ & ->)|[(_ & Hin' & _)|(_ & _ & Hfull & _)]]; [set_solver| |].
  - pose proof (acl_nodup _ Hl) as Hnd. rewrite Hp in Hnd. by apply NoDup_cons in Hnd as [? _].
  - pose proof (acl_bound _ Hl) as Hb. rewrite Hp /= in Hb. lia.
Qed.

Lemma revoke_outcome name user peer now :
  plain name → length name < MAX_FILENAME_LENGTH → validate_username user = true →
  ∃ ss' answer, ns_message ss [$"SS_REMACCESS"; name; user] peer now = (ss', reply ss' answer) ∧ outcome ss ss' answer ∧
    ((refusal answer ∧ no_less ss ss') ∨ (answer = [$"OK_ACCESS_CHANGED"; name] ∧ no_less_but name user ss ss')).
Proof.
  intros Hp Hl (_ & Hlu & _)%validate_username_spec.
  change (ns_message ss [$"SS_REMACCESS"; name; user] peer now) with (ns_remove_access ss [$"SS_REMACCESS"; name; user]).
  unfold ns_remove_access. case_decide as Hlen; [cbn in Hlen; lia|]. change (field _ 1) with name. change (field _ 2) with user.
  assert (Hno : ∀ code text, plain text → length text < 1000 →
    ∃ ss' answer, (ss, ss_send_ns_error ss code text) = (ss', reply ss' answer) ∧ outcome ss ss' answer ∧
    ((refusal answer ∧ no_less ss ss') ∨ (answer = [$"OK_ACCESS_CHANGED"; name] ∧ no_less_but name user ss ss'))).
  { intros code text Hpt Hlt. destruct (refused_outcome ss code text) as (a & Ha & Ho & Hr & Hn); [done..|].
    exists ss, a. rewrite Ha. auto. }
  destruct (ss_find_file ss name) as [rec|] eqn:Hf; [|apply Hno; [auto with plain|cbn; lia]].
  destruct (tidy_find _ _ Hl Hf) as [Hin Hname]. destruct (tidy_file rec Hin) as (_ & _ & Hrd & Hwr).
  pose proof (removed_or_listed _ user Hrd Hlu) as Har. destruct (ss_acl_remove (fr_read_users rec) user) as [readers removed_r].
  pose proof (removed_or_listed _ user Hwr Hlu) as Haw. destruct (ss_acl_remove (fr_write_users rec) user) as [writers removed_w].
  destruct Har as (Hr1 & Hr2 & Hr3 & Hr4), Haw as (Hw1 & Hw2 & Hw3 & Hw4).
  destruct (negb removed_r && negb removed_w); [apply Hno; [auto with plain|cbn; lia]|]. clear Hno. cbv zeta.
  destruct (ss_write_metadata _ _) as [d []].
  - exists (update_rec (set_ss_disk ss d) (with_acl rec readers writers)), [$"OK_ACCESS_CHANGED"; name]. split; [done|].
    unfold MAX_FILENAME_LENGTH in Hl. split; [split; [by apply (changed_tidy rec)|done|sendable]|]. right. split; [done|].
    intros r [->|[Hr _]]%(changed_elem rec); [|exists r; by split_and!|done|done]. exists rec. split_and!; [done..|].
    intros w v [?|Hv]; [congruence|]. unfold may. cbn. intros [?|[?|[-> ?]]]; auto.
  - exists (update_rec (set_ss_disk ss d) (with_acl rec (if removed_r then (ss_acl_add readers user).1 else readers)
      (if removed_w then (ss_acl_add writers user).1 else writers))). eexists. split; [reflexivity|].
    pose proof (error_refusal ERR_INTERNAL_ERROR ($"Failed to persist ACL metadata") ltac:(auto with plain) ltac:(cbn; lia)) as Hr.
    split; [split; [by apply (changed_tidy rec)|done|apply Hr]|]. left. split; [done|].
    apply (changed_no_less rec); [done..|]. unfold may. cbn. intros w u. by rewrite Hr4 Hw4.
Qed.
End control.
