(* ===== verification/SSRestart.v ===== *)
(** * Restarting the storage server

    [ss_init] on the files that a server has left behind, whatever it did before:
    the directory listing leads it to every document, and the sidecars give it
    back every record.  The identities of the records, which stand for their
    addresses, are new. *)
From S2P Require Import Prelude CStr Utils Protocol Disk Sentences SSAcl SSFiles SSMeta SSState SSClient SSControl SSInv SSInvClient SSInvControl SSLocks SSSaved SSSavedNs.

(** ** What [readdir] returns *)

Definition entry_of (sp path : cstr) : option cstr :=
  if string_starts_with path (sp ++ [c_slash]) then
    let name := drop (length sp + 1) path in
    if bool_decide (name = []) || bool_decide (c_slash ∈ name) then None else Some name
  else None.

(** In some order. *)
Definition readdir_names (d : Disk) (sp : cstr) : list cstr :=
  elements ({[ $"."; $".." ]} ∪ list_to_set (omap (entry_of sp) (elements (dom (dk_files d) ∪ dk_dirs d))) : gset cstr).

(** ** Records without their identity *)

Definition renumber (id : nat) (r : FileRecord) : FileRecord :=
  mkFileRecord id (fr_filename r) (fr_physical_name r) (fr_filepath r) (fr_metapath r) (fr_undopath r) (fr_owner r)
    (fr_read_users r) (fr_write_users r) (fr_created r) (fr_modified r) (fr_last_access r) (fr_last_access_user r)
    (fr_undo_available r) (fr_checkpoints r).

Definition name_of (r : FileRecord) : cstr := map flat_char (fr_filename r).

(** The records that are added for the documents [rs], in this order. *)
Fixpoint loaded (id : nat) (rs acc : list FileRecord) : list FileRecord :=
  match rs with
  | [] => acc
  | r :: rs => loaded (S id) rs (renumber id r :: acc)
  end.

(** What is a document, for the server of the directory [sp]. *)
Definition is_entry (sp : cstr) (d : Disk) (name : cstr) : bool :=
  document_name name && negb (bool_decide (sp ++ [c_slash] ++ name ∈ dk_dirs d)).

(** ** The life of a server *)

(** The server comes up on the disk [d] in its storage directory [sp]. *)
Definition boots (rest : cstr * cstr) (sp : cstr) (d : Disk) (ns_ip : cstr) (ns_port : Z) (ip : cstr) (port : Z) (entries : list cstr)
    (now : Z) (ss : StorageServer) : Prop :=
  ss_build_storage_path MAX_PATH_LENGTH (strncpy_into rest.2 MAX_IP_LENGTH ip) port = Some sp ∧
  entries ≡ₚ readdir_names d sp ∧
  ss_init rest d ns_ip ns_port ip port entries now = Some ss.

(** Messages of clients and of the name server, and restarts; the disk works. *)
Inductive life_step (ss : StorageServer) : StorageServer → Prop :=
  | life_client fd raw now : life_step ss (client_thread_turn ss fd raw now).1
  | life_ns raw peer now :
      ns_safe ss (protocol_parse_message raw) → ns_valid (protocol_parse_message raw) →
      life_step ss (ns_control_turn ss (Some raw) peer now).1
  | life_restart rest ns_ip ns_port ip port entries now ss' :
      Forall (meta_ok (ss_storage_path ss)) (ss_files ss) →
      create_directory_recursive (ss_disk ss) (ss_storage_path ss) = (ss_disk ss, true) →
      boots rest (ss_storage_path ss) (ss_disk ss) ns_ip ns_port ip port entries now ss' →
      life_step ss ss'.

Record settled (ss : StorageServer) : Prop := {
  st_inv : ss_inv ss;
  st_saved : saved ss
}.

(** ** Lemmas *)

Lemma entry_of_Some sp path name :
  entry_of sp path = Some name ↔ path = sp ++ [c_slash] ++ name ∧ name ≠ [] ∧ c_slash ∉ name.
Proof.
  unfold entry_of. split.
  - destruct (string_starts_with _ _) eqn:Hs; [|done]. apply strneq_prefix in Hs as [t ->].
    rewrite -!app_assoc drop_app_ge; [lia|]. replace (length sp + 1 - length sp) with 1 by lia. cbn [drop app].
    destruct (bool_decide _ || bool_decide _) eqn:Hb; [done|]. intros [= <-].
    apply orb_false_iff in Hb as [?%bool_decide_eq_false ?%bool_decide_eq_false]. done.
  - intros (-> & Hne & Hsl). rewrite app_assoc. assert (string_starts_with ((sp ++ [c_slash]) ++ name) (sp ++ [c_slash]) = true) as ->
      by (apply strneq_prefix; by eexists).
    rewrite -app_assoc drop_app_ge; [lia|]. replace (length sp + 1 - length sp) with 1 by lia. cbn [drop app].
    by rewrite !bool_decide_eq_false_2.
Qed.

Lemma readdir_spec d sp name :
  name ∈ readdir_names d sp ↔
  name = $"." ∨ name = $".." ∨
  (name ≠ [] ∧ (c_slash ∉ name) ∧
   (is_Some (dk_files d !! (sp ++ [c_slash] ++ name)) ∨ sp ++ [c_slash] ++ name ∈ dk_dirs d)).
Proof.
  unfold readdir_names. rewrite elem_of_elements !elem_of_union !elem_of_singleton elem_of_list_to_set list_elem_of_omap.
  assert (Hx : (∃ x, x ∈ elements (dom (dk_files d) ∪ dk_dirs d) ∧ entry_of sp x = Some name) ↔
    (name ≠ [] ∧ (c_slash ∉ name) ∧
      (is_Some (dk_files d !! (sp ++ [c_slash] ++ name)) ∨ sp ++ [c_slash] ++ name ∈ dk_dirs d))).
  { split.
    - intros (x & Hx & (-> & ? & ?)%entry_of_Some). by rewrite elem_of_elements elem_of_union elem_of_dom in Hx.
    - intros (? & ? & Hx). exists (sp ++ [c_slash] ++ name). by rewrite elem_of_elements elem_of_union elem_of_dom entry_of_Some. }
  rewrite Hx. tauto.
Qed.

Lemma ends_with_suffix a n suffix : string_ends_with n suffix = true → string_ends_with (a ++ n) suffix = true.
Proof. intros [front ->]%ends_with_split. rewrite app_assoc. apply string_ends_with_app. Qed.

Lemma contains_suffix a n x : contains_sub n x = true → contains_sub (a ++ n) x = true.
Proof. intros H. induction a as [|c a IH]; [done|]. cbn [app contains_sub]. by rewrite IH orb_true_r. Qed.

Lemma document_name_spec a n :
  doc_path (a ++ n) = true → n ≠ [] → n ≠ $"." → n ≠ $".." → document_name n = true.
Proof.
  unfold doc_path. rewrite !andb_true_iff !negb_true_iff. intros Hd Hne H1 H2. unfold document_name.
  assert (Hs : ∀ suffix, string_ends_with (a ++ n) suffix = false → has_suffix n suffix = false).
  { intros suffix Hf. unfold has_suffix. destruct (string_ends_with n suffix) eqn:Hn; [|by rewrite andb_false_r].
    by rewrite (ends_with_suffix a n suffix Hn) in Hf. }
  assert (Hc : ∀ x, contains_sub (a ++ n) x = false → contains_sub n x = false).
  { intros x Hf. destruct (contains_sub n x) eqn:Hn; [|done]. by rewrite (contains_suffix a n x Hn) in Hf. }
  rewrite !Hs ?Hc; try tauto. rewrite bool_decide_eq_false_2 //.
  destruct (streq n ($".")) eqn:E1; [by apply streq_true in E1|]. by destruct (streq n ($"..")) eqn:E2; [apply streq_true in E2|].
Qed.

Lemma metadata_lines_renumber id r : metadata_lines (renumber id r) = metadata_lines r.
Proof. done. Qed.

Lemma with_paths_renumber id r a b c d e : with_paths (renumber id r) a b c d e = renumber id (with_paths r a b c d e).
Proof. done. Qed.

Lemma renumber_paths sp id r name :
  ss_set_record_paths sp (renumber id r) name = renumber id (ss_set_record_paths sp r name).
Proof. apply with_paths_renumber. Qed.

Lemma meta_ok_renumber sp id r : meta_ok sp r → meta_ok sp (renumber id r).
Proof.
  intros []. split; try assumption. cbn [fr_filename renumber]. by rewrite renumber_paths mo_paths.
Qed.

Lemma renumber_twice i j r : renumber i (renumber j r) = renumber i r.
Proof. done. Qed.

(** A property that does not depend on the identity. *)
Lemma map_renumbered {B} (f : FileRecord → B) fs :
  (∀ i r, f (renumber i r) = f r) → map f (map (renumber 0) fs) = map f fs.
Proof. intros Hf. rewrite map_map. apply map_ext. auto. Qed.

Lemma Forall_renumbered (P : FileRecord → Prop) fs fs' :
  (∀ i r, P (renumber i r) ↔ P r) → map (renumber 0) fs ≡ₚ map (renumber 0) fs' → Forall P fs' → Forall P fs.
Proof.
  intros HP Hperm H. assert (Hm : ∀ l, Forall P (map (renumber 0) l) ↔ Forall P l).
  { intros l. induction l as [|r l IH]; cbn [map]; rewrite ?Forall_nil ?Forall_cons; [done|]. by rewrite HP IH. }
  apply Hm. rewrite Hperm. by apply Hm.
Qed.

(** ** Loading the records *)

Section load.
Context (sp : cstr) (d : Disk) (old : list FileRecord).
Context (Hok : Forall rec_ok old) (Hcan : Forall (λ r, canon sp (fr_filename r) (fr_filepath r)) old).
Context (Hpl : Forall (placed sp) old) (Hside : Forall (sidecar_of d) old) (Hmeta : Forall (meta_ok sp) old).
Context (Hfault : ∀ p, dk_fault d p = NoFault).

Lemma of_old (P : FileRecord → Prop) : Forall P old → ∀ r, r ∈ old → P r.
Proof. apply Forall_forall. Qed.

Lemma old_path r : r ∈ old → fr_filepath r = sp ++ [c_slash] ++ name_of r ∧ length (fr_filename r) < MAX_FILENAME_LENGTH.
Proof.
  intros Hr. pose proof (ro_name _ (of_old _ Hok r Hr)) as Hl. destruct (of_old _ Hcan r Hr) as (flat & Hf & ->). rewrite flatten_spec decide_True in Hf; [done|]. by injection Hf as <-.
Qed.

(** Adding the record of a document that has a sidecar. *)
Lemma add_known ss r now :
  ss_storage_path ss = sp → ss_disk ss = d → r ∈ old →
  ss_add_file_record ss (name_of r) now =
  set_ss_files (set_ss_next ss (S (ss_next_id ss))) (renumber (ss_next_id ss) r :: ss_files ss).
Proof.
  intros Hsp Hd Hr. destruct (old_path r Hr) as [Hp Hl].
  assert (Hdf : doc_file ss (name_of r) = fr_filepath r).
  { unfold doc_file, name_of. rewrite (map_flat_char_id (map _ _)); [apply flatten_no_slash|]. by rewrite Hp Hsp. }
  destruct (new_paths ss (ss_next_id ss) (name_of r)) as (_ & _ & Hm & _ & Hid & _).
  { unfold name_of. by rewrite length_map. }
  { rewrite Hdf. apply ro_short, of_old; done. }
  rewrite Hdf in Hm. revert Hm Hid. unfold ss_add_file_record. cbn [ss_storage_path ss_disk set_ss_next].
  generalize (ss_init_file_record (ss_storage_path ss) (ss_next_id ss) (name_of r)) as r0. intros r0 Hm Hid.
  rewrite Hsp Hd (load_written sp d (renumber (ss_next_id ss) r) r0); [|apply Hfault|exact (of_old _ Hside r Hr)|done| |done].
  - by apply meta_ok_renumber, of_old.
  - rewrite Hm. destruct (of_old _ Hpl r Hr) as (_ & Hmp & _). symmetry. apply Hmp.
Qed.

Lemma is_entry_document ss name :
  ss_storage_path ss = sp → ss_disk ss = d → is_document_entry ss name = is_entry sp d name.
Proof.
  intros Hsp Hd. unfold is_document_entry, is_entry, document_name. rewrite Hsp Hd.
  destruct (bool_decide (_ ∈ _)); cbn [negb]; by rewrite ?andb_true_r ?andb_false_r ?andb_false_l.
Qed.

Lemma load_loop entries now ss :
  ss_storage_path ss = sp → ss_disk ss = d →
  ∀ rs, filter (λ e, is_entry sp d e) entries = map name_of rs → rs ⊆ old →
  ss_load_existing_files ss entries now =
  set_ss_files (set_ss_next ss (ss_next_id ss + length rs)) (loaded (ss_next_id ss) rs (ss_files ss)).
Proof.
  unfold ss_load_existing_files. revert ss. induction entries as [|e entries IH]; intros ss Hsp Hd rs Hrs Hin; cbn [foldl].
  - destruct rs; [|done]. cbn. rewrite Nat.add_0_r. by destruct ss.
  - rewrite (is_entry_document ss e Hsp Hd). rewrite filter_cons in Hrs. case_decide as He.
    + apply Is_true_true in He as ->. destruct rs as [|r rs]; [done|]. cbn [map] in Hrs. injection Hrs as -> Hrs.
      rewrite (add_known ss r now Hsp Hd); [set_solver|]. rewrite (IH (set_ss_files (set_ss_next ss (S (ss_next_id ss))) (renumber (ss_next_id ss) r :: ss_files ss)) Hsp Hd rs Hrs); [set_solver|].
      cbn. by rewrite Nat.add_succ_r.
    + rewrite Is_true_true in He. apply not_true_iff_false in He as ->. by apply IH.
Qed.
End load.

Lemma loaded_records id rs acc : map (renumber 0) (loaded id rs acc) ≡ₚ map (renumber 0) (rs ++ acc).
Proof.
  revert id acc. induction rs as [|r rs IH]; intros id acc; cbn [loaded]; [done|]. rewrite IH.
  change (r :: rs) with ([r] ++ rs). rewrite -app_assoc !map_app. cbn [map]. rewrite renumber_twice. solve_Permutation.
Qed.

Lemma loaded_ids id rs acc :
  NoDup (map fr_id acc) → Forall (λ r, fr_id r < id) acc →
  NoDup (map fr_id (loaded id rs acc)) ∧ Forall (λ r, fr_id r < id + length rs) (loaded id rs acc).
Proof.
  revert id acc. induction rs as [|r rs IH]; intros id acc Hn Hlt; cbn [loaded length].
  - by rewrite Nat.add_0_r.
  - rewrite Nat.add_succ_r -Nat.add_succ_l. apply IH.
    + cbn [map]. apply NoDup_cons. split; [|done]. intros (x & Hx & Hin)%list_elem_of_fmap.
      rewrite Forall_forall in Hlt. specialize (Hlt x Hin). cbn in Hx. lia.
    + apply Forall_cons. split; [cbn; lia|]. eapply Forall_impl; [exact Hlt|]. cbn. lia.
Qed.

(** ** Coming up again *)

(** The same documents under new identities, and nobody is editing. *)
Record same_documents (ss ss' : StorageServer) : Prop := {
  sd_path : ss_storage_path ss' = ss_storage_path ss;
  sd_disk : ss_disk ss' = ss_disk ss;
  sd_sessions : ss_sessions ss' = [];
  sd_records : map (renumber 0) (ss_files ss') ≡ₚ map (renumber 0) (ss_files ss);
  sd_ids : NoDup (map fr_id (ss_files ss'));
  sd_next : Forall (λ r, fr_id r < ss_next_id ss') (ss_files ss')
}.

Section settled.
Context (ss : StorageServer) (Hst : settled ss).

Abbreviation sp := (ss_storage_path ss).
Abbreviation d := (ss_disk ss).

Lemma settled_path r : r ∈ ss_files ss → fr_filepath r = sp ++ [c_slash] ++ name_of r ∧ length (fr_filename r) < MAX_FILENAME_LENGTH.
Proof. apply old_path; apply Hst. Qed.

(** The listing leads to the documents and to nothing else. *)
Lemma entry_iff name :
  name ∈ readdir_names d sp ∧ is_entry sp d name = true ↔ name ∈ map name_of (ss_files ss).
Proof.
  destruct Hst as [Hi Hs]. destruct (sv_disk _ Hs) as (_ & _ & Hdot & Hdots). rewrite readdir_spec. split.
  - intros [Hin [Hdoc Hdir]%andb_prop]. apply negb_true_iff, bool_decide_eq_false in Hdir.
    destruct Hin as [->|[->|(_ & _ & [Hx|Hx])]]; [done..| |done].
    apply (sv_docs _ Hs) in Hx as [(r & Hr & Hin)%list_elem_of_fmap|Hh]; [|by rewrite (Hh name eq_refl) in Hdoc].
    rewrite (proj1 (settled_path r Hin)) in Hr. apply app_inv_head, app_inv_head in Hr as ->. by apply (list_elem_of_fmap_2 name_of).
  - intros (r & -> & Hin)%list_elem_of_fmap. pose proof (sv_present _ Hs) as Hall. rewrite Forall_forall in Hall.
    destruct (Hall r Hin) as [Hx Hdir]. pose proof (ro_doc _ (rec_in ss r Hi Hin)) as Hdoc.
    destruct (rec_placed ss Hs r Hin) as ((flat & Hne & Hsl & Hp) & _). destruct (settled_path r Hin) as [Hp' _].
    rewrite Hp in Hp'. apply app_inv_head, app_inv_head in Hp' as ->. rewrite Hp in Hdoc, Hx, Hdir. split; [by auto 6|].
    unfold is_entry. rewrite bool_decide_eq_false_2 //. rewrite (document_name_spec (sp ++ [c_slash]) (name_of r)) //.
    + by rewrite -app_assoc.
    + intros Heq. by rewrite Heq in Hdir.
    + intros Heq. by rewrite Heq in Hdir.
Qed.

Lemma document_entries entries :
  entries ≡ₚ readdir_names d sp →
  ∃ rs, filter (λ e, is_entry sp d e) entries = map name_of rs ∧ ss_files ss ≡ₚ rs.
Proof.
  intros Hp. apply Permutation_map_inv. apply NoDup_Permutation.
  - apply NoDup_filter. rewrite Hp. apply NoDup_elements.
  - apply (NoDup_of_map (λ n, sp ++ [c_slash] ++ n)). rewrite map_map. pose proof (inv_paths _ (st_inv _ Hst)) as Hn.
    rewrite (map_ext_in _ fr_filepath); [|done]. intros r Hr. apply list_elem_of_In in Hr. by destruct (settled_path r Hr).
  - intros name. rewrite -entry_iff list_elem_of_filter Hp Is_true_true. tauto.
Qed.

Lemma restarted rest ns_ip ns_port ip port entries now :
  Forall (meta_ok sp) (ss_files ss) →
  ss_build_storage_path MAX_PATH_LENGTH (strncpy_into rest.2 MAX_IP_LENGTH ip) port = Some sp →
  create_directory_recursive d sp = (d, true) →
  entries ≡ₚ readdir_names d sp →
  ∃ ss', ss_init rest d ns_ip ns_port ip port entries now = Some ss' ∧ same_documents ss ss'.
Proof.
  intros Hm Hsp Hd Hp. destruct Hst as [Hi Hs]. destruct (document_entries entries Hp) as (rs & Hrs & Hperm).
  unfold ss_init. rewrite Hsp Hd. eexists. split; [reflexivity|]. set (ss0 := mkSS _ _ _ _ _ _ _ _ _ _ _).
  rewrite (load_loop sp d (ss_files ss) (inv_recs _ Hi) (inv_canon _ Hi) (sv_recs _ Hs) (sv_sidecars _ Hs) Hm (proj1 (sv_disk _ Hs))
    entries now ss0 eq_refl eq_refl rs Hrs).
  { intros r. by rewrite -Hperm. }
  destruct (loaded_ids 0 rs [] ltac:(constructor) ltac:(constructor)) as [H1 H2].
  split; cbn [ss_storage_path ss_disk ss_sessions ss_files ss_next_id set_ss_files set_ss_next]; try done.
  rewrite loaded_records app_nil_r. by rewrite Hperm.
Qed.

Lemma same_settled ss' : same_documents ss ss' → settled ss'.
Proof.
  intros []. destruct Hst as [[] []].
  assert (Hkey : ∀ {B} (f : FileRecord → B), (∀ i r, f (renumber i r) = f r) → map f (ss_files ss') ≡ₚ map f (ss_files ss)).
  { intros B f Hf. rewrite -(map_renumbered f (ss_files ss)) // -(map_renumbered f (ss_files ss')) //. by rewrite sd_records0. }
  split; split; rewrite ?sd_path0 ?sd_disk0 ?sd_sessions0; try done; try (by constructor).
  all: try (by rewrite Hkey).
  all: try (eapply Forall_renumbered; [|exact sd_records0|eassumption]; done).
  - eapply Forall_renumbered; [|exact sd_records0|eassumption]. intros i r. split; intros []; by split.
  - intros p. rewrite Hkey; auto.
Qed.
End settled.

Lemma life_settled ss ss' : life_step ss ss' → settled ss → settled ss'.
Proof.
  intros [fd raw now|raw peer now Hsafe Hv|rest ns_ip ns_port ip port entries now ss1 Hm Hd (Hsp & Hp & Hb)] Hst.
  - destruct Hst. split; [by apply client_thread_turn_safe|by apply client_turn_saved].
  - destruct Hst. cbn [ns_control_turn]. split; [by apply ns_message_safe|by apply ns_message_saved].
  - destruct (restarted ss Hst rest ns_ip ns_port ip port entries now Hm Hsp Hd Hp) as (ss2 & Heq & Hsame).
    rewrite Hb in Heq. injection Heq as ->. by eapply same_settled.
Qed.

Lemma lives_settled ss ss' : rtc life_step ss ss' → settled ss → settled ss'.
Proof. induction 1; [done|]. intros Hst. by eapply IHrtc, life_settled. Qed.

(** Requests find the records they found before. *)
Lemma same_found ss ss' name :
  settled ss → same_documents ss ss' →
  option_map (renumber 0) (ss_find_file ss' name) = option_map (renumber 0) (ss_find_file ss name).
Proof.
  intros Hst Hsd. pose proof (same_settled ss Hst ss' Hsd) as Hst'.
  assert (Hfind : ∀ s x r, settled s → r ∈ map (renumber 0) (ss_files s) → same_name x r = true →
            option_map (renumber 0) (ss_find_file s x) = Some r).
  { intros s x r [Hi _] (r0 & -> & Hr0)%list_elem_of_fmap Hn. unfold ss_find_file.
    destruct (firstb (same_name x) (ss_files s)) as [r1|] eqn:Hf.
    - apply firstb_elem in Hf as [Hr1 Hn1]. cbn [option_map]. do 2 f_equal.
      eapply (NoDup_key_inj fr_filename); [apply (inv_names _ Hi)|done|done|].
      transitivity x; [|symmetry]; (eapply strneq_short; [|eassumption]); by apply ro_name, (rec_in s).
    - rewrite firstb_None Forall_forall in Hf. specialize (Hf r0 Hr0). unfold same_name in *. cbn in Hn. congruence. }
  destruct (ss_find_file ss name) as [r|] eqn:Hf; cbn [option_map].
  - apply find_file_Some in Hf as [Hr Hn]. apply Hfind; [done| |done]. rewrite (sd_records _ _ Hsd).
    by apply (list_elem_of_fmap_2 (renumber 0)).
  - destruct (ss_find_file ss' name) as [r|] eqn:Hf'; [|done]. apply find_file_Some in Hf' as [Hr Hn].
    assert (Hr0 : renumber 0 r ∈ map (renumber 0) (ss_files ss')) by by apply (list_elem_of_fmap_2 (renumber 0)).
    rewrite (sd_records _ _ Hsd) in Hr0.
    pose proof (Hfind ss name (renumber 0 r) Hst Hr0 Hn) as Hx. by rewrite Hf in Hx.
Qed.

(** ** A server that starts on an empty directory *)

(** There are no documents and the disk works. *)
Definition fresh (ss : StorageServer) : Prop :=
  ss_files ss = [] ∧ ss_sessions ss = [] ∧ disk_works (ss_storage_path ss) (ss_disk ss) ∧
  ∀ p, is_Some (dk_files (ss_disk ss) !! p) → hidden (ss_storage_path ss) p.

Lemma fresh_settled ss : fresh ss → settled ss.
Proof.
  intros (Hf & Hs & Hd & Hh). split; split; rewrite ?Hf ?Hs; try done; try (by constructor).
  - intros p n. by rewrite (proj1 Hd).
  - intros p Hp. right. auto.
Qed.

(** ** Property *)


(** The directories on the way are there already. *)
Fixpoint walk_there (d : Disk) (prefix rest : cstr) : bool :=
  match rest with
  | [] => bool_decide (prefix ∈ dk_dirs d)
  | c :: rest' => (negb (bool_decide (c = c_slash)) || bool_decide (prefix ∈ dk_dirs d)) && walk_there d (prefix ++ [c]) rest'
  end.

Lemma mkdir_there d p : p ∈ dk_dirs d → mkdir d p = (d, true).
Proof. intros Hp. unfold mkdir. by rewrite bool_decide_eq_true_2. Qed.

Lemma walk_there_same d rest prefix : walk_there d prefix rest = true → mkdir_walk d prefix rest = (d, true).
Proof.
  revert prefix. induction rest as [|c rest IH]; intros prefix; cbn [walk_there mkdir_walk].
  - intros ?%bool_decide_eq_true. by apply mkdir_there.
  - intros [Hc Hr]%andb_prop. destruct (bool_decide (c = c_slash)); [|by apply IH].
    apply bool_decide_eq_true in Hc. rewrite mkdir_there; [done|]. by apply IH.
Qed.

Lemma create_there d c dir :
  (length (c :: dir ++ [c_slash]) < MAX_PATH_LENGTH) → walk_there d [c] dir = true →
  create_directory_recursive d (c :: dir ++ [c_slash]) = (d, true).
Proof.
  intros Hl Hw. unfold create_directory_recursive. rewrite fit_short; [done|].
  rewrite (app_comm_cons dir [c_slash] c) last_snoc bool_decide_eq_true_2; [done|].
  rewrite length_app Nat.add_sub take_app_length. by apply walk_there_same.
Qed.

(** *** At work *)

#[export] Instance CheckpointRecord_eq_dec : EqDecision CheckpointRecord.
Proof. solve_decision. Defined.

#[export] Instance FileRecord_eq_dec : EqDecision FileRecord.
Proof. solve_decision. Defined.

Definition fine (ss : StorageServer) (l : Label) : Prop :=
  match l with
  | LClient _ _ _ => True
  | LNs (Some raw) _ _ => ns_safe ss (protocol_parse_message raw) ∧ ns_valid (protocol_parse_message raw)
  | _ => False
  end.

#[export] Instance create_safe_dec ss name : Decision (create_safe ss name).
Proof. unfold create_safe, path_free. destruct (flatten_logical_path _ _); apply _. Defined.

#[export] Instance fine_dec ss l : Decision (fine ss l).
Proof. unfold fine, ns_safe, rename_safe, path_free, ns_valid. destruct l as [| [raw|] |]; apply _. Defined.

Fixpoint all_fine (ss : StorageServer) (ls : list Label) : bool :=
  match ls with
  | [] => true
  | l :: ls => bool_decide (fine ss l) && all_fine (perform ss l).1 ls
  end.

Lemma run_lives ss ls : all_fine ss ls = true → rtc life_step ss (run ss ls).
Proof.
  revert ss. induction ls as [|l ls IH]; intros ss; cbn [all_fine]; [done|].
  intros [Hl%bool_decide_eq_true Hls]%andb_prop. apply rtc_l with (perform ss l).1; [|by apply IH].
  destruct l as [fd raw now|[raw|] peer now|]; [constructor|by constructor; apply Hl|done..].
Qed.

(** In the directory of the server at 127.0.0.1:9001. *)
Definition home : cstr := $"./ss_storage/server_127_0_0_1_9001/".

Definition home_disk : Disk :=
  mkDisk ∅ {[ $"."; $"./ss_storage"; $"./ss_storage/server_127_0_0_1_9001"; home ++ $"/."; home ++ $"/.." ]} (λ _, NoFault).

Definition newborn : StorageServer :=
  mkSS ($"127.0.0.1") 9000 ($"127.0.0.1") 9001 3 home true [] [] home_disk 0.

Definition from_ns (msg : cstr) : Label := LNs (Some (msg ++ [c_nl])) no_peer 900.

(** Two documents, one of them written, shared, recorded and renamed. *)
Definition busy_day : list Label :=
  [from_ns ($"CREATE_FILE|docs/plan.txt|ann");
   from_client 5 ($"REQ_WRITE_LOCK|ann|docs/plan.txt|0");
   from_client 5 ($"WRITE_DATA|0|Buy bread. Call home.");
   from_client 5 ($"ETIRW");
   from_ns ($"SS_ADDACCESS|docs/plan.txt|bob|W");
   from_ns ($"CREATE_FILE|todo.txt|bob");
   from_client 6 ($"REQ_CHECKPOINT|bob|todo.txt|v 1");
   from_ns ($"SS_RENAME|docs/plan.txt|old/plan.txt|docs_plan.txt|old_plan.txt");
   from_client 7 ($"REQ_WRITE_LOCK|ann|old/plan.txt|0")].

Definition evening : StorageServer := run newborn busy_day.

Lemma dir_of_child sp n : c_slash ∉ n → dir_of (sp ++ [c_slash] ++ n) =
  match drop_while (λ c, bool_decide (c = c_slash)) (c_slash :: rev sp) with [] => [c_slash] | dir => rev dir end.
Proof.
  intros Hn. unfold dir_of. rewrite !rev_app_distr -app_assoc drop_while_app_all.
  { rewrite Forall_forall. intros c Hc. apply negb_true_iff, bool_decide_eq_false_2. intros ->.
    by apply Hn, list_elem_of_In, in_rev, list_elem_of_In. }
  reflexivity.
Qed.

Lemma home_dirs p : p ∈ dk_dirs home_disk → is_meta p = false.
Proof. cbn [dk_dirs home_disk]. rewrite !elem_of_union !elem_of_singleton. by intros [[[[-> | ->] | ->] | ->] | ->]. Qed.

Lemma newborn_fresh : fresh newborn.
Proof.
  split; [done|]. split; [done|]. split; [|by intros p []]. split; [done|]. split; [|split; vmd].
  intros flat Hn. unfold can_create. rewrite (dir_of_child home (flat ++ SS_META_SUFFIX)).
  { rewrite not_elem_of_app. split; [done|vmd]. }
  rewrite bool_decide_eq_true_2; [by destruct home|]. rewrite bool_decide_eq_true_2; [vmd|].
  rewrite bool_decide_eq_false_2; [|done]. intros Hin.
  assert (Hm : is_meta (home ++ [c_slash] ++ flat ++ SS_META_SUFFIX) = true) by (rewrite !app_assoc; apply is_meta_self).
  by rewrite (home_dirs _ Hin) in Hm.
Qed.

#[export] Instance meta_ok_dec sp r : Decision (meta_ok sp r).
Proof.
  refine (cast_if (decide (
    ss_set_record_paths sp r (fr_filename r) = r ∧
    (fr_filename r ≠ [] ∧ line_text (fr_filename r)) ∧
    (length (fr_owner r) < MAX_USERNAME_LENGTH ∧ line_text (fr_owner r)) ∧
    (length (fr_last_access_user r) < MAX_USERNAME_LENGTH ∧ line_text (fr_last_access_user r)) ∧
    ((LONG_MIN <= fr_created r <= LONG_MAX)%Z ∧ (LONG_MIN <= fr_modified r <= LONG_MAX)%Z ∧
     (LONG_MIN <= fr_last_access r <= LONG_MAX)%Z) ∧
    (INT_MIN <= fr_undo_available r <= INT_MAX)%Z ∧
    (Forall acl_name (fr_read_users r) ∧ length (fr_read_users r) <= SS_MAX_USERS_PER_FILE) ∧
    (Forall acl_name (fr_write_users r) ∧ length (fr_write_users r) <= SS_MAX_USERS_PER_FILE) ∧
    (Forall checkpoint_ok (fr_checkpoints r) ∧ length (fr_checkpoints r) <= SS_MAX_CHECKPOINTS) ∧
    Forall (λ l, length l + 1 < 1024) (metadata_lines r)))).
  - by destruct_and!.
  - intros []. tauto.
Defined.


(** ** A document in the place of a sidecar *)

(** The record that is made of a sidecar with nothing but an owner. *)
Lemma owner_line_loaded sp d rec user :
  validate_username user = true → dk_files d !! fr_metapath rec = Some ($"OWNER=" ++ user) → denied d (fr_metapath rec) = false →
  ss_load_metadata sp d rec = Some (with_owner (with_checkpoints (with_undo (with_acl rec [] []) 0) []) user).
Proof.
  intros Hv Ht Hd. pose proof (username_chars user) as Hc. apply validate_username_spec in Hv as Hu. destruct Hu as (_ & Hl & _).
  assert (Hsp : ∀ c, c ∈ $"OWNER=" ++ user → isspace c = false).
  { intros c [Hin|Hin]%elem_of_app; [|by apply username_char_space, Hc].
    assert (Hall : Forall (λ c, isspace c = false) ($"OWNER=")) by vmd. by eapply (proj1 (Forall_forall _ _) Hall). }
  unfold ss_load_metadata, read_file. rewrite Hd Ht. unfold fgets_lines. rewrite fgets_loop_last.
  - by intros H%Hsp.
  - rewrite length_app. unfold MAX_USERNAME_LENGTH in Hl. cbn. lia.
  - done.
  - cbn [app foldl]. unfold load_line. rewrite (trim_spaceless _ Hsp). cbn -[fit MAX_USERNAME_LENGTH]. rewrite (fit_short _ user Hl). reflexivity.
Qed.

Lemma owner_line_added ss filename user now :
  validate_username user = true → length filename < MAX_FILENAME_LENGTH →
  length (doc_file ss filename) + 8 < MAX_PATH_LENGTH →
  denied (ss_disk ss) (doc_file ss filename ++ SS_META_SUFFIX) = false →
  dk_files (ss_disk ss) !! (doc_file ss filename ++ SS_META_SUFFIX) = Some ($"OWNER=" ++ user) →
  ∃ rec, ss_files (ss_add_file_record ss filename now) = rec :: ss_files ss ∧
    fr_filepath rec = doc_file ss filename ∧ fr_filename rec = filename ∧ fr_owner rec = user ∧
    fr_read_users rec = [] ∧ fr_write_users rec = [].
Proof.
  intros Hv Hl Hlong Hden Ht. destruct (new_paths ss (ss_next_id ss) filename Hl Hlong) as (Hp & _ & Hm & Hn & _).
  revert Hp Hm Hn. unfold ss_add_file_record. cbn [ss_storage_path ss_disk set_ss_next].
  generalize (ss_init_file_record (ss_storage_path ss) (ss_next_id ss) filename) as r0. intros r0 Hp Hm Hn.
  rewrite (owner_line_loaded _ _ r0 user Hv); [by rewrite Hm|by rewrite Hm|]. eexists. split; [reflexivity|].
  by rewrite -Hp -Hn.
Qed.


(** ann's document, before anybody has heard of its sidecar. *)
Definition morning : StorageServer :=
  run newborn [from_ns ($"CREATE_FILE|a.txt|ann");
               from_client 5 ($"REQ_WRITE_LOCK|ann|a.txt|0");
               from_client 5 ($"WRITE_DATA|0|Top secret.");
               from_client 5 ($"ETIRW")].

(** mal's commands, and the server that comes up after them. *)
Definition taken : StorageServer :=
  run morning [from_ns ($"CREATE_FILE|a.txt.meta|mal");
               from_client 6 ($"REQ_WRITE_LOCK|mal|a.txt.meta|0");
               from_client 6 ($"WRITE_DATA|0|OWNER=mal");
               from_client 6 ($"ETIRW")].

Definition restarted_taken : StorageServer :=
  mkSS ($"127.0.0.1") 9000 ($"127.0.0.1") 9001 (-1) home false [] [] (ss_disk taken) 0.

Definition secret : FileRecord := default (ss_init_file_record [] 0 []) (head (ss_files morning)).

Lemma morning_settled : settled morning.
Proof. apply (lives_settled newborn); [apply run_lives; vm_compute; reflexivity|apply fresh_settled, newborn_fresh]. Qed.

