(* ===== verification/SSStart.v ===== *)
(** * Starting the storage server

    [main], [ss_register_with_ns], [ss_send_file_list], [ss_start] and
    [ss_cleanup] of [src/storage_server/storage_server.c], up to the accept loop, which is
    in [SSServe].  What the
    operating system and the name server answer are arguments. *)
From S2P Require Import Prelude CStr Utils Protocol Disk SSAcl SSFiles SSState.

(** The connected socket to the name server, if [socket], [inet_pton] and
    [connect] succeed; whether [HELLO_SS] can be sent; what
    [protocol_receive_message] returns then; for how many messages of the list
    the connection lasts, if it is lost; whether the client listener can be opened; whether the
    control thread can be started; what is in memory behind the two addresses. *)
Record Surroundings := mkSurroundings {
  su_socket : option Z;
  su_sendable : bool;
  su_reply : option cstr;
  su_lasts : option nat;
  su_listener : bool;
  su_thread : bool;
  su_memory : cstr * cstr
}.

Definition set_ns_sockfd (ss : StorageServer) (fd : Z) : StorageServer :=
  mkSS (ss_ns_ip ss) (ss_ns_port ss) (ss_client_ip ss) (ss_client_port ss) fd (ss_storage_path ss) (ss_running ss)
    (ss_files ss) (ss_sessions ss) (ss_disk ss) (ss_next_id ss).

(** [None] is the result -1. *)
Definition ss_open_ns_socket (ss : StorageServer) (su : Surroundings) : option StorageServer :=
  set_ns_sockfd ss <$> su_socket su.

(** [false] is the result -1: the socket is closed then. *)
Definition ss_register_with_ns (ss : StorageServer) (su : Surroundings) : StorageServer * Outbox * bool :=
  match ss_open_ns_socket ss su with
  | None => (ss, [], false)
  | Some ss =>
      if negb (su_sendable su) then (set_ns_sockfd ss (-1), [], false)
      else if ss_hello_accepted (su_reply su) then (ss, ss_send_hello ss, true)
      else (set_ns_sockfd ss (-1), ss_send_hello ss, false)
  end.

(** The messages of the list, as far as the connection lasts. *)
Definition ss_send_file_list (ss : StorageServer) (su : Surroundings) : Outbox * bool :=
  let list := ss_emit_file_list ss in
  match su_lasts su with
  | None => (list, true)
  | Some n => (take n list, bool_decide (length list <= n))
  end.

Definition ss_start (ss : StorageServer) (su : Surroundings) : StorageServer * bool :=
  if negb (su_listener su) then (ss, false)
  else if negb (su_thread su) then (set_ss_running ss false, false)
  else (set_ss_running ss true, true).

Definition ss_cleanup (ss : StorageServer) : StorageServer :=
  set_ss_files (set_ss_sessions (set_ns_sockfd (set_ss_running ss false) (-1)) []) [].

(** How the program goes on: it exits with a status, or it serves. *)
Inductive Course := Exits (status : Z) | Serves (ss : StorageServer).

Definition main (d : Disk) (argv : list cstr) (entries : list cstr) (now : Z) (su : Surroundings) : Outbox * Course :=
  match argv with
  | [_; ns_ip; ns_port; client_ip; client_port] =>
      match ss_init (su_memory su) d ns_ip (atoi ns_port) client_ip (atoi client_port) entries now with
      | None => ([], Exits 1)
      | Some ss =>
          let '(ss, hello, registered) := ss_register_with_ns ss su in
          if negb registered then (hello, Exits 1)
          else
            let '(list, sent) := ss_send_file_list ss su in
            if negb sent then (hello ++ list, Exits 1)
            else
              let '(ss, started) := ss_start ss su in
              (hello ++ list, if started then Serves ss else Exits 1)
      end
  | _ => ([], Exits 1)
  end.
