(* ===== verification/SSServe.v ===== *)
(** * The storage server, from its start to its connections

    The accept loop of [ss_start], the loops of [client_thread] and
    [ns_control_loop], and the end of the program, of
    [src/storage_server/storage_server.c].  Each connection has a thread of its
    own; what the operating system and the other programs do is a list of
    events, and a turn of a thread is one event ([SSLocks] and [SSRaces] have the
    steps inside of a turn).  No lock outlives the connection that took it. *)
From S2P Require Import Prelude CStr Utils Protocol Disk Sentences SSAcl SSFiles SSState SSClient SSControl SSInv SSStart.

(** The server and the descriptors of its client threads. *)
Record Serving := mkServing {
  sv_ss : StorageServer;
  sv_conns : gset Z
}.

(** The program works, or has left the accept loop and cleaned up. *)
Inductive Program := Working (sv : Serving) | Finished (ss : StorageServer).

(** [accept] returns a connection for which a thread can be started or not, or
    an error; a message arrives on a client's connection, or it is lost; a
    message of the name server, or [None] when its connection is lost. *)
Inductive Event :=
  | Accepted (fd : Z) (started : bool)
  | AcceptFailed
  | Arrived (fd : Z) (raw : cstr) (now : Z)
  | Lost (fd : Z) (now : Z)
  | FromNameServer (raw : option cstr) (now : Z).

(** What [client_thread] does after its loop. *)
Definition thread_ends (sv : Serving) (fd : Z) (now : Z) : Serving :=
  mkServing (client_thread_turn (sv_ss sv) fd None now).1 (sv_conns sv ∖ {[fd]}).

(** One message; the loop goes on as long as the server runs. *)
Definition client_turn (sv : Serving) (fd : Z) (raw : cstr) (now : Z) : Serving * Outbox :=
  let '(ss, out) := client_thread_turn (sv_ss sv) fd (Some raw) now in
  let sv := mkServing ss (sv_conns sv) in
  (if ss_running ss then sv else thread_ends sv fd now, out).

(** A new thread looks at [running] first. *)
Definition start_thread (sv : Serving) (fd : Z) (now : Z) : Serving :=
  if ss_running (sv_ss sv) then mkServing (sv_ss sv) ({[fd]} ∪ sv_conns sv) else thread_ends sv fd now.

(** One return of [accept]; a descriptor in use is not given to another
    connection. *)
Definition accept_turn (sv : Serving) (accepted : option (Z * bool)) : Program :=
  let sv :=
    match accepted with
    | Some (fd, true) =>
        if (fd <? 0)%Z || bool_decide (fd ∈ sv_conns sv) then sv else start_thread sv fd 0
    | _ => sv
    end in
  if ss_running (sv_ss sv) then Working sv else Finished (ss_cleanup (sv_ss sv)).

Section serve.
Context (peer : cstr → Z → Peer).

Definition serve_event (p : Program) (e : Event) : Program * Outbox :=
  match p with
  | Finished _ => (p, [])
  | Working sv =>
      match e with
      | Accepted fd started => (accept_turn sv (Some (fd, started)), [])
      | AcceptFailed => (accept_turn sv None, [])
      | Arrived fd raw now =>
          if bool_decide (fd ∈ sv_conns sv) then
            let '(sv, out) := client_turn sv fd raw now in (Working sv, out)
          else (p, [])
      | Lost fd now =>
          (if bool_decide (fd ∈ sv_conns sv) then Working (thread_ends sv fd now) else p, [])
      | FromNameServer raw now =>
          if ss_running (sv_ss sv) then
            let '(ss, out) := ns_control_turn (sv_ss sv) raw peer now in (Working (mkServing ss (sv_conns sv)), out)
          else (p, [])
      end
  end.

Definition serve (p : Program) (events : list Event) : Program := foldl (λ p e, (serve_event p e).1) p events.

(** The whole program, on what happens to it. *)
Definition storage_server (d : Disk) (argv : list cstr) (entries : list cstr) (now : Z) (su : Surroundings)
    (events : list Event) : Z + Program :=
  match main d argv entries now su with
  | (_, Exits status) => inl status
  | (_, Serves ss) => inr (serve (Working (mkServing ss ∅)) events)
  end.
End serve.

(** ** Who has locks *)

(** The connections that hold one. *)
Definition holders (ss : StorageServer) : list Z := map ws_client_fd (ss_sessions ss).

(** With the flag that the threads look at. *)
Definition view (ss : StorageServer) : list Z * bool := (holders ss, ss_running ss).

Lemma view_parts ss ss' : view ss' = view ss → holders ss' = holders ss ∧ ss_running ss' = ss_running ss.
Proof. intros H. split; [exact (f_equal fst H)|exact (f_equal snd H)]. Qed.

Lemma touch_view ss rec u m now : view (ss_touch_file_metadata ss rec u m now) = view ss.
Proof. unfold ss_touch_file_metadata. by destruct (ss_write_metadata _ _). Qed.

Lemma shift_view ss rec a b c delta fd : view (ss_update_active_sessions ss rec a b c delta fd) = view ss.
Proof.
  unfold view, holders, ss_update_active_sessions. cbn. f_equal. rewrite map_map. apply map_ext. intros s. case_match; [done|].
  unfold shift_session. by case_match.
Qed.

Lemma detach_holders ss fd : NoDup (holders ss) →
  NoDup (holders (ss_detach_session ss fd)) ∧ ∀ x, x ∈ holders (ss_detach_session ss fd) ↔ x ≠ fd ∧ x ∈ holders ss.
Proof.
  unfold holders. cbn. generalize (ss_sessions ss) as l. intros l. induction l as [|y l IH]; cbn.
  { intros _. split; [constructor|]. intros x. split; [by intros ?%elem_of_nil|by intros [_ ?%elem_of_nil]]. }
  intros [Hy Hnd]%NoDup_cons. destruct (ws_client_fd y =? fd)%Z eqn:He.
  - apply Z.eqb_eq in He. split; [done|]. intros x. rewrite elem_of_cons. split; [|naive_solver]. intros Hx. split; [congruence|by right].
  - apply Z.eqb_neq in He. destruct (IH Hnd) as [IH1 IH2]. cbn. split.
    + apply NoDup_cons. split; [|done]. by intros [_ ?]%IH2.
    + intros x. rewrite !elem_of_cons IH2. naive_solver.
Qed.

(** Every access of a client to a file but the commands of a write session. *)
Ltac same_view :=
  unfold with_file; repeat case_match; simplify_eq/=; rewrite ?touch_view; done.

Section client.
Context (ss : StorageServer) (fd now : Z) (msg : list cstr).

Lemma read_same : view (handle_client_read ss fd msg now).1 = view ss.
Proof. unfold handle_client_read. same_view. Qed.
Lemma stream_same : view (handle_client_stream ss fd msg now).1 = view ss.
Proof. unfold handle_client_stream. same_view. Qed.
Lemma undo_same : view (handle_client_undo ss fd msg now).1 = view ss.
Proof. unfold handle_client_undo. same_view. Qed.
Lemma checkpoint_same : view (handle_client_checkpoint ss fd msg now).1 = view ss.
Proof. unfold handle_client_checkpoint. same_view. Qed.
Lemma view_same : view (handle_client_viewcheckpoint ss fd msg now).1 = view ss.
Proof. unfold handle_client_viewcheckpoint. same_view. Qed.
Lemma revert_same : view (handle_client_revert ss fd msg now).1 = view ss.
Proof. unfold handle_client_revert. same_view. Qed.
Lemma list_same : view (handle_client_listcheckpoints ss fd msg now).1 = view ss.
Proof. unfold handle_client_listcheckpoints. same_view. Qed.

Lemma data_same : view (handle_client_write_data ss fd msg).1 = view ss.
Proof.
  unfold handle_client_write_data. repeat case_match; try done. unfold view, holders. cbn. f_equal.
  generalize (ss_sessions ss). clear. intros ses. induction ses as [|x ses IH]; [done|]. cbn. destruct (_ =? _)%Z; [done|]. cbn. by f_equal.
Qed.

(** A session of the connection ended, and perhaps another begun. *)
Definition turned (l l' : list Z) : Prop := NoDup l → NoDup l' ∧ ∀ x, x ∈ l' → x = fd ∨ x ∈ l.

Lemma turned_same l : turned l l.
Proof. intros Hnd. split; [done|]. by right. Qed.

Lemma lock_holders : turned (holders ss) (holders (handle_client_write_lock ss fd msg).1).
Proof.
  unfold handle_client_write_lock. case_decide; [apply turned_same|]. destruct (parse_int _) as [index|]; [|apply turned_same].
  case_match; [apply turned_same|]. unfold write_lock_begin, ss_abort_session.
  assert (Habort : turned (holders ss) (holders (ss_detach_session ss fd))).
  { intros Hnd. destruct (detach_holders _ fd Hnd) as [H1 H2]. split; [done|]. intros x Hx. right. by apply H2 in Hx as [_ ?]. }
  destruct (ss_find_file _ _) as [rec|]; [|exact Habort]. destruct (ss_check_write_access _ _); [|exact Habort].
  destruct (deref _ _) as [rec'|]; [|exact Habort]. unfold write_lock_commit.
  destruct (ss_find_session_by_sentence _ _ _); [exact Habort|]. destruct (ss_read_file_content _ _) as [text|]; [|exact Habort].
  destruct (ss_get_sentence_bounds _ _) as [[start stop]|]; [|exact Habort]. intros Hnd.
  destruct (detach_holders _ fd Hnd) as [H1 H2]. unfold holders. cbn [fst ss_create_session ss_sessions set_ss_sessions map ws_client_fd]. split.
  - apply NoDup_cons. split; [|exact H1]. by intros [? _]%H2.
  - intros x [->|Hx]%elem_of_cons; [by left|]. right. by apply H2 in Hx as [_ ?].
Qed.

Lemma etirw_holders : turned (holders ss) (holders (handle_client_etirw ss fd now).1).
Proof.
  unfold handle_client_etirw. destruct (etirw_begin ss fd) as [|[[id start] stop]]; [apply turned_same|].
  destruct (deref ss id) as [rec|]; [|apply turned_same]. destruct (ss_find_session ss fd) as [s|]; [|apply turned_same].
  unfold etirw_commit. destruct (ss_read_file_content _ _) as [text|]; [|apply turned_same]. case_decide; [apply turned_same|].
  destruct (ss_write_file_content _ (fr_undopath rec) _) as [d []]; [|apply turned_same].
  destruct (ss_write_file_content d _ _) as [d2 []]; [|apply turned_same]. cbn [fst]. intros Hnd.
  match goal with |- context [ss_detach_session ?x fd] => assert (Hx : view x = view ss) end.
  { by rewrite shift_view touch_view. }
  revert Hx. match goal with |- context [ss_detach_session ?x fd] => generalize x end. intros ss' Hx.
  injection Hx as Hx _. rewrite -Hx in Hnd |- *. destruct (detach_holders ss' fd Hnd) as [H1 H2]. split; [done|]. intros x Hin. right.
  by apply H2 in Hin as [_ ?].
Qed.
End client.

Lemma turned_view fd ss ss' : view ss' = view ss → turned fd (holders ss) (holders ss').
Proof. intros [= -> _]. apply turned_same. Qed.

Lemma turn_holders ss fd raw now : turned fd (holders ss) (holders (client_thread_turn ss fd (Some raw) now).1).
Proof.
  unfold client_thread_turn, client_message. destruct (protocol_parse_message raw) as [|cmd msg]; [apply turned_same|].
  repeat match goal with |- context [if streq cmd ?c then _ else _] => destruct (streq cmd c) end;
    first [apply lock_holders|apply etirw_holders|apply turned_view];
    auto using read_same, stream_same, data_same, undo_same, checkpoint_same, view_same, revert_same, list_same.
Qed.

Lemma turn_running ss fd raw now : ss_running (client_thread_turn ss fd raw now).1 = ss_running ss.
Proof.
  destruct raw as [raw|]; [|done]. unfold client_thread_turn, client_message. destruct (protocol_parse_message raw) as [|cmd msg]; [done|].
  assert (Hview : ∀ ss', view ss' = view ss → ss_running ss' = ss_running ss) by by intros ss' [= _ ?].
  repeat match goal with |- context [if streq cmd ?c then _ else _] => destruct (streq cmd c) end;
    try (apply Hview; solve [auto using read_same, stream_same, data_same, undo_same, checkpoint_same, view_same, revert_same, list_same]).
  - unfold handle_client_write_lock. case_decide; [done|]. destruct (parse_int _) as [index|]; [|done]. destruct (_ <? 0)%Z; [done|].
    unfold write_lock_begin. destruct (ss_find_file _ _) as [rec|]; [|done]. destruct (ss_check_write_access _ _); [|done].
    destruct (deref _ _) as [rec'|]; [|done]. unfold write_lock_commit.
    destruct (ss_find_session_by_sentence _ _ _); [done|]. destruct (ss_read_file_content _ _) as [text|]; [|done].
    by destruct (ss_get_sentence_bounds _ _) as [[start stop]|].
  - unfold handle_client_etirw. destruct (etirw_begin ss fd) as [|[[id start] stop]]; [done|].
    destruct (deref ss id) as [rec|]; [|done]. destruct (ss_find_session ss fd) as [s|]; [|done].
    unfold etirw_commit. destruct (ss_read_file_content _ _) as [text|]; [|done]. case_decide; [done|].
    destruct (ss_write_file_content _ (fr_undopath rec) _) as [d []]; [|done].
    destruct (ss_write_file_content d _ _) as [d2 []]; [|done].
    pose proof (touch_view (set_ss_disk ss d2) (with_undo rec 1) (Some (ws_username s)) true now) as [= _ Hr]. exact Hr.
Qed.

Lemma end_holders ss fd now : NoDup (holders ss) →
  let ss' := (client_thread_turn ss fd None now).1 in
  NoDup (holders ss') ∧ ∀ x, x ∈ holders ss' ↔ x ≠ fd ∧ x ∈ holders ss.
Proof. apply detach_holders. Qed.

(** The commands of the name server. *)
Lemma update_view ss rec : view (update_rec ss rec) = view ss.
Proof. done. Qed.

Lemma ns_access_view ss msg : view (ns_add_access ss msg).1 = view ss ∧ view (ns_remove_access ss msg).1 = view ss.
Proof.
  unfold ns_add_access, ns_remove_access. split.
  - case_decide; [done|]. destruct (ss_find_file _ _) as [rec|]; [|done]. destruct (permission_flags _) as [wr ww].
    destruct (negb wr && negb ww); [done|]. destruct (add_if wr _ _ _) as [[rs ar] fr]. destruct (add_if _ _ _ _) as [[ws aw] fw].
    destruct (if _ : bool then _ else _) as [d w]. by destruct (_ || negb w).
  - case_decide; [done|]. destruct (ss_find_file _ _) as [rec|]; [|done].
    destruct (ss_acl_remove (fr_read_users rec) _) as [rs rr], (ss_acl_remove (fr_write_users rec) _) as [ws rw].
    destruct (negb rr && negb rw); [done|]. by destruct (ss_write_metadata _ _) as [d []].
Qed.

Lemma ns_copy_view ss msg peer now : view (handle_ss_copy ss msg peer now).1 = view ss.
Proof.
  unfold handle_ss_copy. case_decide; [done|]. destruct (_ || _ || _); [done|]. cbv zeta. destruct (negb _ && _); [done|].
  destruct (ss_find_file ss (field msg 1)) as [dest|]; [|done].
  do 3 match goal with |- context [if ?b then (ss, _) else _] => destruct b; [done|] end. unfold copy_content.
  destruct (match (if _ : bool then _ else _) with Some _ => _ | None => _ end) as [d f].
  destruct (match f with Some _ => _ | None => _ end) as [d2 [[code m]|]]; [done|]. cbn [fst]; etrans; [apply touch_view|done].
Qed.

Lemma ns_message_view ss msg peer now : view (ns_message ss msg peer now).1 = view ss.
Proof.
  unfold ns_message. destruct msg as [|cmd msg]; [done|].
  repeat match goal with |- context [if streq cmd ?c then _ else _] => destruct (streq cmd c) end; [..|done].
  - unfold ns_create_file, ss_create_file. same_view.
  - unfold ns_delete_file, ss_delete_file. same_view.
  - unfold ns_get_stats. same_view.
  - unfold ns_get_content. same_view.
  - unfold ns_rename, ss_handle_rename. same_view.
  - apply ns_access_view.
  - apply ns_access_view.
  - apply ns_copy_view.
Qed.

(** ** The invariant *)

(** Locks belong to open connections, one at most to each. *)
Record locks_owned (sv : Serving) : Prop := {
  lo_owned : ∀ fd, fd ∈ holders (sv_ss sv) → fd ∈ sv_conns sv;
  lo_once : NoDup (holders (sv_ss sv))
}.

Definition program_ok (p : Program) : Prop :=
  match p with
  | Working sv => locks_owned sv
  | Finished ss => ss_sessions ss = [] ∧ ss_files ss = [] ∧ ss_ns_sockfd ss = (-1)%Z ∧ ss_running ss = false
  end.

Lemma end_owned sv fd now : locks_owned sv → locks_owned (thread_ends sv fd now).
Proof.
  intros [Ho Hd]. destruct (end_holders (sv_ss sv) fd now Hd) as [H1 H2]. split; [|done].
  intros x [Hne Hx]%H2. cbn. apply Ho in Hx. set_solver.
Qed.

Lemma accept_ok sv accepted : locks_owned sv → program_ok (accept_turn sv accepted).
Proof.
  intros Hl. unfold accept_turn. set (sv' := match accepted with Some _ => _ | None => _ end).
  assert (Hl' : locks_owned sv').
  { unfold sv'. destruct accepted as [[fd []]|]; [|done..]. case_match; [done|]. unfold start_thread. case_match; [|by apply end_owned].
    destruct Hl as [Ho Hd]. split; [|done]. intros x Hx. cbn. apply Ho in Hx. set_solver. }
  by destruct (ss_running (sv_ss sv')).
Qed.

Section serving.
Context (peer : cstr → Z → Peer).

Lemma serve_event_ok p e : program_ok p → program_ok (serve_event peer p e).1.
Proof.
  destruct p as [sv|ss]; [|done]. intros Hl. cbn [program_ok] in Hl.
  destruct e as [fd started| |fd raw now|fd now|raw now]; cbn [serve_event].
  - by apply accept_ok.
  - by apply accept_ok.
  - case_bool_decide as Hfd; [|done]. unfold client_turn.
    pose proof (turn_holders (sv_ss sv) fd raw now (lo_once _ Hl)) as [H1 H2].
    destruct (client_thread_turn _ _ _ _) as [ss out]. cbn [fst] in *.
    assert (Hl' : locks_owned (mkServing ss (sv_conns sv))).
    { split; [|done]. intros x [->|Hx]%H2; [done|]. by apply (lo_owned _ Hl). }
    destruct (ss_running ss); [done|by apply end_owned].
  - case_bool_decide; [by apply end_owned|done].
  - destruct (ss_running _); [|done]. destruct raw as [raw|]; cbn [ns_control_turn].
    + destruct (view_parts _ _ (ns_message_view (sv_ss sv) (protocol_parse_message raw) peer now)) as [Hh _].
      destruct (ns_message _ _ _ _) as [ss out]. cbn [fst program_ok] in *.
      split; cbn [sv_ss sv_conns]; rewrite Hh; [exact (lo_owned _ Hl)|exact (lo_once _ Hl)].
    + split; [exact (lo_owned _ Hl)|exact (lo_once _ Hl)].
Qed.

Lemma program_stays_ok events p : program_ok p → program_ok (serve peer p events).
Proof. revert p. induction events as [|e events IH]; intros p Hp; [done|]. by apply IH, serve_event_ok. Qed.
End serving.

Lemma load_holders ss entries now : holders (ss_load_existing_files ss entries now) = holders ss.
Proof.
  revert ss. unfold ss_load_existing_files. induction entries as [|name entries IH]; intros ss; [done|]. cbn [foldl]. rewrite IH.
  destruct (is_document_entry ss name); [|done]. unfold ss_add_file_record. case_match; [done|]. by destruct (ss_write_metadata _ _).
Qed.

Lemma init_holders rest d ip port cip cport entries now ss  : ss_init rest d ip port cip cport entries now = Some ss → holders ss = [].
Proof.
  unfold ss_init. destruct (ss_build_storage_path _ _ _); [|discriminate]. destruct (create_directory_recursive _ _) as [d' []]; [|discriminate].
  intros Heq. apply Some_inj in Heq. rewrite -Heq. apply load_holders.
Qed.

Lemma register_holders ss su : holders (ss_register_with_ns ss su).1.1 = holders ss.
Proof.
  unfold ss_register_with_ns, ss_open_ns_socket. destruct (su_socket su) as [fd|]; [|reflexivity]. cbn [fmap option_fmap option_map].
  destruct (negb (su_sendable su)); [reflexivity|]. by destruct (ss_hello_accepted _).
Qed.

Lemma start_serves ss su ss' : ss_start ss su = (ss', true) → holders ss' = holders ss ∧ ss_running ss' = true.
Proof.
  unfold ss_start. destruct (negb (su_listener su)); [discriminate|]. destruct (negb (su_thread su)); [discriminate|].
  intros Heq. by rewrite -(f_equal fst Heq : set_ss_running ss true = ss').
Qed.

(** The program begins to serve without locks. *)
Lemma main_serves d argv entries now su out ss :
  main d argv entries now su = (out, Serves ss) → holders ss = [] ∧ ss_running ss = true.
Proof.
  unfold main. destruct argv as [|a [|b [|c [|e [|f [|]]]]]]; try discriminate.
  destruct (ss_init (su_memory su) d b (atoi c) e (atoi f) entries now) as [ss0|] eqn:Hi; [|discriminate]. apply init_holders in Hi.
  pose proof (register_holders ss0 su) as Hr. destruct (ss_register_with_ns ss0 su) as [[ss1 hello] []]; [|discriminate].
  cbn [negb fst] in *. destruct (ss_send_file_list ss1 su) as [list []]; [|discriminate]. cbn [negb].
  destruct (ss_start ss1 su) as [ss2 []] eqn:Hs; [|discriminate]. apply start_serves in Hs as [Hh Hrun].
  intros [= _ <-]. split; [congruence|exact Hrun].
Qed.

Lemma main_fails d argv entries now su out status : main d argv entries now su = (out, Exits status) → status = 1%Z.
Proof.
  assert (Hx : ∀ o : Outbox, (o, Exits 1) = (out, Exits status) → status = 1%Z) by (intros o Heq; congruence).
  unfold main. destruct argv as [|a [|b [|c [|e [|f [|]]]]]]; try exact (Hx []).
  destruct (ss_init (su_memory su) d b (atoi c) e (atoi f) entries now) as [ss0|]; [|exact (Hx [])].
  destruct (ss_register_with_ns ss0 su) as [[ss hello] []]; cbn [negb]; [|exact (Hx _)].
  destruct (ss_send_file_list _ _) as [list []]; cbn [negb]; [|exact (Hx _)].
  destruct (ss_start ss su) as [ss' []]; [discriminate|exact (Hx _)].
Qed.

(** The end of a connection takes its session, and no other. *)
Lemma end_session_iff sv fd t s : s ∈ ss_sessions (sv_ss sv) → NoDup (holders (sv_ss sv)) →
  s ∈ ss_sessions (sv_ss (thread_ends sv fd t)) ↔ ws_client_fd s ≠ fd.
Proof.
  intros Hs Hd. change (s ∈ ss_sessions (ss_detach_session (sv_ss sv) fd) ↔ ws_client_fd s ≠ fd).
  rewrite detach_filter; [done|]. rewrite list_elem_of_filter Z.eqb_neq. tauto.
Qed.

(** A server that has lost the name server. *)
Lemma winding_down peer sv e : ss_running (sv_ss sv) = false →
  match serve_event peer (Working sv) e with
  | (Finished ss, _) => match e with Accepted _ _ | AcceptFailed => True | _ => False end
  | (Working sv', out) =>
      ss_running (sv_ss sv') = false ∧
      match e with
      | Accepted _ _ | AcceptFailed => False
      | Arrived fd _ _ | Lost fd _ => sv_conns sv' = sv_conns sv ∖ {[fd]}
      | FromNameServer _ _ => sv' = sv ∧ out = []
      end
  end.
Proof.
  intros Hr. destruct e as [fd started| |fd raw now|fd now|raw now]; cbn [serve_event].
  - unfold accept_turn, start_thread. rewrite Hr. destruct started; [|by rewrite Hr].
    destruct (_ || _); [by rewrite Hr|]. unfold thread_ends. cbn [sv_ss]. by rewrite turn_running Hr.
  - unfold accept_turn. by rewrite Hr.
  - case_bool_decide as Hfd; [|split; [done|set_solver]]. unfold client_turn.
    pose proof (turn_running (sv_ss sv) fd (Some raw) now) as Ht. destruct (client_thread_turn _ _ _ _) as [ss out]. cbn [fst] in Ht.
    rewrite Ht Hr. unfold thread_ends. cbn [sv_ss sv_conns]. by rewrite turn_running Ht Hr.
  - case_bool_decide as Hfd; [|split; [done|set_solver]]. unfold thread_ends. cbn [sv_ss sv_conns]. by rewrite turn_running Hr.
  - by rewrite Hr.
Qed.

(** ** Properties *)

(** C8 No lock outlives the connection that took it.  From the start of the
    storage server on, whatever connections are made, send and lose, in any order
    and on any disk: every write session belongs to an open connection, which has only this one;
    so when a connection ends, however it does, its sentence is free again,
    and only its own.  When the connection to the name server is lost, the server winds
    down: no thread is started any more, every connection gets the answer to one
    more command at most, and when [accept] returns for the next time the program
    ends, without sessions and files.  If it cannot start, it exits with status 1. *)
Theorem locks_end_with_connections peer d argv entries now su events :
  match storage_server peer d argv entries now su events with
  | inl status => status = 1%Z
  | inr (Finished ss) => ss_sessions ss = [] ∧ ss_files ss = [] ∧ ss_ns_sockfd ss = (-1)%Z
  | inr (Working sv) =>
      (∀ s, s ∈ ss_sessions (sv_ss sv) → ws_client_fd s ∈ sv_conns sv) ∧
      NoDup (map ws_client_fd (ss_sessions (sv_ss sv))) ∧
      (∀ fd t s, fd ∈ sv_conns sv → s ∈ ss_sessions (sv_ss sv) →
         ∃ sv', serve_event peer (Working sv) (Lost fd t) = (Working sv', []) ∧
           (s ∈ ss_sessions (sv_ss sv') ↔ ws_client_fd s ≠ fd)) ∧
      (ss_running (sv_ss sv) = false → ∀ e,
         match serve_event peer (Working sv) e with
         | (Finished ss, _) => match e with Accepted _ _ | AcceptFailed => True | _ => False end
         | (Working sv', out) =>
             ss_running (sv_ss sv') = false ∧
             match e with
             | Accepted _ _ | AcceptFailed => False
             | Arrived fd _ _ | Lost fd _ => sv_conns sv' = sv_conns sv ∖ {[fd]}
             | FromNameServer _ _ => sv' = sv ∧ out = []
             end
         end)
  end.
Proof.
  unfold storage_server. destruct (main d argv entries now su) as [out [status|ss0]] eqn:Hm.
  { by apply main_fails in Hm. }
  apply main_serves in Hm as [H0 Hr0].
  pose proof (program_stays_ok peer events (Working (mkServing ss0 ∅))) as Hok. destruct (serve _ _ _) as [sv|ss].
  2: { destruct Hok as (? & ? & ? & _); [|done]. split; cbn; rewrite H0; [by intros x ?%elem_of_nil|constructor]. }
  destruct Hok as [Ho Hd]. { split; cbn; rewrite H0; [by intros x ?%elem_of_nil|constructor]. }
  split_and!; [|done| |].
  - intros s Hs. apply Ho. by apply (list_elem_of_fmap_2 ws_client_fd).
  - intros fd t s Hfd Hs. exists (thread_ends sv fd t). cbn [serve_event]. rewrite bool_decide_eq_true_2; [done|].
    split; [done|]. apply end_session_iff; [done|done].
  - intros Hr e. by apply winding_down.
Qed.

(** A first day: two clients want the same sentence, and the second gets it when
    the first is gone; then the name server is lost. *)
Definition first_connections : list Event :=
  let line s := s ++ [c_nl] in
  [FromNameServer (Some (line ($"CREATE_FILE|notes.txt|ann"))) 900;
   Accepted 6 true; Accepted 7 true; AcceptFailed; Accepted 8 false;
   Arrived 6 (line ($"REQ_WRITE_LOCK|ann|notes.txt|0")) 1000;
   Arrived 7 (line ($"REQ_WRITE_LOCK|ann|notes.txt|0")) 1001].

Definition day (events : list Event) : Z + Program :=
  storage_server (λ _ _, mkPeer false false [])
    (mkDisk ∅ {[ $"."; $"./ss_storage"; $"./ss_storage/server_127_0_0_1_9001" ]} (λ _, NoFault))
    [$"storage_server"; $"127.0.0.1"; $"8080"; $"127.0.0.1"; $"9001"] [] 800
    (mkSurroundings (Some 4%Z) true (Some ($"OK|welcome" ++ [c_nl])) None true true ([], [])) events.

(** Open connections and holders of locks; none when the program has ended. *)
Definition locks_of (r : Z + Program) : option (list Z * list Z) :=
  match r with inr (Working sv) => Some (elements (sv_conns sv), holders (sv_ss sv)) | _ => None end.

Example locks_change_hands :
  locks_of (day first_connections) = Some ([7; 6]%Z, [6]%Z) ∧
  locks_of (day (first_connections ++
    [Lost 6 1002; Arrived 7 ($"REQ_WRITE_LOCK|ann|notes.txt|0" ++ [c_nl]) 1003])) = Some ([7]%Z, [7]%Z) ∧
  locks_of (day (first_connections ++ [FromNameServer None 1002; Arrived 6 ($"ETIRW" ++ [c_nl]) 1003])) = Some ([7]%Z, []) ∧
  locks_of (day (first_connections ++ [FromNameServer None 1002; AcceptFailed])) = None.
Proof. vm_compute. repeat split. Qed.
