(* ===== verification/NSMeta.v ===== *)
(** * File metadata and access lists of the name server

    [FileMetadata] of [src/name_server/name_server.h] and the functions of
    [name_server.c] that keep and consult its access lists.  An array of 1000
    names with its count is the list of the names in use. *)
From S2P Require Import Prelude CStr Utils Protocol.

Definition NS_MAX_CLIENTS : nat := 1000.
Definition NS_MAX_FIELD_SIZE : nat := Z.to_nat 4096.

Record FileMetadata := mkMeta {
  fm_filename : cstr;
  fm_owner : cstr;
  fm_ss_ip : cstr;
  fm_ss_port : Z;
  fm_size : Z;
  fm_word_count : Z;
  fm_char_count : Z;
  fm_is_directory : bool;
  fm_created : Z;
  fm_modified : Z;
  fm_last_access : Z;
  fm_last_access_user : cstr;
  fm_last_modified_user : cstr;
  fm_read_users : list cstr;
  fm_write_users : list cstr
}.

(** The zeroed record. *)
Definition meta0 : FileMetadata := mkMeta [] [] [] 0 0 0 0 false 0 0 0 [] [] [] [].

#[global] Instance FileMetadata_eq_dec : EqDecision FileMetadata.
Proof. solve_decision. Defined.

Definition fm_with_name (f : FileMetadata) (name : cstr) : FileMetadata :=
  mkMeta name (fm_owner f) (fm_ss_ip f) (fm_ss_port f) (fm_size f) (fm_word_count f) (fm_char_count f)
    (fm_is_directory f) (fm_created f) (fm_modified f) (fm_last_access f) (fm_last_access_user f)
    (fm_last_modified_user f) (fm_read_users f) (fm_write_users f).

Definition fm_with_owner (f : FileMetadata) (owner : cstr) : FileMetadata :=
  mkMeta (fm_filename f) owner (fm_ss_ip f) (fm_ss_port f) (fm_size f) (fm_word_count f) (fm_char_count f)
    (fm_is_directory f) (fm_created f) (fm_modified f) (fm_last_access f) (fm_last_access_user f)
    (fm_last_modified_user f) (fm_read_users f) (fm_write_users f).

Definition fm_with_place (f : FileMetadata) (ip : cstr) (port : Z) : FileMetadata :=
  mkMeta (fm_filename f) (fm_owner f) ip port (fm_size f) (fm_word_count f) (fm_char_count f)
    (fm_is_directory f) (fm_created f) (fm_modified f) (fm_last_access f) (fm_last_access_user f)
    (fm_last_modified_user f) (fm_read_users f) (fm_write_users f).

Definition fm_with_counts (f : FileMetadata) (size words chars : Z) : FileMetadata :=
  mkMeta (fm_filename f) (fm_owner f) (fm_ss_ip f) (fm_ss_port f) size words chars
    (fm_is_directory f) (fm_created f) (fm_modified f) (fm_last_access f) (fm_last_access_user f)
    (fm_last_modified_user f) (fm_read_users f) (fm_write_users f).

Definition fm_with_modified (f : FileMetadata) (now : Z) : FileMetadata :=
  mkMeta (fm_filename f) (fm_owner f) (fm_ss_ip f) (fm_ss_port f) (fm_size f) (fm_word_count f)
    (fm_char_count f) (fm_is_directory f) (fm_created f) now (fm_last_access f) (fm_last_access_user f)
    (fm_last_modified_user f) (fm_read_users f) (fm_write_users f).

Definition fm_with_modified_by (f : FileMetadata) (user : cstr) (now : Z) : FileMetadata :=
  mkMeta (fm_filename f) (fm_owner f) (fm_ss_ip f) (fm_ss_port f) (fm_size f) (fm_word_count f)
    (fm_char_count f) (fm_is_directory f) (fm_created f) now (fm_last_access f) (fm_last_access_user f)
    (fit MAX_USERNAME_LENGTH user) (fm_read_users f) (fm_write_users f).

Definition fm_with_access_by (f : FileMetadata) (user : cstr) (now : Z) : FileMetadata :=
  mkMeta (fm_filename f) (fm_owner f) (fm_ss_ip f) (fm_ss_port f) (fm_size f) (fm_word_count f)
    (fm_char_count f) (fm_is_directory f) (fm_created f) (fm_modified f) now (fit MAX_USERNAME_LENGTH user)
    (fm_last_modified_user f) (fm_read_users f) (fm_write_users f).

Definition fm_with_acl (f : FileMetadata) (readers writers : list cstr) : FileMetadata :=
  mkMeta (fm_filename f) (fm_owner f) (fm_ss_ip f) (fm_ss_port f) (fm_size f) (fm_word_count f)
    (fm_char_count f) (fm_is_directory f) (fm_created f) (fm_modified f) (fm_last_access f)
    (fm_last_access_user f) (fm_last_modified_user f) readers writers.

(** ** Access lists *)

Definition file_acl_contains (entries : list cstr) (username : cstr) : bool :=
  existsb (λ e, strneq MAX_USERNAME_LENGTH e username) entries.

(** The new list and the result 0 or -1. *)
Definition file_acl_add (entries : list cstr) (username : cstr) : list cstr * Z :=
  if file_acl_contains entries username then (entries, 0%Z)
  else if decide (NS_MAX_CLIENTS <= length entries) then (entries, (-1)%Z)
  else match safe_strcpy username MAX_USERNAME_LENGTH with
       | None => (entries, (-1)%Z)
       | Some name => (entries ++ [name], 0%Z)
       end.

Definition file_acl_remove (entries : list cstr) (username : cstr) : list cstr * bool :=
  match findb (λ e, strneq MAX_USERNAME_LENGTH e username) entries with
  | Some i => (swap_remove i entries, true)
  | None => (entries, false)
  end.

(** The token loop: a failed addition ends it. *)
Fixpoint parse_csv_loop (tokens : list cstr) (entries : list cstr) : list cstr :=
  match tokens with
  | [] => entries
  | token :: rest =>
      let token := trim_string token in
      if negb (bool_decide (token = [])) && validate_username token then
        match file_acl_add entries token with
        | (entries, 0%Z) => parse_csv_loop rest entries
        | (entries, _) => entries
        end
      else parse_csv_loop rest entries
  end.

Definition file_acl_parse_csv (csv : cstr) : list cstr :=
  parse_csv_loop (strtok (λ c, bool_decide (c = ","%char)) (fit NS_MAX_FIELD_SIZE csv)) [].

(** The buffer and the flag [is_first]. *)
Definition acl_append_token (buffer : cstr) (buffer_size : nat) (token : cstr) (is_first : bool)
  : cstr * bool :=
  match token with
  | [] => (buffer, is_first)
  | _ =>
      if is_first then (fit buffer_size token, false)
      else
        let buffer := default buffer (safe_strcat buffer ($", ") buffer_size) in
        (default buffer (safe_strcat buffer token buffer_size), false)
  end.

(** The file and the result 0 or -1: a full list may leave half of the grant. *)
Definition file_add_access (file : FileMetadata) (username : cstr) (grant_read grant_write : bool)
  : FileMetadata * Z :=
  let grant_read := if grant_write then true else grant_read in
  let '(readers, r) := if grant_read then file_acl_add (fm_read_users file) username
                       else (fm_read_users file, 0%Z) in
  let file := fm_with_acl file readers (fm_write_users file) in
  if negb (r =? 0)%Z then (file, (-1)%Z)
  else
    let '(writers, r) := if grant_write then file_acl_add (fm_write_users file) username
                         else (fm_write_users file, 0%Z) in
    (fm_with_acl file (fm_read_users file) writers, if (r =? 0)%Z then 0%Z else (-1)%Z).

Definition file_remove_access (file : FileMetadata) (username : cstr) : FileMetadata * bool :=
  let '(readers, r) := file_acl_remove (fm_read_users file) username in
  let '(writers, w) := file_acl_remove (fm_write_users file) username in
  (fm_with_acl file readers writers, r || w).

Definition is_fm_owner (file : FileMetadata) (username : cstr) : bool :=
  strneq MAX_USERNAME_LENGTH (fm_owner file) username.

Definition file_has_read_access (file : FileMetadata) (username : cstr) : bool :=
  is_fm_owner file username || file_acl_contains (fm_read_users file) username ||
  file_acl_contains (fm_write_users file) username.

Definition file_has_write_access (file : FileMetadata) (username : cstr) : bool :=
  is_fm_owner file username || file_acl_contains (fm_write_users file) username.

(** [None] is the result -1. *)
Definition parse_permission_flags (perm : cstr) : option (bool * bool) :=
  if strcaseeq perm ($"R") || strcaseeq perm ($"READ") then Some (true, false)
  else if strcaseeq perm ($"W") || strcaseeq perm ($"WRITE") then Some (false, true)
  else if strcaseeq perm ($"RW") || strcaseeq perm ($"WR") || strcaseeq perm ($"READWRITE") ||
          strcaseeq perm ($"WRITEREAD") then Some (true, true)
  else None.

(** ** Lemmas *)

Record names_wf (entries : list cstr) : Prop := {
  nw_nodup : NoDup entries;
  nw_short : Forall (λ e, length e < MAX_USERNAME_LENGTH) entries;
  nw_bound : length entries <= NS_MAX_CLIENTS
}.

Definition meta_wf (f : FileMetadata) : Prop :=
  length (fm_owner f) < MAX_USERNAME_LENGTH ∧ names_wf (fm_read_users f) ∧ names_wf (fm_write_users f).

Lemma names_wf_nil : names_wf [].
Proof. split; [constructor|constructor|cbn; lia]. Qed.

Lemma file_acl_contains_spec entries u :
  names_wf entries → length u < MAX_USERNAME_LENGTH → file_acl_contains entries u = true ↔ u ∈ entries.
Proof.
  intros [_ Hs _] Hu. unfold file_acl_contains. rewrite existsb_exists. setoid_rewrite <- list_elem_of_In.
  rewrite Forall_forall in Hs. split.
  - intros (e & He & Heq). apply strneq_exact in Heq as ->; [done|specialize (Hs e He)|]; lia.
  - intros He. exists u. split; [done|]. apply strneq_exact; lia || done.
Qed.

Lemma file_acl_add_spec entries u :
  names_wf entries → length u < MAX_USERNAME_LENGTH →
  let '(entries', r) := file_acl_add entries u in
  names_wf entries' ∧
  ((r = 0%Z ∧ ∀ v, v ∈ entries' ↔ v = u ∨ v ∈ entries) ∨
   (r = (-1)%Z ∧ (u ∉ entries) ∧ length entries = NS_MAX_CLIENTS ∧ entries' = entries)).
Proof.
  intros Hwf Hu. pose proof (file_acl_contains_spec entries u Hwf Hu) as Hc. destruct Hwf as [Hnd Hs Hb].
  unfold file_acl_add. destruct (file_acl_contains entries u) eqn:Hcon.
  - split; [done|]. left. split; [done|]. set_solver.
  - assert (Hni : u ∉ entries) by (rewrite -Hc; done). case_decide.
    + split; [done|]. right. split_and!; [done|done|lia|done].
    + rewrite safe_strcpy_short; [done|]. split; [|left; split; [done|]; set_solver].
      split; [|apply Forall_app; split; [done|by apply Forall_singleton]|rewrite length_app /=; lia].
      apply NoDup_app. split_and!; [done|set_solver|apply NoDup_singleton].
Qed.

Lemma file_acl_remove_spec entries u :
  names_wf entries → length u < MAX_USERNAME_LENGTH →
  let '(entries', r) := file_acl_remove entries u in
  names_wf entries' ∧ (r = true ↔ u ∈ entries) ∧ ∀ v, v ∈ entries' ↔ v ≠ u ∧ v ∈ entries.
Proof.
  intros [Hnd Hs Hb] Hu. unfold file_acl_remove. destruct (findb _ entries) as [i|] eqn:Hf.
  - apply findb_lookup in Hf as (x & Hx & Hsx). pose proof (list_elem_of_lookup_2 _ _ _ Hx) as Hin.
    assert (Hlx : length x < MAX_USERNAME_LENGTH) by (by apply (proj1 (Forall_forall _ _) Hs x)). apply strneq_exact in Hsx as ->; [|lia..].
    pose proof (swap_remove_Permutation _ _ _ Hx) as Hp. pose proof (length_swap_remove _ _ _ Hx) as Hlen.
    rewrite Hp in Hnd. apply NoDup_cons in Hnd as [Hni Hnd]. split_and!.
    + split; [done| |lia]. rewrite Hp in Hs. by apply Forall_cons in Hs as [_ ?].
    + done.
    + intros v. assert (Hv : v ∈ entries ↔ v ∈ u :: swap_remove i entries) by (by rewrite -Hp).
      rewrite Hv elem_of_cons. split; [intros Hin'; split; [by intros ->|by right]|by intros [? [?|?]]].
  - apply findb_None in Hf. rewrite Forall_forall in Hf.
    assert (Hni : u ∉ entries).
    { intros Hin. specialize (Hf u Hin). apply not_true_iff_false in Hf. apply Hf. apply strneq_exact; lia || done. }
    split_and!; [done|done|]. intros v. split; [|by intros []]. intros Hv. split; [by intros ->|done].
Qed.

Lemma is_fm_owner_spec f v : length (fm_owner f) < MAX_USERNAME_LENGTH → length v < MAX_USERNAME_LENGTH →
  is_fm_owner f v = true ↔ v = fm_owner f.
Proof. intros Ho Hv. unfold is_fm_owner. rewrite strneq_exact; [lia|lia|]. naive_solver. Qed.

Lemma read_access_iff f v : meta_wf f → length v < MAX_USERNAME_LENGTH →
  file_has_read_access f v = true ↔ v = fm_owner f ∨ v ∈ fm_read_users f ∨ v ∈ fm_write_users f.
Proof.
  intros (Ho & Hr & Hw) Hv. unfold file_has_read_access.
  rewrite !orb_true_iff is_fm_owner_spec // !file_acl_contains_spec //. tauto.
Qed.

Lemma write_access_iff f v : meta_wf f → length v < MAX_USERNAME_LENGTH →
  file_has_write_access f v = true ↔ v = fm_owner f ∨ v ∈ fm_write_users f.
Proof.
  intros (Ho & Hr & Hw) Hv. unfold file_has_write_access.
  by rewrite orb_true_iff is_fm_owner_spec // file_acl_contains_spec.
Qed.

(** What a grant leaves, also when it fails half way. *)
Lemma file_add_access_spec f u gr gw :
  meta_wf f → length u < MAX_USERNAME_LENGTH →
  let '(f', r) := file_add_access f u gr gw in
  meta_wf f' ∧ (∃ readers writers, f' = fm_with_acl f readers writers) ∧
  (∀ v, v ≠ u → (v ∈ fm_read_users f' ↔ v ∈ fm_read_users f) ∧ (v ∈ fm_write_users f' ↔ v ∈ fm_write_users f)) ∧
  (∀ v, (v ∈ fm_read_users f → v ∈ fm_read_users f') ∧ (v ∈ fm_write_users f → v ∈ fm_write_users f')) ∧
  (r = 0%Z → (gr || gw = true → u ∈ fm_read_users f') ∧ (u ∈ fm_write_users f' ↔ gw = true ∨ u ∈ fm_write_users f) ∧
     (gr || gw = false → fm_read_users f' = fm_read_users f)) ∧
  (length (fm_read_users f) < NS_MAX_CLIENTS → length (fm_write_users f) < NS_MAX_CLIENTS → r = 0%Z).
Proof.
  intros (Ho & Hr & Hw) Hu. unfold file_add_access.
  assert (Hgr : (if gw then true else gr) = gr || gw) by (destruct gr, gw; done). rewrite Hgr. clear Hgr.
  pose proof (file_acl_add_spec _ u Hr Hu) as Har. pose proof (file_acl_add_spec _ u Hw Hu) as Haw.
  destruct (file_acl_add (fm_read_users f) u) as [rs rr], (file_acl_add (fm_write_users f) u) as [ws rw] eqn:Hww.
  destruct Har as [Hwr Har], Haw as [Hwx Haw].
  destruct (gr || gw) eqn:Hg; cbn [Z.eqb negb].
  - destruct Har as [[-> Hrs]|(-> & Hni & Hfull & ->)]; cbn [Z.eqb negb fm_with_acl fm_write_users fm_read_users].
    + destruct gw; rewrite ?Hww.
      * destruct Haw as [[-> Hws]|(-> & Hnw & Hfull & ->)]; cbn;
          (split_and!; [done|by do 2 eexists|set_solver|set_solver| |]); try done; [set_solver|lia].
      * cbn. split_and!; [done|by do 2 eexists|set_solver|set_solver| |done]. set_solver.
    + cbn. split_and!; [done|by do 2 eexists|done|done|done|lia].
  - destruct gr, gw; try done. cbn. split_and!; [done|by do 2 eexists|done|done| |done]. set_solver.
Qed.

Lemma file_remove_access_spec f u :
  meta_wf f → length u < MAX_USERNAME_LENGTH →
  let '(f', r) := file_remove_access f u in
  meta_wf f' ∧ (∃ readers writers, f' = fm_with_acl f readers writers) ∧
  (r = true ↔ u ∈ fm_read_users f ∨ u ∈ fm_write_users f) ∧
  (∀ v, v ∈ fm_read_users f' ↔ v ≠ u ∧ v ∈ fm_read_users f) ∧
  (∀ v, v ∈ fm_write_users f' ↔ v ≠ u ∧ v ∈ fm_write_users f).
Proof.
  intros (Ho & Hr & Hw) Hu. unfold file_remove_access.
  pose proof (file_acl_remove_spec _ u Hr Hu) as Har. pose proof (file_acl_remove_spec _ u Hw Hu) as Haw.
  destruct (file_acl_remove (fm_read_users f) u) as [rs rr], (file_acl_remove (fm_write_users f) u) as [ws rw].
  destruct Har as (Hwr & Hrr & Hrs), Haw as (Hwx & Hrw & Hws).
  split_and!; [done|by do 2 eexists| |done|done]. by rewrite orb_true_iff Hrr Hrw.
Qed.

(** ** Properties *)

(** C28 Granting and revoking work on the rights of one user only.  A grant with
    room in both lists succeeds, gives the user reading (also when only writing
    was asked for) and writing exactly when asked for or held before, and leaves
    everybody else's rights; a revocation succeeds exactly when the user was
    listed, leaves the user no right but ownership and everybody else theirs;
    writing always implies reading. *)
Theorem access_rights_correct f u gr gw :
  meta_wf f → length u < MAX_USERNAME_LENGTH → gr || gw = true →
  length (fm_read_users f) < NS_MAX_CLIENTS → length (fm_write_users f) < NS_MAX_CLIENTS →
  (let '(f', r) := file_add_access f u gr gw in
   r = 0%Z ∧ meta_wf f' ∧ file_has_read_access f' u = true ∧
   file_has_write_access f' u = gw || file_has_write_access f u ∧
   ∀ v, v ≠ u → length v < MAX_USERNAME_LENGTH →
     file_has_read_access f' v = file_has_read_access f v ∧ file_has_write_access f' v = file_has_write_access f v) ∧
  (let '(f', r) := file_remove_access f u in
   meta_wf f' ∧ (r = true ↔ u ∈ fm_read_users f ∨ u ∈ fm_write_users f) ∧
   file_has_read_access f' u = is_fm_owner f u ∧ file_has_write_access f' u = is_fm_owner f u ∧
   ∀ v, v ≠ u → length v < MAX_USERNAME_LENGTH →
     file_has_read_access f' v = file_has_read_access f v ∧ file_has_write_access f' v = file_has_write_access f v) ∧
  (file_has_write_access f u = true → file_has_read_access f u = true).
Proof.
  intros Hwf Hu Hg Hlr Hlw. split_and!.
  - pose proof (file_add_access_spec f u gr gw Hwf Hu) as Hs.
    destruct (file_add_access f u gr gw) as [f' r].
    destruct Hs as (Hwf' & (readers & writers & ->) & Hother & _ & Hok & Hr0).
    specialize (Hr0 Hlr Hlw). destruct (Hok Hr0) as (Hread & Hwrite & _). specialize (Hread Hg).
    split_and!; [done|done| | |].
    + apply read_access_iff; [done|done|]. by right; left.
    + apply eq_true_iff_eq. rewrite orb_true_iff !write_access_iff //. rewrite Hwrite. cbn. tauto.
    + intros v Hv Hlv. destruct (Hother v Hv). split; apply eq_true_iff_eq.
      * rewrite !read_access_iff //. cbn in *. tauto.
      * rewrite !write_access_iff //. cbn in *. tauto.
  - pose proof (file_remove_access_spec f u Hwf Hu) as Hs. destruct (file_remove_access f u) as [f' r].
    destruct Hs as (Hwf' & (readers & writers & ->) & Hr & Hrs & Hws). pose proof Hwf as (Ho & _).
    split_and!; [done|done| | |].
    + apply eq_true_iff_eq. rewrite read_access_iff // is_fm_owner_spec //. rewrite Hrs Hws. cbn. tauto.
    + apply eq_true_iff_eq. rewrite write_access_iff // is_fm_owner_spec //. rewrite Hws. cbn. tauto.
    + intros v Hv Hlv. split; apply eq_true_iff_eq.
      * rewrite !read_access_iff // Hrs Hws. cbn. tauto.
      * rewrite !write_access_iff // Hws. cbn. tauto.
  - rewrite write_access_iff // read_access_iff //. tauto.
Qed.

Lemma access_rights_correct_witness :
  let f := fm_with_acl (fm_with_owner meta0 ($"ann")) [$"bob"] [] in
  file_has_write_access (file_add_access f ($"bob") false true).1 ($"bob") = true ∧
  file_has_read_access (file_remove_access f ($"bob")).1 ($"bob") = false.
Proof.
  intros f.
  assert (Hwf : meta_wf f).
  { split; [vmd|]. split; [|apply names_wf_nil]. split; vmd. }
  pose proof (access_rights_correct f ($"bob") false true Hwf ltac:(vmd) eq_refl ltac:(vmd) ltac:(vmd)) as (Ha & Hr & _).
  destruct (file_add_access f _ _ _) as [f1 r1], (file_remove_access f _) as [f2 r2].
  cbn [fst]. destruct Ha as (_ & _ & _ & -> & _), Hr as (_ & _ & -> & _). split; vm_compute; reflexivity.
Defined.
