(* ===== verification/NSPaths.v ===== *)
(** * Logical paths of the name server

    [ns_validate_logical_path], [ns_split_parent_child],
    [ns_is_descendant_path] and [ns_normalize_destination] of
    [src/name_server/name_server.c], and the tests and the rewriting of paths
    that the VIEWFOLDER, MOVE and DELETE handlers do.  The theorems say that
    valid paths are exactly the sequences of valid segments, and that the string
    operations are the ones on sequences. *)
From S2P Require Import Prelude CStr Utils.

Definition is_slash (c : ascii) : bool := bool_decide (c = c_slash).

(** [path[0] == '/' || path[len - 1] == '/'], for a non-empty path. *)
Definition slash_at_end (path : cstr) : bool :=
  match last path with Some c => is_slash c | None => false end.

Definition slash_at_start (path : cstr) : bool :=
  match path with c :: _ => is_slash c | [] => false end.

Definition ns_validate_logical_path (path : cstr) : bool :=
  negb (bool_decide (path = [])) && validate_filename path &&
  negb (slash_at_start path || slash_at_end path) && negb (contains_sub path ($"//")) &&
  match safe_strcpy path MAX_FILENAME_LENGTH with
  | None => false
  | Some buffer =>
      forallb (λ segment, negb (bool_decide (segment = []) || streq segment ($".") || streq segment ($"..")))
        (strtok is_slash buffer)
  end.

(** The parent and the child; [None] is the result -1. *)
Definition ns_split_parent_child (path : cstr) (parent_size child_size : nat) : option (cstr * cstr) :=
  match drop_while (λ c, negb (is_slash c)) (rev path) with
  | [] =>
      match safe_strcpy [] parent_size, safe_strcpy path child_size with
      | Some parent, Some child => Some (parent, child)
      | _, _ => None
      end
  | _ :: rev_parent =>
      let parent := rev rev_parent in
      if decide (parent_size < length parent + 1) then None
      else match safe_strcpy (drop (S (length parent)) path) child_size with
           | Some child => Some (parent, child)
           | None => None
           end
  end.

Definition ns_is_descendant_path (candidate ancestor : cstr) : bool :=
  match ancestor with
  | [] => true
  | _ =>
      let prefix_len := length ancestor in
      strneq prefix_len candidate ancestor &&
      match drop prefix_len candidate with
      | [] => true
      | c :: _ => is_slash c
      end
  end.

Definition ns_normalize_destination (input : cstr) (size : nat) : option cstr :=
  if streq input ($".") || streq input ($"/") then
    if decide (0 < size) then Some [] else None
  else if ns_validate_logical_path input then safe_strcpy input size
  else None.

(** The loop tests of MOVE and DELETE: the entry is below the path. *)
Definition is_child_path (filename path : cstr) : bool :=
  let len := length path in
  strneq len filename path &&
  match drop len filename with c :: _ => is_slash c | [] => false end.

(** The test of VIEWFOLDER: the entry is directly in the folder (the root is
    the empty path). *)
Definition is_direct_child (filename folder : cstr) : bool :=
  match folder with
  | [] => forallb (λ c, negb (is_slash c)) filename
  | _ =>
      let len := length folder in
      negb (streq filename folder) && strneq len filename folder &&
      match drop len filename with
      | c :: remainder =>
          is_slash c && negb (bool_decide (remainder = [])) && forallb (λ c, negb (is_slash c)) remainder
      | [] => false
      end
  end.

(** The new path of an entry below a moved one; [None]: too long. *)
Definition move_path (final_root src_path filename : cstr) : option cstr :=
  let new_path := final_root ++ drop (length src_path) filename in
  if decide (MAX_FILENAME_LENGTH <= length new_path) then None else Some new_path.

(** ** Paths as sequences of segments *)

Definition segments (path : cstr) : list cstr := fields_on is_slash path.

Definition good_segment (s : cstr) : Prop :=
  s ≠ [] ∧ s ≠ $"." ∧ s ≠ $".." ∧ Forall (λ c, is_slash c = false) s ∧ Forall (λ c, c ∉ invalid_chars) s.

Lemma join_fields_on path : join [c_slash] (segments path) = path.
Proof.
  unfold segments. induction path as [|c path IH]; cbn; [done|].
  pose proof (fields_on_nonempty is_slash path) as Hne.
  destruct (is_slash c) eqn:Hc.
  - apply bool_decide_eq_true in Hc as ->. destruct (fields_on is_slash path); [done|]. by rewrite -IH.
  - destruct (fields_on is_slash path) as [|f fs]; [done|]. destruct fs; cbn in *; by rewrite -IH.
Qed.

Lemma tail_segments path :
  Forall (λ s, s ≠ []) (tail (segments path)) ↔ slash_at_end path = false ∧ contains_sub path ($"//") = false.
Proof.
  unfold segments. induction path as [|c path IH]; [done|].
  pose proof (fields_on_nonempty is_slash path) as Hne.
  cbn [fields_on]. destruct (is_slash c) eqn:Hc.
  - apply bool_decide_eq_true in Hc as ->. cbn [tail].
    destruct path as [|d path]; [split; [by inversion 1|by intros []]|].
    destruct (is_slash d) eqn:Hd.
    + apply bool_decide_eq_true in Hd as ->. cbn. split; [by inversion 1|by intros []].
    + assert (Hcont : contains_sub (c_slash :: d :: path) ($"//") = contains_sub (d :: path) ($"//")).
      { cbn [contains_sub]. apply bool_decide_eq_false in Hd.
        assert (string_starts_with (c_slash :: d :: path) ($"//") = false) as ->; [|done].
        unfold string_starts_with, strneq. apply bool_decide_eq_false. cbn. intros [= ->]. done. }
      rewrite Hcont. change (slash_at_end (c_slash :: d :: path)) with (slash_at_end (d :: path)).
      rewrite -IH. cbn [fields_on]. rewrite Hd. destruct (fields_on is_slash path); [by split; intros; constructor|].
      cbn [tail]. rewrite Forall_cons. naive_solver.
  - assert (Hcont : contains_sub (c :: path) ($"//") = contains_sub path ($"//")).
    { cbn [contains_sub]. apply bool_decide_eq_false in Hc.
      assert (string_starts_with (c :: path) ($"//") = false) as ->; [|done].
      unfold string_starts_with, strneq. apply bool_decide_eq_false. cbn. intros [= ->]. done. }
    assert (Hlast : slash_at_end (c :: path) = slash_at_end path).
    { destruct path as [|d path]; [unfold slash_at_end; cbn; by rewrite Hc|done]. }
    rewrite Hcont Hlast -IH. by destruct (fields_on is_slash path).
Qed.

Lemma segments_nonempty path :
  Forall (λ s, s ≠ []) (segments path) ↔
  path ≠ [] ∧ slash_at_start path = false ∧ slash_at_end path = false ∧ contains_sub path ($"//") = false.
Proof.
  rewrite -tail_segments. unfold segments. destruct path as [|c path]; cbn; [by split; [inversion 1|intros []]|].
  destruct (is_slash c) eqn:Hc; [by split; [inversion 1|naive_solver]|].
  pose proof (fields_on_nonempty is_slash path). destruct (fields_on is_slash path); [done|].
  rewrite Forall_cons. cbn. naive_solver.
Qed.

Lemma segments_app a b : segments (a ++ c_slash :: b) = segments a ++ segments b.
Proof.
  unfold segments. induction a as [|c a IH]; [done|]. cbn. rewrite IH.
  destruct (is_slash c); [done|]. pose proof (fields_on_nonempty is_slash a).
  by destruct (fields_on is_slash a).
Qed.

Lemma segments_inj a b : segments a = segments b → a = b.
Proof. intros H. by rewrite -(join_fields_on a) -(join_fields_on b) H. Qed.

Lemma segments_one s : Forall (λ c, is_slash c = false) s → segments s = [s].
Proof. apply fields_on_no_sep. Qed.

Lemma segments_ne path : segments path ≠ [].
Proof. apply fields_on_nonempty. Qed.

Lemma join_app l k : l ≠ [] → k ≠ [] → join [c_slash] (l ++ k) = join [c_slash] l ++ c_slash :: join [c_slash] k.
Proof.
  intros Hl Hk. induction l as [|s l IH]; [done|]. destruct l as [|t l]; cbn in *.
  - by destruct k.
  - rewrite IH; [done|]. by rewrite -app_assoc.
Qed.

Lemma strtok_segments path : Forall (λ s, s ≠ []) (segments path) → strtok is_slash path = segments path.
Proof.
  unfold strtok, segments. generalize (fields_on is_slash path). induction 1 as [|s l Hs _ IH]; [done|].
  rewrite filter_cons_True; [done|]. by rewrite IH.
Qed.

Lemma segment_chars path (P : ascii → Prop) :
  P c_slash → Forall P path ↔ Forall (Forall P) (segments path).
Proof.
  intros Hs. unfold segments. induction path as [|c path IH]; cbn; [by split; intros; repeat constructor|].
  pose proof (fields_on_nonempty is_slash path). rewrite Forall_cons IH. destruct (is_slash c) eqn:Hc.
  - apply bool_decide_eq_true in Hc as ->. rewrite Forall_cons. by split; [intros []|intros [_ ?]].
  - destruct (fields_on is_slash path); [done|]. rewrite !Forall_cons. tauto.
Qed.

Lemma segments_clean path : Forall (Forall (λ c, is_slash c = false)) (segments path).
Proof. apply fields_on_clean. Qed.

Lemma validate_iff path :
  ns_validate_logical_path path = true ↔ length path < MAX_FILENAME_LENGTH ∧ Forall good_segment (segments path).
Proof.
  unfold ns_validate_logical_path.
  assert (Hgood : Forall good_segment (segments path) ↔
    Forall (λ s, s ≠ []) (segments path) ∧ Forall (Forall (λ c, c ∉ invalid_chars)) (segments path) ∧
    Forall (λ s, s ≠ $"." ∧ s ≠ $"..") (segments path)).
  { pose proof (segments_clean path) as Hclean. rewrite -!Forall_and. rewrite !Forall_forall in Hclean |- *.
    unfold good_segment. split; intros H s Hs; specialize (H s Hs); [tauto|].
    split_and!; try tauto. by apply Hclean. }
  rewrite Hgood -segment_chars; [vmd|]. clear Hgood.
  generalize (validate_filename_spec path). generalize (validate_filename path). intros vf Hvf.
  rewrite !andb_true_iff !negb_true_iff orb_false_iff bool_decide_eq_false.
  rewrite Hvf segments_nonempty. clear Hvf.
  split.
  - intros [[[[Hne (_ & Hlen & Hch)] [Hst Hend]] Hdd] Hseg]. split_and!; try done.
    rewrite fit_short in Hseg; [done|]. rewrite strtok_segments in Hseg; [by apply segments_nonempty|].
    rewrite forallb_forall in Hseg. apply Forall_forall. intros s Hs%list_elem_of_In. specialize (Hseg s Hs).
    apply negb_true_iff, orb_false_iff in Hseg as [[_ ?%streq_false]%orb_false_iff ?%streq_false]. done.
  - intros (Hlen & (Hne & Hst & Hend & Hdd) & Hch & Hdots). split_and!; try done.
    rewrite fit_short; [done|]. rewrite strtok_segments; [by apply segments_nonempty|].
    apply forallb_forall. intros s Hs%list_elem_of_In. rewrite Forall_forall in Hdots.
    destruct (Hdots s Hs) as [?%streq_false ?%streq_false].
    assert (Hnes : s ≠ []).
    { assert (Hall : Forall (λ s, s ≠ []) (segments path)) by by apply segments_nonempty.
      rewrite Forall_forall in Hall. by apply Hall. }
    rewrite (bool_decide_eq_false_2 _ Hnes). by apply negb_true_iff, orb_false_iff; split; [apply orb_false_iff|].
Qed.

Lemma last_segment path : ∃ s, last (segments path) = Some s ∧ segments path = removelast (segments path) ++ [s].
Proof.
  destruct (exists_last (segments_ne path)) as (l & s & Hs). exists s. rewrite Hs. split; [by rewrite last_snoc|].
  by rewrite removelast_last.
Qed.

(** A string prefix that ends at a slash is a prefix of segments. *)
Lemma child_iff f p :
  is_child_path f p = true ↔ ∃ l, l ≠ [] ∧ segments f = segments p ++ l.
Proof.
  unfold is_child_path. rewrite andb_true_iff. split.
  - intros [[t ->]%strneq_prefix Ht]. rewrite drop_app_length in Ht. destruct t as [|c t]; [done|].
    apply bool_decide_eq_true in Ht as ->. exists (segments t). split; [apply segments_ne|]. apply segments_app.
  - intros (l & Hl & Hf). assert (f = p ++ c_slash :: join [c_slash] l) as ->.
    { rewrite -{1}(join_fields_on f) Hf join_app; [apply segments_ne|done|]. by rewrite join_fields_on. }
    split; [apply strneq_prefix; by eexists|]. by rewrite drop_app_length.
Qed.

Lemma descendant_iff c a : a ≠ [] →
  ns_is_descendant_path c a = true ↔ segments a `prefix_of` segments c.
Proof.
  intros Ha. assert (H : ns_is_descendant_path c a = is_child_path c a || streq c a).
  { unfold ns_is_descendant_path, is_child_path. destruct a as [|x a]; [done|].
    destruct (strneq (length (x :: a)) c (x :: a)) eqn:Hs; cbn [andb].
    - apply strneq_prefix in Hs as [t ->]. rewrite drop_app_length. destruct t as [|d t]; cbn [orb].
      + by rewrite app_nil_r streq_refl.
      + rewrite (proj2 (streq_false _ _)); [|by rewrite orb_false_r].
        intros Heq. apply (f_equal length) in Heq. rewrite length_app /= in Heq. lia.
    - symmetry. apply streq_false. intros ->. by rewrite (proj2 (strneq_prefix _ _)) in Hs; [exists []; by rewrite app_nil_r|]. }
  rewrite H orb_true_iff child_iff streq_true. split.
  - intros [(l & _ & ->)| ->]; [by exists l|by exists []; rewrite app_nil_r].
  - intros [l Hl]. destruct l as [|s l]; [right; apply segments_inj; by rewrite Hl app_nil_r|left; by exists (s :: l)].
Qed.

Lemma drop_while_split {A} (p : A → bool) l :
  match drop_while p l with
  | [] => Forall (λ x, p x = true) l
  | x :: rest => ∃ pre, l = pre ++ x :: rest ∧ Forall (λ x, p x = true) pre ∧ p x = false
  end.
Proof.
  induction l as [|y l IH]; cbn; [done|]. destruct (p y) eqn:Hy.
  - destruct (drop_while p l); [by constructor|]. destruct IH as (pre & -> & Hpre & Hx).
    exists (y :: pre). split_and!; [done|by constructor|done].
  - by exists [].
Qed.

Lemma split_iff path :
  length path < MAX_FILENAME_LENGTH →
  ∃ parent child, ns_split_parent_child path MAX_FILENAME_LENGTH MAX_FILENAME_LENGTH = Some (parent, child) ∧
    segments path = (match removelast (segments path) with [] => [] | _ => segments parent end) ++ [child] ∧
    (removelast (segments path) = [] → parent = []).
Proof.
  intros Hlen. unfold ns_split_parent_child.
  pose proof (drop_while_split (λ c, negb (is_slash c)) (rev path)) as Hd.
  destruct (drop_while _ (rev path)) as [|x rp].
  - rewrite (safe_strcpy_short []); [vmd|]. rewrite safe_strcpy_short; [done|]. exists [], path.
    assert (Hs : segments path = [path]).
    { apply segments_one, Forall_forall. intros c Hc. rewrite Forall_forall in Hd.
      apply negb_true_iff, Hd. by apply list_elem_of_In, in_rev, list_elem_of_In; rewrite rev_involutive. }
    by rewrite Hs.
  - destruct Hd as (pre & Hp & Hpre & Hx). apply negb_false_iff, bool_decide_eq_true in Hx as ->.
    apply (f_equal (@rev _)) in Hp. rewrite rev_involutive rev_app_distr /= -app_assoc /= in Hp.
    set (parent := rev rp) in *. set (child := rev pre) in *.
    assert (Hd' : drop (S (length parent)) path = child).
    { rewrite Hp. replace (parent ++ c_slash :: child) with ((parent ++ [c_slash]) ++ child) by by rewrite -app_assoc.
      replace (S (length parent)) with (length (parent ++ [c_slash])) by len. apply drop_app_length. }
    assert (Hl : length path = length parent + 1 + length child) by (rewrite Hp; len).
    rewrite decide_False; [lia|]. rewrite Hd' fit_short; [lia|]. exists parent, child.
    assert (Hc : segments child = [child]).
    { apply segments_one, Forall_forall. intros c Hc. rewrite Forall_forall in Hpre.
      apply negb_true_iff, Hpre. unfold child in Hc. apply list_elem_of_In, in_rev, list_elem_of_In in Hc. done. }
    rewrite Hp segments_app Hc removelast_last. pose proof (segments_ne parent).
    split_and!; [done| |]; by destruct (segments parent).
Qed.

Lemma direct_child_iff f p : p ≠ [] → Forall good_segment (segments f) →
  is_direct_child f p = true ↔ ∃ s, segments f = segments p ++ [s].
Proof.
  intros Hp Hgood. unfold is_direct_child. destruct p as [|x p0] eqn:Hpe; [done|]. rewrite -Hpe in Hp |- *. split.
  - rewrite !andb_true_iff. intros [[_ [t ->]%strneq_prefix] Ht]. rewrite drop_app_length in Ht.
    destruct t as [|c t]; [done|]. rewrite !andb_true_iff in Ht. destruct Ht as [[->%bool_decide_eq_true _] Ht].
    exists t. rewrite segments_app. f_equal. apply segments_one, Forall_forall. intros c Hc.
    rewrite forallb_forall in Ht. apply negb_true_iff, Ht. by apply list_elem_of_In.
  - intros [s Hs]. assert (Hf : f = p ++ c_slash :: s).
    { rewrite -{1}(join_fields_on f) Hs join_app; [apply segments_ne|done|]. by rewrite join_fields_on. }
    rewrite Hs in Hgood. apply Forall_app in Hgood as [_ [Hgs _]%Forall_cons].
    destruct Hgs as (Hne & _ & _ & Hclean & _).
    rewrite !andb_true_iff negb_true_iff streq_false. split_and!.
    + intros Heq. apply (f_equal length) in Heq. rewrite Hf length_app /= in Heq. lia.
    + apply strneq_prefix. by eexists.
    + rewrite Hf drop_app_length !andb_true_iff negb_true_iff bool_decide_eq_false.
      split_and!; [done|done|]. apply forallb_forall. intros c Hc%list_elem_of_In.
      rewrite Forall_forall in Hclean. by apply negb_true_iff, Hclean.
Qed.

Lemma root_child_iff f : is_direct_child f [] = true ↔ ∃ s, segments f = [s].
Proof.
  cbn. rewrite forallb_forall. split.
  - intros H. exists f. apply segments_one, Forall_forall. intros c Hc. by apply negb_true_iff, H, list_elem_of_In.
  - intros [s Hs] c Hc. apply negb_true_iff. pose proof (segments_clean f) as Hcl.
    rewrite Hs in Hcl. apply Forall_cons in Hcl as [Hcl _].
    assert (f = s) as -> by (rewrite -(join_fields_on f) Hs; done).
    rewrite Forall_forall in Hcl. by apply Hcl, list_elem_of_In.
Qed.

Lemma move_path_segments root src f l new :
  segments f = segments src ++ l → move_path root src f = Some new →
  segments new = segments root ++ l ∧ length new < MAX_FILENAME_LENGTH.
Proof.
  intros Hf. unfold move_path. case_decide; [done|]. intros [= <-]. split; [|lia].
  destruct l as [|s l].
  - rewrite app_nil_r in Hf. apply segments_inj in Hf as ->. rewrite drop_all. by rewrite !app_nil_r.
  - assert (f = src ++ c_slash :: join [c_slash] (s :: l)) as ->.
    { rewrite -{1}(join_fields_on f) Hf join_app; [apply segments_ne|done|]. by rewrite join_fields_on. }
    rewrite drop_app_length segments_app. f_equal. rewrite segments_app in Hf. by simplify_list_eq.
Qed.

(** ** Properties *)

(** C29 Logical paths are sequences of segments.  A path is valid exactly when it
    fits its buffer and its segments are non-empty, not ["."] or [".."], and
    without the forbidden characters; and on valid paths the string operations
    are those on sequences: the split takes off the last segment, "is a
    descendant" is the prefix order, "is below" the strict prefix order, the
    listing test "one segment more", and a move replaces the source's segments
    by the destination's. *)
Theorem paths_are_segments path :
  (ns_validate_logical_path path = true ↔
     length path < MAX_FILENAME_LENGTH ∧ Forall good_segment (segments path)) ∧
  (length path < MAX_FILENAME_LENGTH → ∃ parent child,
     ns_split_parent_child path MAX_FILENAME_LENGTH MAX_FILENAME_LENGTH = Some (parent, child) ∧
     segments path = (match removelast (segments path) with [] => [] | _ => segments parent end) ++ [child] ∧
     (removelast (segments path) = [] → parent = [])) ∧
  (∀ other, other ≠ [] →
     (ns_is_descendant_path path other = true ↔ segments other `prefix_of` segments path) ∧
     (is_child_path path other = true ↔ ∃ l, l ≠ [] ∧ segments path = segments other ++ l) ∧
     (ns_validate_logical_path path = true →
        is_direct_child path other = true ↔ ∃ s, segments path = segments other ++ [s])) ∧
  (is_direct_child path [] = true ↔ ∃ s, segments path = [s]) ∧
  (∀ root src l new, segments path = segments src ++ l → move_path root src path = Some new →
     segments new = segments root ++ l).
Proof.
  split; [apply validate_iff|]. split; [apply split_iff|]. split; [|split; [apply root_child_iff|]].
  - intros other Hne. split; [by apply descendant_iff|]. split; [apply child_iff|].
    intros [_ Hgood]%validate_iff. by apply direct_child_iff.
  - intros root src l new Hp Hm. by destruct (move_path_segments root src path l new Hp Hm).
Qed.

(** A name that [validate_filename] accepts and no logical path has. *)
Lemma odd_name : validate_filename ($"a//b") = true ∧ ns_validate_logical_path ($"a//b") = false.
Proof. split; vm_compute; reflexivity. Qed.
