(* ===== verification/NSState.v ===== *)
(** * The state of the name server and its file registry

    The structures of [src/name_server/name_server.h] and the functions of
    [name_server.c] on them that run under [state_lock]: the hash index over
    the array of files, the lookup cache in front of it, removal by swapping
    with the last entry, registration of servers and clients, and the choice of
    a storage server.  The invariant and the abstraction to a finite map are in
    [NSIndex]. *)
From S2P Require Import Prelude CStr Utils Protocol Disk NSMeta.

Definition NS_MAX_STORAGE_SERVERS : nat := 100.
Definition NS_MAX_FILES : nat := Z.to_nat 10000.
Definition NS_MAX_ACCESS_REQUESTS : nat := 1024.
Definition FILE_INDEX_SIZE : nat := 1024.
Definition FILE_CACHE_SIZE : nat := 64.
Definition ULONG : Z := 2 ^ 64.

(** An entry is an allocated object: [si_id] is its identity.  The fields of
    the request-response protocol are in [NSComm]. *)
Record StorageServerInfo := mkInfo {
  si_id : nat;
  si_ns_ip : cstr;
  si_ns_port : Z;
  si_client_ip : cstr;
  si_client_port : Z;
  si_sockfd : Z;
  si_is_alive : bool;
  si_last_heartbeat : Z;
  si_total_bytes : Z;
  si_total_files : Z
}.

Definition si_with_load (s : StorageServerInfo) (bytes files : Z) : StorageServerInfo :=
  mkInfo (si_id s) (si_ns_ip s) (si_ns_port s) (si_client_ip s) (si_client_port s) (si_sockfd s)
    (si_is_alive s) (si_last_heartbeat s) bytes files.

Record ClientInfo := mkClient {
  cl_username : cstr;
  cl_sockfd : Z;
  cl_is_connected : bool
}.

Record FileIndexNode := mkNode { in_filename : cstr; in_index : nat }.

Record FileCacheEntry := mkEntry {
  ce_filename : cstr;
  ce_index : nat;
  ce_valid : bool;
  ce_last_used : Z
}.

Record AccessRequest := mkRequest {
  ar_id : Z;
  ar_filename : cstr;
  ar_from_user : cstr;
  ar_to_user : cstr;
  ar_grant_read : bool;
  ar_grant_write : bool;
  ar_is_pending : bool
}.

(** Each array with its count is the list of the entries in use; [ns_disk] is
    the file system of the metadata store and [ns_next_ss] the allocator's next
    identity. *)
Record NameServer := mkNS {
  ns_port : Z;
  ns_servers : list StorageServerInfo;
  ns_clients : list ClientInfo;
  ns_files : list FileMetadata;
  ns_requests : list AccessRequest;
  ns_next_request_id : Z;
  ns_index : list (list FileIndexNode);
  ns_cache : list FileCacheEntry;
  ns_tick : Z;
  ns_round_robin : nat;
  ns_disk : Disk;
  ns_next_ss : nat
}.

Definition set_servers (ns : NameServer) (x : list StorageServerInfo) : NameServer :=
  mkNS (ns_port ns) x (ns_clients ns) (ns_files ns) (ns_requests ns) (ns_next_request_id ns)
    (ns_index ns) (ns_cache ns) (ns_tick ns) (ns_round_robin ns) (ns_disk ns) (ns_next_ss ns).

Definition set_clients (ns : NameServer) (x : list ClientInfo) : NameServer :=
  mkNS (ns_port ns) (ns_servers ns) x (ns_files ns) (ns_requests ns) (ns_next_request_id ns)
    (ns_index ns) (ns_cache ns) (ns_tick ns) (ns_round_robin ns) (ns_disk ns) (ns_next_ss ns).

Definition set_meta (ns : NameServer) (x : list FileMetadata) : NameServer :=
  mkNS (ns_port ns) (ns_servers ns) (ns_clients ns) x (ns_requests ns) (ns_next_request_id ns)
    (ns_index ns) (ns_cache ns) (ns_tick ns) (ns_round_robin ns) (ns_disk ns) (ns_next_ss ns).

Definition set_requests (ns : NameServer) (x : list AccessRequest) (next : Z) : NameServer :=
  mkNS (ns_port ns) (ns_servers ns) (ns_clients ns) (ns_files ns) x next
    (ns_index ns) (ns_cache ns) (ns_tick ns) (ns_round_robin ns) (ns_disk ns) (ns_next_ss ns).

Definition set_index (ns : NameServer) (x : list (list FileIndexNode)) : NameServer :=
  mkNS (ns_port ns) (ns_servers ns) (ns_clients ns) (ns_files ns) (ns_requests ns) (ns_next_request_id ns)
    x (ns_cache ns) (ns_tick ns) (ns_round_robin ns) (ns_disk ns) (ns_next_ss ns).

Definition set_cache (ns : NameServer) (x : list FileCacheEntry) (tick : Z) : NameServer :=
  mkNS (ns_port ns) (ns_servers ns) (ns_clients ns) (ns_files ns) (ns_requests ns) (ns_next_request_id ns)
    (ns_index ns) x tick (ns_round_robin ns) (ns_disk ns) (ns_next_ss ns).

Definition set_round_robin (ns : NameServer) (x : nat) : NameServer :=
  mkNS (ns_port ns) (ns_servers ns) (ns_clients ns) (ns_files ns) (ns_requests ns) (ns_next_request_id ns)
    (ns_index ns) (ns_cache ns) (ns_tick ns) x (ns_disk ns) (ns_next_ss ns).

Definition set_ns_disk (ns : NameServer) (x : Disk) : NameServer :=
  mkNS (ns_port ns) (ns_servers ns) (ns_clients ns) (ns_files ns) (ns_requests ns) (ns_next_request_id ns)
    (ns_index ns) (ns_cache ns) (ns_tick ns) (ns_round_robin ns) x (ns_next_ss ns).

Definition set_next_ss (ns : NameServer) (x : nat) : NameServer :=
  mkNS (ns_port ns) (ns_servers ns) (ns_clients ns) (ns_files ns) (ns_requests ns) (ns_next_request_id ns)
    (ns_index ns) (ns_cache ns) (ns_tick ns) (ns_round_robin ns) (ns_disk ns) x.

(** ** The hash index *)

(** [(unsigned long)c] of a signed character. *)
Definition schar (c : ascii) : Z := if (code c <? 128)%Z then code c else (code c - 256)%Z.

Definition hash_filename (str : cstr) : Z :=
  foldl (λ hash c, ((Z.shiftl hash 5 + hash + schar c) mod ULONG)%Z) 5381%Z str.

Definition bucket_of (filename : cstr) : nat := Z.to_nat (hash_filename filename mod Z.of_nat FILE_INDEX_SIZE).

Definition bucket (index : list (list FileIndexNode)) (b : nat) : list FileIndexNode :=
  match index !! b with Some l => l | None => [] end.

Definition is_node (filename : cstr) (node : FileIndexNode) : bool := streq (in_filename node) filename.

Definition index_find (index : list (list FileIndexNode)) (filename : cstr) : option nat :=
  in_index <$> firstb (is_node filename) (bucket index (bucket_of filename)).

Definition file_index_find (ns : NameServer) (filename : cstr) : option nat :=
  index_find (ns_index ns) filename.

(** The node's [file_array_index] is set when the name is in its bucket. *)
Definition index_set (index : list (list FileIndexNode)) (filename : cstr) (array_index : nat)
  : list (list FileIndexNode) :=
  alter (update_firstb (is_node filename) (λ node, mkNode (in_filename node) array_index))
    (bucket_of filename) index.

Definition index_insert (index : list (list FileIndexNode)) (filename : cstr) (array_index : nat)
  : list (list FileIndexNode) * bool :=
  match index_find index filename with
  | Some _ => (index_set index filename array_index, true)
  | None =>
      match safe_strcpy filename MAX_FILENAME_LENGTH with
      | None => (index, false)
      | Some name => (alter (cons (mkNode name array_index)) (bucket_of filename) index, true)
      end
  end.

(** [false] is the result -1. *)
Definition file_index_insert (ns : NameServer) (filename : cstr) (array_index : nat) : NameServer * bool :=
  let '(index, ok) := index_insert (ns_index ns) filename array_index in (set_index ns index, ok).

Definition index_remove (index : list (list FileIndexNode)) (filename : cstr) : list (list FileIndexNode) :=
  alter (remove_firstb (is_node filename)) (bucket_of filename) index.

Definition file_index_remove_entry (ns : NameServer) (filename : cstr) : NameServer * bool :=
  match file_index_find ns filename with
  | Some _ => (set_index ns (index_remove (ns_index ns) filename), true)
  | None => (ns, false)
  end.

Definition ns_clear_file_index (ns : NameServer) : NameServer :=
  set_index ns (replicate FILE_INDEX_SIZE []).

(** ** The lookup cache *)

Definition next_tick (tick : Z) : Z := ((tick + 1) mod ULONG)%Z.

Definition is_entry (filename : cstr) (e : FileCacheEntry) : bool := ce_valid e && streq (ce_filename e) filename.

Definition invalid (e : FileCacheEntry) : FileCacheEntry :=
  mkEntry (ce_filename e) (ce_index e) false (ce_last_used e).

(** The scan: entries of the name out of range are dropped on the way to a hit. *)
Fixpoint cache_lookup (cache : list FileCacheEntry) (filename : cstr) (count : nat) (tick : Z)
  : list FileCacheEntry * option nat :=
  match cache with
  | [] => ([], None)
  | e :: rest =>
      if is_entry filename e then
        if decide (count <= ce_index e) then
          let '(rest, r) := cache_lookup rest filename count tick in (invalid e :: rest, r)
        else (mkEntry (ce_filename e) (ce_index e) true tick :: rest, Some (ce_index e))
      else let '(rest, r) := cache_lookup rest filename count tick in (e :: rest, r)
  end.

Definition file_cache_lookup (ns : NameServer) (filename : cstr) : NameServer * option nat :=
  let '(cache, r) := cache_lookup (ns_cache ns) filename (length (ns_files ns)) (next_tick (ns_tick ns)) in
  (set_cache ns cache (match r with Some _ => next_tick (ns_tick ns) | None => ns_tick ns end), r).

(** The least recently used entry, [None] when every entry has [ULONG_MAX]. *)
Fixpoint oldest_entry (cache : list FileCacheEntry) (i : nat) (oldest : Z) (found : option nat) : option nat :=
  match cache with
  | [] => found
  | e :: rest =>
      if negb (ce_valid e) then Some i
      else if (ce_last_used e <? oldest)%Z then oldest_entry rest (S i) (ce_last_used e) (Some i)
      else oldest_entry rest (S i) oldest found
  end.

Definition cache_target (cache : list FileCacheEntry) (filename : cstr) : option nat :=
  match findb (is_entry filename) cache with
  | Some i => Some i
  | None =>
      match findb (λ e, negb (ce_valid e)) cache with
      | Some i => Some i
      | None => oldest_entry cache 0 (ULONG - 1) None
      end
  end.

Definition file_cache_store (ns : NameServer) (filename : cstr) (array_index : nat) : NameServer :=
  if decide (length (ns_files ns) <= array_index) then ns
  else
    match cache_target (ns_cache ns) filename with
    | None => ns
    | Some target =>
        match safe_strcpy filename MAX_FILENAME_LENGTH with
        | None => set_cache ns (alter invalid target (ns_cache ns)) (ns_tick ns)
        | Some name =>
            let tick := next_tick (ns_tick ns) in
            set_cache ns (<[target := mkEntry name array_index true tick]> (ns_cache ns)) tick
        end
    end.

Definition file_cache_invalidate (ns : NameServer) (filename : cstr) : NameServer :=
  set_cache ns (map (λ e, if is_entry filename e then invalid e else e) (ns_cache ns)) (ns_tick ns).

(** Every matching entry takes a fresh tick. *)
Fixpoint cache_rename (cache : list FileCacheEntry) (old_name new_name : cstr) (array_index : nat) (tick : Z)
  : list FileCacheEntry * Z :=
  match cache with
  | [] => ([], tick)
  | e :: rest =>
      if is_entry old_name e then
        let tick := next_tick tick in
        let '(rest, tick') := cache_rename rest old_name new_name array_index tick in
        (mkEntry (fit MAX_FILENAME_LENGTH new_name) array_index true tick :: rest, tick')
      else let '(rest, tick') := cache_rename rest old_name new_name array_index tick in (e :: rest, tick')
  end.

Definition file_cache_rename (ns : NameServer) (old_name new_name : cstr) (array_index : nat) : NameServer :=
  let '(cache, tick) := cache_rename (ns_cache ns) old_name new_name array_index (ns_tick ns) in
  set_cache ns cache tick.

(** ** Lookup and removal *)

(** The array index of the file. *)
Definition file_lookup_locked (ns : NameServer) (filename : cstr) : NameServer * option nat :=
  match file_cache_lookup ns filename with
  | (ns, Some i) => (ns, Some i)
  | (ns, None) =>
      match file_index_find ns filename with
      | Some i =>
          if decide (i < length (ns_files ns)) then (file_cache_store ns filename i, Some i) else (ns, None)
      | None => (ns, None)
      end
  end.

(** The cache after the removal: [moved] is the entry that took the place. *)
Definition cache_after_remove (filename : cstr) (moved : option cstr) (removed_index count : nat)
    (e : FileCacheEntry) : FileCacheEntry :=
  if negb (ce_valid e) then e
  else if streq (ce_filename e) filename then invalid e
  else
    let e := match moved with
             | Some name => if streq (ce_filename e) name
                            then mkEntry (ce_filename e) removed_index true (ce_last_used e) else e
             | None => e
             end in
    if decide (count <= ce_index e) then invalid e else e.

Definition remove_file_metadata_locked (ns : NameServer) (filename : cstr) : NameServer * bool :=
  match file_index_find ns filename with
  | None => (ns, false)
  | Some i =>
      let ns := set_index ns (index_remove (ns_index ns) filename) in
      let original_count := length (ns_files ns) in
      let last_index := original_count - 1 in
      let removed_index := if decide (i < original_count) then i else last_index in
      let moved :=
        if decide (removed_index = last_index) then None
        else match ns_files ns !! last_index with
             | Some m => match fm_filename m with [] => None | name => Some name end
             | None => None
             end in
      let ns := set_meta ns (swap_remove removed_index (ns_files ns)) in
      let ns := match moved with
                | Some name => set_index ns (index_set (ns_index ns) name removed_index)
                | None => ns
                end in
      (set_cache ns (map (cache_after_remove filename moved removed_index (length (ns_files ns))) (ns_cache ns))
         (ns_tick ns), true)
  end.

(** ** Storage servers *)

Definition same_place (ss : StorageServerInfo) (ip : cstr) (port : Z) : bool :=
  strneq MAX_IP_LENGTH (si_client_ip ss) ip && (si_client_port ss =? port)%Z.

Definition find_storage_server_by_sockfd (ns : NameServer) (sockfd : Z) : option StorageServerInfo :=
  firstb (λ s, (si_sockfd s =? sockfd)%Z) (ns_servers ns).

(** A changed entry, found by its identity. *)
Definition update_server (ns : NameServer) (ss : StorageServerInfo) : NameServer :=
  set_servers ns (map (λ s, if decide (si_id s = si_id ss) then ss else s) (ns_servers ns)).

(** The files and bytes the registry places on an endpoint ([long long]
    additions; sizes are far from the bound). *)
Definition server_load (files : list FileMetadata) (ip : cstr) (port : Z) : Z * Z :=
  foldl (λ st meta,
           if fm_is_directory meta then st
           else if strneq MAX_IP_LENGTH (fm_ss_ip meta) ip && (fm_ss_port meta =? port)%Z then
             (if (0 <? fm_size meta)%Z then (st.1 + fm_size meta)%Z else st.1, st.2 + 1)%Z
           else st)
    (0, 0)%Z files.

Definition ns_recalculate_server_load_locked (ns : NameServer) (ss : StorageServerInfo) : NameServer :=
  let '(bytes, files) := server_load (ns_files ns) (si_client_ip ss) (si_client_port ss) in
  update_server ns (si_with_load ss (if (bytes <? 0)%Z then 0%Z else bytes) files).

(** Negative loads of the candidates are set to zero on the way. *)
Definition clamp_load (s : StorageServerInfo) : StorageServerInfo :=
  si_with_load s (Z.max 0 (si_total_bytes s)) (Z.max 0 (si_total_files s)).

Definition lighter (a b : StorageServerInfo) : bool :=
  (si_total_bytes a <? si_total_bytes b)%Z ||
  ((si_total_bytes a =? si_total_bytes b)%Z && (si_total_files a <? si_total_files b)%Z).

Fixpoint select_loop (servers : list StorageServerInfo) (start : nat) (offsets : list nat)
    (best : option (nat * StorageServerInfo)) : list StorageServerInfo * option (nat * StorageServerInfo) :=
  match offsets with
  | [] => (servers, best)
  | offset :: rest =>
      let idx := (start + offset) mod length servers in
      match servers !! idx with
      | None => select_loop servers start rest best
      | Some candidate =>
          if negb (si_is_alive candidate) then select_loop servers start rest best
          else
            let candidate := clamp_load candidate in
            let servers := <[idx := candidate]> servers in
            let best := match best with
                        | None => Some (idx, candidate)
                        | Some (_, b) => if lighter candidate b then Some (idx, candidate) else best
                        end in
            select_loop servers start rest best
      end
  end.

Definition ns_select_storage_server_balanced (ns : NameServer) : NameServer * option StorageServerInfo :=
  match ns_servers ns with
  | [] => (ns, None)
  | _ =>
      let count := length (ns_servers ns) in
      let '(servers, best) := select_loop (ns_servers ns) (ns_round_robin ns) (seq 0 count) None in
      let ns := set_servers ns servers in
      match best with
      | Some (best_index, ss) => (set_round_robin ns ((best_index + 1) mod count), Some ss)
      | None => (ns, None)
      end
  end.

(** [false] is the result -1.  The addresses fit their fields (the caller has
    checked them), and the registration takes a fresh entry. *)
Definition ns_register_storage_server (ns : NameServer) (ns_ip : cstr) (port : Z) (client_ip : cstr)
    (client_port sockfd now : Z) : NameServer * bool :=
  if decide (NS_MAX_STORAGE_SERVERS <= length (ns_servers ns)) then (ns, false)
  else if existsb (λ info, si_is_alive info && streq (si_client_ip info) client_ip &&
                           (si_client_port info =? client_port)%Z) (ns_servers ns) then (ns, false)
  else
    let ss := mkInfo (ns_next_ss ns) (fit MAX_IP_LENGTH ns_ip) port (fit MAX_IP_LENGTH client_ip) client_port
                sockfd true now 0 0 in
    (set_servers (set_next_ss ns (S (ns_next_ss ns))) (ns_servers ns ++ [ss]), true).

(** What [connection_thread] does with the table when a server's connection
    ends: the entry is taken out by swapping with the last. *)
Definition deregister_storage_server (ns : NameServer) (conn_fd : Z) : NameServer * option StorageServerInfo :=
  match findb (λ s, (si_sockfd s =? conn_fd)%Z) (ns_servers ns) with
  | Some i => (set_servers ns (swap_remove i (ns_servers ns)), ns_servers ns !! i)
  | None => (ns, None)
  end.

(** The index of the live server that has the file. *)
Definition ns_find_storage_server (ns : NameServer) (filename : cstr) : NameServer * option nat :=
  match file_lookup_locked ns filename with
  | (ns, None) => (ns, None)
  | (ns, Some i) =>
      (ns, match ns_files ns !! i with
           | Some file => findb (λ s, si_is_alive s && same_place s (fm_ss_ip file) (fm_ss_port file)) (ns_servers ns)
           | None => None
           end)
  end.

(** The search the handlers do before they talk to a file's server. *)
Definition server_of (ns : NameServer) (file : FileMetadata) : option StorageServerInfo :=
  firstb (λ s, si_is_alive s && negb (si_sockfd s <? 0)%Z && same_place s (fm_ss_ip file) (fm_ss_port file))
    (ns_servers ns).

(** ** Clients *)

(** [false] is the result -1. *)
Definition ns_register_client (ns : NameServer) (username : cstr) (sockfd : Z) : NameServer * bool :=
  match findb (λ c, streq (cl_username c) username) (ns_clients ns) with
  | Some i =>
      match ns_clients ns !! i with
      | Some c =>
          if cl_is_connected c then (ns, false)
          else (set_clients ns (<[i := mkClient (cl_username c) sockfd true]> (ns_clients ns)), true)
      | None => (ns, false)
      end
  | None =>
      if decide (NS_MAX_CLIENTS <= length (ns_clients ns)) then (ns, false)
      else (set_clients ns (ns_clients ns ++ [mkClient (fit MAX_USERNAME_LENGTH username) sockfd true]), true)
  end.

(** The end of a client's connection: the session entry is kept. *)
Definition client_disconnected (ns : NameServer) (username : cstr) : NameServer :=
  match username with
  | [] => ns
  | _ => set_clients ns (update_firstb (λ c, streq (cl_username c) username)
                           (λ c, mkClient (cl_username c) (-1) false) (ns_clients ns))
  end.

(** The zeroed state of [ns_init], before the metadata is loaded. *)
Definition ns_blank (port : Z) (d : Disk) : NameServer :=
  mkNS port [] [] [] [] 1 (replicate FILE_INDEX_SIZE []) (replicate FILE_CACHE_SIZE (mkEntry [] 0 false 0)) 0 0 d 0.

(** ** Additions and changes, as the handlers compose them *)

(** A new entry at the end of the array, indexed and cached under [filename]. *)
Definition register_file (ns : NameServer) (filename : cstr) (file : FileMetadata) : NameServer * bool :=
  let new_index := length (ns_files ns) in
  match file_index_insert ns filename new_index with
  | (_, false) => (ns, false)
  | (ns1, true) => (file_cache_store (set_meta ns1 (ns_files ns ++ [file])) filename new_index, true)
  end.

Definition update_file (ns : NameServer) (i : nat) (file : FileMetadata) : NameServer :=
  set_meta ns (<[i := file]> (ns_files ns)).

(** One entry of a move: the index, the array and the cache take the new name. *)
Definition rename_file (ns : NameServer) (old_path new_path user : cstr) (now : Z) : NameServer :=
  match file_lookup_locked ns old_path with
  | (ns, None) => ns
  | (ns, Some i) =>
      match ns_files ns !! i with
      | None => ns
      | Some meta =>
          let '(ns, _) := file_index_remove_entry ns old_path in
          let meta := fm_with_name meta (fit MAX_FILENAME_LENGTH new_path) in
          let '(ns, _) := file_index_insert ns (fm_filename meta) i in
          let ns := file_cache_rename ns old_path new_path i in
          update_file ns i (fm_with_access_by (fm_with_modified_by meta user now) user now)
      end
  end.
