(* ===== verification/NSIndex.v ===== *)
(** * The file registry as a finite map

    The invariant that ties the array of files, the hash index and the lookup
    cache together, its preservation by every operation of the registry, and
    the refinement: the registry implements a finite map from names to
    metadata, in which a lookup is a lookup, a removal a deletion and an
    addition an insertion, whatever the cache and the hash chains hold. *)
From S2P Require Import Prelude CStr Utils Protocol Disk NSMeta NSState.

(** ** The hash index *)

Lemma hash_range s : (0 <= hash_filename s < ULONG)%Z.
Proof.
  unfold hash_filename. assert (H : (0 <= 5381 < ULONG)%Z) by vmd. revert H. generalize 5381%Z.
  induction s as [|c s IH]; intros h H; cbn; [done|]. apply IH. apply Z.mod_pos_bound. vmd.
Qed.

Lemma bucket_bound s : bucket_of s < FILE_INDEX_SIZE.
Proof.
  unfold bucket_of. pose proof (Z.mod_pos_bound (hash_filename s) (Z.of_nat FILE_INDEX_SIZE) ltac:(vmd)).
  apply Nat2Z.inj_lt. rewrite Z2Nat.id; lia.
Qed.

Record index_wf (index : list (list FileIndexNode)) : Prop := {
  iw_length : length index = FILE_INDEX_SIZE;
  iw_bucket : ∀ b, NoDup (map in_filename (bucket index b))
}.

Lemma bucket_alter index f b b' :
  length index = FILE_INDEX_SIZE → b < FILE_INDEX_SIZE →
  bucket (alter f b index) b' = if decide (b' = b) then f (bucket index b) else bucket index b'.
Proof.
  intros Hl Hb. unfold bucket. case_decide as Heq; [subst b'|].
  - destruct (lookup_lt_is_Some_2 index b) as [l Hbl]; [lia|]. by rewrite list_lookup_alter_eq Hbl.
  - by rewrite list_lookup_alter_ne.
Qed.

Lemma index_find_alter index f name other :
  index_wf index → (∀ l, firstb (is_node other) (f l) = firstb (is_node other) l) →
  index_find (alter f (bucket_of name) index) other = index_find index other.
Proof.
  intros [Hl _] Hf. unfold index_find. rewrite bucket_alter; [done|apply bucket_bound|].
  case_decide as Heq; [|done]. by rewrite Hf Heq.
Qed.

Lemma is_node_true name node : is_node name node = true ↔ in_filename node = name.
Proof. apply streq_true. Qed.

Lemma firstb_set_ne name other i l : name ≠ other →
  firstb (is_node other) (update_firstb (is_node name) (λ node, mkNode (in_filename node) i) l) =
  firstb (is_node other) l.
Proof.
  intros Hne. induction l as [|node l IH]; cbn; [done|]. destruct (is_node name node) eqn:Hn; cbn.
  - apply is_node_true in Hn. unfold is_node. cbn. by rewrite (proj2 (streq_false _ _)); [congruence|].
  - by rewrite IH.
Qed.

Lemma firstb_set_eq name i l : is_Some (firstb (is_node name) l) →
  firstb (is_node name) (update_firstb (is_node name) (λ node, mkNode (in_filename node) i) l) = Some (mkNode name i).
Proof.
  induction l as [|node l IH]; cbn; [by intros []|]. destruct (is_node name node) eqn:Hn; cbn.
  - intros _. apply is_node_true in Hn. unfold is_node. cbn. by rewrite Hn streq_refl.
  - rewrite Hn. done.
Qed.

Lemma firstb_remove_ne name other l : name ≠ other →
  firstb (is_node other) (remove_firstb (is_node name) l) = firstb (is_node other) l.
Proof.
  intros Hne. induction l as [|node l IH]; cbn; [done|]. destruct (is_node name node) eqn:Hn; cbn.
  - apply is_node_true in Hn. unfold is_node at 2. by rewrite (proj2 (streq_false _ _)); [congruence|].
  - by rewrite IH.
Qed.

Lemma firstb_remove_eq name l : NoDup (map in_filename l) →
  firstb (is_node name) (remove_firstb (is_node name) l) = None.
Proof.
  induction l as [|node l IH]; cbn; intros Hnd; [done|]. apply NoDup_cons in Hnd as [Hni Hnd].
  destruct (is_node name node) eqn:Hn; cbn; [|rewrite Hn; by apply IH].
  apply is_node_true in Hn as <-. apply firstb_None, Forall_forall. intros x Hx. apply streq_false.
  intros Heq. apply Hni. rewrite -Heq. by apply (list_elem_of_fmap_2 in_filename).
Qed.

Lemma bucket_wf index f name :
  index_wf index → (∀ l, NoDup (map in_filename l) → l = bucket index (bucket_of name) → NoDup (map in_filename (f l))) →
  index_wf (alter f (bucket_of name) index).
Proof.
  intros [Hl Hb] Hf. split; [by rewrite length_alter|]. intros b. rewrite bucket_alter; [done|apply bucket_bound|].
  case_decide; [by apply Hf|done].
Qed.

Lemma map_update_firstb name i l :
  map in_filename (update_firstb (is_node name) (λ node, mkNode (in_filename node) i) l) = map in_filename l.
Proof. induction l as [|node l IH]; cbn; [done|]. destruct (is_node name node); cbn; by rewrite ?IH. Qed.

Lemma index_set_spec index name i :
  index_wf index → is_Some (index_find index name) →
  index_wf (index_set index name i) ∧
  ∀ other, index_find (index_set index name i) other = if decide (other = name) then Some i else index_find index other.
Proof.
  intros Hwf Hs. split.
  - apply bucket_wf; [done|]. intros l Hnd _. by rewrite map_update_firstb.
  - intros other. case_decide as Heq; [subst other|].
    + unfold index_find, index_set. rewrite bucket_alter; [apply Hwf|apply bucket_bound|].
      rewrite decide_True; [done|]. rewrite firstb_set_eq; [|done].
      unfold index_find in Hs. by rewrite fmap_is_Some in Hs.
    + apply index_find_alter; [done|]. intros l. apply firstb_set_ne. congruence.
Qed.

Lemma index_insert_spec index name i :
  index_wf index → length name < MAX_FILENAME_LENGTH →
  let '(index', ok) := index_insert index name i in
  ok = true ∧ index_wf index' ∧
  ∀ other, index_find index' other = if decide (other = name) then Some i else index_find index other.
Proof.
  intros Hwf Hl. unfold index_insert. destruct (index_find index name) as [j|] eqn:Hf.
  - split; [done|]. by apply index_set_spec.
  - rewrite safe_strcpy_short; [done|]. split; [done|]. split.
    + apply bucket_wf; [done|]. intros l Hnd Hlb. cbn. apply NoDup_cons. split; [|done].
      intros Hin. apply list_elem_of_In, in_map_iff in Hin as (x & Hx & Hin).
      unfold index_find in Hf. rewrite -Hlb in Hf. apply fmap_None, firstb_None in Hf.
      rewrite Forall_forall in Hf. specialize (Hf x ltac:(by apply list_elem_of_In)). by apply streq_false in Hf.
    + intros other. case_decide as Heq; [subst other|].
      * unfold index_find. rewrite bucket_alter; [apply Hwf|apply bucket_bound|].
        rewrite decide_True; [done|]. cbn. unfold is_node. cbn. by rewrite streq_refl.
      * apply index_find_alter; [done|]. intros l. cbn. unfold is_node at 1. cbn.
        by rewrite (proj2 (streq_false _ _)); [congruence|].
Qed.

Lemma index_remove_spec index name :
  index_wf index → index_wf (index_remove index name) ∧
  ∀ other, index_find (index_remove index name) other = if decide (other = name) then None else index_find index other.
Proof.
  intros Hwf. split.
  - apply bucket_wf; [done|]. intros l Hnd _. eapply sublist_NoDup; [exact Hnd|].
    clear. induction l as [|x l IH]; cbn; [constructor|]. case_match; cbn; by constructor.
  - intros other. case_decide as Heq; [subst other|].
    + unfold index_find, index_remove. rewrite bucket_alter; [apply Hwf|apply bucket_bound|].
      rewrite decide_True; [done|]. by rewrite firstb_remove_eq; [apply Hwf|].
    + apply index_find_alter; [done|]. intros l. apply firstb_remove_ne. congruence.
Qed.

(** ** The invariant and the abstraction *)

Definition entry_ok (files : list FileMetadata) (e : FileCacheEntry) : Prop :=
  ce_valid e = true → ∃ f, files !! ce_index e = Some f ∧ fm_filename f = ce_filename e.

Record reg_wf (ns : NameServer) : Prop := {
  rw_index : index_wf (ns_index ns);
  rw_agree : ∀ name i, index_find (ns_index ns) name = Some i ↔
    ∃ f, ns_files ns !! i = Some f ∧ fm_filename f = name;
  rw_names : Forall (λ f, fm_filename f ≠ [] ∧ length (fm_filename f) < MAX_FILENAME_LENGTH) (ns_files ns);
  rw_cache : Forall (entry_ok (ns_files ns)) (ns_cache ns);
  rw_cache_length : length (ns_cache ns) = FILE_CACHE_SIZE;
  rw_count : length (ns_files ns) <= NS_MAX_FILES
}.

Definition named (f : FileMetadata) : cstr * FileMetadata := (fm_filename f, f).

Definition registry (ns : NameServer) : gmap cstr FileMetadata := list_to_map (map named (ns_files ns)).

Lemma wf_unique ns i j f g :
  reg_wf ns → ns_files ns !! i = Some f → ns_files ns !! j = Some g → fm_filename f = fm_filename g → i = j.
Proof.
  intros Hwf Hi Hj Heq.
  assert (H1 : index_find (ns_index ns) (fm_filename f) = Some i) by (apply (rw_agree _ Hwf); eauto).
  assert (H2 : index_find (ns_index ns) (fm_filename f) = Some j) by (apply (rw_agree _ Hwf); eauto).
  congruence.
Qed.

Lemma wf_nodup ns : reg_wf ns → NoDup (map fm_filename (ns_files ns)).
Proof.
  intros Hwf. apply NoDup_alt. intros i j x Hi Hj. rewrite list_lookup_fmap in Hi. rewrite list_lookup_fmap in Hj.
  destruct (ns_files ns !! i) eqn:Hfi; simplify_eq/=. destruct (ns_files ns !! j) eqn:Hfj; simplify_eq/=.
  by eapply wf_unique.
Qed.

Lemma map_fst_named l : (map named l).*1 = map fm_filename l.
Proof. induction l; cbn; by f_equal. Qed.

Lemma registry_lookup ns name f :
  reg_wf ns → registry ns !! name = Some f ↔ ∃ i, ns_files ns !! i = Some f ∧ fm_filename f = name.
Proof.
  intros Hwf. unfold registry. rewrite -elem_of_list_to_map; [rewrite map_fst_named; by apply wf_nodup|].
  rewrite list_elem_of_fmap. split.
  - intros (g & [= -> ->] & Hg). apply list_elem_of_lookup in Hg as [i Hi]. eauto.
  - intros (i & Hi & <-). exists f. split; [done|]. by eapply list_elem_of_lookup_2.
Qed.

Lemma registry_None ns name :
  reg_wf ns → registry ns !! name = None ↔ index_find (ns_index ns) name = None.
Proof.
  intros Hwf. rewrite !eq_None_not_Some. split; intros H [x Hx]; apply H.
  - apply (rw_agree _ Hwf) in Hx as (f & Hf & Hn). exists f. apply registry_lookup; eauto.
  - apply registry_lookup in Hx as (i & Hi & Hn); [|done]. exists i. apply (rw_agree _ Hwf). eauto.
Qed.

(** Two registries with the same entries are the same map. *)
Lemma registry_ext ns m :
  reg_wf ns → (∀ name f, m !! name = Some f ↔ ∃ i, ns_files ns !! i = Some f ∧ fm_filename f = name) →
  registry ns = m.
Proof.
  intros Hwf Hm. apply map_eq. intros name. apply option_eq. intros f. by rewrite registry_lookup // Hm.
Qed.

(** ** The cache *)

Lemma cache_lookup_spec files cache name tick :
  Forall (entry_ok files) cache →
  let '(cache', r) := cache_lookup cache name (length files) tick in
  Forall (entry_ok files) cache' ∧ length cache' = length cache ∧
  ∀ i, r = Some i → ∃ f, files !! i = Some f ∧ fm_filename f = name.
Proof.
  induction 1 as [|e cache He Hall IH]; cbn [cache_lookup]; [split_and!; [constructor|done|done]|].
  destruct (is_entry name e) eqn:Hn.
  - apply andb_true_iff in Hn as [Hv Hn%streq_true]. destruct (He Hv) as (f & Hf & Hfn).
    apply lookup_lt_Some in Hf as Hlt. rewrite decide_False; [lia|].
    split_and!; [|done|].
    + constructor; [|done]. intros _. cbn. exists f. split; [done|congruence].
    + intros i [= <-]. exists f. split; [done|congruence].
  - destruct (cache_lookup cache name (length files) tick) as [cache' r]. destruct IH as (Hc & Hl & Hr).
    split_and!; [by constructor|cbn; lia|done].
Qed.

Lemma file_cache_lookup_spec ns name :
  reg_wf ns → let '(ns', r) := file_cache_lookup ns name in
  reg_wf ns' ∧ (∃ c t, ns' = set_cache ns c t) ∧
  ∀ i, r = Some i → ∃ f, ns_files ns !! i = Some f ∧ fm_filename f = name.
Proof.
  intros Hwf. unfold file_cache_lookup.
  pose proof (cache_lookup_spec (ns_files ns) (ns_cache ns) name (next_tick (ns_tick ns)) (rw_cache _ Hwf)) as Hc.
  destruct (cache_lookup _ _ _ _) as [cache r]. destruct Hc as (Hall & Hlen & Hr).
  split_and!; [|by do 2 eexists|done].
  split; try apply Hwf; [done|cbn; rewrite Hlen; apply Hwf].
Qed.

Lemma entry_ok_invalid files e : entry_ok files (invalid e).
Proof. intros Hv. discriminate. Qed.

Lemma file_cache_store_wf ns name i f :
  reg_wf ns → ns_files ns !! i = Some f → fm_filename f = name →
  reg_wf (file_cache_store ns name i) ∧ ∃ c t, file_cache_store ns name i = set_cache ns c t.
Proof.
  intros Hwf Hf Hn. unfold file_cache_store.
  assert (Hid : ∃ c t, ns = set_cache ns c t) by (exists (ns_cache ns), (ns_tick ns); by destruct ns).
  apply lookup_lt_Some in Hf as Hlt. rewrite decide_False; [lia|].
  destruct (cache_target _ _) as [target|]; [|done].
  rewrite safe_strcpy_short.
  { subst name. pose proof (rw_names _ Hwf) as H. rewrite Forall_lookup in H. by apply (H i f). }
  split; [|by do 2 eexists]. split; try apply Hwf; cbn; [|rewrite length_insert; apply Hwf].
  apply Forall_insert; [apply Hwf|]. intros _. by exists f.
Qed.

(** ** Lookup *)

Lemma lookup_locked_spec ns name :
  reg_wf ns → let '(ns', r) := file_lookup_locked ns name in
  reg_wf ns' ∧ (∃ c t, ns' = set_cache ns c t) ∧
  match r with
  | Some i => ∃ f, ns_files ns !! i = Some f ∧ fm_filename f = name ∧ registry ns !! name = Some f
  | None => registry ns !! name = None
  end.
Proof.
  intros Hwf. unfold file_lookup_locked. pose proof (file_cache_lookup_spec ns name Hwf) as Hc.
  destruct (file_cache_lookup ns name) as [ns1 r]. destruct Hc as (Hwf1 & (c & t & ->) & Hr).
  destruct r as [i|].
  - split_and!; [done|by do 2 eexists|]. destruct (Hr i eq_refl) as (f & Hf & Hn). exists f.
    split_and!; [done|done|]. apply registry_lookup; eauto.
  - change (file_index_find (set_cache ns c t) name) with (index_find (ns_index ns) name).
    destruct (index_find (ns_index ns) name) as [i|] eqn:Hi.
    + apply (rw_agree _ Hwf) in Hi as (f & Hf & Hn). apply lookup_lt_Some in Hf as Hlt.
      rewrite decide_True; [done|].
      destruct (file_cache_store_wf (set_cache ns c t) name i f Hwf1 Hf Hn) as [Hwf2 (c' & t' & Heq)].
      split_and!; [done|rewrite Heq; by do 2 eexists|]. exists f. split_and!; [done|done|].
      apply registry_lookup; eauto.
    + split_and!; [done|by do 2 eexists|]. by apply registry_None.
Qed.

(** ** Removal *)

Lemma lookup_swap_remove {A} (l : list A) i j :
  i < length l → swap_remove i l !! j =
    if decide (j < length l - 1) then (if decide (j = i) then l !! (length l - 1) else l !! j) else None.
Proof.
  intros Hi. unfold swap_remove. rewrite last_lookup.
  destruct (lookup_lt_is_Some_2 l (length l - 1)) as [x Hx]; [lia|].
  replace (pred (length l)) with (length l - 1) by lia. rewrite Hx.
  case_decide as Hj.
  - rewrite lookup_take_lt; [done|]. case_decide as Heq; [subst|by rewrite list_lookup_insert_ne].
    by rewrite list_lookup_insert_eq.
  - apply lookup_ge_None. rewrite length_take length_insert. lia.
Qed.

Lemma length_swap_remove_lt {A} (l : list A) i : i < length l → length (swap_remove i l) = length l - 1.
Proof.
  intros Hi. destruct (lookup_lt_is_Some_2 l i Hi) as [x Hx]. pose proof (length_swap_remove l i x Hx). lia.
Qed.

(** The entries of the shortened array are those of other names. *)
Lemma swap_remove_names ns i f j g :
  reg_wf ns → ns_files ns !! i = Some f →
  swap_remove i (ns_files ns) !! j = Some g →
  fm_filename g ≠ fm_filename f ∧
  ((j = i ∧ ns_files ns !! (length (ns_files ns) - 1) = Some g ∧ i ≠ length (ns_files ns) - 1) ∨
   (j ≠ i ∧ j ≠ length (ns_files ns) - 1 ∧ ns_files ns !! j = Some g)).
Proof.
  intros Hwf Hi. apply lookup_lt_Some in Hi as Hlt. rewrite lookup_swap_remove; [done|].
  case_decide as Hj; [|done]. case_decide as Heq; intros Hg.
  - subst j. split; [|left; split_and!; [done|done|lia]]. intros Hn. pose proof (wf_unique _ _ _ _ _ Hwf Hg Hi Hn). lia.
  - split; [|right; split_and!; [done|lia|done]]. intros Hn. by pose proof (wf_unique _ _ _ _ _ Hwf Hg Hi Hn).
Qed.

Lemma swap_remove_keeps ns i f j g :
  reg_wf ns → ns_files ns !! i = Some f → ns_files ns !! j = Some g → j ≠ i →
  swap_remove i (ns_files ns) !! (if decide (j = length (ns_files ns) - 1) then i else j) = Some g.
Proof.
  intros Hwf Hi Hj Hne. apply lookup_lt_Some in Hi as Hlt. apply lookup_lt_Some in Hj as Hltj.
  rewrite lookup_swap_remove; [done|]. destruct (decide (j = length (ns_files ns) - 1)) as [Heq|Hn].
  - rewrite decide_True; [lia|]. rewrite decide_True; [done|]. by rewrite -Heq.
  - rewrite decide_True; [lia|]. by rewrite decide_False.
Qed.

(** The name of the entry that moves into the hole. *)
Definition moved_name (files : list FileMetadata) (i : nat) : option cstr :=
  if decide (i = length files - 1) then None
  else match files !! (length files - 1) with
       | Some m => match fm_filename m with [] => None | name => Some name end
       | None => None
       end.

Lemma moved_name_iff ns i m :
  reg_wf ns → moved_name (ns_files ns) i = Some m ↔
  i ≠ length (ns_files ns) - 1 ∧ ∃ g, ns_files ns !! (length (ns_files ns) - 1) = Some g ∧ fm_filename g = m.
Proof.
  intros Hwf. unfold moved_name. case_decide; [naive_solver|].
  destruct (ns_files ns !! _) as [g|] eqn:Hg; [|naive_solver].
  pose proof (rw_names _ Hwf) as Hn. rewrite Forall_lookup in Hn. destruct (Hn _ _ Hg) as [Hne _].
  destruct (fm_filename g) eqn:Hfn; [done|]. split.
  - intros [= <-]. eauto.
  - intros (_ & h & [= <-] & <-). by rewrite Hfn.
Qed.

Section removal.
Context (ns : NameServer) (i : nat) (f : FileMetadata).
Hypothesis (Hwf : reg_wf ns) (Hf : ns_files ns !! i = Some f).

Let files' := swap_remove i (ns_files ns).
Let moved := moved_name (ns_files ns) i.
Let index' :=
  let index := index_remove (ns_index ns) (fm_filename f) in
  match moved with Some m => index_set index m i | None => index end.

Lemma moved_place m : moved = Some m →
  m ≠ fm_filename f ∧ ∃ g, ns_files ns !! (length (ns_files ns) - 1) = Some g ∧ fm_filename g = m ∧ files' !! i = Some g.
Proof.
  intros Hm. apply moved_name_iff in Hm as (Hne & g & Hg & <-); [|done]. split.
  - intros Heq. by pose proof (wf_unique _ _ _ _ _ Hwf Hg Hf Heq).
  - exists g. split_and!; [done|done|]. unfold files'.
    pose proof (swap_remove_keeps ns i f _ g Hwf Hf Hg) as H. rewrite decide_True in H; [done|]. by apply H.
Qed.

Lemma index_removed_spec :
  index_wf index' ∧ ∀ other, index_find index' other =
    if decide (other = fm_filename f) then None
    else if decide (moved = Some other) then Some i else index_find (ns_index ns) other.
Proof.
  destruct (index_remove_spec (ns_index ns) (fm_filename f) (rw_index _ Hwf)) as [Hw1 H1].
  unfold index'. destruct moved as [m|] eqn:Hm.
  - destruct (moved_place m Hm) as (Hne & g & Hg & Hgm & _).
    destruct (index_set_spec (index_remove (ns_index ns) (fm_filename f)) m i Hw1) as [Hw2 H2].
    { rewrite H1 decide_False; [done|]. eexists. apply (rw_agree _ Hwf). eauto. }
    split; [exact Hw2|]. intros other. rewrite H2 H1.
    repeat case_decide; congruence.
  - split; [exact Hw1|]. intros other. rewrite H1. by repeat case_decide.
Qed.

Lemma removed_agree name j :
  index_find index' name = Some j ↔ ∃ g, files' !! j = Some g ∧ fm_filename g = name.
Proof.
  destruct index_removed_spec as [_ Hfind]. rewrite Hfind. split.
  - case_decide as Hn; [done|]. case_decide as Hm.
    + intros [= <-]. destruct (moved_place name Hm) as (_ & g & _ & Hg & Hp). eauto.
    + intros (g & Hg & <-)%(rw_agree _ Hwf). exists g. split; [|done].
      assert (Hji : j ≠ i) by (intros ->; congruence).
      pose proof (swap_remove_keeps ns i f j g Hwf Hf Hg Hji) as H. case_decide; [|done].
      destruct Hm. apply moved_name_iff; [done|]. split; [congruence|]. exists g. split; [congruence|done].
  - intros (g & Hg & <-). apply (swap_remove_names ns i f j g Hwf Hf) in Hg as [Hne Hcase].
    rewrite decide_False; [done|]. destruct Hcase as [(-> & Hl & Hi)|(Hji & Hjl & Hj)].
    + rewrite decide_True; [|done]. apply moved_name_iff; eauto.
    + rewrite decide_False; [|apply (rw_agree _ Hwf); eauto].
      intros (_ & h & Hh & Hhn)%moved_name_iff; [|done]. by pose proof (wf_unique _ _ _ _ _ Hwf Hh Hj Hhn).
Qed.

Lemma removed_cache :
  Forall (entry_ok files') (map (cache_after_remove (fm_filename f) moved i (length files')) (ns_cache ns)).
Proof.
  apply Forall_map. eapply Forall_impl; [apply (rw_cache _ Hwf)|]. intros e He. unfold cache_after_remove.
  destruct (ce_valid e) eqn:Hv; cbn [negb]; [|by intros Hx; congruence].
  destruct (streq (ce_filename e) (fm_filename f)) eqn:Hn; [apply entry_ok_invalid|]. apply streq_false in Hn.
  destruct (He Hv) as (h & Hh & Hhn). assert (Hji : ce_index e ≠ i) by (intros Heq; congruence).
  pose proof (swap_remove_keeps ns i f _ h Hwf Hf Hh Hji) as Hk.
  assert (Hmoved : moved = Some (ce_filename e) ↔ ce_index e = length (ns_files ns) - 1).
  { unfold moved. rewrite moved_name_iff; [done|]. split.
    - intros (_ & g & Hg & Hgn). eapply (wf_unique _ _ _ _ _ Hwf Hh Hg). congruence.
    - intros Heq. split; [congruence|]. exists h. split; congruence. }
  destruct moved as [m|].
  - destruct (streq (ce_filename e) m) eqn:Hm.
    + apply streq_true in Hm as <-. rewrite decide_True in Hk; [by apply Hmoved|].
      case_decide; [apply entry_ok_invalid|]. intros _. cbn. exists h. split; [exact Hk|done].
    + apply streq_false in Hm. rewrite decide_False in Hk; [intros Heq; apply Hmoved in Heq; congruence|].
      case_decide; [apply entry_ok_invalid|]. intros _. exists h. split; [exact Hk|done].
  - rewrite decide_False in Hk; [intros Heq; apply Hmoved in Heq; congruence|].
    case_decide; [apply entry_ok_invalid|]. intros _. exists h. split; [exact Hk|done].
Qed.
End removal.

Lemma remove_found ns i f :
  reg_wf ns → ns_files ns !! i = Some f →
  let '(ns', removed) := remove_file_metadata_locked ns (fm_filename f) in
  removed = true ∧ reg_wf ns' ∧ ns_files ns' = swap_remove i (ns_files ns) ∧
  ns_servers ns' = ns_servers ns ∧ ns_clients ns' = ns_clients ns ∧ ns_requests ns' = ns_requests ns ∧
  ns_next_request_id ns' = ns_next_request_id ns ∧ ns_disk ns' = ns_disk ns.
Proof.
  intros Hwf Hf. unfold remove_file_metadata_locked.
  change (file_index_find ns (fm_filename f)) with (index_find (ns_index ns) (fm_filename f)).
  rewrite (proj2 (rw_agree _ Hwf (fm_filename f) i)); [eauto|]. cbv zeta.
  change (ns_files (set_index ns _)) with (ns_files ns).
  apply lookup_lt_Some in Hf as Hlt. rewrite (decide_True _ _ Hlt).
  fold (moved_name (ns_files ns) i).
  destruct (index_removed_spec ns i f Hwf Hf) as [Hiw _].
  pose proof (removed_agree ns i f Hwf Hf) as Hag. pose proof (removed_cache ns i f Hwf Hf) as Hca.
  destruct (moved_name (ns_files ns) i) as [m|]; (split_and!; [done| |done..]);
    (split; cbn; [exact Hiw|exact Hag| |exact Hca|rewrite length_map; apply Hwf|]);
    try (rewrite length_swap_remove_lt; [done|]; pose proof (rw_count _ Hwf); lia);
    (apply Forall_lookup; intros j g Hg; apply (swap_remove_names ns i f j g Hwf Hf) in Hg as [_ Hg];
     pose proof (rw_names _ Hwf) as Hn; rewrite Forall_lookup in Hn;
     destruct Hg as [(_ & Hg & _)|(_ & _ & Hg)]; exact (Hn _ g Hg)).
Qed.

Lemma remove_spec ns name :
  reg_wf ns → let '(ns', removed) := remove_file_metadata_locked ns name in
  reg_wf ns' ∧ removed = bool_decide (is_Some (registry ns !! name)) ∧
  registry ns' = delete name (registry ns) ∧
  ns_servers ns' = ns_servers ns ∧ ns_clients ns' = ns_clients ns ∧ ns_requests ns' = ns_requests ns ∧
  ns_next_request_id ns' = ns_next_request_id ns ∧ ns_disk ns' = ns_disk ns.
Proof.
  intros Hwf. destruct (registry ns !! name) as [f|] eqn:Hr.
  - apply registry_lookup in Hr as (i & Hi & <-); [|done]. pose proof (remove_found ns i f Hwf Hi) as Hrem.
    destruct (remove_file_metadata_locked ns (fm_filename f)) as [ns' removed].
    destruct Hrem as (-> & Hwf' & Hfiles & ?). split_and!; [done|done| |tauto..].
    apply registry_ext; [done|]. intros other g. rewrite lookup_delete_Some registry_lookup // Hfiles. split.
    + intros (Hne & j & Hj & <-). eexists. split; [|done]. apply (swap_remove_keeps ns i f j g Hwf Hi Hj). congruence.
    + intros (j & Hj & <-). apply (swap_remove_names ns i f j g Hwf Hi) in Hj as [Hne Hj]. split; [congruence|].
      destruct Hj as [(_ & Hj & _)|(_ & _ & Hj)]; eauto.
  - unfold remove_file_metadata_locked.
    change (file_index_find ns name) with (index_find (ns_index ns) name).
    rewrite (proj1 (registry_None ns name Hwf) Hr). rewrite delete_id; [done|]. split_and!; done.
Qed.

(** ** Additions, changes, renaming *)

Lemma entry_ok_app files g e : entry_ok files e → entry_ok (files ++ [g]) e.
Proof.
  intros He Hv. destruct (He Hv) as (f & Hf & Hn). exists f. split; [|done]. by apply lookup_app_l_Some.
Qed.

(** A fresh entry at the end of the array, with its index node. *)
Lemma append_spec ns file :
  reg_wf ns → registry ns !! fm_filename file = None → fm_filename file ≠ [] →
  length (fm_filename file) < MAX_FILENAME_LENGTH → length (ns_files ns) < NS_MAX_FILES →
  let '(index, ok) := index_insert (ns_index ns) (fm_filename file) (length (ns_files ns)) in
  let ns' := set_meta (set_index ns index) (ns_files ns ++ [file]) in
  ok = true ∧ reg_wf ns' ∧ registry ns' = <[fm_filename file := file]> (registry ns).
Proof.
  intros Hwf Hnew Hne Hlen Hcount. pose proof (proj1 (registry_None _ _ Hwf) Hnew) as Hnone.
  pose proof (index_insert_spec (ns_index ns) (fm_filename file) (length (ns_files ns)) (rw_index _ Hwf) Hlen) as Hi.
  destruct (index_insert _ _ _) as [index ok]. destruct Hi as (-> & Hiw & Hfind). intros ns1.
  assert (Hlk : ∀ j g, (ns_files ns ++ [file]) !! j = Some g ↔
    ns_files ns !! j = Some g ∨ j = length (ns_files ns) ∧ g = file).
  { intros j g. rewrite lookup_app_Some list_lookup_singleton_Some. split.
    - intros [?|(? & ? & ->)]; [by left|right; split; [lia|done]].
    - intros [?|[-> ->]]; [by left|right; split_and!; [lia|lia|done]]. }
  assert (Hwf1 : reg_wf ns1).
  { split; cbn; [exact Hiw| | | |apply Hwf|rewrite length_app /=; lia].
    - intros name j. rewrite Hfind. setoid_rewrite Hlk. case_decide as Hn.
      + subst name. split; [intros [= <-]; eauto|]. intros (g & [Hg|[-> ->]] & Hgn); [|done].
        assert (index_find (ns_index ns) (fm_filename file) = Some j) by (apply (rw_agree _ Hwf); eauto). congruence.
      + rewrite (rw_agree _ Hwf). naive_solver.
    - apply Forall_app. split; [apply Hwf|by apply Forall_singleton].
    - eapply Forall_impl; [apply (rw_cache _ Hwf)|]. intros e. apply entry_ok_app. }
  split_and!; [done|done|]. apply registry_ext; [done|]. intros name f. cbn [ns1 ns_files set_meta]. setoid_rewrite Hlk.
  rewrite lookup_insert_Some registry_lookup //. split; [naive_solver|].
  intros (j & [Hj|[-> ->]] & <-); [right|by left]. split; [|eauto]. intros Hn.
  assert (index_find (ns_index ns) (fm_filename file) = Some j) by (apply (rw_agree _ Hwf); eauto). congruence.
Qed.

Lemma register_spec ns file :
  reg_wf ns → registry ns !! fm_filename file = None → fm_filename file ≠ [] →
  length (fm_filename file) < MAX_FILENAME_LENGTH → length (ns_files ns) < NS_MAX_FILES →
  let '(ns', ok) := register_file ns (fm_filename file) file in
  ok = true ∧ reg_wf ns' ∧ registry ns' = <[fm_filename file := file]> (registry ns) ∧
  (∃ index c t, ns' = set_cache (set_meta (set_index ns index) (ns_files ns ++ [file])) c t).
Proof.
  intros Hwf Hnew Hne Hlen Hcount. unfold register_file, file_index_insert.
  pose proof (append_spec ns file Hwf Hnew Hne Hlen Hcount) as H.
  destruct (index_insert _ _ _) as [index ok]. destruct H as (-> & Hwf1 & Hreg).
  set (ns1 := set_meta (set_index ns index) (ns_files ns ++ [file])) in *.
  change (set_meta (set_index ns index) (ns_files (set_index ns index) ++ [file])) with ns1.
  destruct (file_cache_store_wf ns1 (fm_filename file) (length (ns_files ns)) file Hwf1) as [Hwf2 (c & t & Heq)];
    [cbn; by rewrite lookup_app_r // Nat.sub_diag|done|].
  split_and!; [done|exact Hwf2|by rewrite Heq|rewrite Heq; by do 3 eexists].
Qed.

Lemma update_spec ns i f g :
  reg_wf ns → ns_files ns !! i = Some f → fm_filename g = fm_filename f →
  reg_wf (update_file ns i g) ∧ registry (update_file ns i g) = <[fm_filename f := g]> (registry ns).
Proof.
  intros Hwf Hf Hn. apply lookup_lt_Some in Hf as Hlt.
  assert (Hlk : ∀ j h', <[i := g]> (ns_files ns) !! j = Some h' ↔
    ∃ h, ns_files ns !! j = Some h ∧ h' = if decide (j = i) then g else h).
  { intros j h'. destruct (decide (j = i)) as [->|Hne].
    - rewrite list_lookup_insert_eq //. naive_solver.
    - rewrite list_lookup_insert_ne //. naive_solver. }
  assert (Hname : ∀ j h, ns_files ns !! j = Some h → fm_filename (if decide (j = i) then g else h) = fm_filename h).
  { intros j h Hj. case_decide; [|done]. simplify_eq. done. }
  assert (Hwf' : reg_wf (update_file ns i g)).
  { split; cbn; [apply Hwf| | | |apply Hwf|rewrite length_insert; apply Hwf].
    - intros name j. rewrite (rw_agree _ Hwf). split.
      + intros (h & Hh & <-). eexists. split; [apply Hlk; eauto|by apply Hname].
      + intros (h' & (h & Hh & ->)%Hlk & <-). exists h. split; [done|]. by rewrite Hname.
    - apply Forall_insert; [apply Hwf|]. rewrite Hn. pose proof (rw_names _ Hwf) as H. rewrite Forall_lookup in H.
      exact (H _ _ Hf).
    - eapply Forall_impl; [apply (rw_cache _ Hwf)|]. intros e He Hv. destruct (He Hv) as (h & Hh & Hhn).
      eexists. split; [apply Hlk; eauto|]. by rewrite (Hname _ h). }
  split; [done|]. apply registry_ext; [done|]. intros name h'. cbn. rewrite lookup_insert_Some registry_lookup //.
  split.
  - intros [[<- <-]|(Hne & j & Hj & <-)].
    + exists i. split; [|done]. apply Hlk. exists f. split; [done|]. by rewrite decide_True.
    + exists j. split; [|done]. apply Hlk. exists h'. split; [done|]. rewrite decide_False; [|done]. intros ->. congruence.
  - intros (j & (h & Hh & ->)%Hlk & <-). destruct (decide (j = i)) as [->|Hji]; [left; split; congruence|].
    right. split; [|eauto]. intros Heq. apply Hji. by eapply (wf_unique ns).
Qed.

Lemma cache_rename_spec files i f g cache tick new :
  Forall (entry_ok files) cache → files !! i = Some f → fm_filename g = new → length new < MAX_FILENAME_LENGTH →
  let '(cache', _) := cache_rename cache (fm_filename f) new i tick in
  Forall (entry_ok (<[i := g]> files)) cache' ∧ length cache' = length cache.
Proof.
  intros Hall Hf Hg Hl. revert tick. induction Hall as [|e cache He _ IH]; intros tick; cbn [cache_rename]; [done|].
  apply lookup_lt_Some in Hf as Hlt. destruct (is_entry (fm_filename f) e) eqn:Hn.
  - specialize (IH (next_tick tick)). destruct (cache_rename cache _ _ _ _) as [cache' tick'].
    destruct IH as [IH Hlen]. split; [|cbn; lia]. constructor; [|done]. intros _. exists g.
    cbn [ce_index ce_filename]. rewrite fit_short; [done|]. by rewrite list_lookup_insert_eq.
  - specialize (IH tick). destruct (cache_rename cache _ _ _ _) as [cache' tick'].
    destruct IH as [IH Hlen]. split; [|cbn; lia]. constructor; [|done]. intros Hv.
    destruct (He Hv) as (h & Hh & Hhn). exists h. split; [|done]. rewrite list_lookup_insert_ne; [|done].
    intros ->. unfold is_entry in Hn. rewrite Hv in Hn. apply streq_false in Hn. congruence.
Qed.

Lemma index_rename_spec index old new i :
  index_wf index → is_Some (index_find index old) → length new < MAX_FILENAME_LENGTH →
  let '(index', _) := index_insert (index_remove index old) new i in
  index_wf index' ∧ ∀ other, index_find index' other =
    if decide (other = new) then Some i else if decide (other = old) then None else index_find index other.
Proof.
  intros Hwf _ Hl. destruct (index_remove_spec index old Hwf) as [Hw1 H1].
  pose proof (index_insert_spec (index_remove index old) new i Hw1 Hl) as H2.
  destruct (index_insert _ _ _) as [index' ok]. destruct H2 as (_ & Hw2 & H2).
  split; [done|]. intros other. by rewrite H2 H1.
Qed.

Lemma rename_spec ns old new user now f :
  reg_wf ns → registry ns !! old = Some f → registry ns !! new = None → new ≠ [] →
  length new < MAX_FILENAME_LENGTH →
  let ns' := rename_file ns old new user now in
  let f' := fm_with_access_by (fm_with_modified_by (fm_with_name f new) user now) user now in
  reg_wf ns' ∧ registry ns' = <[new := f']> (delete old (registry ns)) ∧
  (∃ files index c t, ns' = set_cache (set_index (set_meta ns files) index) c t ∧ length files = length (ns_files ns)).
Proof.
  intros Hwf Hold Hnew Hne Hl ns' f'. unfold ns', rename_file.
  pose proof (lookup_locked_spec ns old Hwf) as Hlk. destruct (file_lookup_locked ns old) as [ns1 [i|]].
  2: { destruct Hlk as (_ & _ & Hnone). congruence. }
  destruct Hlk as (Hwf1 & (c & t & ->) & f0 & Hf & Hfn & Hreg). assert (f0 = f) as -> by congruence. subst old.
  cbn [ns_files set_cache]. rewrite Hf. unfold file_index_remove_entry.
  change (file_index_find (set_cache ns c t) (fm_filename f)) with (index_find (ns_index ns) (fm_filename f)).
  assert (Hsome : index_find (ns_index ns) (fm_filename f) = Some i) by (apply (rw_agree _ Hwf); eauto).
  rewrite Hsome. rewrite (fit_short _ _ Hl).
  unfold file_index_insert. cbn [fm_with_name fm_filename ns_index set_index set_cache].
  pose proof (index_rename_spec (ns_index ns) (fm_filename f) new i (rw_index _ Hwf) ltac:(by eexists) Hl) as Hidx.
  destruct (index_insert _ new i) as [index' ok]. destruct Hidx as [Hiw Hfind].
  unfold file_cache_rename. cbn [ns_cache ns_tick set_index set_cache].
  pose proof (cache_rename_spec (ns_files ns) i f f' c t new (rw_cache _ Hwf1) Hf eq_refl Hl) as Hc.
  destruct (cache_rename c _ _ _ _) as [c' t']. destruct Hc as [Hcache Hclen].
  apply lookup_lt_Some in Hf as Hlt.
  assert (Hni : ∀ j h, ns_files ns !! j = Some h → fm_filename h ≠ new).
  { intros j h Hj Hn. apply (registry_None _ _ Hwf) in Hnew.
    assert (index_find (ns_index ns) new = Some j) as Hx by (apply (rw_agree _ Hwf); eauto). congruence. }
  fold f'. set (ns2 := update_file _ i f').
  assert (Hwf2 : reg_wf ns2).
  { split; cbn; [exact Hiw| | |exact Hcache|rewrite Hclen; apply (rw_cache_length _ Hwf1)|rewrite length_insert; apply Hwf].
    - intros name j. rewrite Hfind. repeat case_decide; subst.
      + split; [intros [= <-]; exists f'; by rewrite list_lookup_insert_eq|].
        intros (h & Hh & Hhn). destruct (decide (j = i)) as [->|Hj]; [done|].
        rewrite list_lookup_insert_ne // in Hh. by apply Hni in Hh.
      + split; [done|]. intros (h & Hh & Hhn). destruct (decide (j = i)) as [->|Hj].
        * rewrite list_lookup_insert_eq // in Hh. by simplify_eq.
        * rewrite list_lookup_insert_ne // in Hh. destruct Hj. by eapply (wf_unique ns).
      + rewrite (rw_agree _ Hwf). split; intros (h & Hh & <-).
        * exists h. rewrite list_lookup_insert_ne; [|done]. intros ->. congruence.
        * destruct (decide (j = i)) as [->|Hj]; [rewrite list_lookup_insert_eq // in Hh; by simplify_eq|].
          rewrite list_lookup_insert_ne // in Hh. eauto.
    - apply Forall_insert; [apply Hwf|]. exact (conj Hne Hl). }
  split_and!; [exact Hwf2| |do 4 eexists; split; [unfold ns2, update_file; reflexivity|by rewrite length_insert]].
  apply registry_ext; [done|]. intros name h. cbn.
  rewrite lookup_insert_Some lookup_delete_Some registry_lookup //. split.
  - intros [[<- <-]|(Hn & Hn' & j & Hj & <-)].
    + exists i. by rewrite list_lookup_insert_eq.
    + exists j. split; [|done]. rewrite list_lookup_insert_ne; [|done]. intros ->. congruence.
  - intros (j & Hj & <-). destruct (decide (j = i)) as [->|Hji].
    + rewrite list_lookup_insert_eq // in Hj. simplify_eq. by left.
    + rewrite list_lookup_insert_ne // in Hj. right. split; [intros Heq; by eapply Hni|]. split; [|eauto].
      intros Heq. apply Hji. by eapply (wf_unique ns).
Qed.

Lemma blank_bucket b : bucket (replicate FILE_INDEX_SIZE []) b = [].
Proof. unfold bucket. destruct (_ !! b) as [l|] eqn:Hb; [|done]. by apply lookup_replicate in Hb as [-> _]. Qed.

Lemma blank_wf port d : reg_wf (ns_blank port d).
Proof.
  split; cbn [ns_index ns_files ns_cache ns_blank].
  - split; [by rewrite length_replicate|]. intros b. rewrite blank_bucket. constructor.
  - intros name i. unfold index_find. rewrite blank_bucket. split; [done|]. by intros (f & Hf & _).
  - constructor.
  - apply Forall_replicate. by intros Hv.
  - by rewrite length_replicate.
  - cbn. lia.
Qed.

(** ** Properties *)

(** C25 A lookup through the cache and the hash index finds exactly the entry the
    registry has for that name, and changes nothing but the cache: whatever
    hits, evictions and collisions happened before, no lookup returns a stale
    or a wrong entry, and the invariant holds afterwards. *)
Theorem registry_lookup_correct ns name :
  reg_wf ns →
  let '(ns', r) := file_lookup_locked ns name in
  reg_wf ns' ∧ (r ≫= λ i, ns_files ns !! i) = registry ns !! name ∧
  (∃ cache tick, ns' = set_cache ns cache tick) ∧ registry ns' = registry ns.
Proof.
  intros Hwf. pose proof (lookup_locked_spec ns name Hwf) as H. destruct (file_lookup_locked ns name) as [ns' r].
  destruct H as (Hwf' & (c & t & ->) & Hr). split_and!; [done| |by do 2 eexists|done].
  destruct r as [i|]; [|done]. destruct Hr as (f & Hf & _ & ->). exact Hf.
Qed.

(** C11 The registry implements a finite map: adding a file with a fresh name
    inserts it, removing a name deletes it and reports whether it was there,
    changing an entry in place updates it and renaming moves it, while every
    other name keeps its metadata; the array, the index and the cache stay
    consistent throughout. *)
Theorem registry_updates_correct ns :
  reg_wf ns →
  (∀ file, registry ns !! fm_filename file = None → fm_filename file ≠ [] →
     length (fm_filename file) < MAX_FILENAME_LENGTH → length (ns_files ns) < NS_MAX_FILES →
     let '(ns', ok) := register_file ns (fm_filename file) file in
     ok = true ∧ reg_wf ns' ∧ registry ns' = <[fm_filename file := file]> (registry ns)) ∧
  (∀ name, let '(ns', removed) := remove_file_metadata_locked ns name in
     reg_wf ns' ∧ removed = bool_decide (is_Some (registry ns !! name)) ∧
     registry ns' = delete name (registry ns)) ∧
  (∀ i f g, ns_files ns !! i = Some f → fm_filename g = fm_filename f →
     reg_wf (update_file ns i g) ∧ registry (update_file ns i g) = <[fm_filename f := g]> (registry ns)) ∧
  (∀ old new user now f, registry ns !! old = Some f → registry ns !! new = None → new ≠ [] →
     length new < MAX_FILENAME_LENGTH →
     reg_wf (rename_file ns old new user now) ∧
     registry (rename_file ns old new user now) =
       <[new := fm_with_access_by (fm_with_modified_by (fm_with_name f new) user now) user now]>
         (delete old (registry ns))).
Proof.
  intros Hwf. split_and!.
  - intros file Hnew Hne Hl Hc. pose proof (register_spec ns file Hwf Hnew Hne Hl Hc) as H.
    destruct (register_file _ _ _). naive_solver.
  - intros name. pose proof (remove_spec ns name Hwf) as H. destruct (remove_file_metadata_locked ns name). naive_solver.
  - intros i f g Hf Hn. by apply update_spec.
  - intros old new user now f Hold Hnew Hne Hl.
    by destruct (rename_spec ns old new user now f Hwf Hold Hnew Hne Hl) as (? & ? & _).
Qed.

(** Three files, one of them removed and one renamed. *)
Definition demo_file (name : cstr) : FileMetadata := fm_with_owner (fm_with_name meta0 name) ($"ann").

Definition demo_ns : NameServer :=
  let ns := ns_blank 8080 (mkDisk ∅ {[ $"." ]} (λ _, NoFault)) in
  let ns := (register_file ns ($"a") (demo_file ($"a"))).1 in
  let ns := (register_file ns ($"b") (demo_file ($"b"))).1 in
  (register_file ns ($"docs/c") (demo_file ($"docs/c"))).1.

Lemma demo_register ns name :
  reg_wf ns → registry ns !! name = None → name ≠ [] → length name < MAX_FILENAME_LENGTH →
  length (ns_files ns) < NS_MAX_FILES → reg_wf (register_file ns name (demo_file name)).1.
Proof.
  intros Hwf Hn Hne Hl Hc. pose proof (register_spec ns (demo_file name) Hwf Hn Hne Hl Hc) as H.
  change (fm_filename (demo_file name)) with name in H. destruct (register_file ns name _). by destruct H as (_ & ? & _).
Qed.

Lemma demo_ns_wf : reg_wf demo_ns.
Proof.
  repeat apply demo_register; try (vm_compute; reflexivity); try discriminate; try (apply Nat.ltb_lt; vm_compute; reflexivity).
  apply blank_wf.
Qed.

Lemma registry_lookup_correct_witness :
  ((file_lookup_locked demo_ns ($"b")).2 ≫= λ i, ns_files demo_ns !! i) = Some (demo_file ($"b")).
Proof.
  pose proof (registry_lookup_correct demo_ns ($"b") demo_ns_wf) as H.
  destruct (file_lookup_locked demo_ns ($"b")) as [ns' r]. destruct H as (_ & Hr & _). cbn [snd]. rewrite Hr.
  vm_compute. reflexivity.
Defined.

Lemma registry_updates_correct_witness :
  registry (remove_file_metadata_locked demo_ns ($"a")).1 = delete ($"a") (registry demo_ns).
Proof.
  pose proof (proj1 (proj2 (registry_updates_correct demo_ns demo_ns_wf)) ($"a")) as H.
  destruct (remove_file_metadata_locked demo_ns ($"a")) as [ns' r]. cbn [fst]. exact (proj2 (proj2 H)).
Defined.
