(* ===== verification/NSComm.v ===== *)
(** * Requests from the name server to a storage server

    [storage_server_send_and_wait], [storage_server_signal_failure],
    [storage_server_acquire] and [_release] of [src/name_server/name_server.c],
    the dispatch of the reader thread in [run_ss_loop], and the system they form:
    handler threads that send a request and wait on a condition variable, one
    reader thread per storage server, and [state_lock], which some handlers hold
    while they wait.  The fields guarded by [comm_lock] are a [Comm]; each
    critical section is a function on it, and one step of [sys_step]. *)
From S2P Require Import Prelude CStr Utils Protocol.

(** The part of [StorageServerInfo] under [comm_lock]; [cm_connected] stands for
    [is_alive] and [sockfd >= 0], which [signal_failure] ends together. *)
Record Comm := mkComm {
  cm_connected : bool;
  cm_awaiting_response : bool;
  cm_response_ready : bool;
  cm_response_status : Z;
  cm_response_raw : option cstr;
  cm_refcount : nat
}.

Definition storage_server_comm_init : Comm := mkComm true false false 0 None 0.

Definition storage_server_acquire (c : Comm) : Comm :=
  mkComm (cm_connected c) (cm_awaiting_response c) (cm_response_ready c) (cm_response_status c)
    (cm_response_raw c) (S (cm_refcount c)).

Definition storage_server_release (c : Comm) : Comm :=
  mkComm (cm_connected c) (cm_awaiting_response c) (cm_response_ready c) (cm_response_status c)
    (cm_response_raw c) (cm_refcount c - 1).

(** From the lock to the first wait for the response; [None]: another thread
    awaits a response, so this one waits.  [inr tt]: the message has been sent. *)
Definition wait_begin (c : Comm) : option (Comm * (Z + unit)) :=
  if cm_awaiting_response c then None
  else if cm_connected c then Some (mkComm true true false 0 None (cm_refcount c), inr tt)
  else Some (mkComm false false false 0 None (cm_refcount c), inl (-4)%Z).

(** Woken up: [None] when the response is not ready, else the result of
    [storage_server_send_and_wait] (-5: the server was lost, -6: no text). *)
Definition wait_end (c : Comm) : option (Comm * (Z + cstr)) :=
  if negb (cm_response_ready c) then None
  else
    let c' := mkComm (cm_connected c) false false (cm_response_status c) None (cm_refcount c) in
    if negb (cm_response_status c =? 0)%Z then Some (c', inl (-5)%Z)
    else Some (c', match cm_response_raw c with Some raw => inr raw | None => inl (-6)%Z end).

(** The reader's dispatch: [None] when no one waits for the message. *)
Definition dispatch (c : Comm) (raw : cstr) : option Comm :=
  if cm_awaiting_response c && negb (cm_response_ready c)
  then Some (mkComm (cm_connected c) false true 0 (Some raw) (cm_refcount c)) else None.

Definition storage_server_signal_failure (c : Comm) : Comm :=
  if cm_awaiting_response c && negb (cm_response_ready c)
  then mkComm false false true (-1) None (cm_refcount c)
  else mkComm false (cm_awaiting_response c) (cm_response_ready c) (cm_response_status c)
         (cm_response_raw c) (cm_refcount c).

(** ** The system

    A handler thread is [Ready], takes [state_lock] ([Locked]) when it [locks],
    as MOVE and DELETE do, enters [storage_server_send_and_wait] ([Entered]: the
    connection was up when it looked), has sent its request ([Asked]), and has
    its result ([Answered]; it then gives the lock back). *)
Inductive Thread :=
  | Ready (locks : bool) (request : cstr)
  | Locked (request : cstr)
  | Entered (locks : bool) (request : cstr)
  | Asked (locks : bool) (request : cstr)
  | Answered (result : Z + cstr).

(** The reader: between messages, about to take [state_lock] to record one, or
    ended with its connection. *)
Inductive Reader := Receiving | Recording (raw : cstr) | Gone.

Record Sys := mkSys {
  sy_comm : Comm;
  sy_threads : list Thread;
  sy_reader : Reader;
  sy_state_lock : option nat;
  sy_requests : list cstr;
  sy_inbox : list cstr;
  sy_recorded : list cstr
}.

Section steps.
Context (answer : cstr → list cstr).

(** The thread that may enter [storage_server_send_and_wait]. *)
Definition before_entry (locks : bool) (req : cstr) : Thread :=
  if locks then Locked req else Ready false req.

(** A thread is done with the lock it held. *)
Definition unlock (locks : bool) (s : Sys) : option nat :=
  if locks then None else sy_state_lock s.

(** The server sends [answer req] for a request, some of which may be events for
    the name server rather than replies. *)
Inductive sys_step (s : Sys) : Sys → Prop :=
  | step_lock i req :
      sy_threads s !! i = Some (Ready true req) → sy_state_lock s = None →
      sys_step s (mkSys (sy_comm s) (<[i := Locked req]> (sy_threads s)) (sy_reader s) (Some i)
                    (sy_requests s) (sy_inbox s) (sy_recorded s))
  | step_enter i locks req :
      sy_threads s !! i = Some (before_entry locks req) → cm_connected (sy_comm s) = true →
      sys_step s (mkSys (sy_comm s) (<[i := Entered locks req]> (sy_threads s)) (sy_reader s)
                    (sy_state_lock s) (sy_requests s) (sy_inbox s) (sy_recorded s))
  | step_refuse i locks req :
      sy_threads s !! i = Some (before_entry locks req) → cm_connected (sy_comm s) = false →
      sys_step s (mkSys (sy_comm s) (<[i := Answered (inl (-2)%Z)]> (sy_threads s)) (sy_reader s)
                    (unlock locks s) (sy_requests s) (sy_inbox s) (sy_recorded s))
  | step_send i (locks : bool) req c :
      sy_threads s !! i = Some (Entered locks req) → wait_begin (sy_comm s) = Some (c, inr tt) →
      sys_step s (mkSys c (<[i := Asked locks req]> (sy_threads s)) (sy_reader s) (sy_state_lock s)
                    (sy_requests s ++ [req]) (sy_inbox s) (sy_recorded s))
  | step_send_fails i locks req c e :
      sy_threads s !! i = Some (Entered locks req) → wait_begin (sy_comm s) = Some (c, inl e) →
      sys_step s (mkSys c (<[i := Answered (inl e)]> (sy_threads s)) (sy_reader s) (unlock locks s)
                    (sy_requests s) (sy_inbox s) (sy_recorded s))
  | step_answer i locks req c r :
      sy_threads s !! i = Some (Asked locks req) → wait_end (sy_comm s) = Some (c, r) →
      sys_step s (mkSys c (<[i := Answered r]> (sy_threads s)) (sy_reader s)
                    (unlock locks s) (sy_requests s) (sy_inbox s) (sy_recorded s))
  | step_dispatch raw rest c :
      sy_reader s = Receiving → sy_inbox s = raw :: rest → dispatch (sy_comm s) raw = Some c →
      sys_step s (mkSys c (sy_threads s) Receiving (sy_state_lock s) (sy_requests s) rest (sy_recorded s))
  | step_receive raw rest :
      sy_reader s = Receiving → sy_inbox s = raw :: rest → dispatch (sy_comm s) raw = None →
      sys_step s (mkSys (sy_comm s) (sy_threads s) (Recording raw) (sy_state_lock s) (sy_requests s) rest
                    (sy_recorded s))
  | step_record raw :
      sy_reader s = Recording raw → sy_state_lock s = None →
      sys_step s (mkSys (sy_comm s) (sy_threads s) Receiving None (sy_requests s) (sy_inbox s)
                    (sy_recorded s ++ [raw]))
  | step_server req rest :
      sy_requests s = req :: rest → sy_reader s ≠ Gone →
      sys_step s (mkSys (sy_comm s) (sy_threads s) (sy_reader s) (sy_state_lock s) rest
                    (sy_inbox s ++ answer req) (sy_recorded s))
  | step_disconnect :
      sy_reader s = Receiving → sy_inbox s = [] →
      sys_step s (mkSys (storage_server_signal_failure (sy_comm s)) (sy_threads s) Gone
                    (sy_state_lock s) (sy_requests s) [] (sy_recorded s)).

(** Nothing sent, nothing awaited; [early] is on its way from the server. *)
Definition sys_init (threads : list Thread) (early : list cstr) : Sys :=
  mkSys storage_server_comm_init threads Receiving None [] early [].

(** The result [r] is what the request's thread may be given: the first message
    of the server's answer, or an error once the connection is lost. *)
Definition fair_result (req : cstr) (s : Sys) (r : Z + cstr) : Prop :=
  match r with
  | inr m => ∃ rest, answer req = m :: rest
  | inl e => e ∈ [-2; -4; -5]%Z ∧ cm_connected (sy_comm s) = false
  end.

(** ** One thread *)

(** What the system is when its one thread is in a given phase. *)
Definition phase_inv (req : cstr) (s : Sys) (t : Thread) : Prop :=
  let c := sy_comm s in
  match t with
  | Ready false r | Entered false r =>
      r = req ∧ cm_awaiting_response c = false ∧ sy_requests s = [] ∧ sy_inbox s = [] ∧
      (sy_reader s = Receiving ∨ sy_reader s = Gone ∧ cm_connected c = false)
  | Asked false r =>
      r = req ∧
      ((cm_awaiting_response c = true ∧ cm_response_ready c = false ∧ sy_reader s = Receiving ∧
        ((sy_requests s = [req] ∧ sy_inbox s = []) ∨ (sy_requests s = [] ∧ sy_inbox s = answer req))) ∨
       (cm_response_ready c = true ∧ (sy_reader s = Gone ∨ sy_requests s = []) ∧
        ((cm_response_status c = 0%Z ∧ ∃ m rest, cm_response_raw c = Some m ∧ answer req = m :: rest) ∨
         (cm_response_status c = (-1)%Z ∧ cm_connected c = false))))
  | Answered r =>
      fair_result req s r ∧ (sy_reader s = Gone ∨ sy_requests s = []) ∧ cm_awaiting_response c = false
  | _ => False
  end.

Definition one_inv (req : cstr) (s : Sys) : Prop :=
  sy_state_lock s = None ∧ ∃ t, sy_threads s = [t] ∧ phase_inv req s t.

(** How much is left to do: [n] is the number of messages of an answer. *)
Definition phase_rank (t : Thread) : nat :=
  match t with Ready _ _ | Locked _ => 3 | Entered _ _ => 2 | Asked _ _ => 1 | Answered _ => 0 end.

Definition reader_rank (r : Reader) : nat :=
  match r with Receiving => 1 | Recording _ => 2 | Gone => 0 end.

Definition todo (n : nat) (s : Sys) : nat :=
  sum_list_with phase_rank (sy_threads s) * (2 * n + 3) +
  (if sy_reader s is Gone then 0 else length (sy_requests s) * (2 * n + 2)) +
  2 * length (sy_inbox s) + reader_rank (sy_reader s).

Lemma one_thread {A} (t t' : A) i : [t] !! i = Some t' → i = 0 ∧ t' = t.
Proof. destruct i; cbn; [by intros [= ->]|by rewrite lookup_nil]. Qed.

Lemma one_inv_init req : one_inv req (sys_init [Ready false req] []).
Proof. split; [done|]. eexists; split; [done|]. cbn. naive_solver. Qed.

(** What each critical section requires and leaves, as its callers use it. *)
Lemma wait_begin_inv c c' r : wait_begin c = Some (c', r) →
  cm_awaiting_response c = false ∧ cm_connected c' = cm_connected c ∧
  (cm_connected c = true ∧ r = inr tt ∧ cm_awaiting_response c' = true ∧ cm_response_ready c' = false ∨
   cm_connected c = false ∧ r = inl (-4)%Z ∧ cm_awaiting_response c' = false).
Proof. unfold wait_begin. repeat case_match; intros [= <- <-]; cbn; naive_solver. Qed.

Lemma wait_end_inv c c' r : wait_end c = Some (c', r) →
  cm_response_ready c = true ∧ cm_connected c' = cm_connected c ∧ cm_awaiting_response c' = false ∧
  r = (if (cm_response_status c =? 0)%Z
       then match cm_response_raw c with Some raw => inr raw | None => inl (-6)%Z end else inl (-5)%Z).
Proof. unfold wait_end. destruct (cm_response_ready c), (cm_response_status c =? 0)%Z; naive_solver. Qed.

Lemma dispatch_inv c raw c' : dispatch c raw = Some c' →
  cm_awaiting_response c = true ∧ cm_response_ready c = false ∧
  cm_awaiting_response c' = false ∧ cm_response_ready c' = true ∧ cm_response_status c' = 0%Z ∧
  cm_response_raw c' = Some raw ∧ cm_connected c' = cm_connected c.
Proof. unfold dispatch. case_match; [|done]. intros [= <-]. by destruct (cm_awaiting_response c), (cm_response_ready c). Qed.

Lemma dispatch_none c raw : dispatch c raw = None →
  cm_awaiting_response c = true → cm_response_ready c = false → False.
Proof. unfold dispatch. intros H Ha Hr. by rewrite Ha Hr in H. Qed.

Lemma signal_failure_inv c : let c' := storage_server_signal_failure c in
  cm_connected c' = false ∧
  (cm_awaiting_response c = false → cm_awaiting_response c' = false) ∧
  (cm_awaiting_response c = true → cm_response_ready c = false →
     cm_response_ready c' = true ∧ cm_response_status c' = (-1)%Z) ∧
  (cm_response_ready c = true → cm_response_ready c' = true ∧
     cm_response_status c' = cm_response_status c ∧ cm_response_raw c' = cm_response_raw c).
Proof. unfold storage_server_signal_failure. destruct (cm_awaiting_response c), (cm_response_ready c); cbn; naive_solver. Qed.

(** The steps of the reader leave the phase of the thread. *)
Lemma one_inv_dispatched req s raw rest c :
  one_inv req s → sy_reader s = Receiving → sy_inbox s = raw :: rest → dispatch (sy_comm s) raw = Some c →
  one_inv req (mkSys c (sy_threads s) Receiving (sy_state_lock s) (sy_requests s) rest (sy_recorded s)).
Proof.
  intros (Hl & t & Ht & Hp) Hr Hib (Haw & Hrdy & Haw' & Hrdy' & Hst & Hraw & Hcn)%dispatch_inv.
  split; [done|]. exists t; split; [done|].
  destruct t as [[]| |[]|[]|res]; cbn in Hp |- *; try (by destruct_and? Hp; congruence).
  destruct Hp as [-> [(_ & _ & _ & [[_ Hx]|[Hq Hx]])|(Hx & _)]]; [congruence| |congruence].
  split; [done|]. right. split; [done|]. split; [by right|]. left. split; [done|]. exists raw, rest. by rewrite <- Hx.
Qed.

Lemma one_inv_received req s raw rest :
  one_inv req s → sy_reader s = Receiving → sy_inbox s = raw :: rest → dispatch (sy_comm s) raw = None →
  one_inv req (mkSys (sy_comm s) (sy_threads s) (Recording raw) (sy_state_lock s) (sy_requests s) rest (sy_recorded s)).
Proof.
  intros (Hl & t & Ht & Hp) Hr Hib Hd. split; [done|]. exists t; split; [done|].
  assert (Hno := dispatch_none _ _ Hd).
  destruct t as [[]| |[]|[]|res]; cbn in Hp |- *; try (by destruct_and? Hp; congruence).
  - destruct Hp as [-> [(? & ? & _)|(Hrdy & [Hx|Hq] & Hst)]]; [by destruct Hno|congruence|].
    split; [done|]. right. auto.
  - destruct Hp as (? & [Hx|Hq] & ?); [congruence|]. auto.
Qed.

Lemma one_inv_recorded req s raw :
  one_inv req s → sy_reader s = Recording raw →
  one_inv req (mkSys (sy_comm s) (sy_threads s) Receiving None (sy_requests s) (sy_inbox s) (sy_recorded s ++ [raw])).
Proof.
  intros (Hl & t & Ht & Hp) Hr. split; [done|]. exists t; split; [done|].
  destruct t as [[]| |[]|[]|res]; cbn in Hp |- *; try rewrite Hr in Hp;
    try (by destruct_and? Hp; destruct_or?; destruct_and?; congruence).
  - destruct Hp as [-> [(_ & _ & ? & _)|(Hrdy & [Hx|Hq] & Hst)]]; [done|done|]. split; [done|]. right. auto.
  - destruct Hp as (? & [Hx|Hq] & ?); [congruence|]. auto.
Qed.

Lemma one_inv_lost req s : one_inv req s →
  one_inv req (mkSys (storage_server_signal_failure (sy_comm s)) (sy_threads s) Gone (sy_state_lock s) (sy_requests s) []
                 (sy_recorded s)).
Proof.
  intros (Hl & t & Ht & Hp). destruct (signal_failure_inv (sy_comm s)) as (Hcn & Hf & Hw & Hrd).
  split; [done|]. exists t; split; [done|].
  destruct t as [[]| |[]|[]|res]; cbn in Hp |- *; try done.
  - destruct_and? Hp. naive_solver.
  - destruct_and? Hp. naive_solver.
  - destruct Hp as [-> Hp]. split; [done|]. right.
    destruct Hp as [(Haw & Hrdy & _)|(Hrdy & Hq & Hst)].
    + destruct (Hw Haw Hrdy). auto 7.
    + destruct (Hrd Hrdy) as (? & -> & ->). split; [done|]. split; [by left|].
      destruct Hst as [Hst|[Hst ?]]; [left; done|right; done].
  - destruct Hp as (Hfr & _ & Haw). split; [|by auto].
    destruct res as [e|m]; cbn in Hfr |- *; [|done]. by destruct Hfr.
Qed.

(** Every step keeps the phases and leaves less to do. *)
Lemma one_inv_step req s s' :
  one_inv req s → sys_step s s' → one_inv req s' ∧ todo (length (answer req)) s' < todo (length (answer req)) s.
Proof.
  intros Hone Hs. pose proof Hone as (Hl & t & Ht & Hp). unfold todo.
  destruct Hs as [i r Hi|i locks r Hi Hc|i locks r Hi Hc|i locks r c Hi Hc|i locks r c e Hi Hc|i locks r c res Hi Hc
    |raw rest c Hr Hib Hd|raw rest Hr Hib Hd|raw Hr _|r rest Hrq Hr|Hr Hib];
    try (rewrite Ht in Hi |- *; apply one_thread in Hi as [-> <-]); cbn -[Nat.mul].
  - destruct Hp.
  - destruct locks; [destruct Hp|]. cbn in Hp. split; [|cbn -[Nat.mul]; case_match; lia].
    split; [done|]. eexists; split; [done|]. cbn. naive_solver.
  - destruct locks; [destruct Hp|]. cbn in Hp. split; [|cbn -[Nat.mul]; case_match; lia].
    split; [done|]. eexists; split; [done|]. cbn. split; [split; [set_solver|done]|naive_solver].
  - destruct locks; [destruct Hp|]. destruct Hp as (-> & _ & Hrq & Hib & Hrd).
    apply wait_begin_inv in Hc as (_ & _ & [(Hc & _ & ? & ?)|(? & ? & _)]); [|done].
    assert (sy_reader s = Receiving) as -> by (destruct Hrd as [|[_ ?]]; congruence).
    rewrite Hrq Hib; cbn -[Nat.mul]. split; [|lia]. split; [done|]. eexists; split; [done|]. cbn. naive_solver.
  - destruct locks; [destruct Hp|]. destruct Hp as (-> & _ & Hrq & Hib & Hrd).
    apply wait_begin_inv in Hc as (_ & Hc' & [(? & ? & _)|(? & [= ->] & ?)]); [done|].
    split; [|cbn -[Nat.mul]; case_match; lia]. split; [done|]. eexists; split; [done|]. cbn.
    split; [split; [set_solver|congruence]|]. split; [|done]. destruct Hrd as [|[? _]]; auto.
  - assert (Hend := wait_end_inv _ _ _ Hc). destruct Hend as (Hrdy & Hcn & Haw & Hres).
    destruct locks; [destruct Hp|]. destruct Hp as [-> [(_ & Hno & _)|(_ & Hq & Hst)]]; [congruence|].
    split; [|cbn -[Nat.mul]; case_match; lia]. split; [done|]. eexists; split; [done|]. cbn. split; [|done].
    destruct Hst as [(Hst & m & rest & Hm & Ha)|[Hst Hgone]]; rewrite Hst in Hres; cbn in Hres.
    + rewrite Hm in Hres. subst res. by exists rest.
    + subst res. cbn. split; [set_solver|congruence].
  - split; [by eapply one_inv_dispatched|]. rewrite Hr Hib; cbn -[Nat.mul]. lia.
  - split; [by eapply one_inv_received|]. rewrite Hr Hib; cbn -[Nat.mul]. lia.
  - split; [by eapply one_inv_recorded|]. rewrite Hr; cbn -[Nat.mul]. lia.
  - destruct t as [[]| |[]|[]|res]; cbn in Hp; try rewrite Hrq in Hp; try (by destruct_and? Hp; destruct_or?; destruct_and?; congruence).
    destruct Hp as [-> [(Haw & Hrdy & Hrd & [[[= -> ->] Hib]|[? _]])|(_ & [Hx|?] & _)]]; [|done|congruence|done].
    split; [|rewrite Hrd Hrq Hib; cbn -[Nat.mul]; lia].
    split; [done|]. eexists; split; [done|]. cbn. rewrite Hib. naive_solver.
  - split; [by apply one_inv_lost|]. rewrite Hr; cbn -[Nat.mul]. lia.
Qed.

(** A thread that has no result yet is not blocked, even without a disconnection. *)
Lemma one_inv_progress req s : answer req ≠ [] → one_inv req s →
  (∃ r, sy_threads s = [Answered r] ∧ fair_result req s r) ∨
  (∃ s', sys_step s s' ∧ (sy_reader s' = Gone → sy_reader s = Gone)).
Proof.
  intros Hans (Hl & t & Ht & Hp). destruct t as [[]| |[]|[]|res]; try destruct Hp as [].
  - right. destruct (cm_connected (sy_comm s)) eqn:Hc; eexists.
    + split; [eapply (step_enter s 0 false); [by rewrite Ht|done]|done].
    + split; [eapply (step_refuse s 0 false); [by rewrite Ht|done]|done].
  - right. destruct H0 as (Haw & _ ). destruct (cm_connected (sy_comm s)) eqn:Hc; eexists.
    + split; [eapply (step_send s 0 false); [by rewrite Ht|]|done]. unfold wait_begin. by rewrite Haw Hc.
    + split; [eapply (step_send_fails s 0 false); [by rewrite Ht|]|done]. unfold wait_begin. by rewrite Haw Hc.
  - right. destruct H0 as [(Haw & Hrdy & Hrd & [[Hq Hib]|[Hq Hib]])|(Hrdy & _)].
    + eexists. split; [eapply step_server; [done|congruence]|done].
    + destruct (answer req) as [|m rest] eqn:Ha; [done|].
      eexists. split; [eapply step_dispatch; [done|done|]|done]. unfold dispatch. by rewrite Haw Hrdy.
    + destruct (wait_end (sy_comm s)) as [[c r]|] eqn:He.
      * eexists. split; [eapply (step_answer s 0 false); [by rewrite Ht|done]|by cbn].
      * revert He. unfold wait_end. rewrite Hrdy. cbn. by case_match.
  - left. eauto.
Qed.

(** C22 — A thread that is alone in asking a storage server, and whose request
    the server answers, gets a result in at most [6 * n + 10] steps of the whole
    system, [n] being the number of messages of the answer, and is never blocked
    before, connection lost or not: the first message that the server sends
    after the request, or -2, -4 or -5 if the connection is lost. *)
Theorem send_and_wait_alone req : answer req ≠ [] →
  ∀ k s, nsteps sys_step k (sys_init [Ready false req] []) s →
    k ≤ 6 * length (answer req) + 10 ∧
    ((∃ r, sy_threads s = [Answered r] ∧ fair_result req s r) ∨
     (∃ s', sys_step s s' ∧ (sy_reader s' = Gone → sy_reader s = Gone))).
Proof.
  intros Hans k s Hk.
  cut (one_inv req s ∧ k + todo (length (answer req)) s ≤ todo (length (answer req)) (sys_init [Ready false req] [])).
  { intros [Hi Hle]. split; [|by apply one_inv_progress]. revert Hle. unfold todo, sys_init at 2; cbn -[Nat.mul]. lia. }
  assert (Hi := one_inv_init req). revert Hi Hk. generalize (sys_init [Ready false req] []) as s0.
  intros s0 Hi Hk. induction Hk as [x|n x y z Hxy _ IH]; [auto with lia|].
  destruct (one_inv_step req x y Hi Hxy) as [Hy Hlt]. destruct (IH Hy). split; [done|]. lia.
Qed.
End steps.

(** ** Threads in each other's way *)

(** An answer that names the request it answers. *)
Definition reply_to (req : cstr) : list cstr := [$"OK|" ++ req].

Lemma send_and_wait_alone_witness :
  let req := $"SS_CREATE|a|u" in
  reply_to req ≠ [] ∧
  ∀ s, nsteps (sys_step reply_to) 3 (sys_init [Ready false req] []) s → 3 ≤ 16.
Proof. intros req. split; [done|]. intros s Hs. by destruct (send_and_wait_alone reply_to req ltac:(done) 3 s Hs). Defined.

(** A set of states closed under the steps holds of everything reachable. *)
Lemma sys_invariant answer (P : Sys → Prop) s s' :
  (∀ x y, P x → sys_step answer x y → P y) → P s → rtc (sys_step answer) s s' → P s'.
Proof. intros Hstep Hs Hr. induction Hr; eauto. Qed.

(** The reply of [a] is overwritten: thread 0 has the reply of [b] and thread 1
    waits for a reply that no one will announce, not even a lost connection. *)
Definition stolen (b rb : cstr) (s : Sys) : Prop :=
  sy_threads s = [Answered (inr rb); Asked false b] ∧
  cm_awaiting_response (sy_comm s) = false ∧ cm_response_ready (sy_comm s) = false.

Lemma two_threads {A} (t u t' : A) i : [t; u] !! i = Some t' → (i = 0 ∧ t' = t) ∨ (i = 1 ∧ t' = u).
Proof. destruct i as [|[|i]]; cbn; [intros [= ->]; auto..|by rewrite lookup_nil]. Qed.

Lemma stolen_step answer b rb s s' : stolen b rb s → sys_step answer s s' → stolen b rb s'.
Proof.
  intros (Ht & Haw & Hrdy) Hs. unfold stolen.
  destruct Hs as [i r Hi|i locks r Hi Hc|i locks r Hi Hc|i locks r c Hi Hc|i locks r c e Hi Hc|i locks r c res Hi Hc
    |raw rest c Hr Hib Hd|raw rest Hr Hib Hd|raw Hr _|r rest Hrq Hr|Hr Hib]; cbn; auto;
    try (rewrite Ht in Hi; apply two_threads in Hi as [[-> Hi]|[-> Hi]]; try destruct locks; try discriminate Hi).
  - apply wait_end_inv in Hc as [? _]. congruence.
  - apply dispatch_inv in Hd as [? _]. congruence.
  - split; [done|]. unfold storage_server_signal_failure. by rewrite Haw /= Hrdy.
Qed.

(** C37 — Two requests to one storage server may cross: the reader announces the
    reply of [a] and at once clears [awaiting_response], so a second thread may
    send [b] and discard that reply before the first thread runs; the first
    thread then takes the reply of [b], and the second waits for ever, whatever
    happens later. *)
Theorem response_stolen answer a b ra rb : answer a = [ra] → answer b = [rb] →
  ∃ s, rtc (sys_step answer) (sys_init [Ready false a; Ready false b] []) s ∧
    sy_threads s = [Answered (inr rb); Asked false b] ∧
    ∀ s', rtc (sys_step answer) s s' → sy_threads s' = sy_threads s.
Proof.
  intros Ha Hb. eexists. split.
  - eapply rtc_l; [by eapply (step_enter _ _ 0 false)|]. eapply rtc_l; [by eapply (step_send _ _ 0)|].
    eapply rtc_l; [by eapply step_server|]. cbn. rewrite Ha.
    eapply rtc_l; [by eapply step_dispatch|]. eapply rtc_l; [by eapply (step_enter _ _ 1 false)|].
    eapply rtc_l; [by eapply (step_send _ _ 1)|]. eapply rtc_l; [by eapply step_server|]. cbn. rewrite Hb.
    eapply rtc_l; [by eapply step_dispatch|]. eapply rtc_l; [by eapply (step_answer _ _ 0)|]. apply rtc_refl.
  - split; [done|]. intros s' Hr. cut (stolen b rb s'); [by intros [-> _]|].
    revert Hr. apply sys_invariant; [apply stolen_step|done].
Qed.

Lemma response_stolen_witness :
  ∃ s, rtc (sys_step reply_to) (sys_init [Ready false ($"SS_CREATE|a|u"); Ready false ($"SS_CREATE|b|u")] []) s ∧
    sy_threads s = [Answered (inr ($"OK|SS_CREATE|b|u")); Asked false ($"SS_CREATE|b|u")].
Proof.
  destruct (response_stolen reply_to ($"SS_CREATE|a|u") ($"SS_CREATE|b|u") ($"OK|SS_CREATE|a|u") ($"OK|SS_CREATE|b|u")
    eq_refl eq_refl) as (s & Hr & Ht & _). by exists s.
Defined.

(** [state_lock] is held by a thread that waits for the reader, which waits for
    [state_lock]. *)
Definition locked_up (d e wc : cstr) (s : Sys) : Prop :=
  sy_threads s = [Asked true d; Ready true e] ∧ sy_state_lock s = Some 0 ∧ sy_reader s = Recording wc ∧
  cm_response_ready (sy_comm s) = false ∧ sy_recorded s = [].

Lemma locked_up_step answer d e wc s s' : locked_up d e wc s → sys_step answer s s' → locked_up d e wc s'.
Proof.
  intros (Ht & Hl & Hrd & Hrdy & Hrec) Hs. unfold locked_up.
  destruct Hs as [i r Hi|i locks r Hi Hc|i locks r Hi Hc|i locks r c Hi Hc|i locks r c er Hi Hc|i locks r c res Hi Hc
    |raw rest c Hr Hib Hd|raw rest Hr Hib Hd|raw Hr Hfree|r rest Hrq Hr|Hr Hib]; cbn; auto; try congruence;
    try (rewrite Ht in Hi; apply two_threads in Hi as [[-> Hi]|[-> Hi]]; try destruct locks; try discriminate Hi).
  apply wait_end_inv in Hc as [? _]. congruence.
Qed.

(** C38 — MOVE and DELETE wait for a storage server with [state_lock] held.  When
    a WRITE_COMPLETE of the same server arrives just before the request is sent,
    the server's reader waits for [state_lock] to record it and never reads the
    reply: the request [d] is never answered, the event never recorded, and no
    other request [e] that needs [state_lock] ever starts, whatever the server
    answers. *)
Theorem state_lock_deadlock answer d e wc :
  ∃ s, rtc (sys_step answer) (sys_init [Ready true d; Ready true e] [wc]) s ∧
    ∀ s', rtc (sys_step answer) s s' →
      sy_threads s' = [Asked true d; Ready true e] ∧ sy_reader s' = Recording wc ∧ sy_recorded s' = [].
Proof.
  eexists. split.
  - eapply rtc_l; [by eapply (step_lock _ _ 0)|]. eapply rtc_l; [by eapply step_receive|].
    eapply rtc_l; [by eapply (step_enter _ _ 0 true)|]. eapply rtc_l; [by eapply (step_send _ _ 0)|]. apply rtc_refl.
  - intros s' Hr. cut (locked_up d e wc s'); [by intros (? & _ & ? & _ & ?)|].
    revert Hr. apply sys_invariant; [apply locked_up_step|done].
Qed.

(** The name server takes the first message after the request for the
    reply: an event [wc] that the server sends while a request is on its way is
    given to the waiting thread, and the real reply [r] is then left for the
    reader to treat as an event. *)
Theorem event_taken_for_reply answer req wc r : answer req = [wc; r] →
  ∃ s, rtc (sys_step answer) (sys_init [Ready false req] []) s ∧
    sy_threads s = [Answered (inr wc)] ∧ sy_recorded s = [r].
Proof.
  intros Ha. eexists. split.
  - eapply rtc_l; [by eapply (step_enter _ _ 0 false)|]. eapply rtc_l; [by eapply (step_send _ _ 0)|].
    eapply rtc_l; [by eapply step_server|]. cbn. rewrite Ha.
    eapply rtc_l; [by eapply step_dispatch|]. eapply rtc_l; [by eapply step_receive|].
    eapply rtc_l; [by eapply step_record|]. eapply rtc_l; [by eapply (step_answer _ _ 0)|]. apply rtc_refl.
  - done.
Qed.

Lemma event_taken_for_reply_witness :
  ∃ s, rtc (sys_step (λ _, [$"WRITE_COMPLETE|b|3|1|3"; $"OK|File copied"]))
         (sys_init [Ready false ($"SS_COPY|a|b")] []) s ∧
    sy_threads s = [Answered (inr ($"WRITE_COMPLETE|b|3|1|3"))].
Proof.
  destruct (event_taken_for_reply (λ _, [$"WRITE_COMPLETE|b|3|1|3"; $"OK|File copied"]) ($"SS_COPY|a|b")
    ($"WRITE_COMPLETE|b|3|1|3") ($"OK|File copied") eq_refl) as (s & Hr & Ht & _). by exists s.
Defined.
