(* ===== verification/NSPersist.v ===== *)
(** * The metadata store of the name server

    [ns_save_metadata], [ns_load_metadata] and [ns_init] of
    [src/name_server/name_server.c].  Saving prints three lines for each file;
    loading reads them back through an 8192-byte [fgets] buffer and rebuilds the
    index.  The round trip is in [NSRestart]. *)
From S2P Require Import Prelude CStr Utils Protocol Disk NSMeta NSState.

Definition NS_DB_PATH : cstr := $"ns_metadata.db".
Definition NS_LINE_SIZE : nat := Z.to_nat 8192.

Definition is_bar (c : ascii) : bool := bool_decide (c = c_bar).

(** ** Saving *)

Definition user_or_na (user : cstr) : cstr := match user with [] => $"N/A" | _ => user end.

Definition file_fields (f : FileMetadata) : list cstr :=
  [fm_filename f; fm_owner f; fm_ss_ip f; to_dec (fm_ss_port f); to_dec (fm_size f);
   to_dec (fm_word_count f); to_dec (fm_char_count f); to_dec (fm_created f); to_dec (fm_modified f);
   to_dec (fm_last_access f); if fm_is_directory f then $"1" else $"0";
   user_or_na (fm_last_access_user f); user_or_na (fm_last_modified_user f)].

(** The lines of one file, without their newlines. *)
Definition file_lines (f : FileMetadata) : list cstr :=
  [$"FILE|" ++ join ($"|") (file_fields f);
   $"READ|" ++ join ($",") (fm_read_users f);
   $"WRITE|" ++ join ($",") (fm_write_users f)].

Definition db_lines (files : list FileMetadata) : list cstr :=
  to_dec (Z.of_nat (length files)) :: concat (map file_lines files).

(** The results of [fopen] and [fprintf] are ignored. *)
Definition ns_save_metadata (ns : NameServer) : NameServer :=
  set_ns_disk ns (write_file (ns_disk ns) NS_DB_PATH (unlines (db_lines (ns_files ns)))).1.

(** ** Loading *)

Definition part (parts : list cstr) (i : nat) : option cstr := parts !! i.

(** A field that is there is copied, one that is missing leaves zero. *)
Definition part_str (parts : list cstr) (i size : nat) : cstr :=
  match part parts i with Some s => fit size s | None => [] end.

Definition part_ll (parts : list cstr) (i : nat) : Z :=
  match part parts i with Some s => atoll s | None => 0%Z end.

Definition user_field (parts : list cstr) (i : nat) : cstr :=
  match part parts i with
  | Some s => if streq s ($"N/A") then [] else fit MAX_USERNAME_LENGTH s
  | None => []
  end.

(** Eleven parts and more have the counters; the older format does not. *)
Definition parse_file (parts : list cstr) : FileMetadata :=
  let name := part_str parts 0 MAX_FILENAME_LENGTH in
  let owner := part_str parts 1 MAX_USERNAME_LENGTH in
  let ip := part_str parts 2 MAX_IP_LENGTH in
  let port := match part parts 3 with Some s => atoi s | None => 0%Z end in
  let size := part_ll parts 4 in
  if decide (11 <= length parts) then
    mkMeta name owner ip port size (part_ll parts 5) (part_ll parts 6)
      (match part parts 10 with Some s => negb (atoi s =? 0)%Z | None => false end)
      (part_ll parts 7) (part_ll parts 8) (part_ll parts 9) (user_field parts 11) (user_field parts 12) [] []
  else
    mkMeta name owner ip port size 0 0 false (part_ll parts 5) (part_ll parts 6) (part_ll parts 7) [] [] [] [].

Definition set_readers (f : FileMetadata) (csv : cstr) : FileMetadata :=
  fm_with_acl f (file_acl_parse_csv csv) (fm_write_users f).

Definition set_writers (f : FileMetadata) (csv : cstr) : FileMetadata :=
  fm_with_acl f (fm_read_users f) (file_acl_parse_csv csv).

(** The state of the loop: the server and whether [current] is the last file
    (it is NULL before the first file and after a refused one). *)
Definition load_db_line (st : NameServer * bool) (line : cstr) : NameServer * bool :=
  let '(ns, current) := st in
  let line := trim_string line in
  let count := length (ns_files ns) in
  if string_starts_with line ($"FILE|") then
    let parts := take 13 (fields_on is_bar (drop 5 line)) in
    if negb (validate_filename (default [] (part parts 0))) then (ns, false)
    else
      let file := parse_file parts in
      let '(ns, _) := file_index_insert ns (fm_filename file) count in
      (set_meta ns (ns_files ns ++ [file]), true)
  else if current && string_starts_with line ($"READ|") then
    (set_meta ns (alter (λ f, set_readers f (drop 5 line)) (count - 1) (ns_files ns)), current)
  else if current && string_starts_with line ($"WRITE|") then
    (set_meta ns (alter (λ f, set_writers f (drop 6 line)) (count - 1) (ns_files ns)), current)
  else (ns, current).

(** The loop stops at the end of the file or when the table is full: a full
    table also drops the access lists of its last file. *)
Fixpoint load_db_loop (lines : list cstr) (st : NameServer * bool) : NameServer :=
  match lines with
  | [] => st.1
  | line :: rest =>
      if decide (NS_MAX_FILES <= length (ns_files st.1)) then st.1
      else load_db_loop rest (load_db_line st line)
  end.

Definition ns_load_metadata (ns : NameServer) : NameServer :=
  match read_file (ns_disk ns) NS_DB_PATH with
  | None => ns
  | Some text =>
      let ns := set_cache (set_meta (ns_clear_file_index ns) [])
                  (replicate FILE_CACHE_SIZE (mkEntry [] 0 false 0)) 0 in
      match fgets_lines NS_LINE_SIZE text with
      | [] => ns
      | _ :: lines => load_db_loop lines (ns, false)
      end
  end.

(** The mutex is initialised without error. *)
Definition ns_init (port : Z) (d : Disk) : NameServer := ns_load_metadata (ns_blank port d).
