(* ===== verification/NSRestart.v ===== *)
(** * The registry survives a restart

    [ns_init] after [ns_save_metadata] gives back the files of the registry,
    with their access lists, and a consistent index and cache. *)
From S2P Require Import Prelude CStr Utils Protocol Disk NSMeta NSState NSIndex NSPersist.

(** ** What the store keeps *)

Definition user_ok (u : cstr) : Prop := u = [] ∨ validate_username u = true.

(** An access list that fits the 4096-byte buffer of [file_acl_parse_csv]. *)
Record acl_ok (l : list cstr) : Prop := {
  ao_valid : Forall (λ u, validate_username u = true) l;
  ao_nodup : NoDup l;
  ao_count : length l <= NS_MAX_CLIENTS;
  ao_fits : length (join ($",") l) < NS_MAX_FIELD_SIZE
}.

Definition long_int (n : Z) : Prop := (LONG_MIN <= n <= LONG_MAX)%Z.

Record db_file_ok (f : FileMetadata) : Prop := {
  dk_name : validate_filename (fm_filename f) = true ∧ (c_nl ∉ fm_filename f);
  dk_owner : user_ok (fm_owner f);
  dk_ip : length (fm_ss_ip f) < MAX_IP_LENGTH ∧ (c_nl ∉ fm_ss_ip f) ∧ (c_bar ∉ fm_ss_ip f);
  dk_port : (INT_MIN <= fm_ss_port f <= INT_MAX)%Z;
  dk_sizes : long_int (fm_size f) ∧ long_int (fm_word_count f) ∧ long_int (fm_char_count f);
  dk_times : long_int (fm_created f) ∧ long_int (fm_modified f) ∧ long_int (fm_last_access f);
  dk_access_user : user_ok (fm_last_access_user f);
  dk_modified_user : user_ok (fm_last_modified_user f);
  dk_readers : acl_ok (fm_read_users f);
  dk_writers : acl_ok (fm_write_users f)
}.

(** ** Access lists *)

Lemma username_spaceless u : validate_username u = true → ∀ c, c ∈ u → isspace c = false.
Proof. intros Hv c Hc. apply username_char_space. by eapply username_chars. Qed.

Lemma contains_false entries u :
  Forall (λ e, validate_username e = true) entries → validate_username u = true → u ∉ entries →
  file_acl_contains entries u = false.
Proof.
  intros Hall Hu Hn. apply not_true_iff_false. intros (e & He & Heq)%existsb_exists.
  apply list_elem_of_In in He. rewrite Forall_forall in Hall. specialize (Hall e He).
  apply validate_username_spec in Hall as (_ & Hl & _). apply validate_username_spec in Hu as (_ & Hl' & _).
  rewrite strneq_exact in Heq; [by apply Nat.lt_le_incl|by apply Nat.lt_le_incl|]. by subst.
Qed.

Lemma parse_csv_names l acc :
  Forall (λ u, validate_username u = true) (acc ++ l) → NoDup (acc ++ l) → length acc + length l <= NS_MAX_CLIENTS →
  parse_csv_loop l acc = acc ++ l.
Proof.
  revert acc. induction l as [|u l IH]; intros acc Hall Hnd Hlen; cbn [parse_csv_loop]; [by rewrite app_nil_r|].
  cbn [length] in Hlen. pose proof (proj2 (proj1 (Forall_app _ _ _) Hall)) as Hul.
  pose proof (proj1 (proj1 (Forall_app _ _ _) Hall)) as Hacc. apply Forall_cons in Hul as [Hu Hl].
  rewrite (trim_spaceless u); [by apply username_spaceless|].
  rewrite bool_decide_eq_false_2; [by intros ->|]. rewrite Hu. cbn [negb andb].
  unfold file_acl_add. rewrite contains_false; [done|done| |].
  { apply NoDup_app in Hnd as (_ & Hnd & _). intros Hin. apply (Hnd u Hin). left. }
  rewrite decide_False; [lia|]. apply validate_username_spec in Hu as (_ & Hl' & _).
  rewrite fit_short; [done|]. rewrite IH; [by rewrite -app_assoc..|len|]. by rewrite -app_assoc.
Qed.

Lemma acl_chars l c : Forall (λ u, validate_username u = true) l → c ∈ join ($",") l → isspace c = false.
Proof.
  intros Hall Hc. destruct (isspace c) eqn:Hs; [|done]. exfalso. revert Hc. apply join_not_elem.
  - intros f Hf Hcf. rewrite Forall_forall in Hall.
    pose proof (username_spaceless f (Hall f Hf) c Hcf). congruence.
  - intros [->|Hn]%elem_of_cons; [done|by apply elem_of_nil in Hn].
Qed.

Lemma acl_parse l : acl_ok l → line_text (join ($",") l) ∧ file_acl_parse_csv (join ($",") l) = l.
Proof.
  intros [Hv Hnd Hc Hf]. split; [apply spaceless_line; intros c; by apply acl_chars|].
  unfold file_acl_parse_csv. rewrite fit_short; [done|].
  rewrite (strtok_join _ ","%char l); [by apply bool_decide_eq_true_2| |by apply (parse_csv_names l [])].
  eapply Forall_impl; [exact Hv|]. intros u Hu. split; [by intros ->|]. apply Forall_forall. intros c Hcu.
  apply bool_decide_eq_false_2. intros ->. by apply (username_no u ","%char Hu).
Qed.

(** ** One line at a time *)

Lemma digits_clean n c : isdigit c = false → c ≠ "-"%char → c ∉ to_dec n.
Proof. apply to_dec_no. Qed.

Lemma user_ok_no u c : user_ok u → username_char c = false → c ∉ u.
Proof. intros [->|Hv] Hc; [apply not_elem_of_nil|by apply username_no]. Qed.

Lemma user_or_na_no u c : user_ok u → username_char c = false → (c ∉ $"N/A") → c ∉ user_or_na u.
Proof. intros Hu Hc Hna. unfold user_or_na. destruct u; [done|]. by apply user_ok_no. Qed.

Lemma filename_no_bar f : validate_filename f = true → c_bar ∉ f.
Proof.
  intros (_ & _ & H)%validate_filename_spec Hin. rewrite Forall_forall in H. apply (H _ Hin). unfold invalid_chars. set_solver.
Qed.

Lemma file_fields_no f c : db_file_ok f → c = c_nl ∨ c = c_bar → Forall (λ s, c ∉ s) (file_fields f).
Proof.
  intros [[Hn Hnl] Ho (_ & Hip & Hib) _ _ _ Ha Hm _ _] Hc. unfold file_fields.
  assert (username_char c = false) by (destruct Hc as [-> | ->]; vmd).
  assert (isdigit c = false) by (destruct Hc as [-> | ->]; vmd).
  assert (c ≠ "-"%char) by (destruct Hc as [-> | ->]; vmd).
  assert (c ∉ $"N/A") by (destruct Hc as [-> | ->]; vmd).
  repeat constructor; try (by apply to_dec_no); try (by apply user_or_na_no); try (by apply user_ok_no).
  - destruct Hc as [-> | ->]; [done|by apply filename_no_bar].
  - by destruct Hc as [-> | ->].
  - destruct (fm_is_directory f), Hc as [-> | ->]; vmd.
Qed.

Lemma file_line_fields f : db_file_ok f → fields_on is_bar (join ($"|") (file_fields f)) = file_fields f.
Proof.
  intros Hok. apply (fields_on_join is_bar c_bar); [by apply bool_decide_eq_true_2|done|].
  eapply Forall_impl; [exact (file_fields_no f c_bar Hok (or_intror eq_refl))|].
  intros s Hs. apply Forall_forall. intros c Hc. apply bool_decide_eq_false_2. by intros ->.
Qed.

Lemma user_field_na u parts i : user_ok u → parts !! i = Some (user_or_na u) → user_field parts i = u.
Proof.
  intros Hu Hi. unfold user_field, part. rewrite Hi. unfold user_or_na. destruct u as [|c u]; [done|].
  destruct Hu as [?|Hv]; [done|]. destruct (streq (c :: u) ($"N/A")) eqn:Heq.
  - apply streq_true in Heq. rewrite Heq in Hv. vm_compute in Hv. done.
  - apply fit_short. by apply validate_username_spec in Hv as (_ & ? & _).
Qed.

Lemma user_ok_length u : user_ok u → length u < MAX_USERNAME_LENGTH.
Proof. intros [->|(_ & ? & _)%validate_username_spec]; [apply Nat.ltb_lt; vm_compute; reflexivity|done]. Qed.

(** The fields of a printed file are read back, the access lists empty. *)
Lemma parse_file_fields f : db_file_ok f → parse_file (file_fields f) = fm_with_acl f [] [].
Proof.
  intros [[Hn _] Ho (Hip & _) Hp (Hs1 & Hs2 & Hs3) (Ht1 & Ht2 & Ht3) Ha Hm _ _].
  unfold parse_file, file_fields. destruct (decide _) as [_|Hno]; [|exfalso; apply Hno; cbn; lia].
  apply validate_filename_spec in Hn as (_ & Hnl & _).
  rewrite (user_field_na (fm_last_access_user f) _ 11); [done|done|].
  rewrite (user_field_na (fm_last_modified_user f) _ 12); [done|done|].
  unfold part_str, part_ll, part. cbn [lookup list_lookup].
  rewrite !fit_short; [done|by apply user_ok_length|done|]. rewrite !atoll_to_dec; [done..|].
  rewrite atoi_to_dec; [done|]. unfold fm_with_acl. f_equal. destruct (fm_is_directory f); vm_compute; done.
Qed.

(** ** Loading what was saved *)

(** A loaded file at the end of the table. *)
Definition add_loaded (ns : NameServer) (f : FileMetadata) : NameServer :=
  set_meta (file_index_insert ns (fm_filename f) (length (ns_files ns))).1 (ns_files ns ++ [f]).

Lemma last_user_or_na u : user_ok u → match last (user_or_na u) with Some c => isspace c = false | None => True end.
Proof.
  intros [->|Hv]; [done|]. unfold user_or_na. destruct u as [|c u]; [done|].
  exact (proj2 (spaceless_line _ (username_spaceless _ Hv))).
Qed.

Lemma file_payload_line f : db_file_ok f → line_text (join ($"|") (file_fields f)).
Proof.
  intros Hok. split.
  - apply join_not_elem; [|vmd]. intros s Hs. pose proof (file_fields_no f c_nl Hok (or_introl eq_refl)) as H.
    rewrite Forall_forall in H. by apply H.
  - unfold file_fields. cbn [join]. rewrite !last_app.
    pose proof (last_user_or_na _ (dk_modified_user _ Hok)) as H.
    destruct (last (user_or_na (fm_last_modified_user f))) eqn:Hl; [done|].
    apply last_None in Hl. by destruct (fm_last_modified_user f).
Qed.

Lemma load_line_file ns cur f : db_file_ok f →
  load_db_line (ns, cur) (($"FILE|" ++ join ($"|") (file_fields f)) ++ [c_nl]) =
  (add_loaded ns (fm_with_acl f [] []), true).
Proof.
  intros Hok. unfold load_db_line.
  rewrite (trim_key "F"%char ($"ILE|") "|"%char); [done|done|done|by apply file_payload_line|].
  set (payload := join ($"|") (file_fields f)). cbn [app].
  replace (string_starts_with _ ($"FILE|")) with true by (symmetry; apply strneq_prefix; by exists payload).
  change (drop 5 ("F"%char :: "I"%char :: "L"%char :: "E"%char :: "|"%char :: payload)) with payload.
  unfold payload. rewrite file_line_fields; [done|]. rewrite take_ge; [done|].
  change (part (file_fields f) 0) with (Some (fm_filename f)). cbn [default].
  rewrite (proj1 (dk_name _ Hok)). cbn [negb]. rewrite (parse_file_fields f Hok).
  unfold add_loaded, file_index_insert. by destruct (index_insert _ _ _).
Qed.

(** The last file takes its access list from the lines that follow. *)
Lemma alter_last {A} (g : A → A) l x : alter g (length (l ++ [x]) - 1) (l ++ [x]) = l ++ [g x].
Proof.
  rewrite length_app. cbn [length]. replace (length l + 1 - 1) with (length l + 0) by lia.
  by rewrite alter_app_r.
Qed.

Lemma load_line_readers ns g l : acl_ok l →
  load_db_line (add_loaded ns g, true) (($"READ|" ++ join ($",") l) ++ [c_nl]) =
  (add_loaded ns (fm_with_acl g l (fm_write_users g)), true).
Proof.
  intros Hok. destruct (acl_parse l Hok) as [Hline Hl]. unfold load_db_line.
  rewrite (trim_key "R"%char ($"EAD|") "|"%char); [done|done|done|done|].
  set (payload := join ($",") l) in *. cbn [app].
  replace (string_starts_with _ ($"FILE|")) with false by done.
  replace (string_starts_with _ ($"READ|")) with true by (symmetry; apply strneq_prefix; by exists payload).
  cbn [andb]. change (drop 5 ("R"%char :: "E"%char :: "A"%char :: "D"%char :: "|"%char :: payload)) with payload.
  unfold add_loaded at 1 2. cbn [ns_files set_meta]. rewrite alter_last. unfold set_readers. by rewrite Hl.
Qed.

Lemma load_line_writers ns g l : acl_ok l →
  load_db_line (add_loaded ns g, true) (($"WRITE|" ++ join ($",") l) ++ [c_nl]) =
  (add_loaded ns (fm_with_acl g (fm_read_users g) l), true).
Proof.
  intros Hok. destruct (acl_parse l Hok) as [Hline Hl]. unfold load_db_line.
  rewrite (trim_key "W"%char ($"RITE|") "|"%char); [done|done|done|done|].
  set (payload := join ($",") l) in *. cbn [app].
  replace (string_starts_with _ ($"FILE|")) with false by done.
  replace (string_starts_with _ ($"READ|")) with false by done.
  replace (string_starts_with _ ($"WRITE|")) with true by (symmetry; apply strneq_prefix; by exists payload).
  cbn [andb]. change (drop 6 ("W"%char :: "R"%char :: "I"%char :: "T"%char :: "E"%char :: "|"%char :: payload)) with payload.
  unfold add_loaded at 1 2. cbn [ns_files set_meta]. rewrite alter_last. unfold set_writers. by rewrite Hl.
Qed.

Definition with_nl (l : cstr) : cstr := l ++ [c_nl].

Lemma add_loaded_count ns f : length (ns_files (add_loaded ns f)) = S (length (ns_files ns)).
Proof. unfold add_loaded. cbn. len. Qed.

(** One file is loaded whole unless it fills the table, when its lists are lost. *)
Lemma load_one ns cur f rest : db_file_ok f → length (ns_files ns) < NS_MAX_FILES →
  load_db_loop (map with_nl (file_lines f) ++ rest) (ns, cur) =
  if decide (S (length (ns_files ns)) = NS_MAX_FILES) then add_loaded ns (fm_with_acl f [] [])
  else load_db_loop rest (add_loaded ns f, true).
Proof.
  intros Hok Hlt. unfold file_lines, with_nl. cbn [map app load_db_loop fst].
  rewrite decide_False; [lia|]. rewrite (load_line_file _ _ _ Hok). cbn [fst].
  rewrite add_loaded_count. case_decide as Hfull.
  - case_decide; [done|]. lia.
  - rewrite (load_line_readers _ _ _ (dk_readers _ Hok)). cbn [fst]. rewrite add_loaded_count.
    rewrite decide_False; [lia|]. rewrite (load_line_writers _ _ _ (dk_writers _ Hok)).
    rewrite decide_False; [lia|]. by destruct f.
Qed.

Definition loaded (ns : NameServer) (fs : list FileMetadata) : NameServer := foldl add_loaded ns fs.

Lemma loaded_count ns fs : length (ns_files (loaded ns fs)) = length (ns_files ns) + length fs.
Proof.
  revert ns. induction fs as [|f fs IH]; intros ns; cbn [loaded foldl length]; [lia|].
  change (foldl add_loaded (add_loaded ns f) fs) with (loaded (add_loaded ns f) fs). rewrite IH add_loaded_count. lia.
Qed.

Lemma load_all ns cur fs rest : Forall db_file_ok fs → length (ns_files ns) + length fs < NS_MAX_FILES →
  load_db_loop (map with_nl (concat (map file_lines fs)) ++ rest) (ns, cur) =
  load_db_loop rest (loaded ns fs, match fs with [] => cur | _ => true end).
Proof.
  intros Hall. revert ns cur. induction Hall as [|f fs Hf _ IH]; intros ns cur Hlt; [done|].
  cbn [length] in Hlt. cbn [map concat]. rewrite map_app -app_assoc load_one; [done|lia|].
  rewrite decide_False; [lia|]. rewrite IH; [rewrite add_loaded_count; lia|].
  cbn [loaded foldl]. by destruct fs.
Qed.

Lemma add_loaded_spec ns f :
  reg_wf ns → (fm_filename f ∉ map fm_filename (ns_files ns)) → db_file_ok f ∨ (∃ g, db_file_ok g ∧ f = fm_with_acl g [] []) →
  length (ns_files ns) < NS_MAX_FILES →
  reg_wf (add_loaded ns f) ∧ ns_files (add_loaded ns f) = ns_files ns ++ [f].
Proof.
  intros Hwf Hnew Hok Hlt. split; [|done].
  assert (Hname : validate_filename (fm_filename f) = true) by (destruct Hok as [Hok|(g & Hok & ->)]; apply Hok).
  apply validate_filename_spec in Hname as (Hne & Hl & _).
  assert (Hnone : registry ns !! fm_filename f = None).
  { destruct (registry ns !! fm_filename f) as [g|] eqn:Hg; [|done]. exfalso. apply Hnew.
    apply registry_lookup in Hg as (i & Hi & <-); [|done]. apply list_elem_of_fmap. exists g. split; [done|].
    by eapply list_elem_of_lookup_2. }
  pose proof (append_spec ns f Hwf Hnone Hne Hl Hlt) as H. unfold add_loaded, file_index_insert.
  destruct (index_insert _ _ _) as [index ok]. by destruct H as (_ & ? & _).
Qed.

Lemma loaded_spec ns fs :
  reg_wf ns → NoDup (map fm_filename (ns_files ns ++ fs)) → Forall db_file_ok fs →
  length (ns_files ns) + length fs <= NS_MAX_FILES →
  reg_wf (loaded ns fs) ∧ ns_files (loaded ns fs) = ns_files ns ++ fs.
Proof.
  intros Hwf Hnd Hall. revert ns Hwf Hnd. induction Hall as [|f fs Hf _ IH]; intros ns Hwf Hnd Hle.
  { by rewrite app_nil_r. }
  cbn [length] in Hle. cbn [loaded foldl]. destruct (add_loaded_spec ns f) as [Hwf1 Hfiles]; [done| |by left|lia|].
  { rewrite map_app in Hnd. apply NoDup_app in Hnd as (_ & Hnd & _). intros Hin. apply (Hnd _ Hin). left. }
  fold (loaded (add_loaded ns f) fs). destruct (IH (add_loaded ns f)) as [Hwf2 Hfiles2].
  - done.
  - by rewrite Hfiles -app_assoc.
  - rewrite add_loaded_count. lia.
  - split; [done|]. by rewrite Hfiles2 Hfiles -app_assoc.
Qed.

(** ** The lines fit the buffer *)

Lemma length_join1 sep l : length sep = 1 → length (join sep l) <= sum_list_with length l + length l.
Proof.
  intros Hs. induction l as [|s l IH]; cbn [join sum_list_with length]; [lia|].
  destruct l as [|s' l]; [lia|]. rewrite !length_app Hs. cbn [sum_list_with length] in *. lia.
Qed.

Lemma to_dec_long n : long_int n → length (to_dec n) <= 20.
Proof. apply to_dec_long_length. Qed.

Lemma user_or_na_length u : user_ok u → length (user_or_na u) < MAX_USERNAME_LENGTH.
Proof.
  intros H%user_ok_length. unfold user_or_na. destruct u; [apply Nat.ltb_lt; vm_compute; reflexivity|done].
Qed.

Lemma file_line_length f : db_file_ok f → length (join ($"|") (file_fields f)) < 2048.
Proof.
  intros [[Hn _] Ho%user_ok_length (Hip & _) Hp (Hs1 & Hs2 & Hs3) (Ht1 & Ht2 & Ht3) Ha%user_or_na_length Hm%user_or_na_length _ _].
  eapply Nat.le_lt_trans; [by apply length_join1|]. unfold file_fields. cbn [sum_list_with length].
  apply validate_filename_spec in Hn as (_ & Hn & _). apply to_dec_int_length in Hp.
  apply to_dec_long in Hs1, Hs2, Hs3, Ht1, Ht2, Ht3.
  assert (length (if fm_is_directory f then $"1" else $"0") = 1) as -> by by destruct (fm_is_directory f).
  unfold MAX_FILENAME_LENGTH, MAX_USERNAME_LENGTH, MAX_IP_LENGTH in *. lia.
Qed.

Lemma db_lines_clean fs : Forall db_file_ok fs → length fs <= NS_MAX_FILES →
  Forall (λ l, (c_nl ∉ l) ∧ length l + 1 < NS_LINE_SIZE) (db_lines fs).
Proof.
  assert (Hbig : NS_MAX_FIELD_SIZE + 4096 = NS_LINE_SIZE ∧ 2048 + 2048 = NS_MAX_FIELD_SIZE) by (split; vm_compute; reflexivity).
  intros Hall Hlen. unfold db_lines. constructor.
  { split; [by apply to_dec_no|]. assert (long_int (Z.of_nat (length fs))) as H%to_dec_long.
    { unfold long_int, LONG_MIN, LONG_MAX, NS_MAX_FILES in *. lia. } lia. }
  clear Hlen. induction Hall as [|f fs Hf _ IH]; cbn [map concat]; [constructor|].
  apply Forall_app. split; [|done]. unfold file_lines.
  destruct Hbig as [Hb1 Hb2]. clear IH. generalize dependent NS_LINE_SIZE. intros n Hb1.
  repeat (apply Forall_cons; split); [..|by apply Forall_nil]; split; try (rewrite length_app).
  - apply not_elem_of_app; split; [vmd|apply file_payload_line, Hf].
  - pose proof (file_line_length f Hf) as H. change (length ($"FILE|")) with 5. lia.
  - apply not_elem_of_app; split; [vmd|apply acl_parse, Hf].
  - pose proof (ao_fits _ (dk_readers _ Hf)) as H. change (length ($"READ|")) with 5. lia.
  - apply not_elem_of_app; split; [vmd|apply acl_parse, Hf].
  - pose proof (ao_fits _ (dk_writers _ Hf)) as H. change (length ($"WRITE|")) with 6. lia.
Qed.

(** ** A restart *)

Section restart.
Context (ns : NameServer) (port : Z).
Context (Hwf : reg_wf ns) (Hok : Forall db_file_ok (ns_files ns)).
Context (Hcan : can_create (ns_disk ns) NS_DB_PATH = true) (Hgood : dk_fault (ns_disk ns) NS_DB_PATH = NoFault).

Definition restarted : NameServer := ns_init port (ns_disk (ns_save_metadata ns)).

Lemma restarted_loop : ∃ d, restarted = load_db_loop (map with_nl (concat (map file_lines (ns_files ns)))) (ns_blank port d, false).
Proof.
  unfold restarted, ns_init, ns_load_metadata, ns_save_metadata.
  rewrite (write_file_good _ _ _ Hcan Hgood). cbn [fst ns_disk set_ns_disk ns_blank].
  unfold read_file, denied. cbn [dk_fault dk_files set_files]. rewrite Hgood lookup_insert_eq.
  rewrite fgets_unlines; [by apply db_lines_clean, rw_count|]. unfold db_lines. cbn [map].
  by eexists.
Qed.
End restart.

Lemma restart_loaded ns d port :
  reg_wf ns → Forall db_file_ok (ns_files ns) → length (ns_files ns) < NS_MAX_FILES →
  load_db_loop (map with_nl (concat (map file_lines (ns_files ns)))) (ns_blank port d, false) =
  loaded (ns_blank port d) (ns_files ns).
Proof.
  intros Hwf Hok Hlt. rewrite -(app_nil_r (map with_nl _)) load_all; [done|exact Hlt|done].
Qed.

Lemma restart_full ns d port l f :
  ns_files ns = l ++ [f] → Forall db_file_ok (ns_files ns) → length (ns_files ns) = NS_MAX_FILES →
  load_db_loop (map with_nl (concat (map file_lines (ns_files ns)))) (ns_blank port d, false) =
  add_loaded (loaded (ns_blank port d) l) (fm_with_acl f [] []).
Proof.
  intros Heq Hok Hlen. rewrite Heq in Hok, Hlen |- *. apply Forall_app in Hok as [Hl [Hf _]%Forall_cons].
  rewrite length_app in Hlen. cbn [length] in Hlen.
  rewrite map_app concat_app map_app load_all; [done|cbn [ns_blank ns_files length]; lia|].
  cbn [map concat]. rewrite app_nil_r -(app_nil_r (map with_nl (file_lines f))) load_one; [done| |].
  - rewrite loaded_count. cbn [ns_blank ns_files length]. lia.
  - rewrite decide_True; [|done]. rewrite loaded_count. cbn [ns_blank ns_files length]. lia.
Qed.

(** ** Properties *)

(** C16 Saving the registry and starting again from the store gives back the same
    files, in the same order and with the same access lists, and a consistent
    index and cache, as long as the table is not full.  When it is full, with
    10000 entries, the loading loop ends before the two lines of the last
    entry's access lists, and that entry comes back with no access list.
    Assumed: the disk takes the store, and every entry can be read back
    ([db_file_ok]): names and users are valid, numbers in range, and the text of
    each access list, its users separated by commas, is shorter than 4096 bytes.
    A longer list is saved and comes back cut: [long_acl_cut]. *)
Theorem restart_keeps_registry ns port :
  reg_wf ns → Forall db_file_ok (ns_files ns) →
  can_create (ns_disk ns) NS_DB_PATH = true → dk_fault (ns_disk ns) NS_DB_PATH = NoFault →
  let ns' := restarted ns port in
  reg_wf ns' ∧
  (length (ns_files ns) < NS_MAX_FILES → ns_files ns' = ns_files ns ∧ registry ns' = registry ns) ∧
  (length (ns_files ns) = NS_MAX_FILES →
     ∃ l f, ns_files ns = l ++ [f] ∧ ns_files ns' = l ++ [fm_with_acl f [] []]).
Proof.
  intros Hwf Hok Hcan Hgood ns'. destruct (restarted_loop ns port Hwf Hok Hcan Hgood) as [d Hd].
  pose proof (wf_nodup _ Hwf) as Hnd. pose proof (rw_count _ Hwf) as Hle.
  destruct (decide (length (ns_files ns) = NS_MAX_FILES)) as [Hfull|Hfull].
  - destruct (exists_last (l := ns_files ns)) as (l & f & Heq).
    { intros Hnil. rewrite Hnil in Hfull. vm_compute in Hfull. done. }
    unfold ns'. rewrite Hd (restart_full ns d port l f Heq Hok Hfull).
    rewrite Heq in Hok, Hnd, Hfull. apply Forall_app in Hok as [Hl [Hf _]%Forall_cons].
    rewrite length_app in Hfull. cbn [length] in Hfull. rewrite map_app in Hnd.
    apply NoDup_app in Hnd as (Hnd & Hnot & _).
    destruct (loaded_spec (ns_blank port d) l (blank_wf _ _)) as [Hwf1 Hf1]; [done|done|cbn; lia|].
    destruct (add_loaded_spec (loaded (ns_blank port d) l) (fm_with_acl f [] [])) as [Hwf2 Hf2].
    + done.
    + rewrite Hf1. intros Hin. apply (Hnot _ Hin). left.
    + right. by exists f.
    + rewrite Hf1. cbn [ns_blank ns_files app]. lia.
    + split; [done|]. split; [rewrite Heq length_app; cbn [length]; lia|]. intros _. exists l, f. by rewrite Hf2 Hf1.
  - assert (Hlt : length (ns_files ns) < NS_MAX_FILES) by lia.
    destruct (loaded_spec (ns_blank port d) (ns_files ns) (blank_wf _ _)) as [Hwf1 Hf1]; [done|done|cbn; lia|].
    unfold ns'. rewrite Hd (restart_loaded ns d port Hwf Hok Hlt). split; [done|]. split; [|lia].
    intros _. split; [done|]. unfold registry. by rewrite Hf1.
Qed.

(** Eighteen valid readers with names of 250 bytes: after a restart there are
    seventeen, and the last of these is a name of 79 bytes that nobody granted
    anything. *)
Example long_acl_cut :
  let readers := map (λ c, replicate 250 c) ($"abcdefghijklmnopqr") in
  Forall (λ u, validate_username u = true) readers ∧
  fm_read_users <$> last (ns_files (load_db_line (demo_ns, true) (($"READ|" ++ join ($",") readers) ++ [c_nl])).1) =
    Some (take 16 readers ++ [replicate 79 "q"%char]).
Proof. split; [repeat constructor|vm_compute; reflexivity]. Qed.

Lemma demo_files_ok : Forall db_file_ok (ns_files demo_ns).
Proof.
  assert (acl_ok []) as Hacl.
  { split; [constructor|constructor|cbn; lia|apply Nat.ltb_lt; vm_compute; reflexivity]. }
  assert (∀ z, z = 0%Z → long_int z) as Hz by (intros z ->; split; vm_compute; discriminate).
  repeat (apply Forall_cons; split); [..|by apply Forall_nil]; split; try exact Hacl; try (by left);
    try (split_and!; by apply Hz); try (right; vm_compute; reflexivity).
  all: try (split; [vm_compute; reflexivity|vmd]).
  all: try (split_and!; [apply Nat.ltb_lt; vm_compute; reflexivity|vmd|vmd]).
  all: split; vm_compute; discriminate.
Qed.

Lemma restart_keeps_registry_witness : ns_files (restarted demo_ns 8080) = ns_files demo_ns.
Proof.
  destruct (restart_keeps_registry demo_ns 8080 demo_ns_wf demo_files_ok) as (_ & H & _).
  - vm_compute. reflexivity.
  - reflexivity.
  - apply H. apply Nat.ltb_lt. vm_compute. reflexivity.
Defined.
