(* ===== verification/NSPeer.v ===== *)
(** * What the name server's handlers share

    The connection a command came from, the responses, and the interface to the
    storage servers: a handler that needs one runs up to the request, and goes on
    with what [storage_server_send_and_wait] returned.  Between the two parts it
    does not hold [state_lock] (MOVE and DELETE do, and are single parts). *)
From S2P Require Import Prelude CStr Utils Protocol NSMeta NSState.

(** [conn_fd] and [username] of the [ConnectionContext] of a client. *)
Record Ctx := mkCtx { cx_fd : Z; cx_username : cstr }.

(** A field of a parsed message whose presence has been checked. *)
Definition fld (msg : list cstr) (i : nat) : cstr := default [] (msg !! i).

Definition send_error_and_log (fd : Z) (code : Z) (message : cstr) : Outbox :=
  match protocol_build_error code (Some message) with
  | Some err_resp => if (fd <? 0)%Z then [] else [(fd, err_resp)]
  | None => []
  end.

Definition ns_send_simple_ok (fd : Z) (detail : cstr) : Outbox :=
  emit fd [$"OK"; match detail with [] => $"OK" | _ => detail end].

Definition send_info_line (fd : Z) (line_text : cstr) : Outbox :=
  emit fd [$"INFO_LINE"; match line_text with [] => $"N/A" | _ => line_text end].

(** ** The storage servers *)

(** [ask w ss fields]: [storage_server_send_and_wait] on a world of servers, the
    error code or the text of the response. *)
Class Servers (W : Type) := ask : W → StorageServerInfo → list cstr → W * (Z + cstr).

(** A handler up to its request: the responses sent if it ends there, or the
    request, the responses so far being none, and what it remembers. *)
Inductive Phase (P : Type) :=
  | Finished (out : Outbox)
  | Asking (ss : StorageServerInfo) (fields : list cstr) (pending : P).
Arguments Finished {P} out.
Arguments Asking {P} ss fields pending.

(** The handler when nothing else runs while it waits. *)
Definition complete {W P} `{Servers W} (w : W) (begun : NameServer * Phase P)
    (finish : NameServer → P → Z + cstr → NameServer * Outbox) : W * NameServer * Outbox :=
  match begun with
  | (ns, Finished out) => (w, ns, out)
  | (ns, Asking ss fields pending) =>
      let '(w, r) := ask w ss fields in
      let '(ns, out) := finish ns pending r in (w, ns, out)
  end.

(** What the client is told when the request itself failed. *)
Definition status_detail (status : Z) : cstr :=
  if (status =? -2)%Z then $"Storage server unavailable."
  else if (status =? -3)%Z then $"Failed to encode storage server command."
  else if (status =? -4)%Z then $"Failed to send command to storage server."
  else if (status =? -5)%Z then $"Storage server disconnected."
  else if (status =? -6)%Z then $"Incomplete response from storage server."
  else $"Storage server communication failure.".

(** The checks of a response: the code and text of the error, or the fields.
    [expected] is the response of success; parsing never fails. *)
Definition check_response (r : Z + cstr) (expected : cstr) : (Z * cstr) + list cstr :=
  match r with
  | inl status => inl (ERR_INTERNAL_ERROR, status_detail status)
  | inr raw =>
      let msg := protocol_parse_message raw in
      if protocol_is_error msg then
        inl (protocol_get_error_code msg,
             if decide (3 <= length msg) then fld msg 2 else $"Storage server error.")
      else if streq (fld msg 0) expected then inr msg
      else inl (ERR_INTERNAL_ERROR, $"Unexpected SS response.")
  end.
