(* ===== verification/NSQueries.v ===== *)
(** * The queries of the name server

    The branches of [run_client_loop] of [src/name_server/name_server.c] that
    list and look up: LIST_USERS, VIEW, INFO, VIEWFOLDER, LISTREQUESTS and
    REQ_LOC.  Only REQ_LOC changes metadata.  [format_time] depends on the
    locale and the time zone and is a parameter.  A response is in the [Outbox]
    when it is given to [protocol_send_message]; INFO and EXEC stop early when
    the client's connection is lost, which no one can then see. *)
From S2P Require Import Prelude CStr Utils Protocol NSMeta NSPaths NSState NSPersist NSPeer.

(** ** LIST_USERS *)

Definition user_line (fd : Z) (c : ClientInfo) : Outbox :=
  emit fd [$"OK_LIST";
           fit (MAX_USERNAME_LENGTH + 32)
             (cl_username c ++ $" [" ++ (if cl_is_connected c then $"Online" else $"Offline") ++ $"]")].

Definition handle_list_users (ns : NameServer) (ctx : Ctx) : NameServer * Outbox :=
  (ns, concat (map (user_line (cx_fd ctx)) (ns_clients ns)) ++ emit (cx_fd ctx) [$"OK_LIST_END"]).

(** ** VIEW *)

(** The flags [request_all] and [request_details]; [None]: an invalid flag. *)
Fixpoint view_flags (flags : cstr) (all details : bool) : option (bool * bool) :=
  match flags with
  | [] => Some (all, details)
  | c :: rest =>
      if bool_decide (c ∈ ["-"; " "; "009"]%char) then view_flags rest all details
      else if bool_decide (c ∈ ["a"; "A"]%char) then view_flags rest true details
      else if bool_decide (c ∈ ["l"; "L"]%char) then view_flags rest all true
      else None
  end.

Section queries.
Context (format_time : Z → cstr).

Definition time_or_na (size : nat) (t : Z) : cstr :=
  fit size (if (0 <? t)%Z then format_time t else $"N/A").

(** The column of the last access shows the creation time. *)
Definition view_line (fd : Z) (details : bool) (file : FileMetadata) : Outbox :=
  if details then
    emit fd [$"OK_VIEW_L"; fm_filename file; fm_owner file; to_dec (fm_word_count file);
             to_dec (fm_char_count file); time_or_na 64 (fm_created file); time_or_na 64 (fm_modified file)]
  else emit fd [$"OK_VIEW_L"; fm_filename file].

Definition handle_view (ns : NameServer) (ctx : Ctx) (msg : list cstr) : NameServer * Outbox :=
  let fd := cx_fd ctx in
  match view_flags (fld msg 1) false false with
  | None => (ns, send_error_and_log fd ERR_INVALID_REQUEST ($"Unsupported VIEW flag."))
  | Some (request_all, request_details) =>
      if streq (cx_username ctx) [] then
        (ns, send_error_and_log fd ERR_INTERNAL_ERROR ($"Client identity unknown."))
      else
        let shown := List.filter (λ file, request_all || file_has_read_access file (cx_username ctx)) (ns_files ns) in
        (ns, concat (map (view_line fd request_details) shown) ++ emit fd [$"OK_VIEW_END"])
  end.

(** ** INFO *)

(** A comma-separated list that starts with the owner. *)
Definition rights_list (owner : cstr) (users : list cstr) : cstr :=
  let tokens := owner :: List.filter (λ u, negb (strneq MAX_USERNAME_LENGTH u owner)) users in
  let '(text, first) :=
    foldl (λ st token, acl_append_token st.1 NS_MAX_FIELD_SIZE token st.2) ([], true) tokens in
  if first then $"None" else text.

Definition or_na (s : cstr) : cstr := match s with [] => $"N/A" | _ => s end.

Definition info_lines (f : FileMetadata) : list cstr :=
  map (fit NS_MAX_FIELD_SIZE)
    [$"Owner: " ++ or_na (fm_owner f);
     $"Size: " ++ to_dec (Z.max 0 (fm_size f)) ++ $" bytes";
     $"Words: " ++ to_dec (fm_word_count f);
     $"Chars: " ++ to_dec (fm_char_count f);
     $"Created: " ++ time_or_na 64 (fm_created f);
     $"--> Last Modified: " ++ time_or_na 64 (fm_modified f) ++ $" by " ++ or_na (fm_last_modified_user f);
     $"--> Last Accessed: " ++ time_or_na 64 (fm_last_access f) ++ $" by " ++ or_na (fm_last_access_user f);
     $"Access Rights: Read=[" ++ rights_list (fm_owner f) (fm_read_users f) ++ $"]; Write=[" ++
       rights_list (fm_owner f) (fm_write_users f) ++ $"]"].

Definition handle_info (ns : NameServer) (ctx : Ctx) (msg : list cstr) : NameServer * Outbox :=
  let fd := cx_fd ctx in
  if decide (length msg < 2) then (ns, send_error_and_log fd ERR_INVALID_REQUEST ($"Filename missing in INFO."))
  else if negb (validate_filename (fld msg 1)) then
    (ns, send_error_and_log fd ERR_INVALID_REQUEST ($"Invalid filename requested for INFO."))
  else if streq (cx_username ctx) [] then
    (ns, send_error_and_log fd ERR_INTERNAL_ERROR ($"Client identity unknown."))
  else
    let '(ns, r) := file_lookup_locked ns (fld msg 1) in
    match r ≫= λ i, ns_files ns !! i with
    | None => (ns, send_error_and_log fd ERR_FILE_NOT_FOUND ($"File not found for INFO."))
    | Some file =>
        if negb (file_has_read_access file (cx_username ctx)) then
          (ns, send_error_and_log fd ERR_PERMISSION_DENIED ($"User lacks read access for INFO."))
        else
          (ns, emit fd [$"OK_INFO_START"; fm_filename file] ++
               concat (map (send_info_line fd) (info_lines file)) ++ emit fd [$"OK_INFO_END"])
    end.
End queries.

(** ** VIEWFOLDER *)

Definition handle_viewfolder (ns : NameServer) (ctx : Ctx) (msg : list cstr) : NameServer * Outbox :=
  let fd := cx_fd ctx in
  if decide (length msg < 2) then (ns, send_error_and_log fd ERR_INVALID_REQUEST ($"Usage: VIEWFOLDER <path>"))
  else
    match ns_normalize_destination (fld msg 1) MAX_FILENAME_LENGTH with
    | None => (ns, send_error_and_log fd ERR_INVALID_REQUEST ($"Invalid folder path."))
    | Some normalized =>
        let is_root := streq normalized [] in
        let '(ns, r) := if is_root then (ns, None) else file_lookup_locked ns normalized in
        let listing :=
          concat (map (λ fm, emit fd [$"OK_VIEWFOLDER"; fm_filename fm])
                    (List.filter (λ fm, is_direct_child (fm_filename fm) normalized) (ns_files ns))) ++
          emit fd [$"OK_VIEWFOLDER_END"] in
        if is_root then (ns, listing)
        else
          match r ≫= λ i, ns_files ns !! i with
          | None => (ns, send_error_and_log fd ERR_FILE_NOT_FOUND ($"Folder not found."))
          | Some folder =>
              if negb (fm_is_directory folder) then
                (ns, send_error_and_log fd ERR_INVALID_REQUEST ($"Requested path is not a folder."))
              else (ns, listing)
          end
    end.

(** ** LISTREQUESTS *)

Definition request_permission (req : AccessRequest) : cstr :=
  if ar_grant_write req && ar_grant_read req then $"Read & Write"
  else if ar_grant_write req then $"Write" else $"Read".

Definition listed_to (user : cstr) (req : AccessRequest) : bool :=
  ar_is_pending req && streq (ar_to_user req) user.

Definition request_line (fd : Z) (req : AccessRequest) : Outbox :=
  emit fd [$"OK_REQUEST_LIST"; to_dec (ar_id req); ar_filename req; ar_from_user req; request_permission req].

Definition handle_list_requests (ns : NameServer) (ctx : Ctx) : NameServer * Outbox :=
  (ns, concat (map (request_line (cx_fd ctx)) (List.filter (listed_to (cx_username ctx)) (ns_requests ns))) ++
       emit (cx_fd ctx) [$"OK_REQUEST_LIST_END"]).

(** ** REQ_LOC *)

(** The right an operation needs; [None]: the operation is unknown. *)
Definition loc_access (operation : cstr) (file : FileMetadata) (username : cstr) : option bool :=
  if streq operation [] || strcaseeq operation ($"READ") then Some (file_has_read_access file username)
  else if strcaseeq operation ($"WRITE") then Some (file_has_write_access file username)
  else if strcaseeq operation ($"STREAM") then Some (file_has_read_access file username)
  else if strcaseeq operation ($"CHECKPOINT") then Some (file_has_write_access file username)
  else if strcaseeq operation ($"REVERT") then Some (file_has_write_access file username)
  else if strcaseeq operation ($"VIEWCHECKPOINT") then Some (file_has_read_access file username)
  else if strcaseeq operation ($"LISTCHECKPOINTS") then Some (file_has_read_access file username)
  else None.

Definition loc_modifies (operation : cstr) : bool :=
  strcaseeq operation ($"WRITE") || strcaseeq operation ($"UNDO") ||
  strcaseeq operation ($"CHECKPOINT") || strcaseeq operation ($"REVERT").

Definition loc_touch (operation : cstr) (file : FileMetadata) (username : cstr) (now : Z) : FileMetadata :=
  let file := fm_with_access_by file username now in
  if loc_modifies operation then fm_with_modified_by file username now else file.

(** An unknown operation on a missing file is reported as a missing file. *)
Definition handle_req_loc (ns : NameServer) (ctx : Ctx) (msg : list cstr) (now : Z) : NameServer * Outbox :=
  let fd := cx_fd ctx in
  let user := cx_username ctx in
  if decide (length msg < 2) then
    (ns, send_error_and_log fd ERR_INVALID_REQUEST ($"Filename missing in location request."))
  else
    let '(operation, filename) :=
      if decide (3 <= length msg) then (fld msg 1, fld msg 2) else ($"READ", fld msg 1) in
    if negb (validate_filename filename) then
      (ns, send_error_and_log fd ERR_INVALID_REQUEST ($"Invalid filename requested."))
    else if streq user [] then (ns, send_error_and_log fd ERR_INTERNAL_ERROR ($"Client identity unknown."))
    else
      let '(ns, r) := file_lookup_locked ns filename in
      match r with
      | None => (ns, send_error_and_log fd ERR_FILE_NOT_FOUND ($"Requested file not found."))
      | Some i =>
          match ns_files ns !! i with
          | None => (ns, send_error_and_log fd ERR_FILE_NOT_FOUND ($"Requested file not found."))
          | Some file =>
              match loc_access operation file user with
              | None => (ns, send_error_and_log fd ERR_INVALID_REQUEST ($"Unsupported location request operation."))
              | Some false => (ns, send_error_and_log fd ERR_PERMISSION_DENIED ($"User lacks required access."))
              | Some true =>
                  let file := loc_touch operation file user now in
                  let ns := file_cache_store (update_file ns i file) filename i in
                  (ns_save_metadata ns,
                   emit fd [$"OK_LOC"; fm_filename file; fm_ss_ip file; to_dec (fm_ss_port file)])
              end
          end
      end.
