(* ===== verification/NSAccess.v ===== *)
(** * Access commands of the name server

    The branches of [run_client_loop] of [src/name_server/name_server.c] that
    change access lists and access requests: ADDACCESS, REMACCESS,
    REQUESTACCESS, APPROVEACCESS and REJECTACCESS.  ADDACCESS, REMACCESS and
    APPROVEACCESS change the registry, release [state_lock], ask the file's
    storage server to do the same, and undo the change when it refuses: a begin
    and a finish function each, and their composition when nothing else runs in
    between.  When the server is offline the undo follows in a critical section of
    its own, which is part of the begin function here. *)
From S2P Require Import Prelude CStr Utils Protocol NSMeta NSState NSPersist NSPeer.

(** [&ns->files[file_index]] changed, if the index is still in range. *)
Definition change_file (ns : NameServer) (file_index : nat) (g : FileMetadata → FileMetadata) : NameServer :=
  set_meta ns (alter g file_index (ns_files ns)).

(** ** ADDACCESS *)

Record AccessPending := mkPendingAccess {
  pa_filename : cstr;
  pa_user : cstr;
  pa_permission : cstr;
  pa_index : nat
}.

Definition permission_token (grant_read grant_write : bool) : cstr :=
  (if grant_read then $"R" else []) ++ (if grant_write then $"W" else []).

Definition addaccess_begin (ns : NameServer) (ctx : Ctx) (msg : list cstr)
  : NameServer * Phase AccessPending :=
  let fd := cx_fd ctx in
  let filename := fld msg 1 in
  let target_user := fld msg 2 in
  let permission := fld msg 3 in
  if decide (length msg < 4) then
    (ns, Finished (send_error_and_log fd ERR_INVALID_REQUEST ($"Missing parameters for ADDACCESS.")))
  else if negb (validate_filename filename) || negb (validate_username target_user) then
    (ns, Finished (send_error_and_log fd ERR_INVALID_REQUEST ($"Invalid filename or username for ADDACCESS.")))
  else
    match parse_permission_flags permission with
    | None => (ns, Finished (send_error_and_log fd ERR_INVALID_REQUEST ($"Invalid permission token for ADDACCESS.")))
    | Some (grant_read, grant_write) =>
        if streq (cx_username ctx) [] then
          (ns, Finished (send_error_and_log fd ERR_INTERNAL_ERROR ($"Client identity unknown.")))
        else
          match file_lookup_locked ns filename with
          | (ns, None) => (ns, Finished (send_error_and_log fd ERR_FILE_NOT_FOUND ($"File not found for ADDACCESS.")))
          | (ns, Some i) =>
              let file := default meta0 (ns_files ns !! i) in
              if negb (is_fm_owner file (cx_username ctx)) then
                (ns, Finished (send_error_and_log fd ERR_PERMISSION_DENIED ($"Only the owner may modify access.")))
              else if is_fm_owner file target_user then
                (ns, Finished (emit fd [$"OK"; fit NS_MAX_FIELD_SIZE
                                 ($"Owner '" ++ target_user ++ $"' already has full access.")]))
              else
                let '(file', r) := file_add_access file target_user grant_read grant_write in
                let ns := update_file ns i file' in
                if negb (r =? 0)%Z then
                  (ns, Finished (send_error_and_log fd ERR_INTERNAL_ERROR ($"Failed to update ACL.")))
                else
                  match server_of ns file' with
                  | None =>
                      (change_file ns i (λ f, (file_remove_access f target_user).1),
                       Finished (send_error_and_log fd ERR_INTERNAL_ERROR ($"Storage server is offline.")))
                  | Some ss =>
                      (ns, Asking ss [$"SS_ADDACCESS"; filename; target_user; permission_token grant_read grant_write]
                             (mkPendingAccess filename target_user permission i))
                  end
          end
    end.

Definition addaccess_finish (ctx : Ctx) (ns : NameServer) (p : AccessPending) (r : Z + cstr)
  : NameServer * Outbox :=
  match check_response r ($"OK_ACCESS_CHANGED") with
  | inl (code, detail) =>
      (change_file ns (pa_index p) (λ f, (file_remove_access f (pa_user p)).1),
       send_error_and_log (cx_fd ctx) code detail)
  | inr _ =>
      (ns_save_metadata ns,
       emit (cx_fd ctx) [$"OK"; fit NS_MAX_FIELD_SIZE
         ($"Access granted to " ++ pa_user p ++ $" (" ++ pa_permission p ++ $").")])
  end.

Definition handle_addaccess {W} `{Servers W} (w : W) (ns : NameServer) (ctx : Ctx) (msg : list cstr)
  : W * NameServer * Outbox :=
  complete w (addaccess_begin ns ctx msg) (addaccess_finish ctx).

(** ** REMACCESS *)

Record RemovalPending := mkPendingRemoval {
  pr_user : cstr;
  pr_index : nat;
  pr_had_read : bool;
  pr_had_write : bool
}.

Definition remaccess_begin (ns : NameServer) (ctx : Ctx) (msg : list cstr)
  : NameServer * Phase RemovalPending :=
  let fd := cx_fd ctx in
  let filename := fld msg 1 in
  let target_user := fld msg 2 in
  if decide (length msg < 3) then
    (ns, Finished (send_error_and_log fd ERR_INVALID_REQUEST ($"Missing parameters for REMACCESS.")))
  else if negb (validate_filename filename) || negb (validate_username target_user) then
    (ns, Finished (send_error_and_log fd ERR_INVALID_REQUEST ($"Invalid filename or username for REMACCESS.")))
  else if streq (cx_username ctx) [] then
    (ns, Finished (send_error_and_log fd ERR_INTERNAL_ERROR ($"Client identity unknown.")))
  else
    match file_lookup_locked ns filename with
    | (ns, None) => (ns, Finished (send_error_and_log fd ERR_FILE_NOT_FOUND ($"File not found for REMACCESS.")))
    | (ns, Some i) =>
        let file := default meta0 (ns_files ns !! i) in
        if negb (is_fm_owner file (cx_username ctx)) then
          (ns, Finished (send_error_and_log fd ERR_PERMISSION_DENIED ($"Only the owner may modify access.")))
        else
          let had_read := file_acl_contains (fm_read_users file) target_user in
          let had_write := file_acl_contains (fm_write_users file) target_user in
          let '(file', removed) := file_remove_access file target_user in
          if negb removed then
            (ns, Finished (send_error_and_log fd ERR_USER_NOT_FOUND ($"User had no explicit access.")))
          else
            let ns := update_file ns i file' in
            match server_of ns file' with
            | None =>
                (change_file ns i (λ f, (file_add_access f target_user had_read had_write).1),
                 Finished (send_error_and_log fd ERR_INTERNAL_ERROR ($"Storage server is offline.")))
            | Some ss =>
                (ns, Asking ss [$"SS_REMACCESS"; filename; target_user]
                       (mkPendingRemoval target_user i had_read had_write))
            end
    end.

Definition remaccess_finish (ctx : Ctx) (ns : NameServer) (p : RemovalPending) (r : Z + cstr)
  : NameServer * Outbox :=
  match check_response r ($"OK_ACCESS_CHANGED") with
  | inl (code, detail) =>
      (change_file ns (pr_index p) (λ f, (file_add_access f (pr_user p) (pr_had_read p) (pr_had_write p)).1),
       send_error_and_log (cx_fd ctx) code detail)
  | inr _ =>
      (ns_save_metadata ns,
       emit (cx_fd ctx) [$"OK"; fit NS_MAX_FIELD_SIZE ($"Access revoked for " ++ pr_user p ++ $".")])
  end.

Definition handle_remaccess {W} `{Servers W} (w : W) (ns : NameServer) (ctx : Ctx) (msg : list cstr)
  : W * NameServer * Outbox :=
  complete w (remaccess_begin ns ctx msg) (remaccess_finish ctx).

(** ** REQUESTACCESS *)

Definition handle_request_access (ns : NameServer) (ctx : Ctx) (msg : list cstr) : NameServer * Outbox :=
  let fd := cx_fd ctx in
  let filename := fld msg 1 in
  if decide (length msg < 3) then
    (ns, send_error_and_log fd ERR_INVALID_REQUEST ($"Usage: REQUESTACCESS <filename> <R|W>"))
  else if negb (validate_filename filename) then
    (ns, send_error_and_log fd ERR_INVALID_REQUEST ($"Invalid filename."))
  else
    match parse_permission_flags (fld msg 2) with
    | None => (ns, send_error_and_log fd ERR_INVALID_REQUEST ($"Permission must be R or W."))
    | Some (grant_read, grant_write) =>
        match file_lookup_locked ns filename with
        | (ns, None) => (ns, send_error_and_log fd ERR_FILE_NOT_FOUND ($"File not found."))
        | (ns, Some i) =>
            if decide (NS_MAX_ACCESS_REQUESTS <= length (ns_requests ns)) then
              (ns, send_error_and_log fd ERR_INTERNAL_ERROR ($"Request queue is full."))
            else
              let file := default meta0 (ns_files ns !! i) in
              let req := mkRequest (ns_next_request_id ns) (fit MAX_FILENAME_LENGTH filename)
                           (fit MAX_USERNAME_LENGTH (cx_username ctx)) (fit MAX_USERNAME_LENGTH (fm_owner file))
                           grant_read grant_write true in
              (set_requests ns (ns_requests ns ++ [req]) (ns_next_request_id ns + 1),
               ns_send_simple_ok fd ($"Access request submitted."))
        end
    end.

(** ** APPROVEACCESS *)

Definition set_pending (req : AccessRequest) (pending : bool) : AccessRequest :=
  mkRequest (ar_id req) (ar_filename req) (ar_from_user req) (ar_to_user req) (ar_grant_read req)
    (ar_grant_write req) pending.

(** A request changed in place, by its position (requests are never removed). *)
Definition change_request (ns : NameServer) (i : nat) (pending : bool) : NameServer :=
  set_requests ns (alter (λ req, set_pending req pending) i (ns_requests ns)) (ns_next_request_id ns).

Definition find_request (ns : NameServer) (id : Z) : option nat := findb (λ req, (ar_id req =? id)%Z) (ns_requests ns).

Record ApprovalPending := mkPendingApproval { pp_request : nat; pp_index : nat }.

(** Undo of the grant, of what the request names at that time. *)
Definition approve_rollback (ns : NameServer) (p : ApprovalPending) : NameServer :=
  match ns_requests ns !! pp_request p with
  | None => ns
  | Some req =>
      change_request (change_file ns (pp_index p) (λ f, (file_remove_access f (ar_from_user req)).1))
        (pp_request p) true
  end.

(** The result of the grant in the registry is not looked at. *)
Definition approve_begin (ns : NameServer) (ctx : Ctx) (msg : list cstr) : NameServer * Phase ApprovalPending :=
  let fd := cx_fd ctx in
  let refused := send_error_and_log fd ERR_INVALID_REQUEST ($"Invalid request ID or not file owner.") in
  if decide (length msg < 2) then
    (ns, Finished (send_error_and_log fd ERR_INVALID_REQUEST ($"Usage: APPROVEACCESS <request_id>")))
  else
    match find_request ns (atoi (fld msg 1)) with
    | None => (ns, Finished refused)
    | Some k =>
        match ns_requests ns !! k with
        | None => (ns, Finished refused)
        | Some req =>
            if negb (ar_is_pending req && streq (ar_to_user req) (cx_username ctx)) then (ns, Finished refused)
            else
              match file_lookup_locked ns (ar_filename req) with
              | (ns, None) =>
                  (ns, Finished (send_error_and_log fd ERR_FILE_NOT_FOUND ($"File for this request no longer exists.")))
              | (ns, Some i) =>
                  let file := default meta0 (ns_files ns !! i) in
                  let file' := (file_add_access file (ar_from_user req) (ar_grant_read req) (ar_grant_write req)).1 in
                  let ns := change_request (update_file ns i file') k false in
                  match server_of ns file' with
                  | None =>
                      (approve_rollback ns (mkPendingApproval k i),
                       Finished (send_error_and_log fd ERR_INTERNAL_ERROR
                                   ($"Storage server is offline. Access not granted.")))
                  | Some ss =>
                      (ns, Asking ss [$"SS_ADDACCESS"; ar_filename req; ar_from_user req;
                                      match permission_token (ar_grant_read req) (ar_grant_write req) with
                                      | [] => $"R" | token => token end]
                             (mkPendingApproval k i))
                  end
              end
        end
    end.

(** Any response that is not an error is taken for success, and nothing is
    saved. *)
Definition approve_finish (ctx : Ctx) (ns : NameServer) (p : ApprovalPending) (r : Z + cstr)
  : NameServer * Outbox :=
  match r with
  | inl _ =>
      (approve_rollback ns p,
       send_error_and_log (cx_fd ctx) ERR_INTERNAL_ERROR ($"Storage server failed to update ACL."))
  | inr raw =>
      if protocol_is_error (protocol_parse_message raw) then
        (approve_rollback ns p,
         send_error_and_log (cx_fd ctx) ERR_INTERNAL_ERROR ($"Storage server rejected ACL change."))
      else (ns, ns_send_simple_ok (cx_fd ctx) ($"Access approved and saved."))
  end.

Definition handle_approve_access {W} `{Servers W} (w : W) (ns : NameServer) (ctx : Ctx) (msg : list cstr)
  : W * NameServer * Outbox :=
  complete w (approve_begin ns ctx msg) (approve_finish ctx).

(** ** REJECTACCESS *)

Definition handle_reject_access (ns : NameServer) (ctx : Ctx) (msg : list cstr) : NameServer * Outbox :=
  let fd := cx_fd ctx in
  if decide (length msg < 2) then
    (ns, send_error_and_log fd ERR_INVALID_REQUEST ($"Usage: REJECTACCESS <request_id>"))
  else
    let id := atoi (fld msg 1) in
    match findb (λ req, (ar_id req =? id)%Z && ar_is_pending req && streq (ar_to_user req) (cx_username ctx))
            (ns_requests ns) with
    | Some k => (change_request ns k false, ns_send_simple_ok fd ($"Request rejected."))
    | None => (ns, send_error_and_log fd ERR_INVALID_REQUEST ($"Invalid or non-pending request ID."))
    end.
