(* ===== verification/NSFiles.v ===== *)
(** * Files in the name server: CREATE, CREATEFOLDER, COPY and EXEC

    The branches of [run_client_loop] of [src/name_server/name_server.c] that
    make entries and that read or copy contents through the storage servers.
    What the shell prints when EXEC runs a text is outside the program and a
    parameter. *)
From S2P Require Import Prelude CStr Utils Protocol Disk NSMeta NSPaths NSState NSPersist NSPeer.

(** ** CREATE *)

Definition created_file (filename : cstr) (user ip : cstr) (port now : Z) : FileMetadata :=
  mkMeta (fit MAX_FILENAME_LENGTH filename) (fit MAX_USERNAME_LENGTH user) (fit MAX_IP_LENGTH ip) port
    0 0 0 false now now now (fit MAX_USERNAME_LENGTH user) (fit MAX_USERNAME_LENGTH user) [] [].

(** The file being created and the identity of its server. *)
Record CreatePending := mkPendingCreate { pc_filename : cstr; pc_server : nat }.

Definition create_rollback (ns : NameServer) (filename : cstr) : NameServer :=
  (remove_file_metadata_locked ns filename).1.

(** A server of the table, by identity: one that is gone is no longer counted. *)
Definition count_file (ns : NameServer) (id : nat) : NameServer :=
  set_servers ns (map (λ s, if decide (si_id s = id)
                            then si_with_load s (si_total_bytes s) (si_total_files s + 1) else s) (ns_servers ns)).

Definition create_begin (ns : NameServer) (ctx : Ctx) (msg : list cstr) (now : Z)
  : NameServer * Phase CreatePending :=
  let fd := cx_fd ctx in
  let user := cx_username ctx in
  let filename := fld msg 1 in
  if decide (length msg < 2) then
    (ns, Finished (send_error_and_log fd ERR_INVALID_REQUEST ($"Filename missing in CREATE.")))
  else if negb (validate_filename filename) then
    (ns, Finished (send_error_and_log fd ERR_INVALID_REQUEST ($"Invalid filename requested for CREATE.")))
  else if streq user [] then
    (ns, Finished (send_error_and_log fd ERR_INTERNAL_ERROR ($"Client identity unknown.")))
  else if decide (NS_MAX_FILES <= length (ns_files ns)) then
    (ns, Finished (send_error_and_log fd ERR_INTERNAL_ERROR ($"Maximum file limit reached.")))
  else
    match file_lookup_locked ns filename with
    | (ns, Some _) => (ns, Finished (send_error_and_log fd ERR_FILE_EXISTS ($"File already exists.")))
    | (ns, None) =>
        match ns_servers ns with
        | [] => (ns, Finished (send_error_and_log fd ERR_INTERNAL_ERROR ($"No storage servers available.")))
        | _ =>
            match ns_select_storage_server_balanced ns with
            | (ns, None) =>
                (ns, Finished (send_error_and_log fd ERR_INTERNAL_ERROR ($"No alive storage servers available.")))
            | (ns, Some ss) =>
                match register_file ns filename (created_file filename user (si_client_ip ss) (si_client_port ss) now) with
                | (ns, false) =>
                    (ns, Finished (send_error_and_log fd ERR_INTERNAL_ERROR ($"Failed to index new file.")))
                | (ns, true) =>
                    if (si_sockfd ss <? 0)%Z then
                      (create_rollback ns filename,
                       Finished (send_error_and_log fd ERR_INTERNAL_ERROR ($"Storage server socket unavailable.")))
                    else (ns, Asking ss [$"CREATE_FILE"; filename; user] (mkPendingCreate filename (si_id ss)))
                end
            end
        end
    end.

Definition create_finish (ctx : Ctx) (ns : NameServer) (p : CreatePending) (r : Z + cstr) : NameServer * Outbox :=
  match check_response r ($"OK_CREATE") with
  | inl (code, detail) =>
      (create_rollback ns (pc_filename p), send_error_and_log (cx_fd ctx) code detail)
  | inr _ =>
      (ns_save_metadata (count_file ns (pc_server p)),
       emit (cx_fd ctx) [$"OK"; fit NS_MAX_FIELD_SIZE ($"File '" ++ pc_filename p ++ $"' created successfully.")])
  end.

Definition handle_create {W} `{Servers W} (w : W) (ns : NameServer) (ctx : Ctx) (msg : list cstr) (now : Z)
  : W * NameServer * Outbox :=
  complete w (create_begin ns ctx msg now) (create_finish ctx).

(** ** CREATEFOLDER *)

Definition created_folder (path user : cstr) (now : Z) : FileMetadata :=
  mkMeta (fit MAX_FILENAME_LENGTH path) (fit MAX_USERNAME_LENGTH user) [] 0 0 0 0 true now now now
    (fit MAX_USERNAME_LENGTH user) (fit MAX_USERNAME_LENGTH user) [] [].

(** The part under the lock: the error, or the state with the folder. *)
Definition add_folder (ns : NameServer) (path user : cstr) (now : Z) : NameServer * option (Z * cstr) :=
  if decide (NS_MAX_FILES <= length (ns_files ns)) then
    (ns, Some (ERR_INTERNAL_ERROR, $"Maximum file limit reached."))
  else
    match file_lookup_locked ns path with
    | (ns, Some _) => (ns, Some (ERR_FILE_EXISTS, $"Path already exists."))
    | (ns, None) =>
        match ns_split_parent_child path MAX_FILENAME_LENGTH MAX_FILENAME_LENGTH with
        | None => (ns, Some (ERR_INVALID_REQUEST, $"Unable to resolve parent folder."))
        | Some (parent_path, _) =>
            let '(ns, parent) := if streq parent_path [] then (ns, None) else file_lookup_locked ns parent_path in
            let failure :=
              if streq parent_path [] then None
              else match parent ≫= λ i, ns_files ns !! i with
                   | None => Some (ERR_FILE_NOT_FOUND, $"Parent folder does not exist.")
                   | Some meta => if fm_is_directory meta then None
                                  else Some (ERR_INVALID_REQUEST, $"Parent path is not a folder.")
                   end in
            match failure with
            | Some e => (ns, Some e)
            | None =>
                match register_file ns path (created_folder path user now) with
                | (ns, true) => (ns, None)
                | (ns, false) => (ns, Some (ERR_INTERNAL_ERROR, $"Failed to index folder metadata."))
                end
            end
        end
    end.

Definition handle_createfolder (ns : NameServer) (ctx : Ctx) (msg : list cstr) (now : Z) : NameServer * Outbox :=
  let fd := cx_fd ctx in
  if decide (length msg < 2) then (ns, send_error_and_log fd ERR_INVALID_REQUEST ($"Usage: CREATEFOLDER <path>"))
  else if negb (ns_validate_logical_path (fld msg 1)) then
    (ns, send_error_and_log fd ERR_INVALID_REQUEST ($"Invalid path format."))
  else if streq (cx_username ctx) [] then
    (ns, send_error_and_log fd ERR_INTERNAL_ERROR ($"Client identity unknown."))
  else
    match add_folder ns (fld msg 1) (cx_username ctx) now with
    | (ns, None) => (ns_save_metadata ns, ns_send_simple_ok fd ($"Folder created."))
    | (ns, Some (code, detail)) => (ns, send_error_and_log fd code detail)
    end.

(** ** COPY *)

Record CopyPending := mkPendingCopy { pcp_source_index : nat }.

Definition copy_begin (ns : NameServer) (ctx : Ctx) (msg : list cstr) : NameServer * Phase CopyPending :=
  let fd := cx_fd ctx in
  let user := cx_username ctx in
  let src_name := fld msg 1 in
  let dest_name := fld msg 2 in
  if decide (length msg < 3) then
    (ns, Finished (send_error_and_log fd ERR_INVALID_REQUEST ($"Usage: COPY <source> <dest>")))
  else if negb (validate_filename src_name) || negb (validate_filename dest_name) then
    (ns, Finished (send_error_and_log fd ERR_INVALID_REQUEST ($"Invalid filename(s) for COPY.")))
  else if streq user [] then
    (ns, Finished (send_error_and_log fd ERR_INTERNAL_ERROR ($"Client identity unknown.")))
  else
    let '(ns, src) := file_lookup_locked ns src_name in
    let '(ns, dest) := file_lookup_locked ns dest_name in
    match src, dest with
    | None, _ => (ns, Finished (send_error_and_log fd ERR_FILE_NOT_FOUND ($"Source file not found")))
    | Some _, None =>
        (ns, Finished (send_error_and_log fd ERR_FILE_NOT_FOUND ($"Destination file not found (create it first)")))
    | Some i, Some j =>
        let src_file := default meta0 (ns_files ns !! i) in
        let dest_file := default meta0 (ns_files ns !! j) in
        if negb (file_has_read_access src_file user) then
          (ns, Finished (send_error_and_log fd ERR_PERMISSION_DENIED ($"No read access to source")))
        else if negb (file_has_write_access dest_file user) then
          (ns, Finished (send_error_and_log fd ERR_PERMISSION_DENIED ($"No write access to destination")))
        else
          match server_of ns dest_file, server_of ns src_file with
          | None, _ =>
              (ns, Finished (send_error_and_log fd ERR_INTERNAL_ERROR ($"Destination storage server offline")))
          | Some _, None =>
              (ns, Finished (send_error_and_log fd ERR_INTERNAL_ERROR ($"Source storage server offline")))
          | Some dest_ss, Some src_ss =>
              let '(source_ip, port) :=
                if decide (si_id src_ss = si_id dest_ss) then ($"LOCAL", $"0")
                else (si_client_ip src_ss, to_dec (si_client_port src_ss)) in
              (ns, Asking dest_ss [$"SS_COPY"; dest_name; source_ip; port; src_name; user] (mkPendingCopy i))
          end
    end.

(** The response is forwarded as it came. *)
Definition forward (fd : Z) (raw : cstr) : Outbox := if (fd <? 0)%Z then [] else [(fd, raw)].

Definition copy_finish (ctx : Ctx) (now : Z) (ns : NameServer) (p : CopyPending) (r : Z + cstr)
  : NameServer * Outbox :=
  match r with
  | inl _ => (ns, send_error_and_log (cx_fd ctx) ERR_INTERNAL_ERROR ($"Copy failed on Storage Server"))
  | inr raw =>
      let out := forward (cx_fd ctx) raw in
      if protocol_is_error (protocol_parse_message raw) then (ns, out)
      else if decide (pcp_source_index p < length (ns_files ns)) then
        (ns_save_metadata (set_meta ns (alter (λ f, fm_with_access_by f (cx_username ctx) now)
                                          (pcp_source_index p) (ns_files ns))), out)
      else (ns, out)
  end.

Definition handle_copy {W} `{Servers W} (w : W) (ns : NameServer) (ctx : Ctx) (msg : list cstr) (now : Z)
  : W * NameServer * Outbox :=
  complete w (copy_begin ns ctx msg) (copy_finish ctx now).

(** ** EXEC *)

(** The metadata is saved whenever the access has been recorded. *)
Definition exec_begin (ns : NameServer) (ctx : Ctx) (msg : list cstr) (now : Z) : NameServer * Phase unit :=
  let fd := cx_fd ctx in
  let user := cx_username ctx in
  if decide (length msg < 2) then
    (ns, Finished (send_error_and_log fd ERR_INVALID_REQUEST ($"Filename missing in EXEC.")))
  else if negb (validate_filename (fld msg 1)) then
    (ns, Finished (send_error_and_log fd ERR_INVALID_REQUEST ($"Invalid filename.")))
  else if streq user [] then
    (ns, Finished (send_error_and_log fd ERR_INTERNAL_ERROR ($"Client identity unknown.")))
  else
    match file_lookup_locked ns (fld msg 1) with
    | (ns, None) => (ns, Finished (send_error_and_log fd ERR_FILE_NOT_FOUND ($"File not found.")))
    | (ns, Some i) =>
        let file := default meta0 (ns_files ns !! i) in
        if negb (file_has_read_access file user) then
          (ns, Finished (send_error_and_log fd ERR_PERMISSION_DENIED ($"User lacks read access for EXEC.")))
        else
          let file := fm_with_access_by file user now in
          let ns := update_file ns i file in
          match server_of ns file with
          | None =>
              (ns_save_metadata ns,
               Finished (send_error_and_log fd ERR_INTERNAL_ERROR ($"Storage server for file is offline.")))
          | Some ss => (ns, Asking ss [$"GET_CONTENT"; fm_filename file] tt)
          end
    end.

Section exec.
(** What the process started by [popen] prints; [None]: it could not be started. *)
Context (shell : cstr → option cstr).

Definition exec_line (fd : Z) (line : cstr) : Outbox := emit fd [$"EXEC_OUT"; trim_string line].

Definition exec_finish (ctx : Ctx) (ns : NameServer) (_ : unit) (r : Z + cstr) : NameServer * Outbox :=
  let fd := cx_fd ctx in
  let out :=
    match r with
    | inl _ => send_error_and_log fd ERR_INTERNAL_ERROR ($"Failed to get file content from storage server.")
    | inr raw =>
        let msg := protocol_parse_message raw in
        if protocol_is_error msg then
          send_error_and_log fd (protocol_get_error_code msg)
            (if decide (3 <= length msg) then fld msg 2 else $"Storage server error.")
        else if negb (streq (fld msg 0) ($"OK_CONTENT")) || bool_decide (length msg < 3) then
          send_error_and_log fd ERR_INTERNAL_ERROR ($"Unexpected storage server payload for EXEC.")
        else
          match shell (fld msg 2) with
          | None => send_error_and_log fd ERR_EXEC_FAILED ($"Failed to execute command on server.")
          | Some output =>
              emit fd [$"OK_EXEC_START"] ++
              concat (map (exec_line fd) (fgets_lines NS_MAX_FIELD_SIZE output)) ++
              emit fd [$"OK_EXEC_END"]
          end
    end in
  (ns_save_metadata ns, out).

Definition handle_exec {W} `{Servers W} (w : W) (ns : NameServer) (ctx : Ctx) (msg : list cstr) (now : Z)
  : W * NameServer * Outbox :=
  complete w (exec_begin ns ctx msg now) (exec_finish ctx).
End exec.
