(* ===== verification/NSTree.v ===== *)
(** * Moving and deleting entries: MOVE and DELETE

    The two branches of [run_client_loop] of [src/name_server/name_server.c] that
    work on a whole subtree.  Both hold [state_lock] from the first lookup to the
    last change, also while they wait for storage servers, so each is one part:
    a plan with one entry for each file or folder concerned, the requests to the
    servers, and the changes of the registry. *)
From S2P Require Import Prelude CStr Utils Protocol NSMeta NSPaths NSState NSPersist NSPeer.

(** ** MOVE: the plan *)

(** [ss] and the flattened names are set for files only. *)
Record MovePlanEntry := mkMove {
  me_old_path : cstr;
  me_new_path : cstr;
  me_is_directory : bool;
  me_ss : option StorageServerInfo;
  me_old_flat : cstr;
  me_new_flat : cstr
}.

(** The new path of the moved entry itself or of one below it. *)
Definition entry_path (final_root src_path filename : cstr) : option cstr :=
  if streq filename src_path then Some final_root else move_path final_root src_path filename.

(** The error code and text, or the plan; lookups may change the cache. *)
Definition Failure : Type := Z * cstr.

Definition move_entry (ns : NameServer) (user src_path final_root : cstr) (fm : FileMetadata)
  : NameServer * (Failure + MovePlanEntry) :=
  if negb (is_fm_owner fm user) then
    (ns, inl (ERR_PERMISSION_DENIED, $"Move requires ownership of all contained entries."))
  else
    match entry_path final_root src_path (fm_filename fm) with
    | None => (ns, inl (ERR_INVALID_REQUEST, $"Destination path too long."))
    | Some new_path =>
        if negb (ns_validate_logical_path new_path) then
          (ns, inl (ERR_INVALID_REQUEST, $"Destination path is invalid."))
        else
          let '(ns, collision) := file_lookup_locked ns new_path in
          if match collision ≫= λ i, ns_files ns !! i with
             | Some c => negb (streq (fm_filename c) (fm_filename fm))
             | None => false
             end then (ns, inl (ERR_FILE_EXISTS, $"Destination already contains an entry with that name."))
          else if fm_is_directory fm then
            (ns, inr (mkMove (fm_filename fm) new_path true None [] []))
          else
            match server_of ns fm with
            | None => (ns, inl (ERR_INTERNAL_ERROR, $"Storage server unavailable for move."))
            | Some ss =>
                match flatten_logical_path (fm_filename fm) MAX_FILENAME_LENGTH,
                      flatten_logical_path new_path MAX_FILENAME_LENGTH with
                | Some old_flat, Some new_flat =>
                    (ns, inr (mkMove (fm_filename fm) new_path false (Some ss) old_flat new_flat))
                | _, _ => (ns, inl (ERR_INTERNAL_ERROR, $"Failed to derive storage filenames."))
                end
            end
    end.

Definition in_subtree (is_directory : bool) (src_path : cstr) (fm : FileMetadata) : bool :=
  streq (fm_filename fm) src_path || (is_directory && is_child_path (fm_filename fm) src_path).

Fixpoint move_plan (ns : NameServer) (user src_path final_root : cstr) (is_directory : bool)
    (files : list FileMetadata) : NameServer * (Failure + list MovePlanEntry) :=
  match files with
  | [] => (ns, inr [])
  | fm :: files =>
      if negb (in_subtree is_directory src_path fm) then
        move_plan ns user src_path final_root is_directory files
      else
        match move_entry ns user src_path final_root fm with
        | (ns, inl e) => (ns, inl e)
        | (ns, inr entry) =>
            match move_plan ns user src_path final_root is_directory files with
            | (ns, inl e) => (ns, inl e)
            | (ns, inr plan) => (ns, inr (entry :: plan))
            end
        end
  end.

(** The path the source gets; [None]: too long. *)
Definition final_root_path (normalized_dest base_name : cstr) : option cstr :=
  match normalized_dest with
  | [] => safe_strcpy base_name MAX_FILENAME_LENGTH
  | _ =>
      let path := normalized_dest ++ c_slash :: base_name in
      if decide (MAX_FILENAME_LENGTH <= length path) then None else Some path
  end.

(** The checks of the source and the destination, then the plan. *)
Definition move_prepare (ns : NameServer) (user src_path normalized_dest : cstr)
  : NameServer * (Failure + list MovePlanEntry) :=
  match file_lookup_locked ns src_path with
  | (ns, None) => (ns, inl (ERR_FILE_NOT_FOUND, $"Source path not found."))
  | (ns, Some i) =>
      let src_meta := default meta0 (ns_files ns !! i) in
      if negb (is_fm_owner src_meta user) then
        (ns, inl (ERR_PERMISSION_DENIED, $"Only the owner may move this entry."))
      else
        let dest_is_root := streq normalized_dest [] in
        let '(ns, dest) := if dest_is_root then (ns, None) else file_lookup_locked ns normalized_dest in
        let dest_failure :=
          if dest_is_root then None
          else match dest ≫= λ j, ns_files ns !! j with
               | None => Some (ERR_FILE_NOT_FOUND, $"Destination folder not found.")
               | Some d => if fm_is_directory d then None
                           else Some (ERR_INVALID_REQUEST, $"Destination is not a folder.")
               end in
        match dest_failure with
        | Some e => (ns, inl e)
        | None =>
            match ns_split_parent_child src_path MAX_FILENAME_LENGTH MAX_FILENAME_LENGTH with
            | None => (ns, inl (ERR_INVALID_REQUEST, $"Unable to resolve source path."))
            | Some (_, base_name) =>
                match final_root_path normalized_dest base_name with
                | None => (ns, inl (ERR_INVALID_REQUEST, $"Destination path too long."))
                | Some final_root =>
                    if streq final_root src_path then
                      (ns, inl (ERR_INVALID_REQUEST, $"Source and destination are identical."))
                    else if fm_is_directory src_meta && negb dest_is_root &&
                            ns_is_descendant_path normalized_dest src_path then
                      (ns, inl (ERR_INVALID_REQUEST, $"Cannot move a folder into its descendant."))
                    else
                      match move_plan ns user src_path final_root (fm_is_directory src_meta) (ns_files ns) with
                      | (ns, inr []) => (ns, inl (ERR_INTERNAL_ERROR, $"Move plan was empty."))
                      | result => result
                      end
                end
            end
        end
  end.

(** ** MOVE: the servers and the registry *)

(** The code 0 means success; a server error whose code reads as 0 is one. *)
Definition rename_result (r : Z + cstr) : Failure :=
  match r with
  | inl _ => (ERR_INTERNAL_ERROR, $"Storage server rename failed.")
  | inr raw =>
      let msg := protocol_parse_message raw in
      if protocol_is_error msg then
        (protocol_get_error_code msg,
         fit NS_MAX_FIELD_SIZE (if decide (3 <= length msg) then fld msg 2 else $"Storage server error."))
      else if negb (streq (fld msg 0) ($"OK")) then (ERR_INTERNAL_ERROR, $"Unexpected storage server response.")
      else (0%Z, [])
  end.

Definition rename_fields (old_path new_path old_flat new_flat : cstr) : list cstr :=
  [$"SS_RENAME"; old_path; new_path; old_flat; new_flat].

Section servers.
Context {W : Type} `{Servers W}.

(** The renames already done are asked back, the last one first; what the
    servers answer is not looked at. *)
Fixpoint move_rollback (w : W) (done_rev : list MovePlanEntry) : W :=
  match done_rev with
  | [] => w
  | e :: rest =>
      match me_ss e with
      | None => move_rollback w rest
      | Some ss =>
          move_rollback
            (ask w ss (rename_fields (me_new_path e) (me_old_path e) (me_new_flat e) (me_old_flat e))).1 rest
      end
  end.

(** The renames in the order of the plan; [done_rev] holds the ones that succeeded. *)
Fixpoint move_servers (w : W) (plan done_rev : list MovePlanEntry) : W * option Failure :=
  match plan with
  | [] => (w, None)
  | e :: rest =>
      match me_ss e with
      | None => move_servers w rest done_rev
      | Some ss =>
          let '(w, r) := ask w ss (rename_fields (me_old_path e) (me_new_path e) (me_old_flat e) (me_new_flat e)) in
          let '(code, detail) := rename_result r in
          if (code =? 0)%Z then move_servers w rest (e :: done_rev)
          else (move_rollback w done_rev, Some (code, detail))
      end
  end.

Definition move_registry (ns : NameServer) (plan : list MovePlanEntry) (user : cstr) (now : Z) : NameServer :=
  foldl (λ ns e, rename_file ns (me_old_path e) (me_new_path e) user now) ns plan.

Definition handle_move (w : W) (ns : NameServer) (ctx : Ctx) (msg : list cstr) (now : Z)
  : W * NameServer * Outbox :=
  let fd := cx_fd ctx in
  let user := cx_username ctx in
  if decide (length msg < 3) then
    (w, ns, send_error_and_log fd ERR_INVALID_REQUEST ($"Usage: MOVE <source> <destination_folder>"))
  else if negb (ns_validate_logical_path (fld msg 1)) then
    (w, ns, send_error_and_log fd ERR_INVALID_REQUEST ($"Invalid source path."))
  else if streq user [] then
    (w, ns, send_error_and_log fd ERR_INTERNAL_ERROR ($"Client identity unknown."))
  else
    match ns_normalize_destination (fld msg 2) MAX_FILENAME_LENGTH with
    | None => (w, ns, send_error_and_log fd ERR_INVALID_REQUEST ($"Invalid destination folder."))
    | Some normalized_dest =>
        match move_prepare ns user (fld msg 1) normalized_dest with
        | (ns, inl (code, detail)) => (w, ns, send_error_and_log fd code detail)
        | (ns, inr plan) =>
            match move_servers w plan [] with
            | (w, Some (code, detail)) =>
                (w, ns, send_error_and_log fd code
                          (match detail with [] => $"Move failed." | _ => detail end))
            | (w, None) =>
                (w, ns_save_metadata (move_registry ns plan user now),
                 ns_send_simple_ok fd ($"Move completed."))
            end
        end
    end.

(** ** DELETE *)

Record DeletePlanEntry := mkDelete {
  de_path : cstr;
  de_ss : option StorageServerInfo;
  de_size : Z
}.

Fixpoint delete_plan (ns : NameServer) (user target_path : cstr) (is_directory : bool)
    (files : list FileMetadata) : Failure + list DeletePlanEntry :=
  match files with
  | [] => inr []
  | fm :: files =>
      if negb (in_subtree is_directory target_path fm) then delete_plan ns user target_path is_directory files
      else if negb (is_fm_owner fm user) then
        inl (ERR_PERMISSION_DENIED, $"Delete requires ownership of all contained entries.")
      else
        let ss := server_of ns fm in
        if negb (fm_is_directory fm) && bool_decide (ss = None) then
          inl (ERR_INTERNAL_ERROR, $"Storage server unavailable for delete.")
        else
          match delete_plan ns user target_path is_directory files with
          | inl e => inl e
          | inr plan =>
              inr (mkDelete (fm_filename fm) (if fm_is_directory fm then None else ss) (Z.max 0 (fm_size fm)) :: plan)
          end
  end.

(** The result of one deletion: [None] is success. *)
Definition delete_result (r : Z + cstr) : option Failure :=
  match r with
  | inl status => Some (ERR_INTERNAL_ERROR, status_detail status)
  | inr raw =>
      let msg := protocol_parse_message raw in
      if protocol_is_error msg then
        let code := protocol_get_error_code msg in
        Some (if (code =? 0)%Z then ERR_INTERNAL_ERROR else code,
              fit NS_MAX_FIELD_SIZE (if decide (3 <= length msg) then fld msg 2 else $"Storage server error."))
      else if streq (fld msg 0) ($"OK_DELETE") then None
      else Some (ERR_INTERNAL_ERROR, $"Unexpected storage server response.")
  end.

(** The servers are asked in the order of the plan until one refuses; what was
    deleted before stays deleted. *)
Fixpoint delete_servers (w : W) (plan : list DeletePlanEntry) : W * option Failure :=
  match plan with
  | [] => (w, None)
  | e :: rest =>
      match de_ss e with
      | None => delete_servers w rest
      | Some ss =>
          let '(w, r) := ask w ss [$"DELETE_FILE"; de_path e] in
          match delete_result r with
          | Some f => (w, Some f)
          | None => delete_servers w rest
          end
      end
  end.

(** The entry with the longest path that is left, the last one of equals. *)
Fixpoint longest (plan : list DeletePlanEntry) (i : nat) (best : option nat) (best_len : nat) : option nat :=
  match plan with
  | [] => best
  | e :: rest =>
      if decide (best_len <= length (de_path e)) then longest rest (S i) (Some i) (length (de_path e))
      else longest rest (S i) best best_len
  end.

Definition discount (s : StorageServerInfo) (removed_size : Z) : StorageServerInfo :=
  si_with_load s
    (if (0 <? removed_size)%Z
     then if (removed_size <=? si_total_bytes s)%Z then (si_total_bytes s - removed_size)%Z else 0%Z
     else si_total_bytes s)
    (if (0 <? si_total_files s)%Z then (si_total_files s - 1)%Z else si_total_files s).

(** Pending requests for the entry are cancelled. *)
Definition cancel_requests (ns : NameServer) (path : cstr) : NameServer :=
  set_requests ns
    (map (λ req, if ar_is_pending req && streq (ar_filename req) path
                 then mkRequest (ar_id req) (ar_filename req) (ar_from_user req) (ar_to_user req)
                        (ar_grant_read req) (ar_grant_write req) false
                 else req) (ns_requests ns))
    (ns_next_request_id ns).

Definition delete_entry (ns : NameServer) (e : DeletePlanEntry) : NameServer :=
  match remove_file_metadata_locked ns (de_path e) with
  | (ns, false) => ns
  | (ns, true) =>
      let ns := match de_ss e with
                | None => ns
                | Some ss => set_servers ns (map (λ s, if decide (si_id s = si_id ss) then discount s (de_size e) else s)
                                               (ns_servers ns))
                end in
      cancel_requests ns (de_path e)
  end.

(** One round for each entry of the plan. *)
Fixpoint delete_registry (rounds : nat) (ns : NameServer) (plan : list DeletePlanEntry) : NameServer :=
  match rounds with
  | 0 => ns
  | S rounds =>
      match longest plan 0 None 0 with
      | None => ns
      | Some best =>
          match plan !! best with
          | None => ns
          | Some e => delete_registry rounds (delete_entry ns e) (take best plan ++ drop (S best) plan)
          end
      end
  end.

Definition deleted_detail (plan_count : nat) (target_path : cstr) : cstr :=
  fit NS_MAX_FIELD_SIZE
    (if decide (plan_count = 1) then $"Entry '" ++ target_path ++ $"' deleted."
     else $"Deleted " ++ to_dec (Z.of_nat plan_count) ++ $" entries under '" ++ target_path ++ $"'.").

Definition delete_prepare (ns : NameServer) (user target_path : cstr)
  : NameServer * (Failure + list DeletePlanEntry) :=
  match file_lookup_locked ns target_path with
  | (ns, None) => (ns, inl (ERR_FILE_NOT_FOUND, $"Target path not found."))
  | (ns, Some i) =>
      let target_meta := default meta0 (ns_files ns !! i) in
      if negb (is_fm_owner target_meta user) then
        (ns, inl (ERR_PERMISSION_DENIED, $"Only the owner may delete this entry."))
      else
        match delete_plan ns user target_path (fm_is_directory target_meta) (ns_files ns) with
        | inr [] => (ns, inl (ERR_INTERNAL_ERROR, $"Delete plan was empty."))
        | result => (ns, result)
        end
  end.

Definition handle_delete (w : W) (ns : NameServer) (ctx : Ctx) (msg : list cstr)
  : W * NameServer * Outbox :=
  let fd := cx_fd ctx in
  let user := cx_username ctx in
  if decide (length msg < 2) then
    (w, ns, send_error_and_log fd ERR_INVALID_REQUEST ($"Usage: DELETE <path>"))
  else if negb (ns_validate_logical_path (fld msg 1)) then
    (w, ns, send_error_and_log fd ERR_INVALID_REQUEST ($"Invalid path requested for DELETE."))
  else if streq user [] then
    (w, ns, send_error_and_log fd ERR_INTERNAL_ERROR ($"Client identity unknown."))
  else
    match delete_prepare ns user (fld msg 1) with
    | (ns, inl (code, detail)) => (w, ns, send_error_and_log fd code detail)
    | (ns, inr plan) =>
        match delete_servers w plan with
        | (w, Some (code, detail)) =>
            (w, ns, send_error_and_log fd code (match detail with [] => $"Delete failed." | _ => detail end))
        | (w, None) =>
            (w, ns_save_metadata (delete_registry (length plan) ns plan),
             ns_send_simple_ok fd (deleted_detail (length plan) (fld msg 1)))
        end
    end.
End servers.
