(* ===== verification/NSServe.v ===== *)
(** * Connections of the name server

    [connection_thread], the dispatch of [run_client_loop] and the two loops of
    [run_ss_loop] of [src/name_server/name_server.c]: the handshakes, one turn
    of each loop, and what is left of a connection when it ends.  Messages that
    a waiting handler takes do not reach the loops ([NSComm]).  [ss_info] is set
    by the handshake, so the searches for a missing one are not reached. *)
From S2P Require Import Prelude CStr Utils Protocol NSMeta NSState NSPersist NSPeer NSQueries NSAccess NSFiles NSTree.

(** ** The handshakes *)

Section handshake.
(** [inet_pton] accepts the text. *)
Context (is_valid_ip : cstr → bool).

(** [Some name]: the connection becomes the client's session. *)
Definition hello_client (ns : NameServer) (fd : Z) (msg : list cstr) : NameServer * Outbox * option Ctx :=
  if decide (length msg < 2) then (ns, send_error_and_log fd ERR_INVALID_REQUEST ($"Missing username."), None)
  else if negb (validate_username (fld msg 1)) then
    (ns, send_error_and_log fd ERR_USERNAME_INVALID ($"Username invalid or already connected."), None)
  else
    match ns_register_client ns (fld msg 1) fd with
    | (ns, false) => (ns, send_error_and_log fd ERR_INTERNAL_ERROR ($"Failed to register client."), None)
    | (ns, true) =>
        (ns, emit fd [$"OK"; fit NS_MAX_FIELD_SIZE ($"Welcome, " ++ fld msg 1 ++ $".")],
         Some (mkCtx fd (fit MAX_USERNAME_LENGTH (fld msg 1))))
    end.

(** [Some ss]: the connection becomes the server's. *)
Definition hello_ss (ns : NameServer) (fd : Z) (msg : list cstr) (now : Z)
  : NameServer * Outbox * option StorageServerInfo :=
  if decide (length msg < 5) then
    (ns, send_error_and_log fd ERR_INVALID_REQUEST ($"Missing storage server parameters."), None)
  else
    let ns_port := atoi (fld msg 2) in
    let client_port := atoi (fld msg 4) in
    if negb (is_valid_ip (fld msg 1)) || negb (is_valid_port ns_port) ||
       negb (is_valid_ip (fld msg 3)) || negb (is_valid_port client_port) then
      (ns, send_error_and_log fd ERR_INVALID_REQUEST ($"Invalid storage server address info."), None)
    else
      match ns_register_storage_server ns (fld msg 1) ns_port (fld msg 3) client_port fd now with
      | (ns, false) => (ns, send_error_and_log fd ERR_INTERNAL_ERROR ($"Failed to register storage server."), None)
      | (ns, true) =>
          (ns, emit fd [$"OK"; $"SS registered. Awaiting file list."], find_storage_server_by_sockfd ns fd)
      end.
End handshake.

(** ** A storage server's connection *)

(** The entry [ss] points to, as it is now. *)
Definition server_now (ns : NameServer) (ss : StorageServerInfo) : StorageServerInfo :=
  default ss (firstb (λ s, bool_decide (si_id s = si_id ss)) (ns_servers ns)).

Definition sync_start (ns : NameServer) (ss : StorageServerInfo) : NameServer :=
  update_server ns (si_with_load (server_now ns ss) 0 0).

(** What SS_HAS_FILE tells about a file. *)
Definition synced_file (file : FileMetadata) (msg : list cstr) (ss : StorageServerInfo) (now : Z) : FileMetadata :=
  let owner := fld msg 2 in
  let file := match owner with [] => file | _ => fm_with_owner file (fit MAX_USERNAME_LENGTH owner) end in
  let file := fm_with_modified (fm_with_place file (fit MAX_IP_LENGTH (si_client_ip ss)) (si_client_port ss)) now in
  let file := fm_with_counts file (atoll (fld msg 5)) (atoll (fld msg 6)) (atoll (fld msg 7)) in
  fm_with_acl file (file_acl_parse_csv (fld msg 3)) (file_acl_parse_csv (fld msg 4)).

Definition new_file (filename : cstr) (now : Z) : FileMetadata :=
  mkMeta (fit MAX_FILENAME_LENGTH filename) [] [] 0 0 0 0 false now 0 0 [] [] [] [].

Definition ss_has_file (ns : NameServer) (fd : Z) (ss : StorageServerInfo) (msg : list cstr) (now : Z)
  : NameServer * Outbox :=
  let filename := fld msg 1 in
  let owner := fld msg 2 in
  if decide (length msg < 5) then
    (ns, send_error_and_log fd ERR_INVALID_REQUEST ($"Incomplete SS_HAS_FILE message."))
  else if negb (validate_filename filename) then
    (ns, send_error_and_log fd ERR_INVALID_REQUEST ($"Invalid filename received from storage server."))
  else if negb (streq owner []) && negb (validate_username owner) then
    (ns, send_error_and_log fd ERR_INVALID_REQUEST ($"Invalid owner received from storage server."))
  else
    match file_index_find ns filename ≫= λ i, (i,.) <$> ns_files ns !! i with
    | Some (i, file) => (file_cache_store (update_file ns i (synced_file file msg ss now)) filename i, [])
    | None =>
        if decide (NS_MAX_FILES <= length (ns_files ns)) then
          (ns, send_error_and_log fd ERR_INTERNAL_ERROR ($"Maximum file limit reached."))
        else
          match register_file ns filename (synced_file (new_file filename now) msg ss now) with
          | (ns, true) => (ns, [])
          | (ns, false) => (ns, send_error_and_log fd ERR_INTERNAL_ERROR ($"Failed to index file metadata."))
          end
    end.

(** A turn of the first loop; [true]: the list of files is complete. *)
Definition sync_message (ns : NameServer) (fd : Z) (ss : StorageServerInfo) (msg : list cstr) (now : Z)
  : NameServer * Outbox * bool :=
  if streq (fld msg 0) ($"SS_HAS_FILE") then (ss_has_file ns fd ss msg now, false)
  else if streq (fld msg 0) ($"SS_FILES_DONE") then
    (ns_recalculate_server_load_locked ns (server_now ns ss), [], true)
  else (ns, send_error_and_log fd ERR_INVALID_REQUEST ($"Unknown storage server sync command."), false).

(** The first loop, until the list is complete ([true]) or the messages end:
    then the connection is lost. *)
Fixpoint sync_loop (ns : NameServer) (fd : Z) (ss : StorageServerInfo) (raws : list cstr) (now : Z)
  : NameServer * Outbox * bool :=
  match raws with
  | [] => (ns, [], false)
  | raw :: raws =>
      let '(ns, out, complete) := sync_message ns fd ss (protocol_parse_message raw) now in
      if complete then (ns, out, true)
      else let '(ns, out', complete) := sync_loop ns fd ss raws now in (ns, out ++ out', complete)
  end.

(** WRITE_COMPLETE: the counts of a file, and the load of its server. *)
Definition write_complete (ns : NameServer) (ss : StorageServerInfo) (msg : list cstr) (now : Z) : NameServer :=
  let filename := fld msg 1 in
  let size := atoll (fld msg 2) in
  if decide (length msg < 5) then ns
  else
    match file_index_find ns filename ≫= λ i, (i,.) <$> ns_files ns !! i with
    | None => ns
    | Some (i, file) =>
        let file' := fm_with_modified (fm_with_counts file size (atoll (fld msg 3)) (atoll (fld msg 4))) now in
        let ns := file_cache_store (update_file ns i file') filename i in
        let ns :=
          if same_place ss (fm_ss_ip file) (fm_ss_port file) then
            let s := server_now ns ss in
            update_server ns (si_with_load s (Z.max 0 (si_total_bytes s + (size - fm_size file))) (si_total_files s))
          else ns in
        ns_save_metadata ns
    end.

(** A turn of the second loop: any other command is ignored. *)
Definition ss_message (ns : NameServer) (ss : StorageServerInfo) (msg : list cstr) (now : Z) : NameServer :=
  if streq (fld msg 0) ($"WRITE_COMPLETE") then write_complete ns ss msg now else ns.

Definition si_lost (s : StorageServerInfo) : StorageServerInfo :=
  mkInfo (si_id s) (si_ns_ip s) (si_ns_port s) (si_client_ip s) (si_client_port s) (-1) false
    (si_last_heartbeat s) (si_total_bytes s) (si_total_files s).

(** The end of either loop: [storage_server_signal_failure]. *)
Definition server_lost (ns : NameServer) (ss : StorageServerInfo) : NameServer :=
  update_server ns (si_lost (server_now ns ss)).

(** What [connection_thread] does after the loop: the entry is looked for by
    its descriptor. *)
Definition server_connection_end (ns : NameServer) (ss : StorageServerInfo) (conn_fd : Z)
  : NameServer * option StorageServerInfo :=
  deregister_storage_server (server_lost ns ss) conn_fd.

(** What a connection of a storage server does up to the end of the first loop:
    the handshake, and the list of files. *)
Definition ss_connection (is_valid_ip : cstr → bool) (ns : NameServer) (fd : Z) (raws : list cstr) (now : Z)
  : NameServer * Outbox * bool :=
  match raws with
  | [] => (ns, [], false)
  | raw :: raws =>
      let msg := protocol_parse_message raw in
      if negb (streq (fld msg 0) ($"HELLO_SS")) then
        (ns, send_error_and_log fd ERR_INVALID_REQUEST ($"Unknown command."), false)
      else
        match hello_ss is_valid_ip ns fd msg now with
        | (ns, out, None) => (ns, out, false)
        | (ns, out, Some ss) =>
            let '(ns, out', complete) := sync_loop (sync_start ns ss) fd ss raws now in (ns, out ++ out', complete)
        end
  end.

(** ** A client's commands *)

Section commands.
Context (format_time : Z → cstr) (shell : cstr → option cstr).
Context {W : Type} `{Servers W}.

Definition alone (w : W) (r : NameServer * Outbox) : W * NameServer * Outbox := (w, r.1, r.2).

Definition client_command (w : W) (ns : NameServer) (ctx : Ctx) (msg : list cstr) (now : Z)
  : W * NameServer * Outbox :=
  let command := fld msg 0 in
  if streq command ($"LIST_USERS") then alone w (handle_list_users ns ctx)
  else if streq command ($"VIEW") then alone w (handle_view format_time ns ctx msg)
  else if streq command ($"INFO") then alone w (handle_info format_time ns ctx msg)
  else if streq command ($"EXEC") then handle_exec shell w ns ctx msg now
  else if streq command ($"REQUESTACCESS") then alone w (handle_request_access ns ctx msg)
  else if streq command ($"LISTREQUESTS") then alone w (handle_list_requests ns ctx)
  else if streq command ($"APPROVEACCESS") then handle_approve_access w ns ctx msg
  else if streq command ($"REJECTACCESS") then alone w (handle_reject_access ns ctx msg)
  else if streq command ($"COPY") then handle_copy w ns ctx msg now
  else if streq command ($"CREATE") then handle_create w ns ctx msg now
  else if streq command ($"CREATEFOLDER") then alone w (handle_createfolder ns ctx msg now)
  else if streq command ($"VIEWFOLDER") then alone w (handle_viewfolder ns ctx msg)
  else if streq command ($"MOVE") then handle_move w ns ctx msg now
  else if streq command ($"DELETE") then handle_delete w ns ctx msg
  else if streq command ($"REQ_LOC") then alone w (handle_req_loc ns ctx msg now)
  else if streq command ($"ADDACCESS") then handle_addaccess w ns ctx msg
  else if streq command ($"REMACCESS") then handle_remaccess w ns ctx msg
  else alone w (ns, send_error_and_log (cx_fd ctx) ERR_INVALID_REQUEST ($"Unknown client command.")).

(** A turn of [run_client_loop]. *)
Definition client_turn (w : W) (ns : NameServer) (ctx : Ctx) (raw : cstr) (now : Z) : W * NameServer * Outbox :=
  client_command w ns ctx (protocol_parse_message raw) now.
End commands.
