(* ===== verification/NSWires.v ===== *)
(** * What commands leave of the table of storage servers

    Commands of clients and messages of storage servers change the loads in the
    table of storage servers, but not which servers there are, on which
    connections, and which of them are alive. *)
From S2P Require Import Prelude CStr Utils Protocol NSMeta NSState NSPersist NSPeer NSQueries NSAccess NSFiles NSTree NSServe.

(** The identity, the connection and the state of an entry. *)
Definition wire (s : StorageServerInfo) : nat * Z * bool := (si_id s, si_sockfd s, si_is_alive s).

Definition wires (ns : NameServer) : list (nat * Z * bool) * nat := (map wire (ns_servers ns), ns_next_ss ns).

Lemma map_wire f l : (∀ s, wire (f s) = wire s) → map wire (map f l) = map wire l.
Proof. intros Hf. rewrite map_map. by apply map_ext. Qed.

Lemma lookup_wires ns name ns' r : file_lookup_locked ns name = (ns', r) → wires ns' = wires ns.
Proof.
  unfold file_lookup_locked, file_cache_lookup, file_cache_store. intros H. repeat case_match; simplify_eq/=; done.
Qed.

Lemma store_wires ns name i : wires (file_cache_store ns name i) = wires ns.
Proof. unfold file_cache_store. repeat case_match; done. Qed.

Lemma remove_wires ns name : wires (remove_file_metadata_locked ns name).1 = wires ns.
Proof. unfold remove_file_metadata_locked. repeat case_match; done. Qed.

Lemma register_wires ns name file ns' r : register_file ns name file = (ns', r) → wires ns' = wires ns.
Proof.
  unfold register_file, file_index_insert. destruct (index_insert _ _ _) as [index []]; intros [= <- <-]; [|done].
  by rewrite store_wires.
Qed.

Lemma select_loop_wires servers start offsets best :
  map wire (select_loop servers start offsets best).1 = map wire servers.
Proof.
  revert servers best. induction offsets as [|o rest IH]; intros servers best; cbn [select_loop]; [done|].
  destruct (servers !! _) as [c|] eqn:Hc; [|apply IH]. case_match; [apply IH|]. rewrite IH.
  change (wire <$> <[(start + o) mod length servers := clamp_load c]> servers = wire <$> servers).
  rewrite list_fmap_insert list_insert_id; [|done]. by rewrite list_lookup_fmap Hc.
Qed.

Lemma select_wires ns ns' r : ns_select_storage_server_balanced ns = (ns', r) → wires ns' = wires ns.
Proof.
  unfold ns_select_storage_server_balanced. intros H. destruct (ns_servers ns) as [|s l] eqn:Hs; [by simplify_eq|].
  pose proof (select_loop_wires (s :: l) (ns_round_robin ns) (seq 0 (length (s :: l))) None) as Hw.
  destruct (select_loop _ _ _ _) as [servers [[i ss]|]]; simplify_eq/=; unfold wires; cbn in *; rewrite Hs; by rewrite Hw.
Qed.

Lemma rename_wires ns old new user now : wires (rename_file ns old new user now) = wires ns.
Proof.
  unfold rename_file. destruct (file_lookup_locked ns old) as [ns1 [i|]] eqn:Hl; apply lookup_wires in Hl; [|done].
  destruct (ns_files ns1 !! i); [|done]. unfold file_index_remove_entry, file_index_insert, file_cache_rename.
  revert Hl. repeat case_match; simplify_eq/=; intros Hl; (etrans; [|exact Hl]); done.
Qed.

Lemma rollback_wires ns name : wires (create_rollback ns name) = wires ns.
Proof. apply remove_wires. Qed.

Lemma count_wires ns id : wires (count_file ns id) = wires ns.
Proof. unfold wires, count_file. cbn. rewrite map_wire; [intros s; by case_decide|done]. Qed.

Lemma discount_wires ns id size path :
  wires (cancel_requests (set_servers ns (map (λ s, if decide (si_id s = id) then discount s size else s) (ns_servers ns))) path) = wires ns.
Proof. unfold wires. cbn. f_equal. apply map_wire. intros s. by case_decide. Qed.

Lemma save_wires ns : wires (ns_save_metadata ns) = wires ns.
Proof. done. Qed.

(** The table through the branches of a handler. *)
Ltac same_wires :=
  repeat case_match; simplify_eq/=;
  repeat match goal with
  | H : file_lookup_locked _ _ = _ |- _ => apply lookup_wires in H
  | H : register_file _ _ _ = _ |- _ => apply register_wires in H
  | H : ns_select_storage_server_balanced _ = _ |- _ => apply select_wires in H
  end; rewrite ?save_wires ?rollback_wires ?store_wires ?count_wires /=; try done; try congruence;
  try match goal with H : wires ?n = _ |- _ = wires ?m => solve [trans (wires n); [done|congruence]] end.

Lemma complete_wires {W P} `{Servers W} (w : W) ns begun (finish : NameServer → P → Z + cstr → NameServer * Outbox) :
  wires begun.1 = wires ns → (∀ ns p r, wires (finish ns p r).1 = wires ns) →
  wires (complete w begun finish).1.2 = wires ns.
Proof.
  intros Hb Hf. unfold complete. destruct begun as [ns1 [out|ss fields p]]; [done|].
  destruct (ask w ss fields) as [w' r]. pose proof (Hf ns1 p r). destruct (finish ns1 p r). cbn in *. congruence.
Qed.

Section wires.
Context (format_time : Z → cstr) (shell : cstr → option cstr).
Context {W : Type} `{Servers W}.

Lemma view_wires ns ctx msg : wires (handle_view format_time ns ctx msg).1 = wires ns.
Proof. unfold handle_view. same_wires. Qed.
Lemma info_wires ns ctx msg : wires (handle_info format_time ns ctx msg).1 = wires ns.
Proof. unfold handle_info. same_wires. Qed.
Lemma exec_wires (w : W) ns ctx msg now : wires (handle_exec shell w ns ctx msg now).1.2 = wires ns.
Proof. apply complete_wires; [unfold exec_begin; same_wires|done]. Qed.
Lemma request_wires ns ctx msg : wires (handle_request_access ns ctx msg).1 = wires ns.
Proof. unfold handle_request_access. same_wires. Qed.
Lemma approve_wires (w : W) ns ctx msg : wires (handle_approve_access w ns ctx msg).1.2 = wires ns.
Proof.
  apply complete_wires; [unfold approve_begin, approve_rollback; same_wires|].
  intros. unfold approve_finish, approve_rollback. same_wires.
Qed.
Lemma reject_wires ns ctx msg : wires (handle_reject_access ns ctx msg).1 = wires ns.
Proof. unfold handle_reject_access. same_wires. Qed.
Lemma copy_wires (w : W) ns ctx msg now : wires (handle_copy w ns ctx msg now).1.2 = wires ns.
Proof. apply complete_wires; [unfold copy_begin|intros; unfold copy_finish]; same_wires. Qed.
Lemma create_wires (w : W) ns ctx msg now : wires (handle_create w ns ctx msg now).1.2 = wires ns.
Proof. apply complete_wires; [unfold create_begin|intros; unfold create_finish]; same_wires. Qed.
Lemma createfolder_wires ns ctx msg now : wires (handle_createfolder ns ctx msg now).1 = wires ns.
Proof. unfold handle_createfolder, add_folder. same_wires. Qed.
Lemma viewfolder_wires ns ctx msg : wires (handle_viewfolder ns ctx msg).1 = wires ns.
Proof. unfold handle_viewfolder. same_wires. Qed.
Lemma loc_wires ns ctx msg now : wires (handle_req_loc ns ctx msg now).1 = wires ns.
Proof. unfold handle_req_loc. same_wires. Qed.
Lemma addaccess_wires (w : W) ns ctx msg : wires (handle_addaccess w ns ctx msg).1.2 = wires ns.
Proof. apply complete_wires; [unfold addaccess_begin|intros; unfold addaccess_finish]; same_wires. Qed.
Lemma remaccess_wires (w : W) ns ctx msg : wires (handle_remaccess w ns ctx msg).1.2 = wires ns.
Proof. apply complete_wires; [unfold remaccess_begin|intros; unfold remaccess_finish]; same_wires. Qed.

Lemma move_entry_wires ns user src root fm ns' r : move_entry ns user src root fm = (ns', r) → wires ns' = wires ns.
Proof. unfold move_entry. intros Hm. same_wires. Qed.

Lemma move_plan_wires ns user src root dir files ns' r :
  move_plan ns user src root dir files = (ns', r) → wires ns' = wires ns.
Proof.
  revert ns ns' r. induction files as [|fm files IH]; intros ns ns' r; cbn [move_plan]; [by intros [= <- <-]|].
  case_match; [apply IH|]. destruct (move_entry ns user src root fm) as [ns1 [e|entry]] eqn:He; apply move_entry_wires in He.
  - by intros [= <- <-].
  - destruct (move_plan ns1 user src root dir files) as [ns2 rest] eqn:Hp. apply IH in Hp.
    destruct rest; intros [= <- <-]; congruence.
Qed.

Lemma move_registry_wires ns plan user now : wires (move_registry ns plan user now) = wires ns.
Proof.
  revert ns. induction plan as [|e plan IH]; intros ns; [done|].
  change (wires (move_registry (rename_file ns (me_old_path e) (me_new_path e) user now) plan user now) = wires ns).
  by rewrite IH rename_wires.
Qed.

Lemma move_prepare_wires ns user src dest : wires (move_prepare ns user src dest).1 = wires ns.
Proof.
  unfold move_prepare. repeat case_match; simplify_eq/=;
    repeat match goal with
    | H : file_lookup_locked _ _ = _ |- _ => apply lookup_wires in H
    | H : move_plan _ _ _ _ _ _ = _ |- _ => apply move_plan_wires in H
    end; congruence.
Qed.

Lemma move_wires (w : W) ns ctx msg now : wires (handle_move w ns ctx msg now).1.2 = wires ns.
Proof.
  unfold handle_move. repeat (case_match; [done|]). destruct (NSPaths.ns_normalize_destination _ _) as [dest|]; [|done].
  pose proof (move_prepare_wires ns (cx_username ctx) (fld msg 1) dest) as Hp.
  destruct (move_prepare _ _ _ _) as [ns1 [[code detail]|plan]]; [done|].
  destruct (move_servers w plan []) as [w1 [[code detail]|]]; [done|]. rewrite -Hp. apply move_registry_wires.
Qed.

Lemma delete_registry_wires rounds ns plan : wires (delete_registry rounds ns plan) = wires ns.
Proof.
  revert ns plan. induction rounds as [|rounds IH]; intros ns plan; cbn [delete_registry]; [done|].
  repeat case_match; [|done..]. rewrite IH. unfold delete_entry.
  pose proof (remove_wires ns (de_path d)) as Hr. destruct (remove_file_metadata_locked ns (de_path d)) as [ns1 []]; [|done].
  cbn [fst] in Hr. destruct (de_ss d); [|exact Hr]. rewrite -Hr. apply discount_wires.
Qed.

Lemma delete_wires (w : W) ns ctx msg : wires (handle_delete w ns ctx msg).1.2 = wires ns.
Proof.
  unfold handle_delete. repeat (case_match; [done|]).
  assert (Hp : wires (delete_prepare ns (cx_username ctx) (fld msg 1)).1 = wires ns)
    by (unfold delete_prepare; same_wires).
  destruct (delete_prepare _ _ _) as [ns1 [[code detail]|plan]]; [done|].
  destruct (delete_servers w plan) as [w1 [[code detail]|]]; [done|]. rewrite -Hp. apply delete_registry_wires.
Qed.

Lemma command_wires (w : W) ns ctx msg now :
  wires (client_command format_time shell w ns ctx msg now).1.2 = wires ns.
Proof.
  unfold client_command.
  repeat match goal with
  | |- wires (if streq (fld msg 0) ?c then _ else _).1.2 = _ => destruct (streq (fld msg 0) c)
  end; try done.
  - apply view_wires.
  - apply info_wires.
  - apply exec_wires.
  - apply request_wires.
  - apply approve_wires.
  - apply reject_wires.
  - apply copy_wires.
  - apply create_wires.
  - apply createfolder_wires.
  - apply viewfolder_wires.
  - apply move_wires.
  - apply delete_wires.
  - apply loc_wires.
  - apply addaccess_wires.
  - apply remaccess_wires.
Qed.
End wires.


(** ** Messages of storage servers *)

Definition ids_distinct (ns : NameServer) : Prop := NoDup (map si_id (ns_servers ns)).

Lemma wires_distinct ns ns' : wires ns' = wires ns → ids_distinct ns → ids_distinct ns'.
Proof.
  intros [= Hw _]. unfold ids_distinct.
  assert (Hm : ∀ l, map si_id l = map (λ x, x.1.1) (map wire l)) by (intros l; rewrite map_map; by apply map_ext).
  by rewrite !Hm Hw.
Qed.


(** A new load of an entry, if it is still there. *)
Lemma load_wires ns ss bytes files :
  ids_distinct ns → wires (update_server ns (si_with_load (server_now ns ss) bytes files)) = wires ns.
Proof.
  intros Hids. unfold wires, update_server. cbn. f_equal. rewrite map_map. apply map_ext_in.
  intros x Hx%list_elem_of_In. case_decide as Hid; [|done]. unfold server_now in *.
  destruct (firstb _ (ns_servers ns)) as [s|] eqn:Hs; cbn [default] in *.
  - apply firstb_elem in Hs as [Hin _]. assert (x = s) as ->; [|done].
    by eapply (NoDup_key_inj si_id); [exact Hids|..].
  - apply firstb_None in Hs. rewrite Forall_forall in Hs. specialize (Hs x Hx). by rewrite bool_decide_eq_false in Hs.
Qed.

Lemma sync_message_wires ns fd ss msg now : ids_distinct ns → wires (sync_message ns fd ss msg now).1.1 = wires ns.
Proof.
  intros Hids. unfold sync_message. case_match; [unfold ss_has_file; same_wires|]. case_match; [|done].
  unfold ns_recalculate_server_load_locked. destruct (server_load _ _ _) as [b f]. by apply load_wires.
Qed.

Lemma ss_message_wires ns ss msg now : ids_distinct ns → wires (ss_message ns ss msg now) = wires ns.
Proof.
  intros Hids. unfold ss_message. case_match; [|done]. unfold write_complete. case_decide; [done|].
  destruct (_ ≫= _) as [[i file]|]; [|done]. rewrite save_wires. set (ns1 := file_cache_store _ _ _).
  assert (H1 : wires ns1 = wires ns) by (unfold ns1; rewrite store_wires; done).
  case_match; [|exact H1]. rewrite load_wires; [by apply (wires_distinct ns)|exact H1].
Qed.

Lemma sync_start_wires ns ss : ids_distinct ns → wires (sync_start ns ss) = wires ns.
Proof. apply load_wires. Qed.
