(* ===== verification/NSSessions.v ===== *)
(** * What commands leave alone

    The session table of the name server: the commands of clients and the
    messages of storage servers do not touch it, whatever they do to the
    registry. *)
From S2P Require Import Prelude CStr Utils Protocol NSMeta NSState NSPersist NSPeer NSQueries NSAccess NSFiles NSTree NSServe.

Lemma lookup_sessions ns name ns' r : file_lookup_locked ns name = (ns', r) → ns_clients ns' = ns_clients ns.
Proof.
  unfold file_lookup_locked, file_cache_lookup, file_cache_store. intros H. repeat case_match; simplify_eq/=; done.
Qed.

Lemma store_sessions ns name i : ns_clients (file_cache_store ns name i) = ns_clients ns.
Proof. unfold file_cache_store. repeat case_match; done. Qed.

Lemma remove_sessions ns name : ns_clients (remove_file_metadata_locked ns name).1 = ns_clients ns.
Proof. unfold remove_file_metadata_locked. repeat case_match; done. Qed.

Lemma register_sessions ns name file ns' r : register_file ns name file = (ns', r) → ns_clients ns' = ns_clients ns.
Proof.
  unfold register_file, file_index_insert. destruct (index_insert _ _ _) as [index []]; intros [= <- <-]; [|done].
  by rewrite store_sessions.
Qed.

Lemma select_sessions ns ns' r : ns_select_storage_server_balanced ns = (ns', r) → ns_clients ns' = ns_clients ns.
Proof. unfold ns_select_storage_server_balanced. intros H. repeat case_match; simplify_eq/=; done. Qed.

Lemma rename_sessions ns old new user now : ns_clients (rename_file ns old new user now) = ns_clients ns.
Proof.
  unfold rename_file. destruct (file_lookup_locked ns old) as [ns1 [i|]] eqn:Hl; apply lookup_sessions in Hl; [|done].
  destruct (ns_files ns1 !! i); [|done]. unfold file_index_remove_entry, file_index_insert, file_cache_rename.
  repeat case_match; simplify_eq/=; done.
Qed.

Lemma rollback_sessions ns name : ns_clients (create_rollback ns name) = ns_clients ns.
Proof. apply remove_sessions. Qed.

(** The table through the branches of a handler. *)
Ltac same_sessions :=
  repeat case_match; simplify_eq/=;
  repeat match goal with
  | H : file_lookup_locked _ _ = _ |- _ => apply lookup_sessions in H
  | H : register_file _ _ _ = _ |- _ => apply register_sessions in H
  | H : ns_select_storage_server_balanced _ = _ |- _ => apply select_sessions in H
  end; rewrite ?rollback_sessions ?store_sessions /=; try congruence.

Lemma complete_sessions {W P} `{Servers W} (w : W) ns begun (finish : NameServer → P → Z + cstr → NameServer * Outbox) :
  ns_clients begun.1 = ns_clients ns → (∀ ns p r, ns_clients (finish ns p r).1 = ns_clients ns) →
  ns_clients (complete w begun finish).1.2 = ns_clients ns.
Proof.
  intros Hb Hf. unfold complete. destruct begun as [ns1 [out|ss fields p]]; [done|].
  destruct (ask w ss fields) as [w' r]. pose proof (Hf ns1 p r). destruct (finish ns1 p r). cbn in *. congruence.
Qed.

Section sessions.
Context (format_time : Z → cstr) (shell : cstr → option cstr).
Context {W : Type} `{Servers W}.

Lemma view_sessions ns ctx msg : ns_clients (handle_view format_time ns ctx msg).1 = ns_clients ns.
Proof. unfold handle_view. same_sessions. Qed.
Lemma info_sessions ns ctx msg : ns_clients (handle_info format_time ns ctx msg).1 = ns_clients ns.
Proof. unfold handle_info. same_sessions. Qed.
Lemma exec_sessions (w : W) ns ctx msg now : ns_clients (handle_exec shell w ns ctx msg now).1.2 = ns_clients ns.
Proof. apply complete_sessions; [unfold exec_begin; same_sessions|done]. Qed.
Lemma request_sessions ns ctx msg : ns_clients (handle_request_access ns ctx msg).1 = ns_clients ns.
Proof. unfold handle_request_access. same_sessions. Qed.
Lemma approve_sessions (w : W) ns ctx msg : ns_clients (handle_approve_access w ns ctx msg).1.2 = ns_clients ns.
Proof.
  apply complete_sessions; [unfold approve_begin, approve_rollback; same_sessions|].
  intros. unfold approve_finish, approve_rollback. same_sessions.
Qed.
Lemma reject_sessions ns ctx msg : ns_clients (handle_reject_access ns ctx msg).1 = ns_clients ns.
Proof. unfold handle_reject_access. same_sessions. Qed.
Lemma copy_sessions (w : W) ns ctx msg now : ns_clients (handle_copy w ns ctx msg now).1.2 = ns_clients ns.
Proof. apply complete_sessions; [unfold copy_begin|intros; unfold copy_finish]; same_sessions. Qed.
Lemma create_sessions (w : W) ns ctx msg now : ns_clients (handle_create w ns ctx msg now).1.2 = ns_clients ns.
Proof. apply complete_sessions; [unfold create_begin|intros; unfold create_finish]; same_sessions. Qed.
Lemma createfolder_sessions ns ctx msg now : ns_clients (handle_createfolder ns ctx msg now).1 = ns_clients ns.
Proof. unfold handle_createfolder, add_folder. same_sessions. Qed.
Lemma viewfolder_sessions ns ctx msg : ns_clients (handle_viewfolder ns ctx msg).1 = ns_clients ns.
Proof. unfold handle_viewfolder. same_sessions. Qed.
Lemma loc_sessions ns ctx msg now : ns_clients (handle_req_loc ns ctx msg now).1 = ns_clients ns.
Proof. unfold handle_req_loc. same_sessions. Qed.
Lemma addaccess_sessions (w : W) ns ctx msg : ns_clients (handle_addaccess w ns ctx msg).1.2 = ns_clients ns.
Proof. apply complete_sessions; [unfold addaccess_begin|intros; unfold addaccess_finish]; same_sessions. Qed.
Lemma remaccess_sessions (w : W) ns ctx msg : ns_clients (handle_remaccess w ns ctx msg).1.2 = ns_clients ns.
Proof. apply complete_sessions; [unfold remaccess_begin|intros; unfold remaccess_finish]; same_sessions. Qed.

Lemma move_entry_sessions ns user src root fm ns' r : move_entry ns user src root fm = (ns', r) → ns_clients ns' = ns_clients ns.
Proof. unfold move_entry. intros Hm. same_sessions. Qed.

Lemma move_plan_sessions ns user src root dir files ns' r :
  move_plan ns user src root dir files = (ns', r) → ns_clients ns' = ns_clients ns.
Proof.
  revert ns ns' r. induction files as [|fm files IH]; intros ns ns' r; cbn [move_plan]; [by intros [= <- <-]|].
  case_match; [apply IH|]. destruct (move_entry ns user src root fm) as [ns1 [e|entry]] eqn:He; apply move_entry_sessions in He.
  - by intros [= <- <-].
  - destruct (move_plan ns1 user src root dir files) as [ns2 rest] eqn:Hp. apply IH in Hp.
    destruct rest; intros [= <- <-]; congruence.
Qed.

Lemma move_registry_sessions ns plan user now : ns_clients (move_registry ns plan user now) = ns_clients ns.
Proof.
  revert ns. induction plan as [|e plan IH]; intros ns; [done|].
  change (ns_clients (move_registry (rename_file ns (me_old_path e) (me_new_path e) user now) plan user now) = ns_clients ns).
  by rewrite IH rename_sessions.
Qed.

Lemma move_prepare_sessions ns user src dest : ns_clients (move_prepare ns user src dest).1 = ns_clients ns.
Proof.
  unfold move_prepare. repeat case_match; simplify_eq/=;
    repeat match goal with
    | H : file_lookup_locked _ _ = _ |- _ => apply lookup_sessions in H
    | H : move_plan _ _ _ _ _ _ = _ |- _ => apply move_plan_sessions in H
    end; congruence.
Qed.

Lemma move_sessions (w : W) ns ctx msg now : ns_clients (handle_move w ns ctx msg now).1.2 = ns_clients ns.
Proof.
  unfold handle_move. repeat (case_match; [done|]). destruct (NSPaths.ns_normalize_destination _ _) as [dest|]; [|done].
  pose proof (move_prepare_sessions ns (cx_username ctx) (fld msg 1) dest) as Hp.
  destruct (move_prepare _ _ _ _) as [ns1 [[code detail]|plan]]; [done|].
  destruct (move_servers w plan []) as [w1 [[code detail]|]]; [done|]. rewrite -Hp. apply move_registry_sessions.
Qed.

Lemma delete_registry_sessions rounds ns plan : ns_clients (delete_registry rounds ns plan) = ns_clients ns.
Proof.
  revert ns plan. induction rounds as [|rounds IH]; intros ns plan; cbn [delete_registry]; [done|].
  repeat case_match; [|done..]. rewrite IH. unfold delete_entry.
  pose proof (remove_sessions ns (de_path d)) as Hr. destruct (remove_file_metadata_locked ns (de_path d)) as [ns1 []]; [|done].
  by destruct (de_ss d).
Qed.

Lemma delete_sessions (w : W) ns ctx msg : ns_clients (handle_delete w ns ctx msg).1.2 = ns_clients ns.
Proof.
  unfold handle_delete. repeat (case_match; [done|]).
  assert (Hp : ns_clients (delete_prepare ns (cx_username ctx) (fld msg 1)).1 = ns_clients ns)
    by (unfold delete_prepare; same_sessions).
  destruct (delete_prepare _ _ _) as [ns1 [[code detail]|plan]]; [done|].
  destruct (delete_servers w plan) as [w1 [[code detail]|]]; [done|]. rewrite -Hp. apply delete_registry_sessions.
Qed.

Lemma command_sessions (w : W) ns ctx msg now :
  ns_clients (client_command format_time shell w ns ctx msg now).1.2 = ns_clients ns.
Proof.
  unfold client_command.
  repeat match goal with
  | |- ns_clients (if streq (fld msg 0) ?c then _ else _).1.2 = _ => destruct (streq (fld msg 0) c)
  end; try done.
  - apply view_sessions.
  - apply info_sessions.
  - apply exec_sessions.
  - apply request_sessions.
  - apply approve_sessions.
  - apply reject_sessions.
  - apply copy_sessions.
  - apply create_sessions.
  - apply createfolder_sessions.
  - apply viewfolder_sessions.
  - apply move_sessions.
  - apply delete_sessions.
  - apply loc_sessions.
  - apply addaccess_sessions.
  - apply remaccess_sessions.
Qed.
End sessions.

Lemma ss_has_file_sessions ns fd ss msg now : ns_clients (ss_has_file ns fd ss msg now).1 = ns_clients ns.
Proof. unfold ss_has_file. same_sessions. Qed.

Lemma sync_message_sessions ns fd ss msg now : ns_clients (sync_message ns fd ss msg now).1.1 = ns_clients ns.
Proof.
  unfold sync_message. case_match; [apply ss_has_file_sessions|]. case_match; [|done].
  unfold ns_recalculate_server_load_locked. by destruct (server_load _ _ _).
Qed.

Lemma ss_message_sessions ns ss msg now : ns_clients (ss_message ns ss msg now) = ns_clients ns.
Proof. unfold ss_message, write_complete, ns_save_metadata. same_sessions. Qed.
