(* ===== verification/NSSpec.v ===== *)
(** * The name server as a registry with owners

    The abstract specification of the client commands: a finite map from names
    to metadata, and the changes a user may make to it.  [refines] says that a
    step of the server keeps its invariant and makes only such changes; the
    lemmas here do it for each kind of update, [NSRefine] for each command. *)
From S2P Require Import Prelude CStr Utils Protocol Disk NSMeta NSState NSIndex NSPersist NSPeer.
From stdpp Require Import relations.

(** [g] is [f] with other access and modification marks. *)
Record same_file (f g : FileMetadata) : Prop := {
  sf_name : fm_filename g = fm_filename f;
  sf_owner : fm_owner g = fm_owner f;
  sf_place : fm_ss_ip g = fm_ss_ip f ∧ fm_ss_port g = fm_ss_port f;
  sf_counts : fm_size g = fm_size f ∧ fm_word_count g = fm_word_count f ∧ fm_char_count g = fm_char_count f;
  sf_directory : fm_is_directory g = fm_is_directory f;
  sf_created : fm_created g = fm_created f;
  sf_acl : fm_read_users g = fm_read_users f ∧ fm_write_users g = fm_write_users f
}.

#[export] Instance same_file_preorder : PreOrder same_file.
Proof.
  split.
  - intros f. by split.
  - intros f g h [] []. split; naive_solver congruence.
Qed.

(** The changes a user may make. *)
Inductive acl_step (user : cstr) (reg : gmap cstr FileMetadata) : gmap cstr FileMetadata → Prop :=
  | as_touch name f g :
      reg !! name = Some f → file_has_read_access f user = true → same_file f g →
      acl_step user reg (<[name := g]> reg)
  | as_create name f :
      reg !! name = None → fm_filename f = name → fm_owner f = user →
      fm_read_users f = [] → fm_write_users f = [] → acl_step user reg (<[name := f]> reg)
  | as_rights name f readers writers :
      reg !! name = Some f → fm_owner f = user → acl_step user reg (<[name := fm_with_acl f readers writers]> reg)
  | as_remove name f :
      reg !! name = Some f → fm_owner f = user → acl_step user reg (delete name reg)
  | as_rename old new f g :
      reg !! old = Some f → fm_owner f = user → reg !! new = None → same_file (fm_with_name f new) g →
      acl_step user reg (<[new := g]> (delete old reg)).

(** What the specification says of somebody else's file. *)
Lemma acl_step_other user reg reg' name f :
  acl_step user reg reg' → reg !! name = Some f → fm_owner f ≠ user →
  ∃ g, reg' !! name = Some g ∧ same_file f g.
Proof.
  intros Hs Hf Ho. destruct Hs as [n h g Hh _ Hg|n h Hn _ _ _ _|n h rs ws Hh Hown|n h Hh Hown|o n h g Hh Hown Hn Hg].
  - destruct (decide (n = name)) as [->|Hne]; [|rewrite lookup_insert_ne //; by exists f].
    rewrite lookup_insert_eq. exists g. simplify_eq. done.
  - destruct (decide (n = name)) as [->|Hne]; [congruence|]. rewrite lookup_insert_ne //. by exists f.
  - destruct (decide (n = name)) as [->|Hne]; [congruence|]. rewrite lookup_insert_ne //. by exists f.
  - destruct (decide (n = name)) as [->|Hne]; [congruence|]. rewrite lookup_delete_ne //. by exists f.
  - destruct (decide (n = name)) as [->|Hne]; [congruence|]. rewrite lookup_insert_ne //.
    destruct (decide (o = name)) as [->|Hne']; [congruence|]. rewrite lookup_delete_ne //. by exists f.
Qed.

Lemma acl_steps_other user reg reg' name f :
  rtc (acl_step user) reg reg' → reg !! name = Some f → fm_owner f ≠ user →
  ∃ g, reg' !! name = Some g ∧ same_file f g.
Proof.
  intros Hs. revert f. induction Hs as [reg|r1 r2 r3 H12 _ IH]; intros f Hf Ho; [by exists f|].
  destruct (acl_step_other _ _ _ _ _ H12 Hf Ho) as (g & Hg & Hfg).
  destruct (IH g Hg) as (h & Hh & Hgh); [by rewrite (sf_owner _ _ Hfg)|].
  exists h. split; [done|]. by transitivity g.
Qed.

(** ** The invariant of the server *)

Record ns_wf (ns : NameServer) : Prop := {
  nf_reg : reg_wf ns;
  nf_meta : map_Forall (λ _ f, meta_wf f) (registry ns);
  nf_from : Forall (λ req, length (ar_from_user req) < MAX_USERNAME_LENGTH) (ns_requests ns)
}.

Definition refines (user : cstr) (ns ns' : NameServer) : Prop :=
  ns_wf ns' ∧ rtc (acl_step user) (registry ns) (registry ns').

Lemma refines_refl user ns : ns_wf ns → refines user ns ns.
Proof. by split. Qed.

Lemma refines_trans user ns1 ns2 ns3 : refines user ns1 ns2 → refines user ns2 ns3 → refines user ns1 ns3.
Proof. intros [_ H12] [Hwf H23]. split; [done|]. by etrans. Qed.

(** Changes that are not changes of the registry. *)
Lemma wf_frame ns ns' :
  ns_wf ns → reg_wf ns' → registry ns' = registry ns →
  Forall (λ req, length (ar_from_user req) < MAX_USERNAME_LENGTH) (ns_requests ns') → ns_wf ns'.
Proof. intros [_ Hm _] Hr Heq Hq. split; [done|by rewrite Heq|done]. Qed.

Lemma refines_frame user ns ns' :
  ns_wf ns → reg_wf ns' → registry ns' = registry ns →
  Forall (λ req, length (ar_from_user req) < MAX_USERNAME_LENGTH) (ns_requests ns') → refines user ns ns'.
Proof. intros Hwf Hr Heq Hq. split; [by eapply wf_frame|by rewrite Heq]. Qed.

Lemma refines_save user ns : ns_wf ns → refines user ns (ns_save_metadata ns).
Proof. intros Hwf. apply refines_frame; [done|split; apply (nf_reg _ Hwf)|done|apply Hwf]. Qed.

Lemma refines_servers user ns servers : ns_wf ns → refines user ns (set_servers ns servers).
Proof. intros Hwf. apply refines_frame; [done|split; apply (nf_reg _ Hwf)|done|apply Hwf]. Qed.

Lemma refines_round_robin user ns i : ns_wf ns → refines user ns (set_round_robin ns i).
Proof. intros Hwf. apply refines_frame; [done|split; apply (nf_reg _ Hwf)|done|apply Hwf]. Qed.

Lemma refines_requests user ns reqs next :
  ns_wf ns → Forall (λ req, length (ar_from_user req) < MAX_USERNAME_LENGTH) reqs →
  refines user ns (set_requests ns reqs next).
Proof. intros Hwf Hq. apply refines_frame; [done|split; apply (nf_reg _ Hwf)|done|done]. Qed.

(** ** Lookups *)

(** What a handler knows after a lookup. *)
Lemma lookup_refines user ns name :
  ns_wf ns → let '(ns', r) := file_lookup_locked ns name in
  refines user ns ns' ∧ registry ns' = registry ns ∧ (∃ c t, ns' = set_cache ns c t) ∧
  match r with
  | Some i => ∃ f, ns_files ns' !! i = Some f ∧ fm_filename f = name ∧ registry ns !! name = Some f ∧ meta_wf f
  | None => registry ns !! name = None
  end.
Proof.
  intros Hwf. pose proof (lookup_locked_spec ns name (nf_reg _ Hwf)) as H.
  destruct (file_lookup_locked ns name) as [ns' r]. destruct H as (Hreg & (c & t & ->) & Hr).
  split_and!; [|done|by do 2 eexists|].
  - apply refines_frame; [done|done|done|apply Hwf].
  - destruct r as [i|]; [|done]. destruct Hr as (f & Hf & Hn & Hfr). exists f. split_and!; [done..|].
    exact (nf_meta _ Hwf _ _ Hfr).
Qed.

(** ** Updates *)

Section updates.
Context (user : cstr) (ns : NameServer) (Hwf : ns_wf ns).

Lemma update_wf i f g :
  ns_files ns !! i = Some f → fm_filename g = fm_filename f → meta_wf g →
  ns_wf (update_file ns i g) ∧ registry (update_file ns i g) = <[fm_filename f := g]> (registry ns).
Proof.
  intros Hf Hn Hg. destruct (update_spec ns i f g (nf_reg _ Hwf) Hf Hn) as [Hr Heq].
  split; [|done]. split; [done| |apply Hwf]. rewrite Heq. apply map_Forall_insert_2; [done|apply Hwf].
Qed.

Lemma registry_at i f : ns_files ns !! i = Some f → registry ns !! fm_filename f = Some f.
Proof. intros Hf. apply registry_lookup; [apply Hwf|]. eauto. Qed.

Lemma refines_touch i f g :
  ns_files ns !! i = Some f → file_has_read_access f user = true → same_file f g → refines user ns (update_file ns i g).
Proof.
  intros Hf Ha Hg. pose proof (registry_at i f Hf) as Hr. pose proof (nf_meta _ Hwf _ _ Hr) as (Ho & Hrd & Hwr).
  destruct (update_wf i f g Hf (sf_name _ _ Hg)) as [Hwf' Heq].
  { destruct Hg as [_ Howner _ _ _ _ [Hr1 Hw1]]. split_and!; by rewrite ?Howner ?Hr1 ?Hw1. }
  split; [done|]. rewrite Heq. by apply rtc_once, as_touch with f.
Qed.

Lemma refines_rights i f g :
  ns_files ns !! i = Some f → fm_owner f = user → meta_wf g → (∃ rs ws, g = fm_with_acl f rs ws) →
  refines user ns (update_file ns i g).
Proof.
  intros Hf Ho Hg (rs & ws & ->). destruct (update_wf i f (fm_with_acl f rs ws) Hf eq_refl Hg) as [Hwf' Heq].
  split; [done|]. rewrite Heq. apply rtc_once, as_rights; [by apply (registry_at i)|done].
Qed.

Lemma refines_register file :
  registry ns !! fm_filename file = None → fm_filename file ≠ [] → length (fm_filename file) < MAX_FILENAME_LENGTH →
  length (ns_files ns) < NS_MAX_FILES → fm_owner file = user → length user < MAX_USERNAME_LENGTH →
  fm_read_users file = [] → fm_write_users file = [] →
  let '(ns', ok) := register_file ns (fm_filename file) file in
  ok = true ∧ refines user ns ns' ∧ registry ns' = <[fm_filename file := file]> (registry ns) ∧
  ns_servers ns' = ns_servers ns ∧ ns_requests ns' = ns_requests ns.
Proof.
  intros Hnew Hne Hlen Hcount Ho Hu Hr Hw.
  pose proof (register_spec ns file (nf_reg _ Hwf) Hnew Hne Hlen Hcount) as H.
  destruct (register_file ns (fm_filename file) file) as [ns' ok].
  destruct H as (-> & Hreg & Heq & index & c & t & ->). split_and!; [done| |done|done|done].
  split.
  - split; [done| |apply Hwf]. rewrite Heq. apply map_Forall_insert_2; [|apply Hwf].
    rewrite /meta_wf Ho Hr Hw. auto using names_wf_nil.
  - rewrite Heq. by apply rtc_once, as_create.
Qed.

Lemma remove_wf name :
  let '(ns', removed) := remove_file_metadata_locked ns name in
  ns_wf ns' ∧ removed = bool_decide (is_Some (registry ns !! name)) ∧ registry ns' = delete name (registry ns) ∧
  ns_servers ns' = ns_servers ns ∧ ns_requests ns' = ns_requests ns ∧ ns_next_request_id ns' = ns_next_request_id ns.
Proof.
  pose proof (remove_spec ns name (nf_reg _ Hwf)) as H. destruct (remove_file_metadata_locked ns name) as [ns' removed].
  destruct H as (Hreg & Hrem & Heq & Hs & _ & Hq & Hid & _). split_and!; [|done..].
  split; [done| |by rewrite Hq; apply Hwf]. rewrite Heq. apply map_Forall_delete, Hwf.
Qed.

Lemma refines_remove name f :
  registry ns !! name = Some f → fm_owner f = user → refines user ns (remove_file_metadata_locked ns name).1.
Proof.
  intros Hf Ho. pose proof (remove_wf name) as H. destruct (remove_file_metadata_locked ns name) as [ns' removed].
  destruct H as (Hwf' & _ & Heq & _). split; [done|]. cbn [fst]. rewrite Heq. by apply rtc_once, as_remove with f.
Qed.

Lemma rename_wf old new u now f :
  registry ns !! old = Some f → registry ns !! new = None → new ≠ [] → length new < MAX_FILENAME_LENGTH →
  let ns' := rename_file ns old new u now in
  let f' := fm_with_access_by (fm_with_modified_by (fm_with_name f new) u now) u now in
  ns_wf ns' ∧ registry ns' = <[new := f']> (delete old (registry ns)) ∧ ns_requests ns' = ns_requests ns ∧
  same_file (fm_with_name f new) f'.
Proof.
  intros Hold Hnew Hne Hl ns' f'.
  destruct (rename_spec ns old new u now f (nf_reg _ Hwf) Hold Hnew Hne Hl) as (Hreg & Heq & files & index & c & t & Hns & _).
  fold ns' in Hreg, Heq, Hns. fold f' in Heq.
  assert (Hq : ns_requests ns' = ns_requests ns) by by rewrite Hns.
  split_and!; [|done|done|by split]. split; [done| |by rewrite Hq; apply Hwf].
  rewrite Heq. apply map_Forall_insert_2; [|apply map_Forall_delete, Hwf].
  exact (nf_meta _ Hwf _ _ Hold).
Qed.
End updates.
