(* ===== verification/NSDemo.v ===== *)
(** * A small name server

    The concrete server the witnesses of the name server's theorems use: three
    users, one storage server, a folder with a file, and a file of another
    owner; and a world of storage servers that answers from a script. *)
From S2P Require Import Prelude CStr Utils Protocol Disk NSMeta NSState NSIndex NSPersist NSPeer NSSpec.

(** Each request takes the next answer; without one the connection is lost. *)
#[export] Instance scripted : Servers (list cstr) :=
  λ answers _ _, match answers with
                 | answer :: answers => (answers, inr answer)
                 | [] => ([], inl (-5)%Z)
                 end.

Definition line (fields : list cstr) : cstr := default [] (protocol_build_message fields).

Definition demo_server : StorageServerInfo :=
  mkInfo 0 ($"127.0.0.1") 9001 ($"127.0.0.1") 9002 5 true 0 0 1.

Definition entry (name owner : cstr) (is_directory : bool) : FileMetadata :=
  mkMeta name owner (if is_directory then [] else $"127.0.0.1") (if is_directory then 0 else 9002)%Z 0 0 0 is_directory
    1 1 1 owner owner [] [].

Definition add_entry (ns : NameServer) (f : FileMetadata) : NameServer := (register_file ns (fm_filename f) f).1.

Definition demo_entries : list FileMetadata :=
  [entry ($"docs") ($"ann") true; entry ($"docs/a") ($"ann") false; entry ($"old") ($"ann") true;
   entry ($"b") ($"bob") false].

Definition demo_start : NameServer :=
  set_servers (ns_blank 8080 (mkDisk ∅ {[ $"." ]} (λ _, NoFault))) [demo_server].

Definition demo_tree : NameServer := foldl add_entry demo_start demo_entries.

Definition ann : Ctx := mkCtx 10 ($"ann").
Definition bob : Ctx := mkCtx 11 ($"bob").

Definition entry_good (f : FileMetadata) : bool :=
  negb (bool_decide (fm_filename f = [])) && (length (fm_filename f) <? MAX_FILENAME_LENGTH) &&
  (length (fm_owner f) <? MAX_USERNAME_LENGTH) && bool_decide (fm_read_users f = []) && bool_decide (fm_write_users f = []).

Lemma add_entry_wf ns f :
  ns_wf ns → entry_good f = true → registry ns !! fm_filename f = None → length (ns_files ns) < NS_MAX_FILES →
  ns_wf (add_entry ns f).
Proof.
  unfold entry_good. rewrite !andb_true_iff !Nat.ltb_lt negb_true_iff !bool_decide_eq_true bool_decide_eq_false.
  intros Hwf ((((Hne & Hl) & Ho) & Hr) & Hw) Hnew Hc. unfold add_entry.
  pose proof (refines_register (fm_owner f) ns Hwf f Hnew Hne Hl Hc eq_refl Ho Hr Hw) as H.
  destruct (register_file ns (fm_filename f) f). apply H.
Qed.

Lemma start_wf port d servers : ns_wf (set_servers (ns_blank port d) servers).
Proof.
  split; [|done|done]. destruct (blank_wf port d). by split.
Qed.

Lemma demo_tree_wf : ns_wf demo_tree.
Proof.
  unfold demo_tree, demo_entries. cbn [foldl].
  repeat (apply add_entry_wf; [|vm_compute; reflexivity|vm_compute; reflexivity|apply Nat.ltb_lt; vm_compute; reflexivity]).
  apply start_wf.
Qed.
