(* ===== verification/NSLost.v ===== *)
(** * Storage servers that are lost

    [storage_server_signal_failure] clears the descriptor by which
    [connection_thread] then looks for the entry, so the entry is never removed
    and the table of storage servers fills up. *)
From S2P Require Import Prelude CStr Utils Protocol Disk NSMeta NSState NSPeer NSServe NSDemo.

Section lost.
Context (is_valid_ip : cstr → bool).

(** A storage server connects, is synchronised, and is lost. *)
Definition visit (fd now : Z) (msg : list cstr) (ns : NameServer) : NameServer :=
  match hello_ss is_valid_ip ns fd msg now with
  | (ns, _, Some ss) => (server_connection_end (sync_start ns ss) ss fd).1
  | (ns, _, None) => ns
  end.

(** A message that introduces a storage server. *)
Definition introduces (msg : list cstr) : Prop :=
  5 <= length msg ∧ is_valid_ip (fld msg 1) = true ∧ is_valid_port (atoi (fld msg 2)) = true ∧
  is_valid_ip (fld msg 3) = true ∧ is_valid_port (atoi (fld msg 4)) = true.

(** Every entry is that of a lost server. *)
Definition all_lost (ns : NameServer) : Prop :=
  Forall (λ s, si_is_alive s = false ∧ si_sockfd s = (-1)%Z ∧ si_id s < ns_next_ss ns) (ns_servers ns).

Lemma hello_checked ns fd msg now :
  introduces msg →
  hello_ss is_valid_ip ns fd msg now =
    match ns_register_storage_server ns (fld msg 1) (atoi (fld msg 2)) (fld msg 3) (atoi (fld msg 4)) fd now with
    | (ns, false) => (ns, send_error_and_log fd ERR_INTERNAL_ERROR ($"Failed to register storage server."), None)
    | (ns, true) => (ns, emit fd [$"OK"; $"SS registered. Awaiting file list."], find_storage_server_by_sockfd ns fd)
    end.
Proof.
  intros (Hl & H1 & H2 & H3 & H4). unfold hello_ss. case_decide; [lia|]. by rewrite H1 H2 H3 H4.
Qed.

(** The entry at the end of the table, the only one with its identity. *)
Lemma firstb_snoc {A} (p : A → bool) l x :
  Forall (λ y, p y = false) l → p x = true → firstb p (l ++ [x]) = Some x.
Proof. intros Hl Hx. induction Hl as [|y l Hy _ IH]; cbn; [by rewrite Hx|by rewrite Hy]. Qed.

Lemma now_last ns l x y :
  ns_servers ns = l ++ [x] → Forall (λ s, si_id s ≠ si_id x) l → si_id y = si_id x → server_now ns y = x.
Proof.
  intros Hs Hl Hy. unfold server_now. rewrite Hs firstb_snoc; [|by rewrite bool_decide_eq_true|done].
  eapply Forall_impl; [exact Hl|]. intros s Hne. rewrite bool_decide_eq_false. congruence.
Qed.

Lemma update_last ns l x y :
  ns_servers ns = l ++ [x] → Forall (λ s, si_id s ≠ si_id x) l → si_id y = si_id x →
  ns_servers (update_server ns y) = l ++ [y].
Proof.
  intros Hs Hl Hy. cbn. rewrite Hs map_app. cbn [map]. rewrite decide_True; [done|]. f_equal.
  clear Hs. induction Hl as [|s l Hne _ IH]; [done|]. cbn. rewrite IH decide_False; [congruence|done].
Qed.

Lemma visit_spec fd now msg ns :
  (0 <= fd)%Z → introduces msg → all_lost ns → length (ns_servers ns) < NS_MAX_STORAGE_SERVERS →
  all_lost (visit fd now msg ns) ∧ length (ns_servers (visit fd now msg ns)) = S (length (ns_servers ns)).
Proof.
  intros Hfd Hmsg Hlost Hlen. unfold visit. rewrite hello_checked; [done|]. unfold ns_register_storage_server.
  case_decide; [lia|].
  assert (Hfree : existsb (λ info, si_is_alive info && streq (si_client_ip info) (fld msg 3) &&
                             (si_client_port info =? atoi (fld msg 4))%Z) (ns_servers ns) = false).
  { apply not_true_iff_false. intros (s & Hin & Hs)%existsb_exists. apply list_elem_of_In in Hin.
    unfold all_lost in Hlost. rewrite Forall_forall in Hlost. destruct (Hlost s Hin) as (Hd & _). by rewrite Hd in Hs. }
  rewrite Hfree. set (new := mkInfo _ _ _ _ _ _ _ _ _ _). set (ns1 := set_servers _ _).
  assert (Hfind : find_storage_server_by_sockfd ns1 fd = Some new).
  { apply firstb_snoc; [|by apply Z.eqb_refl]. eapply Forall_impl; [exact Hlost|]. intros s (_ & Hs & _). cbn. apply Z.eqb_neq. lia. }
  rewrite Hfind.
  assert (Hids : Forall (λ s, si_id s ≠ si_id new) (ns_servers ns)).
  { eapply Forall_impl; [exact Hlost|]. intros s (_ & _ & Hid). cbn. lia. }
  assert (Hsync : ns_servers (sync_start ns1 new) = ns_servers ns ++ [si_with_load new 0 0]).
  { unfold sync_start. rewrite (now_last ns1 (ns_servers ns) new); [done..|]. by apply update_last with new. }
  assert (Hend : ns_servers (server_lost (sync_start ns1 new) new) = ns_servers ns ++ [si_lost (si_with_load new 0 0)]).
  { unfold server_lost. rewrite (now_last _ (ns_servers ns) (si_with_load new 0 0)); [done..|].
    by apply update_last with (si_with_load new 0 0). }
  assert (Hgone : findb (λ s, (si_sockfd s =? fd)%Z) (ns_servers (server_lost (sync_start ns1 new) new)) = None).
  { apply findb_None. rewrite Hend. apply Forall_app. split; [|apply Forall_singleton, Z.eqb_neq; cbn; lia].
    eapply Forall_impl; [exact Hlost|]. intros s (_ & Hs & _). cbn. apply Z.eqb_neq. lia. }
  unfold server_connection_end, deregister_storage_server. rewrite Hgone. cbn [fst]. split.
  - unfold all_lost. rewrite Hend. change (ns_next_ss (server_lost _ _)) with (S (ns_next_ss ns)). apply Forall_app. split.
    + eapply Forall_impl; [exact Hlost|]. intros s (? & ? & ?). split; [done|]. split; [done|lia].
    + apply Forall_singleton. cbn. split_and!; [done..|lia].
  - rewrite Hend. len.
Qed.

(** C33 Lost storage servers stay in the table for ever: a server that connects
    and is lost, again and again, adds an entry each time, and once the table
    is full every storage server that introduces itself is refused, although
    none is connected. *)
Theorem lost_servers_fill_table fd now msg ns n :
  (0 <= fd)%Z → introduces msg → ns_servers ns = [] → n <= NS_MAX_STORAGE_SERVERS →
  let ns' := Nat.iter n (visit fd now msg) ns in
  length (ns_servers ns') = n ∧ Forall (λ s, si_is_alive s = false) (ns_servers ns') ∧
  (n = NS_MAX_STORAGE_SERVERS → ∀ fd' now' msg', (hello_ss is_valid_ip ns' fd' msg' now').2 = None).
Proof.
  intros Hfd Hmsg Hns Hn ns'.
  assert (Hall : all_lost ns' ∧ length (ns_servers ns') = n).
  { unfold ns'. clear ns'. induction n as [|n IH]; [unfold all_lost; cbn; by rewrite Hns|].
    destruct IH as [Hl Hlen]; [lia|]. cbn [Nat.iter nat_rect].
    destruct (visit_spec fd now msg (Nat.iter n (visit fd now msg) ns) Hfd Hmsg Hl) as [Hl' Hlen']; [lia|].
    split; [exact Hl'|]. rewrite Hlen'. by rewrite Hlen. }
  destruct Hall as [Hl Hlen]. split; [done|]. split; [eapply Forall_impl; [exact Hl|]; by intros s (? & _)|].
  intros -> fd' now' msg'. unfold hello_ss. case_decide; [done|]. case_match; [done|].
  unfold ns_register_storage_server. case_decide; [done|]. lia.
Qed.
End lost.

Lemma lost_servers_fill_table_witness :
  let msg := [$"HELLO_SS"; $"127.0.0.1"; $"9001"; $"127.0.0.1"; $"9002"] in
  let ns' := Nat.iter NS_MAX_STORAGE_SERVERS (visit (λ _, true) 5 7 msg) (ns_blank 8080 (ns_disk demo_tree)) in
  length (ns_servers ns') = NS_MAX_STORAGE_SERVERS ∧ Forall (λ s, si_is_alive s = false) (ns_servers ns') ∧
  (NS_MAX_STORAGE_SERVERS = NS_MAX_STORAGE_SERVERS →
   ∀ fd' now' msg', (hello_ss (λ _, true) ns' fd' msg' now').2 = None).
Proof.
  apply (lost_servers_fill_table (λ _, true) 5 7); [lia|split; [cbn; lia|vmd]|done|done].
Defined.
