(* ===== verification/NSRefine.v ===== *)
(** * Every client command refines the registry with owners

    One lemma for each branch of [run_client_loop]: whatever the storage servers
    answer, the command keeps the invariant and changes the registry only as
    [acl_step] allows its user. *)
From S2P Require Import Prelude CStr Utils Protocol Disk NSMeta NSPaths NSState NSIndex NSPersist NSPeer NSQueries NSAccess NSFiles NSTree NSServe NSSpec.
From stdpp Require Import relations.

Section commands.
Context (ctx : Ctx) (Huser : length (cx_username ctx) < MAX_USERNAME_LENGTH).
Abbreviation user := (cx_username ctx).

(** An owner check that was passed. *)
Lemma owner_passed f : meta_wf f → negb (is_fm_owner f user) = false → fm_owner f = user.
Proof. intros [Ho _] H%negb_false_iff. apply is_fm_owner_spec in H; done. Qed.

Lemma owner_reads f : meta_wf f → fm_owner f = user → file_has_read_access f user = true.
Proof. intros Hf Ho. apply read_access_iff; [done|done|]. by left. Qed.

Lemma refines_view format_time ns msg : ns_wf ns → refines user ns (handle_view format_time ns ctx msg).1.
Proof. intros Hwf. unfold handle_view. repeat case_match; by apply refines_refl. Qed.

Lemma refines_info format_time ns msg : ns_wf ns → refines user ns (handle_info format_time ns ctx msg).1.
Proof.
  intros Hwf. unfold handle_info. pose proof (lookup_refines user ns (fld msg 1) Hwf) as Hlk.
  destruct (file_lookup_locked ns (fld msg 1)) as [ns' r]. destruct Hlk as (Hr & _).
  repeat case_match; try done; by apply refines_refl.
Qed.

Lemma refines_viewfolder ns msg : ns_wf ns → refines user ns (handle_viewfolder ns ctx msg).1.
Proof.
  intros Hwf. unfold handle_viewfolder. case_decide; [by apply refines_refl|].
  destruct (ns_normalize_destination _ _) as [path|]; [|by apply refines_refl].
  pose proof (lookup_refines user ns path Hwf) as Hlk. destruct (streq path []); [by apply refines_refl|].
  destruct (file_lookup_locked ns path) as [ns' r]. destruct Hlk as (Hr & _). repeat case_match; done.
Qed.

Lemma same_touch operation f now : same_file f (loc_touch operation f user now).
Proof. unfold loc_touch. case_match; by split. Qed.

Lemma loc_access_reads operation f : meta_wf f → loc_access operation f user = Some true → file_has_read_access f user = true.
Proof.
  intros Hf. assert (Hw : file_has_write_access f user = true → file_has_read_access f user = true).
  { rewrite write_access_iff // read_access_iff //. tauto. }
  unfold loc_access. repeat case_match; intros [= Ha]; auto.
Qed.

Lemma refines_store ns name i f :
  ns_wf ns → ns_files ns !! i = Some f → fm_filename f = name → refines user ns (file_cache_store ns name i).
Proof.
  intros Hwf Hf Hn. destruct (file_cache_store_wf ns name i f (nf_reg _ Hwf) Hf Hn) as [Hr (c & t & Heq)].
  apply refines_frame; [done|done|by rewrite Heq|rewrite Heq; apply Hwf].
Qed.

Lemma refines_req_loc ns msg now : ns_wf ns → refines user ns (handle_req_loc ns ctx msg now).1.
Proof.
  intros Hwf. unfold handle_req_loc. case_decide; [by apply refines_refl|].
  destruct (if decide (3 <= length msg) then _ else _) as [operation filename].
  case_match; [by apply refines_refl|]. case_match; [by apply refines_refl|].
  pose proof (lookup_refines user ns filename Hwf) as Hlk.
  destruct (file_lookup_locked ns filename) as [ns' [i|]]; [|apply Hlk].
  destruct Hlk as (Hr & Hreg & _ & f & Hf & Hn & Hfr & Hmf). rewrite Hf.
  destruct (loc_access operation f user) as [[]|] eqn:Ha; [|done..]. cbn [fst].
  assert (Hwf' : ns_wf ns') by apply Hr.
  pose proof (refines_touch user ns' Hwf' i f (loc_touch operation f user now) Hf
    (loc_access_reads _ _ Hmf Ha) (same_touch _ _ _)) as Ht.
  assert (Hs : refines user (update_file ns' i (loc_touch operation f user now))
    (file_cache_store (update_file ns' i (loc_touch operation f user now)) filename i)).
  { apply (refines_store _ _ _ (loc_touch operation f user now)); [apply Ht| |by rewrite (sf_name _ _ (same_touch _ _ _))].
    cbn. apply list_lookup_insert_eq. by eapply lookup_lt_Some. }
  eapply refines_trans; [exact Hr|]. eapply refines_trans; [exact Ht|]. eapply refines_trans; [exact Hs|].
  apply refines_save, Hs.
Qed.

Lemma refines_request_access ns msg : ns_wf ns → refines user ns (handle_request_access ns ctx msg).1.
Proof.
  intros Hwf. unfold handle_request_access. case_decide; [by apply refines_refl|].
  case_match; [by apply refines_refl|]. destruct (parse_permission_flags _) as [[gr gw]|]; [|by apply refines_refl].
  pose proof (lookup_refines user ns (fld msg 1) Hwf) as Hlk.
  destruct (file_lookup_locked ns (fld msg 1)) as [ns' [i|]]; destruct Hlk as (Hr & _); [|done].
  case_decide; [done|]. cbn [fst]. eapply refines_trans; [exact Hr|]. destruct Hr as [Hwf' _].
  apply refines_requests; [done|]. apply Forall_app. split; [apply Hwf'|]. apply Forall_singleton. cbn [ar_from_user].
  by rewrite fit_short.
Qed.

Lemma change_request_wf ns k pending : ns_wf ns → refines user ns (change_request ns k pending).
Proof.
  intros Hwf. apply refines_requests; [done|].
  apply Forall_alter; [apply Hwf|]. intros req _ Hreq. exact Hreq.
Qed.

Lemma refines_reject ns msg : ns_wf ns → refines user ns (handle_reject_access ns ctx msg).1.
Proof. intros Hwf. unfold handle_reject_access. repeat case_match; (by apply refines_refl) || (by apply change_request_wf). Qed.

(** ** Commands that ask a server, in two parts *)

Lemma change_file_update ns i g f : ns_files ns !! i = Some f → change_file ns i g = update_file ns i (g f).
Proof.
  intros Hf. unfold change_file, update_file. f_equal. apply list_eq. intros j.
  destruct (decide (j = i)) as [->|Hne].
  - rewrite list_lookup_alter_eq list_lookup_insert_eq; [by eapply lookup_lt_Some|]. by rewrite Hf.
  - by rewrite list_lookup_alter_ne // list_lookup_insert_ne.
Qed.

Lemma updated_at ns i g f : ns_files ns !! i = Some f → ns_files (update_file ns i g) !! i = Some g.
Proof. intros Hf. cbn. apply list_lookup_insert_eq. by eapply lookup_lt_Some. Qed.

(** The owner's grants and revocations, and their undoing. *)
Lemma refines_add_access ns i f u gr gw :
  ns_wf ns → ns_files ns !! i = Some f → fm_owner f = user → length u < MAX_USERNAME_LENGTH →
  let f' := (file_add_access f u gr gw).1 in
  refines user ns (update_file ns i f') ∧ fm_owner f' = user ∧ meta_wf f'.
Proof.
  intros Hwf Hf Ho Hu f'. pose proof (nf_meta _ Hwf _ _ (registry_at _ Hwf i f Hf)) as Hm.
  pose proof (file_add_access_spec f u gr gw Hm Hu) as H. unfold f'.
  destruct (file_add_access f u gr gw) as [g r]. destruct H as (Hg & (rs & ws & ->) & _).
  split_and!; [|done|done]. eapply refines_rights; eauto.
Qed.

Lemma refines_remove_access ns i f u :
  ns_wf ns → ns_files ns !! i = Some f → fm_owner f = user → length u < MAX_USERNAME_LENGTH →
  let f' := (file_remove_access f u).1 in
  refines user ns (update_file ns i f') ∧ fm_owner f' = user ∧ meta_wf f'.
Proof.
  intros Hwf Hf Ho Hu f'. pose proof (nf_meta _ Hwf _ _ (registry_at _ Hwf i f Hf)) as Hm.
  pose proof (file_remove_access_spec f u Hm Hu) as H. unfold f'.
  destruct (file_remove_access f u) as [g r]. destruct H as (Hg & (rs & ws & ->) & _).
  split_and!; [|done|done]. eapply refines_rights; eauto.
Qed.

Lemma change_file_remove ns i f u :
  ns_wf ns → ns_files ns !! i = Some f → fm_owner f = user → length u < MAX_USERNAME_LENGTH →
  refines user ns (change_file ns i (λ f, (file_remove_access f u).1)).
Proof. intros Hwf Hf Ho Hu. rewrite (change_file_update _ _ _ _ Hf). by apply refines_remove_access. Qed.

Lemma change_file_add ns i f u gr gw :
  ns_wf ns → ns_files ns !! i = Some f → fm_owner f = user → length u < MAX_USERNAME_LENGTH →
  refines user ns (change_file ns i (λ f, (file_add_access f u gr gw).1)).
Proof. intros Hwf Hf Ho Hu. rewrite (change_file_update _ _ _ _ Hf). by apply refines_add_access. Qed.

(** What the first part of a handler leaves; [Q] is what the second relies on. *)
Definition begun_ok {P} (Q : NameServer → P → Prop) (ns : NameServer) (begun : NameServer * Phase P) : Prop :=
  refines user ns begun.1 ∧ match begun.2 with Finished _ => True | Asking _ _ p => Q begun.1 p end.

Lemma begun_finished {P} (Q : NameServer → P → Prop) ns ns' out :
  refines user ns ns' → begun_ok Q ns (ns', Finished out).
Proof. by split. Qed.

Lemma begun_same {P} (Q : NameServer → P → Prop) ns out : ns_wf ns → begun_ok Q ns (ns, Finished out).
Proof. intros Hwf. by apply begun_finished, refines_refl. Qed.

(** A handler refines the registry when both of its parts do. *)
Lemma refines_complete {W P} `{Servers W} (w : W) ns begun (finish : NameServer → P → Z + cstr → NameServer * Outbox)
    (Q : NameServer → P → Prop) :
  begun_ok Q ns begun → (∀ ns' p r, ns_wf ns' → Q ns' p → refines user ns' (finish ns' p r).1) →
  refines user ns (complete w begun finish).1.2.
Proof.
  intros [Hb HQ] Hf. unfold complete. destruct begun as [ns1 [out|ss fields p]]; [done|]. cbn [fst snd] in *.
  destruct (ask w ss fields) as [w' r]. pose proof (Hf ns1 p r (proj1 Hb) HQ) as H'.
  destruct (finish ns1 p r) as [ns2 out]. by eapply refines_trans.
Qed.

Definition owned_at (ns : NameServer) (i : nat) : Prop := ∃ f, ns_files ns !! i = Some f ∧ fm_owner f = user.

Lemma username_length u : validate_username u = true → length u < MAX_USERNAME_LENGTH.
Proof. by intros (_ & ? & _)%validate_username_spec. Qed.

Lemma addaccess_begun ns msg : ns_wf ns →
  begun_ok (λ ns p, owned_at ns (pa_index p) ∧ length (pa_user p) < MAX_USERNAME_LENGTH) ns (addaccess_begin ns ctx msg).
Proof.
  intros Hwf. unfold addaccess_begin. case_decide; [by apply begun_same|].
  destruct (negb _ || negb _) eqn:Hv; [by apply begun_same|].
  apply orb_false_iff in Hv as [_ Hv%negb_false_iff%username_length].
  destruct (parse_permission_flags _) as [[gr gw]|]; [|by apply begun_same].
  case_match; [by apply begun_same|]. pose proof (lookup_refines user ns (fld msg 1) Hwf) as Hlk.
  destruct (file_lookup_locked ns (fld msg 1)) as [ns1 [i|]]; destruct Hlk as (Hr & _ & _ & Hlk); [|by apply begun_finished].
  destruct Hlk as (f & Hf & _ & _ & Hm). rewrite Hf. change (default meta0 (Some f)) with f.
  destruct (negb (is_fm_owner f user)) eqn:Ho; [by apply begun_finished|]. apply owner_passed in Ho; [|done].
  case_match; [by apply begun_finished|].
  pose proof (refines_add_access ns1 i f (fld msg 2) gr gw (proj1 Hr) Hf Ho Hv) as Ha.
  destruct (file_add_access f _ gr gw) as [f' r]. cbn [fst] in Ha. destruct Ha as (Ha & Ho' & Hm').
  pose proof (refines_trans _ _ _ _ Hr Ha) as Hra. case_match; [by apply begun_finished|].
  destruct (server_of _ f') as [ss|].
  - split; [done|]. cbn. split; [|done]. exists f'. split; [by eapply updated_at|done].
  - apply begun_finished. eapply refines_trans; [exact Hra|].
    apply (change_file_remove _ i f'); [apply Ha|by eapply updated_at|done|done].
Qed.

Lemma refines_addaccess {W} `{Servers W} (w : W) ns msg : ns_wf ns → refines user ns (handle_addaccess w ns ctx msg).1.2.
Proof.
  intros Hwf. eapply refines_complete; [by apply addaccess_begun|].
  intros ns' p r Hwf' [(f & Hf & Ho) Hu]. unfold addaccess_finish.
  destruct (check_response r _) as [[code detail]|]; cbn [fst]; [by eapply change_file_remove|by apply refines_save].
Qed.

Lemma remaccess_begun ns msg : ns_wf ns →
  begun_ok (λ ns p, owned_at ns (pr_index p) ∧ length (pr_user p) < MAX_USERNAME_LENGTH) ns (remaccess_begin ns ctx msg).
Proof.
  intros Hwf. unfold remaccess_begin. case_decide; [by apply begun_same|].
  destruct (negb _ || negb _) eqn:Hv; [by apply begun_same|].
  apply orb_false_iff in Hv as [_ Hv%negb_false_iff%username_length].
  case_match; [by apply begun_same|]. pose proof (lookup_refines user ns (fld msg 1) Hwf) as Hlk.
  destruct (file_lookup_locked ns (fld msg 1)) as [ns1 [i|]]; destruct Hlk as (Hr & _ & _ & Hlk); [|by apply begun_finished].
  destruct Hlk as (f & Hf & _ & _ & Hm). rewrite Hf. change (default meta0 (Some f)) with f.
  destruct (negb (is_fm_owner f user)) eqn:Ho; [by apply begun_finished|]. apply owner_passed in Ho; [|done].
  pose proof (refines_remove_access ns1 i f (fld msg 2) (proj1 Hr) Hf Ho Hv) as Ha.
  destruct (file_remove_access f _) as [f' removed]. cbn [fst] in Ha. destruct Ha as (Ha & Ho' & Hm').
  pose proof (refines_trans _ _ _ _ Hr Ha) as Hra. case_match; [by apply begun_finished|].
  destruct (server_of _ f') as [ss|].
  - split; [done|]. cbn. split; [|done]. exists f'. split; [by eapply updated_at|done].
  - apply begun_finished. eapply refines_trans; [exact Hra|].
    apply (change_file_add _ i f'); [apply Ha|by eapply updated_at|done|done].
Qed.

Lemma refines_remaccess {W} `{Servers W} (w : W) ns msg : ns_wf ns → refines user ns (handle_remaccess w ns ctx msg).1.2.
Proof.
  intros Hwf. eapply refines_complete; [by apply remaccess_begun|].
  intros ns' p r Hwf' [(f & Hf & Ho) Hu]. unfold remaccess_finish.
  destruct (check_response r _) as [[code detail]|]; cbn [fst]; [by eapply change_file_add|by apply refines_save].
Qed.

(** ** Contents *)

Lemma same_access f now : same_file f (fm_with_access_by f user now).
Proof. by split. Qed.

Lemma exec_begun ns msg now : ns_wf ns → begun_ok (λ _ _, True) ns (exec_begin ns ctx msg now).
Proof.
  intros Hwf. unfold exec_begin. case_decide; [by apply begun_same|]. case_match; [by apply begun_same|].
  case_match; [by apply begun_same|]. pose proof (lookup_refines user ns (fld msg 1) Hwf) as Hlk.
  destruct (file_lookup_locked ns (fld msg 1)) as [ns1 [i|]]; destruct Hlk as (Hr & _ & _ & Hlk); [|by apply begun_finished].
  destruct Hlk as (f & Hf & _ & _ & Hm). rewrite Hf. change (default meta0 (Some f)) with f.
  destruct (negb (file_has_read_access f user)) eqn:Ha; [by apply begun_finished|]. apply negb_false_iff in Ha.
  pose proof (refines_touch user ns1 (proj1 Hr) i f _ Hf Ha (same_access f now)) as Ht.
  pose proof (refines_trans _ _ _ _ Hr Ht) as Hrt.
  destruct (server_of _ _) as [ss|]; [by split|]. apply begun_finished.
  eapply refines_trans; [exact Hrt|]. apply refines_save, Ht.
Qed.

Lemma refines_exec {W} `{Servers W} shell (w : W) ns msg now : ns_wf ns → refines user ns (handle_exec shell w ns ctx msg now).1.2.
Proof.
  intros Hwf. eapply refines_complete; [by apply exec_begun|]. intros ns' p r Hwf' _. by apply refines_save.
Qed.

Lemma copy_begun ns msg : ns_wf ns →
  begun_ok (λ ns p, ∃ f, ns_files ns !! pcp_source_index p = Some f ∧ file_has_read_access f user = true) ns
    (copy_begin ns ctx msg).
Proof.
  intros Hwf. unfold copy_begin. case_decide; [by apply begun_same|]. case_match; [by apply begun_same|].
  case_match; [by apply begun_same|]. pose proof (lookup_refines user ns (fld msg 1) Hwf) as Hlk.
  destruct (file_lookup_locked ns (fld msg 1)) as [ns1 src]. destruct Hlk as (Hr & _ & _ & Hsrc).
  pose proof (lookup_refines user ns1 (fld msg 2) (proj1 Hr)) as Hlk.
  destruct (file_lookup_locked ns1 (fld msg 2)) as [ns2 dest]. destruct Hlk as (Hr2 & _ & (c & t & ->) & Hdest).
  pose proof (refines_trans _ _ _ _ Hr Hr2) as Hr'.
  destruct src as [i|]; [|by apply begun_finished]. destruct dest as [j|]; [|by apply begun_finished].
  destruct Hsrc as (f & Hf & _ & _ & Hm). cbn [ns_files set_cache]. rewrite Hf. change (default meta0 (Some f)) with f.
  destruct (negb (file_has_read_access f user)) eqn:Ha; [by apply begun_finished|]. apply negb_false_iff in Ha.
  case_match; [by apply begun_finished|].
  destruct (server_of _ (default meta0 (ns_files ns1 !! j))) as [ds|]; [|by apply begun_finished].
  destruct (server_of _ f) as [ss|]; [|by apply begun_finished].
  destruct (if decide _ then _ else _) as [ip port]. split; [done|]. exists f. by split.
Qed.

Lemma refines_copy {W} `{Servers W} (w : W) ns msg now : ns_wf ns → refines user ns (handle_copy w ns ctx msg now).1.2.
Proof.
  intros Hwf. eapply refines_complete; [by apply copy_begun|]. intros ns' p r Hwf' (f & Hf & Ha). unfold copy_finish.
  destruct r as [e|raw]; [by apply refines_refl|]. case_match; [by apply refines_refl|].
  case_decide; [|by apply refines_refl]. cbn [fst].
  pose proof (change_file_update ns' (pcp_source_index p) (λ f, fm_with_access_by f user now) f Hf) as Hc.
  unfold change_file in Hc. rewrite Hc.
  pose proof (refines_touch user ns' Hwf' _ f _ Hf Ha (same_access f now)) as Ht.
  eapply refines_trans; [exact Ht|]. apply refines_save, Ht.
Qed.

(** ** New entries *)

Lemma select_frame ns : ns_wf ns → let '(ns', ss) := ns_select_storage_server_balanced ns in
  refines user ns ns' ∧ registry ns' = registry ns ∧ ns_files ns' = ns_files ns.
Proof.
  intros Hwf. unfold ns_select_storage_server_balanced. destruct (ns_servers ns) as [|s0 servers0] eqn:Hs.
  { split_and!; [by apply refines_refl|done|done]. }
  destruct (select_loop _ _ _ _) as [servers [[best ss]|]].
  - split_and!; [|done|done]. pose proof (refines_servers user ns servers Hwf) as H1.
    eapply refines_trans; [exact H1|]. apply refines_round_robin, H1.
  - split_and!; [by apply refines_servers|done|done].
Qed.

Definition owned_name (ns : NameServer) (name : cstr) : Prop := ∃ f, registry ns !! name = Some f ∧ fm_owner f = user.

Lemma refines_rollback ns name : ns_wf ns → owned_name ns name → refines user ns (create_rollback ns name).
Proof. intros Hwf (f & Hf & Ho). by eapply refines_remove. Qed.

(** A new entry of the user, with a name that was checked. *)
Lemma register_new ns name file :
  ns_wf ns → registry ns !! name = None → validate_filename name = true → length (ns_files ns) < NS_MAX_FILES →
  fm_filename file = name → fm_owner file = user → fm_read_users file = [] → fm_write_users file = [] →
  let '(ns', ok) := register_file ns name file in
  ok = true ∧ refines user ns ns' ∧ owned_name ns' name ∧ registry ns' = <[name := file]> (registry ns).
Proof.
  intros Hwf Hnew (Hne & Hl & _)%validate_filename_spec Hcount <- Ho Hr Hw.
  pose proof (refines_register user ns Hwf file Hnew Hne Hl Hcount Ho Huser Hr Hw) as H.
  destruct (register_file ns _ file) as [ns' ok]. destruct H as (-> & Href & Heq & _). split_and!; [done|done| |done].
  exists file. by rewrite Heq lookup_insert_eq.
Qed.

Lemma create_begun ns msg now : ns_wf ns →
  begun_ok (λ ns p, owned_name ns (pc_filename p)) ns (create_begin ns ctx msg now).
Proof.
  intros Hwf. unfold create_begin. case_decide; [by apply begun_same|].
  destruct (negb _) eqn:Hv; [by apply begun_same|]. apply negb_false_iff in Hv.
  case_match; [by apply begun_same|]. case_decide as Hcount; [by apply begun_same|].
  pose proof (lookup_refines user ns (fld msg 1) Hwf) as Hlk.
  destruct (file_lookup_locked ns (fld msg 1)) as [ns1 [i|]]; destruct Hlk as (Hr & Hreg & (c & t & Hns) & Hlk); [by apply begun_finished|].
  case_match; [by apply begun_finished|]. pose proof (select_frame ns1 (proj1 Hr)) as Hsel.
  destruct (ns_select_storage_server_balanced ns1) as [ns2 [ss|]]; destruct Hsel as (Hr2 & Hreg2 & Hf2);
    pose proof (refines_trans _ _ _ _ Hr Hr2) as Hr12; [|by apply begun_finished].
  set (file := created_file _ _ _ _ _).
  pose proof (register_new ns2 (fld msg 1) file (proj1 Hr2)) as Hnew.
  rewrite Hreg2 Hreg Hf2 Hns in Hnew. specialize (Hnew Hlk Hv ltac:(cbn; lia)).
  pose proof (proj1 (validate_filename_spec _) Hv) as (_ & Hl & _).
  specialize (Hnew (fit_short _ _ Hl) (fit_short _ _ Huser) eq_refl eq_refl).
  destruct (register_file ns2 _ file) as [ns3 ok]. destruct Hnew as (-> & Hr3 & Hown & _).
  pose proof (refines_trans _ _ _ _ Hr12 Hr3) as Hr13. case_match; [|by split].
  apply begun_finished. eapply refines_trans; [exact Hr13|]. by apply refines_rollback; [apply Hr3|].
Qed.

Lemma refines_create {W} `{Servers W} (w : W) ns msg now : ns_wf ns → refines user ns (handle_create w ns ctx msg now).1.2.
Proof.
  intros Hwf. eapply refines_complete; [by apply create_begun|]. intros ns' p r Hwf' Hown. unfold create_finish.
  destruct (check_response r _) as [[code detail]|]; cbn [fst]; [by apply refines_rollback|].
  pose proof (refines_servers user ns' (ns_servers (count_file ns' (pc_server p))) Hwf') as Hs.
  eapply refines_trans; [exact Hs|]. apply refines_save, Hs.
Qed.

Lemma refines_add_folder ns path now : ns_wf ns → ns_validate_logical_path path = true →
  refines user ns (add_folder ns path user now).1.
Proof.
  intros Hwf Hv. assert (Hname : validate_filename path = true).
  { unfold ns_validate_logical_path in Hv. destruct (validate_filename path); [done|]. by rewrite andb_false_r in Hv. }
  unfold add_folder. case_decide as Hcount; [by apply refines_refl|].
  pose proof (lookup_refines user ns path Hwf) as Hlk.
  destruct (file_lookup_locked ns path) as [ns1 [i|]]; destruct Hlk as (Hr & Hreg & (c & t & Hns) & Hlk); [done|].
  destruct (ns_split_parent_child _ _ _) as [[parent child]|]; [|done].
  assert (Hpar : let '(ns2, r) := if streq parent [] then (ns1, None) else file_lookup_locked ns1 parent in
    refines user ns ns2 ∧ registry ns2 = registry ns ∧ ns_files ns2 = ns_files ns).
  { destruct (streq parent []); [by rewrite Hns in Hr |- *|].
    pose proof (lookup_refines user ns1 parent (proj1 Hr)) as Hlk2. destruct (file_lookup_locked ns1 parent) as [ns2 r].
    destruct Hlk2 as (Hr2 & Hreg2 & (c2 & t2 & Hns2) & _). split_and!; [by eapply refines_trans|congruence|by rewrite Hns2 Hns]. }
  destruct (if streq parent [] then (ns1, None) else _) as [ns2 r]. destruct Hpar as (Hr2 & Hreg2 & Hf2).
  case_match; [done|]. pose proof (proj1 (validate_filename_spec _) Hname) as (_ & Hl & _).
  pose proof (register_new ns2 path (created_folder path user now) (proj1 Hr2)) as Hnew. rewrite Hreg2 Hf2 in Hnew.
  specialize (Hnew Hlk Hname ltac:(lia) (fit_short _ _ Hl) (fit_short _ _ Huser) eq_refl eq_refl).
  destruct (register_file ns2 path _) as [ns3 ok]. destruct Hnew as (-> & Hr3 & _). by eapply refines_trans.
Qed.

Lemma refines_createfolder ns msg now : ns_wf ns → refines user ns (handle_createfolder ns ctx msg now).1.
Proof.
  intros Hwf. unfold handle_createfolder. case_decide; [by apply refines_refl|].
  destruct (negb _) eqn:Hv; [by apply refines_refl|]. apply negb_false_iff in Hv. case_match; [by apply refines_refl|].
  pose proof (refines_add_folder ns (fld msg 1) now Hwf Hv) as Hr.
  destruct (add_folder ns _ _ _) as [ns1 [[code detail]|]]; cbn [fst] in *; [done|].
  eapply refines_trans; [exact Hr|]. apply refines_save, Hr.
Qed.
End commands.

(** ** Approvals

    An approval is a change by the owner of the file that the request names
    now, whoever approves it; [requests_ok] makes the two the same user. *)

(** Pending requests are addressed to the owner of the file they name. *)
Definition requests_ok (ns : NameServer) : Prop :=
  Forall (λ req, ar_is_pending req = true → ∀ f, registry ns !! ar_filename req = Some f → fm_owner f = ar_to_user req)
    (ns_requests ns).

Section approvals.
Context (actor : cstr).
Abbreviation actor_ctx := (mkCtx 0 actor).

(** The request an APPROVEACCESS would carry out names no file of anyone else. *)
Definition approves_own (ns : NameServer) (ctx : Ctx) (msg : list cstr) : Prop :=
  ∀ k req f, find_request ns (atoi (fld msg 1)) = Some k → ns_requests ns !! k = Some req →
    ar_is_pending req = true → ar_to_user req = cx_username ctx → registry ns !! ar_filename req = Some f →
    fm_owner f = actor.

Lemma refines_approve_rollback ns p : ns_wf ns → owned_at actor_ctx ns (pp_index p) →
  refines actor ns (approve_rollback ns p).
Proof.
  intros Hwf (f & Hf & Ho). unfold approve_rollback. destruct (ns_requests ns !! pp_request p) as [req|] eqn:Hq;
    [|by apply refines_refl].
  pose proof (change_file_remove actor_ctx ns (pp_index p) f (ar_from_user req) Hwf Hf Ho) as Hr.
  pose proof (nf_from _ Hwf) as Hall. rewrite Forall_lookup in Hall. specialize (Hr (Hall _ _ Hq)).
  eapply refines_trans; [exact Hr|]. apply (change_request_wf actor_ctx), Hr.
Qed.

Lemma approve_begun ns ctx msg : ns_wf ns → approves_own ns ctx msg →
  begun_ok actor_ctx (λ ns p, owned_at actor_ctx ns (pp_index p)) ns (approve_begin ns ctx msg).
Proof.
  intros Hwf Hok. unfold approve_begin. case_decide; [by apply begun_same|].
  destruct (find_request ns _) as [k|] eqn:Hk; [|by apply begun_same].
  destruct (ns_requests ns !! k) as [req|] eqn:Hq; [|by apply begun_same].
  destruct (negb _) eqn:Hp; [by apply begun_same|]. apply negb_false_iff, andb_true_iff in Hp as [Hp Hto%streq_true].
  pose proof (nf_from _ Hwf) as Hfrom. rewrite Forall_lookup in Hfrom. specialize (Hfrom _ _ Hq).
  pose proof (lookup_refines actor ns (ar_filename req) Hwf) as Hlk.
  destruct (file_lookup_locked ns (ar_filename req)) as [ns1 [i|]]; destruct Hlk as (Hr & _ & _ & Hlk); [|by apply begun_finished].
  destruct Hlk as (f & Hf & _ & Hfr & _). rewrite Hf. change (default meta0 (Some f)) with f.
  pose proof (Hok k req f Hk Hq Hp Hto Hfr) as Ho.
  pose proof (refines_add_access actor_ctx ns1 i f (ar_from_user req) (ar_grant_read req) (ar_grant_write req)
                (proj1 Hr) Hf Ho Hfrom) as Ha.
  set (f' := (file_add_access f _ _ _).1) in *. destruct Ha as (Ha & Ho' & _).
  pose proof (change_request_wf actor_ctx (update_file ns1 i f') k false (proj1 Ha)) as Hc.
  assert (Hra : refines actor ns (change_request (update_file ns1 i f') k false)).
  { eapply refines_trans; [exact Hr|]. by eapply refines_trans. }
  assert (Hown : owned_at actor_ctx (change_request (update_file ns1 i f') k false) i).
  { exists f'. split; [|done]. exact (updated_at ns1 i f' f Hf). }
  destruct (server_of _ f') as [ss|]; [by split|]. apply begun_finished.
  eapply refines_trans; [exact Hra|]. apply refines_approve_rollback; [apply Hra|done].
Qed.

Lemma refines_approve_actor {W} `{Servers W} (w : W) ns ctx msg : ns_wf ns → approves_own ns ctx msg →
  refines actor ns (handle_approve_access w ns ctx msg).1.2.
Proof.
  intros Hwf Hok. eapply (refines_complete actor_ctx); [by apply approve_begun|].
  intros ns' p r Hwf' Hown. unfold approve_finish. repeat case_match; cbn [fst];
    solve [by apply refines_approve_rollback|by apply refines_refl].
Qed.
End approvals.

Lemma refines_approve {W} `{Servers W} (w : W) ns ctx msg :
  ns_wf ns → requests_ok ns → refines (cx_username ctx) ns (handle_approve_access w ns ctx msg).1.2.
Proof.
  intros Hwf Hok. apply refines_approve_actor; [done|]. intros k req f _ Hq Hp <- Hf.
  unfold requests_ok in Hok. rewrite Forall_lookup in Hok. exact (Hok _ _ Hq Hp f Hf).
Qed.

(** Whatever the requests say, an approval keeps the invariant. *)
Lemma approve_wf {W} `{Servers W} (w : W) ns ctx msg : ns_wf ns → ns_wf (handle_approve_access w ns ctx msg).1.2.
Proof.
  intros Hwf.
  set (file := find_request ns (atoi (fld msg 1)) ≫= λ k, ns_requests ns !! k ≫= λ req, registry ns !! ar_filename req).
  set (actor := match file with Some f => fm_owner f | None => [] end).
  refine (proj1 (refines_approve_actor actor w ns ctx msg Hwf _)).
  intros k req f Hk Hq _ _ Hf. unfold actor, file. rewrite Hk. cbn [mbind option_bind]. rewrite Hq.
  cbn [mbind option_bind]. by rewrite Hf.
Qed.
