(* ===== verification/NSTreeSpec.v ===== *)
(** * MOVE and DELETE on the registry

    What the plans of [NSTree] contain and what carrying them out leaves of the
    registry: a deletion takes out a whole subtree, a move grafts it elsewhere,
    and either does nothing when it fails. *)
From S2P Require Import Prelude CStr Utils Protocol NSMeta NSPaths NSState NSIndex NSPersist NSPeer NSTree NSSpec NSDemo NSRefine.
From stdpp Require Import relations.

Lemma NoDup_map_filter {A B} (f : A → B) (p : A → bool) l : NoDup (map f l) → NoDup (map f (List.filter p l)).
Proof.
  induction l as [|x l IH]; cbn; [done|]. intros [Hx Hl]%NoDup_cons. destruct (p x); [|by apply IH].
  cbn. constructor; [|by apply IH]. intros (y & Hy & Hin%list_elem_of_In%filter_In)%list_elem_of_fmap.
  apply Hx. rewrite Hy. apply list_elem_of_fmap_2, list_elem_of_In, Hin.
Qed.

(** ** Subtrees *)

(** [name] is [path], or below it when [path] is a folder. *)
Definition below (is_directory : bool) (path name : cstr) : Prop :=
  ∃ l, segments name = segments path ++ l ∧ (l = [] ∨ is_directory = true).

(** [new] is [name] with [root] in the place of [src]. *)
Definition grafted (src root name new : cstr) : Prop :=
  ∃ l, segments name = segments src ++ l ∧ segments new = segments root ++ l.

Lemma in_subtree_iff dir path fm : in_subtree dir path fm = true ↔ below dir path (fm_filename fm).
Proof.
  unfold in_subtree, below. rewrite orb_true_iff andb_true_iff streq_true child_iff. split.
  - intros [->|[-> (l & _ & Hl)]]; [exists []; rewrite app_nil_r; auto|exists l; auto].
  - intros (l & Hl & Hd). destruct l as [|s l].
    + left. apply segments_inj. by rewrite Hl app_nil_r.
    + right. destruct Hd as [?|Hd]; [done|]. split; [done|]. by exists (s :: l).
Qed.

#[export] Instance below_dec dir path name : Decision (below dir path name).
Proof.
  refine (cast_if (decide (in_subtree dir path (fm_with_name meta0 name) = true)));
    [by apply (in_subtree_iff dir path (fm_with_name meta0 name))|].
  intros H. by apply (in_subtree_iff dir path (fm_with_name meta0 name)) in H.
Defined.

Lemma grafted_inj src root n1 n2 new : grafted src root n1 new → grafted src root n2 new → n1 = n2.
Proof.
  intros (l1 & H1 & Hn1) (l2 & H2 & Hn2). rewrite Hn1 in Hn2. simplify_list_eq. apply segments_inj. congruence.
Qed.

Lemma grafted_fun src root name n1 n2 : grafted src root name n1 → grafted src root name n2 → n1 = n2.
Proof.
  intros (l1 & H1 & Hn1) (l2 & H2 & Hn2). rewrite H1 in H2. simplify_list_eq. apply segments_inj. congruence.
Qed.

Lemma grafted_same src root name : grafted src root name name → src = root.
Proof. intros (l & H1 & H2). rewrite H1 in H2. apply app_inv_tail in H2. by apply segments_inj. Qed.

Lemma entry_path_grafted dir src root name new :
  length root < MAX_FILENAME_LENGTH → below dir src name → entry_path root src name = Some new → grafted src root name new.
Proof.
  intros Hroot (l & Hl & _). unfold entry_path. destruct (streq name src) eqn:Heq.
  - apply streq_true in Heq as ->. intros [= <-]. exists []. by rewrite !app_nil_r.
  - intros Hm. destruct (move_path_segments _ _ _ _ _ Hl Hm). by exists l.
Qed.

Section user.
Context (ctx : Ctx) (Huser : length (cx_username ctx) < MAX_USERNAME_LENGTH).
Abbreviation user := (cx_username ctx).

(** ** The plan of a deletion *)

Lemma delete_plan_spec ns path dir files plan :
  Forall meta_wf files → delete_plan ns user path dir files = inr plan →
  map de_path plan = map fm_filename (List.filter (in_subtree dir path) files) ∧
  Forall (λ fm, in_subtree dir path fm = true → fm_owner fm = user) files.
Proof.
  intros Hm. revert plan. induction Hm as [|fm files Hfm _ IH]; intros plan; cbn [delete_plan List.filter].
  { intros [= <-]. by split. }
  destruct (in_subtree dir path fm) eqn:Hin; cbn [negb].
  - destruct (negb (is_fm_owner fm user)) eqn:Ho; [done|]. apply (owner_passed ctx Huser) in Ho; [|done].
    case_match; [done|]. destruct (delete_plan ns user path dir files) as [e|rest]; [done|]. intros [= <-].
    destruct (IH rest eq_refl) as [Hmap Hall]. split; [cbn; by f_equal|by constructor].
  - intros Hp. destruct (IH plan Hp) as [Hmap Hall]. split; [done|]. constructor; [by rewrite Hin|done].
Qed.

(** ** Carrying out a deletion *)

Lemma longest_spec plan i best best_len :
  (∃ b, longest plan i best best_len = Some b ∧ (best = Some b ∨ i <= b < i + length plan)) ∨
  longest plan i best best_len = None ∧ best = None ∧ Forall (λ e, length (de_path e) < best_len) plan.
Proof.
  revert i best best_len. induction plan as [|e plan IH]; intros i best best_len; cbn [longest length].
  - destruct best as [b|]; [left; exists b; auto|right; auto].
  - case_decide as Hle.
    + destruct (IH (S i) (Some i) (length (de_path e))) as [(b & -> & Hb)|(_ & ? & _)]; [|done].
      left. exists b. split; [done|]. right. destruct Hb as [[= <-]|Hb]; lia.
    + destruct (IH (S i) best best_len) as [(b & -> & Hb)|(-> & -> & Hall)].
      * left. exists b. split; [done|]. destruct Hb as [->|Hb]; [by left|right; lia].
      * right. split_and!; [done|done|]. constructor; [lia|done].
Qed.

(** Every round finds an entry as long as the plan is not empty. *)
Lemma longest_some plan : plan ≠ [] → ∃ b e, longest plan 0 None 0 = Some b ∧ plan !! b = Some e.
Proof.
  intros Hne. destruct (longest_spec plan 0 None 0) as [(b & Hb & [?|Hlt])|(_ & _ & Hall)]; [done| |].
  - destruct (lookup_lt_is_Some_2 plan b) as [e He]; [lia|]. eauto.
  - destruct plan as [|e plan]; [done|]. apply Forall_cons in Hall as [? _]. lia.
Qed.

(** No pending request is for one of the names. *)
Definition cancelled (ns : NameServer) (name : cstr) : Prop :=
  Forall (λ req, ar_is_pending req = true → ar_filename req ≠ name) (ns_requests ns).

Lemma delete_entry_spec ns e :
  ns_wf ns → (∀ f, registry ns !! de_path e = Some f → fm_owner f = user) →
  refines user ns (delete_entry ns e) ∧ registry (delete_entry ns e) = delete (de_path e) (registry ns) ∧
  (is_Some (registry ns !! de_path e) → cancelled (delete_entry ns e) (de_path e)) ∧
  (∀ name, cancelled ns name → cancelled (delete_entry ns e) name).
Proof.
  intros Hwf Ho. unfold delete_entry. pose proof (remove_wf ns Hwf (de_path e)) as H.
  assert (Href : refines user ns (remove_file_metadata_locked ns (de_path e)).1).
  { destruct (registry ns !! de_path e) as [f|] eqn:Hf; [eapply refines_remove; eauto|].
    destruct (remove_file_metadata_locked ns (de_path e)) as [ns1 removed]. destruct H as (Hwf1 & _ & Heq & _).
    split; [done|]. cbn [fst]. by rewrite Heq delete_id. }
  destruct (remove_file_metadata_locked ns (de_path e)) as [ns1 removed].
  destruct H as (Hwf1 & Hrem & Heq & Hs & Hq & Hid). cbn [fst] in Href. destruct removed.
  - set (ns2 := match de_ss e with None => ns1 | Some ss => _ end).
    assert (Hr2 : refines user ns1 ns2 ∧ registry ns2 = registry ns1 ∧ ns_requests ns2 = ns_requests ns1).
    { unfold ns2. destruct (de_ss e); split_and!; try done; solve [by apply refines_servers|by apply refines_refl]. }
    destruct Hr2 as (Hr2 & Hreg2 & Hq2). split_and!.
    + eapply refines_trans; [exact Href|]. eapply refines_trans; [exact Hr2|].
      apply refines_requests; [apply Hr2|]. apply Forall_map. eapply Forall_impl; [apply (nf_from _ (proj1 Hr2))|].
      intros req Hl. by case_match.
    + change (registry ns2 = delete (de_path e) (registry ns)). congruence.
    + intros _. unfold cancelled, cancel_requests. cbn [ns_requests set_requests]. apply Forall_map, Forall_true.
      intros req. cbn. destruct (ar_is_pending req && streq (ar_filename req) (de_path e)) eqn:Hc; [done|].
      intros Hp. rewrite Hp in Hc. by apply streq_false in Hc.
    + intros name Hc. unfold cancelled, cancel_requests. cbn [ns_requests set_requests]. apply Forall_map.
      rewrite Hq2 Hq. eapply Forall_impl; [exact Hc|]. intros req. cbn. by case_match.
  - symmetry in Hrem. apply bool_decide_eq_false in Hrem. split_and!; [done|done|done|].
    intros name. unfold cancelled. by rewrite Hq.
Qed.

Lemma delete_registry_spec rounds ns plan :
  rounds = length plan → ns_wf ns →
  (∀ e f, e ∈ plan → registry ns !! de_path e = Some f → fm_owner f = user) →
  let ns' := delete_registry rounds ns plan in
  refines user ns ns' ∧
  (∀ name, registry ns' !! name = if decide (name ∈ map de_path plan) then None else registry ns !! name) ∧
  (∀ e, e ∈ plan → is_Some (registry ns !! de_path e) → cancelled ns' (de_path e)) ∧
  (∀ name, cancelled ns name → cancelled ns' name).
Proof.
  revert ns plan. induction rounds as [|rounds IH]; intros ns plan Hlen Hwf Hown; cbn [delete_registry].
  { destruct plan; [|done]. split_and!; [by apply refines_refl|done|set_solver|done]. }
  destruct (longest_some plan) as (b & e & -> & He); [by intros ->|]. rewrite He.
  assert (Hperm : plan ≡ₚ e :: (take b plan ++ drop (S b) plan)).
  { rewrite -{1}(take_drop_middle plan b e He). by rewrite Permutation_middle. }
  destruct (delete_entry_spec ns e Hwf) as (Hr & Hreg & Hcan & Hkeep).
  { intros f. apply (Hown e). by eapply list_elem_of_lookup_2. }
  destruct (IH (delete_entry ns e) (take b plan ++ drop (S b) plan)) as (Hr' & Hreg' & Hcan' & Hkeep').
  - apply Permutation_length in Hperm. cbn in Hperm. lia.
  - apply Hr.
  - intros e' f He'. rewrite Hreg. intros [_ Hf]%lookup_delete_Some. apply (Hown e'); [|done].
    rewrite Hperm. by right.
  - split_and!.
    + by eapply refines_trans.
    + intros name. rewrite Hreg' Hreg.
      assert (Hmem : name ∈ map de_path plan ↔ name = de_path e ∨ name ∈ map de_path (take b plan ++ drop (S b) plan)).
      { rewrite {1}Hperm. cbn [map]. by rewrite elem_of_cons. }
      repeat case_decide; try tauto.
      * by destruct (decide (name = de_path e)) as [->|Hne]; [rewrite lookup_delete_eq|tauto].
      * rewrite lookup_delete_ne; [|done]. intros <-. tauto.
    + intros e' He' Hsome. destruct (decide (de_path e' = de_path e)) as [Heq|Hne].
      * rewrite Heq in Hsome |- *. apply Hkeep', Hcan, Hsome.
      * rewrite Hperm in He'. apply elem_of_cons in He' as [->|He']; [done|]. apply (Hcan' e' He').
        by rewrite Hreg lookup_delete_ne.
    + intros name Hc. apply Hkeep', Hkeep, Hc.
Qed.

Lemma wf_files ns : ns_wf ns → Forall meta_wf (ns_files ns).
Proof.
  intros Hwf. apply Forall_lookup. intros i f Hf. exact (nf_meta _ Hwf _ _ (registry_at ns Hwf i f Hf)).
Qed.

Lemma registry_elem ns f : ns_wf ns → f ∈ ns_files ns ↔ registry ns !! fm_filename f = Some f.
Proof.
  intros Hwf. rewrite registry_lookup; [apply Hwf|]. rewrite list_elem_of_lookup. split; [by intros [i Hi]; eauto|].
  intros (i & Hi & _). eauto.
Qed.

(** The names in a plan are the names of the subtree. *)
Lemma subtree_names ns dir path name : ns_wf ns →
  name ∈ map fm_filename (List.filter (in_subtree dir path) (ns_files ns)) ↔
  is_Some (registry ns !! name) ∧ below dir path name.
Proof.
  intros Hwf. rewrite list_elem_of_fmap. split.
  - intros (fm & -> & Hin%list_elem_of_In%filter_In). destruct Hin as [Hin%list_elem_of_In Hsub].
    apply registry_elem in Hin; [|done]. rewrite Hin. split; [done|by apply in_subtree_iff].
  - intros [[f Hf] Hb]. pose proof Hf as Hf'. apply registry_lookup in Hf' as (i & Hi & Hn); [|apply Hwf].
    exists f. split; [done|]. apply list_elem_of_In, filter_In. split.
    + apply list_elem_of_In. by eapply list_elem_of_lookup_2.
    + apply in_subtree_iff. by rewrite Hn.
Qed.

(** What DELETE leaves when it succeeds. *)
Record deleted (ns ns' : NameServer) (path : cstr) (f : FileMetadata) : Prop := {
  dd_was : registry ns !! path = Some f;
  dd_owned : ∀ name g, registry ns !! name = Some g → below (fm_is_directory f) path name → fm_owner g = user;
  dd_gone : ∀ name, registry ns' !! name =
              if decide (below (fm_is_directory f) path name) then None else registry ns !! name;
  dd_requests : ∀ name, is_Some (registry ns !! name) → below (fm_is_directory f) path name → cancelled ns' name
}.

Lemma delete_prepare_spec ns path :
  ns_wf ns → let '(ns1, r) := delete_prepare ns user path in
  refines user ns ns1 ∧ registry ns1 = registry ns ∧ ns_requests ns1 = ns_requests ns ∧
  match r with
  | inl _ => True
  | inr plan => ∃ f, registry ns !! path = Some f ∧
      (∀ name, name ∈ map de_path plan ↔ is_Some (registry ns !! name) ∧ below (fm_is_directory f) path name) ∧
      (∀ name g, registry ns !! name = Some g → below (fm_is_directory f) path name → fm_owner g = user)
  end.
Proof.
  intros Hwf. unfold delete_prepare. pose proof (lookup_refines user ns path Hwf) as Hlk.
  destruct (file_lookup_locked ns path) as [ns1 [i|]]; destruct Hlk as (Hr & Hreg & (c & t & Hns) & Hlk).
  2: { split_and!; [done|done|by rewrite Hns|done]. }
  assert (Hq : ns_requests ns1 = ns_requests ns) by by rewrite Hns.
  destruct Hlk as (f & Hf & Hn & Hfr & Hm). rewrite Hf. change (default meta0 (Some f)) with f.
  destruct (negb (is_fm_owner f user)); [by split_and!|]. destruct (delete_plan _ _ _ _ _) as [e|plan] eqn:Hp; [by split_and!|].
  apply delete_plan_spec in Hp as [Hmap Hall]; [|apply wf_files, Hr].
  destruct plan as [|e plan]; [by split_and!|]. split_and!; [done|done|done|]. exists f. split_and!; [done| |].
  - intros name. rewrite Hmap subtree_names; [apply Hr|]. by rewrite Hreg.
  - intros name g Hg Hb. rewrite -Hreg in Hg. apply registry_lookup in Hg as (j & Hj & Hgn); [|apply Hr].
    rewrite Forall_lookup in Hall. apply (Hall j g Hj), in_subtree_iff. by rewrite Hgn.
Qed.

(** A command that only sends an error. *)
Ltac refused :=
  split; [try done; by apply refines_refl|left; split; [try done|split; [try done|by do 2 eexists]]].

Lemma delete_spec {W} `{Servers W} (w : W) ns msg :
  ns_wf ns → let '(w', ns', out) := handle_delete w ns ctx msg in
  refines user ns ns' ∧
  (registry ns' = registry ns ∧ ns_requests ns' = ns_requests ns ∧
     (∃ code detail, out = send_error_and_log (cx_fd ctx) code detail) ∨
   ∃ f n, deleted ns ns' (fld msg 1) f ∧ out = ns_send_simple_ok (cx_fd ctx) (deleted_detail n (fld msg 1))).
Proof.
  intros Hwf. unfold handle_delete.
  case_decide; [refused|]. destruct (negb (ns_validate_logical_path _)); [refused|]. destruct (streq user []); [refused|].
  pose proof (delete_prepare_spec ns (fld msg 1) Hwf) as Hp. destruct (delete_prepare ns user (fld msg 1)) as [ns1 r].
  destruct Hp as (Hr & Hreg & Hq & Hp). destruct r as [[code detail]|plan]; [refused|].
  destruct Hp as (f & Hf & Hnames & Hown). destruct (delete_servers w plan) as [w1 [[code detail]|]];
    [refused|].
  destruct (delete_registry_spec (length plan) ns1 plan) as (Hr2 & Hreg2 & Hcan & _); [done|apply Hr| |].
  { intros e g He Hg. rewrite Hreg in Hg. apply (Hown (de_path e) g Hg), Hnames. by apply list_elem_of_fmap_2. }
  split.
  - eapply refines_trans; [exact Hr|]. eapply refines_trans; [exact Hr2|]. apply refines_save, Hr2.
  - right. exists f, (length plan). split; [|done].
    assert (Hmem : ∀ name, registry ns !! name = None → registry ns1 !! name = None) by by rewrite Hreg.
    split; [done|done| |].
    + intros name. change (registry (delete_registry (length plan) ns1 plan) !! name = if decide (below (fm_is_directory f) (fld msg 1) name) then None else registry ns !! name).
      rewrite Hreg2 Hreg. destruct (decide (name ∈ map de_path plan)) as [Hin|Hin], (decide (below _ _ _)) as [Hb|Hb]; try done.
      * by apply Hnames in Hin as [_ ?].
      * destruct (registry ns !! name) as [g|] eqn:Hg; [|done]. exfalso. apply Hin, Hnames. by rewrite Hg.
    + intros name Hsome Hb. assert (name ∈ map de_path plan) as (e & -> & He)%list_elem_of_fmap by by apply Hnames.
      apply (Hcan e He). by rewrite Hreg.
Qed.

(** ** The plan of a move *)

(** A good entry of a plan: the user's file, and a free, valid place for it. *)
Record move_ok (reg : gmap cstr FileMetadata) (src root : cstr) (e : MovePlanEntry) : Prop := {
  mk_graft : grafted src root (me_old_path e) (me_new_path e);
  mk_free : reg !! me_new_path e = None;
  mk_name : me_new_path e ≠ [] ∧ length (me_new_path e) < MAX_FILENAME_LENGTH
}.

Lemma valid_path_name path : ns_validate_logical_path path = true → path ≠ [] ∧ length path < MAX_FILENAME_LENGTH.
Proof.
  intros Hv. assert (validate_filename path = true) as (? & ? & _)%validate_filename_spec; [|done].
  unfold ns_validate_logical_path in Hv. destruct (validate_filename path); [done|]. by rewrite andb_false_r in Hv.
Qed.

Lemma move_entry_spec ns src root dir fm :
  ns_wf ns → meta_wf fm → below dir src (fm_filename fm) → length root < MAX_FILENAME_LENGTH → root ≠ src →
  let '(ns', r) := move_entry ns user src root fm in
  ns_wf ns' ∧ (∃ c t, ns' = set_cache ns c t) ∧
  match r with
  | inl _ => True
  | inr e => me_old_path e = fm_filename fm ∧ fm_owner fm = user ∧ move_ok (registry ns) src root e
  end.
Proof.
  intros Hwf Hm Hb Hroot Hne. assert (Hid : ∃ c t, ns = set_cache ns c t) by (exists (ns_cache ns), (ns_tick ns); by destruct ns).
  unfold move_entry. destruct (negb (is_fm_owner fm user)) eqn:Ho; [done|]. apply (owner_passed ctx Huser) in Ho; [|done].
  destruct (entry_path root src (fm_filename fm)) as [new|] eqn:Hp; [|done].
  pose proof (entry_path_grafted _ _ _ _ _ Hroot Hb Hp) as Hg.
  destruct (negb (ns_validate_logical_path new)) eqn:Hv; [done|]. apply negb_false_iff, valid_path_name in Hv.
  pose proof (lookup_refines user ns new Hwf) as Hlk. destruct (file_lookup_locked ns new) as [ns1 r].
  destruct Hlk as (Hr & _ & Hform & Hlk). assert (Hwf1 : ns_wf ns1) by apply Hr.
  assert (Hfree : match r ≫= λ i, ns_files ns1 !! i with
                  | Some c => negb (streq (fm_filename c) (fm_filename fm)) | None => false end = false →
                  registry ns !! new = None).
  { destruct r as [i|]; [|done]. destruct Hlk as (c & Hc & Hcn & _). cbn [mbind option_bind]. rewrite Hc.
    intros Heq%negb_false_iff%streq_true. exfalso. apply Hne. symmetry. apply (grafted_same _ _ (fm_filename fm)).
    by rewrite -{2}Heq Hcn. }
  destruct (match r ≫= _ with Some _ => _ | None => _ end); [done|]. specialize (Hfree eq_refl).
  destruct (fm_is_directory fm); [by split_and!|]. destruct (server_of ns1 fm) as [ss|]; [|done].
  destruct (flatten_logical_path (fm_filename fm) MAX_FILENAME_LENGTH), (flatten_logical_path new MAX_FILENAME_LENGTH); try done.
Qed.

Lemma move_plan_spec ns src root dir files :
  ns_wf ns → Forall meta_wf files → length root < MAX_FILENAME_LENGTH → root ≠ src →
  let '(ns', r) := move_plan ns user src root dir files in
  ns_wf ns' ∧ (∃ c t, ns' = set_cache ns c t) ∧
  match r with
  | inl _ => True
  | inr plan =>
      map me_old_path plan = map fm_filename (List.filter (in_subtree dir src) files) ∧
      Forall (λ fm, in_subtree dir src fm = true → fm_owner fm = user) files ∧
      Forall (move_ok (registry ns) src root) plan
  end.
Proof.
  intros Hwf Hm Hroot Hne. revert ns Hwf. induction Hm as [|fm files Hfm _ IH]; intros ns Hwf; cbn [move_plan List.filter].
  { split_and!; [done|exists (ns_cache ns), (ns_tick ns); by destruct ns|done|done|done]. }
  destruct (in_subtree dir src fm) eqn:Hin; cbn [negb].
  - apply in_subtree_iff in Hin as Hb. pose proof (move_entry_spec ns src root dir fm Hwf Hfm Hb Hroot Hne) as He.
    destruct (move_entry ns user src root fm) as [ns1 [e|entry]]; destruct He as (Hwf1 & (c & t & ->) & He).
    { split_and!; [done|by do 2 eexists|done]. }
    destruct He as (Hold & Ho & Hok). specialize (IH _ Hwf1).
    destruct (move_plan (set_cache ns c t) user src root dir files) as [ns2 [e|plan]];
      destruct IH as (Hwf2 & (c' & t' & ->) & IH); (split; [done|split; [by do 2 eexists|]]); [done|].
    destruct IH as (Hmap & Hall & Hoks). split_and!; [cbn; by f_equal|by constructor|by constructor].
  - specialize (IH ns Hwf). destruct (move_plan ns user src root dir files) as [ns2 [e|plan]];
      destruct IH as (Hwf2 & Hform & IH); (split; [done|split; [done|]]); [done|].
    destruct IH as (Hmap & Hall & Hoks). split_and!; [done|constructor; [by rewrite Hin|done]|done].
Qed.

(** ** Carrying out a move *)

Lemma rename_refines ns old new now f :
  ns_wf ns → registry ns !! old = Some f → fm_owner f = user → registry ns !! new = None →
  new ≠ [] → length new < MAX_FILENAME_LENGTH →
  let ns' := rename_file ns old new user now in
  refines user ns ns' ∧ ns_requests ns' = ns_requests ns ∧
  ∃ g, registry ns' = <[new := g]> (delete old (registry ns)) ∧ same_file (fm_with_name f new) g.
Proof.
  intros Hwf Hold Ho Hnew Hne Hl ns'.
  destruct (rename_wf ns Hwf old new user now f Hold Hnew Hne Hl) as (Hwf' & Heq & Hq & Hsame). fold ns' in Hwf', Heq, Hq.
  split_and!; [split; [done|]|done|by eexists]. rewrite Heq. by apply rtc_once, as_rename with f.
Qed.

(** The plan carried out entry by entry: each name is still there when its turn
    comes and each new name still free. *)
Lemma move_registry_spec plan ns src root now :
  ns_wf ns → NoDup (map me_old_path plan) → Forall (move_ok (registry ns) src root) plan →
  (∀ e, e ∈ plan → ∃ f, registry ns !! me_old_path e = Some f ∧ fm_owner f = user) →
  let ns' := move_registry ns plan user now in
  refines user ns ns' ∧ ns_requests ns' = ns_requests ns ∧
  (∀ e f, e ∈ plan → registry ns !! me_old_path e = Some f →
     registry ns' !! me_old_path e = None ∧
     ∃ g, registry ns' !! me_new_path e = Some g ∧ same_file (fm_with_name f (me_new_path e)) g) ∧
  (∀ name, (name ∉ map me_old_path plan) → (name ∉ map me_new_path plan) → registry ns' !! name = registry ns !! name).
Proof.
  revert ns. induction plan as [|e plan IH]; intros ns Hwf Hnd Hoks Hown.
  { cbn. split_and!; [by apply refines_refl|done|set_solver|done]. }
  cbn [map] in Hnd. apply NoDup_cons in Hnd as [Hnot Hnd]. apply Forall_cons in Hoks as [He Hoks].
  destruct (Hown e) as (f & Hf & Ho); [left|]. destruct He as [Hgr Hfree (Hne & Hl)].
  destruct (rename_refines ns _ _ now f Hwf Hf Ho Hfree Hne Hl) as (Hr & Hq & g & Hreg & Hsame).
  set (ns1 := rename_file ns (me_old_path e) (me_new_path e) user now) in *.
  assert (Hother : ∀ e' h, e' ∈ plan → registry ns !! me_old_path e' = Some h →
    registry ns1 !! me_old_path e' = Some h ∧ me_old_path e' ≠ me_old_path e ∧ me_old_path e' ≠ me_new_path e).
  { intros e' h He' Hh. assert (me_old_path e' ≠ me_old_path e).
    { intros Heq. apply Hnot. rewrite -Heq. by apply list_elem_of_fmap_2. }
    assert (me_old_path e' ≠ me_new_path e) by congruence.
    split_and!; [|done|done]. rewrite Hreg lookup_insert_ne // lookup_delete_ne //. }
  assert (Hnews : ∀ e', e' ∈ plan → me_new_path e' ≠ me_new_path e).
  { intros e' He' Heq. apply Hnot. rewrite Forall_forall in Hoks. destruct (Hoks e' He') as [Hgr' _ _].
    rewrite Heq in Hgr'. rewrite (grafted_inj _ _ _ _ _ Hgr Hgr'). by apply list_elem_of_fmap_2. }
  destruct (IH ns1) as (Hr2 & Hq2 & Hmoved & Hrest).
  - apply Hr.
  - done.
  - apply Forall_forall. intros e' He'. rewrite Forall_forall in Hoks. destruct (Hoks e' He') as [Hgr' Hfree' Hname'].
    split; [done| |done]. rewrite Hreg lookup_insert_ne; [by apply not_eq_sym, Hnews|].
    apply lookup_delete_None. by right.
  - intros e' He'. destruct (Hown e') as (h & Hh & Hho); [by right|]. exists h. split; [by apply Hother|done].
  - split_and!.
    + by eapply refines_trans.
    + change (move_registry ns (e :: plan) user now) with (move_registry ns1 plan user now). congruence.
    + intros e' h He' Hh. apply elem_of_cons in He' as [->|He'].
      * assert (h = f) as -> by congruence.
        assert (Hold2 : me_old_path e ∉ map me_new_path plan).
        { intros (e' & Heq & He')%list_elem_of_fmap. rewrite Forall_forall in Hoks.
          pose proof (mk_free _ _ _ _ (Hoks e' He')). congruence. }
        assert (Hnew1 : me_new_path e ∉ map me_old_path plan).
        { intros (e' & Heq & He')%list_elem_of_fmap. destruct (Hown e') as (h & Hh' & _); [by right|]. congruence. }
        assert (Hnew2 : me_new_path e ∉ map me_new_path plan).
        { intros (e' & Heq & He')%list_elem_of_fmap. by apply (Hnews e' He'). }
        change (move_registry ns (e :: plan) user now) with (move_registry ns1 plan user now).
        rewrite !Hrest //. rewrite Hreg lookup_insert_ne; [congruence|]. rewrite lookup_delete_eq lookup_insert_eq. eauto.
      * destruct (Hother e' h He' Hh) as (Hh1 & _). exact (Hmoved e' h He' Hh1).
    + intros name [Hn1 Hn2]%not_elem_of_cons [Hm1 Hm2]%not_elem_of_cons.
      change (move_registry ns (e :: plan) user now) with (move_registry ns1 plan user now).
      rewrite Hrest //. rewrite Hreg lookup_insert_ne // lookup_delete_ne //.
Qed.

(** ** The whole command *)

(** The segments of a destination: the root is the empty path. *)
Definition folder_segments (dest : cstr) : list cstr := match dest with [] => [] | _ => segments dest end.

Lemma final_root_segments src dest parent child root :
  length src < MAX_FILENAME_LENGTH →
  ns_split_parent_child src MAX_FILENAME_LENGTH MAX_FILENAME_LENGTH = Some (parent, child) →
  final_root_path dest child = Some root →
  length root < MAX_FILENAME_LENGTH ∧
  ∃ s, last (segments src) = Some s ∧ segments root = folder_segments dest ++ [s].
Proof.
  intros Hsrc Hsplit Hroot. destruct (split_iff src Hsrc) as (p & c & Hsplit' & Hseg & _).
  assert (child = c) as -> by congruence.
  assert (Hc : segments c = [c]).
  { apply segments_one. pose proof (segments_clean src) as Hcl. rewrite Hseg in Hcl.
    by apply Forall_app in Hcl as [_ [? _]%Forall_cons]. }
  assert (Hlast : last (segments src) = Some c) by (rewrite Hseg; apply last_snoc).
  unfold final_root_path in Hroot. destruct dest as [|x dest].
  - pose proof (safe_strcpy_length _ _ _ Hroot). split; [done|]. exists c. split; [done|].
    assert (Hlc : length c < MAX_FILENAME_LENGTH).
    { apply (f_equal (CStr.join [c_slash])) in Hseg. rewrite join_fields_on in Hseg.
      destruct (removelast (segments src)) as [|s l] eqn:Hrm.
      - cbn in Hseg. by rewrite -Hseg.
      - rewrite NSPaths.join_app in Hseg; [apply segments_ne|done|].
        apply (f_equal length) in Hseg. rewrite length_app /= in Hseg. lia. }
    rewrite safe_strcpy_short // in Hroot. by injection Hroot as <-.
  - case_decide as Hl; [done|]. injection Hroot as <-. split; [by apply Nat.nle_gt|]. exists c. split; [done|].
    change (segments ((x :: dest) ++ c_slash :: c) = segments (x :: dest) ++ [c]). by rewrite segments_app Hc.
Qed.

(** [dest] is the root or a folder of the registry. *)
Definition is_folder (reg : gmap cstr FileMetadata) (dest : cstr) : Prop :=
  dest = [] ∨ ∃ d, reg !! dest = Some d ∧ fm_is_directory d = true.

Record plan_ok (reg : gmap cstr FileMetadata) (src dest : cstr) (f : FileMetadata) (root : cstr)
    (plan : list MovePlanEntry) : Prop := {
  pk_was : reg !! src = Some f;
  pk_dest : is_folder reg dest;
  pk_root : ∃ s, last (segments src) = Some s ∧ segments root = folder_segments dest ++ [s];
  pk_outside : fm_is_directory f = true → dest ≠ [] → ¬ segments src `prefix_of` segments dest;
  pk_nodup : NoDup (map me_old_path plan);
  pk_names : ∀ name, name ∈ map me_old_path plan ↔ is_Some (reg !! name) ∧ below (fm_is_directory f) src name;
  pk_owned : ∀ name g, reg !! name = Some g → below (fm_is_directory f) src name → fm_owner g = user;
  pk_entries : Forall (move_ok reg src root) plan
}.

(** The part of [move_prepare] after the source is known to be a user's own. *)
Lemma move_prepare_spec ns src dest :
  ns_wf ns → src ≠ [] → length src < MAX_FILENAME_LENGTH →
  let '(ns1, r) := move_prepare ns user src dest in
  ns_wf ns1 ∧ (∃ c t, ns1 = set_cache ns c t) ∧
  match r with
  | inl _ => True
  | inr plan => ∃ f root, plan_ok (registry ns) src dest f root plan
  end.
Proof.
  intros Hwf Hsne Hslen. unfold move_prepare. pose proof (lookup_refines user ns src Hwf) as Hlk.
  destruct (file_lookup_locked ns src) as [ns1 [i|]]; destruct Hlk as (Hr & _ & (c & t & ->) & Hlk).
  2: { split; [apply Hr|split; [by do 2 eexists|done]]. }
  destruct Hlk as (f & Hf & Hn & Hfr & Hm). rewrite Hf. change (default meta0 (Some f)) with f.
  destruct (negb (is_fm_owner f user)); [split; [apply Hr|split; [by do 2 eexists|done]]|].
  assert (Hdest : let '(ns2, d) := if streq dest [] then (set_cache ns c t, None) else file_lookup_locked (set_cache ns c t) dest in
    ns_wf ns2 ∧ (∃ c t, ns2 = set_cache ns c t) ∧
    ((if streq dest [] then None else match d ≫= λ j, ns_files ns2 !! j with
      | None => Some (ERR_FILE_NOT_FOUND, $"Destination folder not found.")
      | Some d => if fm_is_directory d then None else Some (ERR_INVALID_REQUEST, $"Destination is not a folder.") end)
      = None → is_folder (registry ns) dest)).
  { destruct (streq dest []) eqn:Hroot.
    - split; [apply Hr|split; [by do 2 eexists|]]. intros _. left. by apply streq_true.
    - pose proof (lookup_refines user _ dest (proj1 Hr)) as Hl2.
      destruct (file_lookup_locked (set_cache ns c t) dest) as [ns2 [j|]]; destruct Hl2 as (Hr2 & _ & (c2 & t2 & ->) & Hl2);
        (split; [apply Hr2|split; [by do 2 eexists|]]); [|done].
      destruct Hl2 as (d & Hd & _ & Hdr & _). cbn [mbind option_bind]. rewrite Hd. intros Hdir.
      right. exists d. split; [done|by destruct (fm_is_directory d)]. }
  destruct (if streq dest [] then _ else file_lookup_locked _ dest) as [ns2 d]. destruct Hdest as (Hwf2 & (c2 & t2 & ->) & Hd).
  destruct (if streq dest [] then None else _) as [e|]; [split; [done|split; [by do 2 eexists|done]]|]. specialize (Hd eq_refl).
  destruct (ns_split_parent_child src _ _) as [[parent child]|] eqn:Hsplit; [|split; [done|split; [by do 2 eexists|done]]].
  destruct (final_root_path dest child) as [root|] eqn:Hroot; [|split; [done|split; [by do 2 eexists|done]]].
  destruct (final_root_segments _ _ _ _ _ Hslen Hsplit Hroot) as [Hrl Hrs].
  destruct (streq root src) eqn:Hid; [split; [done|split; [by do 2 eexists|done]]|]. apply streq_false in Hid.
  destruct (fm_is_directory f && _ && _) eqn:Hdesc; [split; [done|split; [by do 2 eexists|done]]|].
  pose proof (move_plan_spec _ src root (fm_is_directory f) _ Hwf2 (wf_files _ Hwf2) Hrl Hid) as Hp.
  destruct (move_plan _ user src root _ _) as [ns3 r]. destruct Hp as (Hwf3 & (c3 & t3 & ->) & Hp).
  destruct r as [e|[|e plan]]; [split; [done|split; [by do 2 eexists|done]]..|]. destruct Hp as (Hmap & Hall & Hok).
  split; [done|split; [by do 2 eexists|]]. exists f, root. split; [done|done|done| | | | |done].
  - intros Hdir Hne Hpre. rewrite Hdir in Hdesc. destruct (streq dest []) eqn:Hs; [by apply streq_true in Hs|].
    apply descendant_iff in Hpre; [|done]. by rewrite Hpre in Hdesc.
  - rewrite Hmap. apply NoDup_map_filter. exact (wf_nodup ns (nf_reg _ Hwf)).
  - intros name. rewrite Hmap. by apply (subtree_names ns).
  - intros name g Hg Hb. apply registry_lookup in Hg as (j & Hj & Hgn); [|apply Hwf].
    rewrite Forall_lookup in Hall. apply (Hall j g Hj), in_subtree_iff. by rewrite Hgn.
Qed.

(** What MOVE leaves when it succeeds. *)
Record moved (ns ns' : NameServer) (src dest : cstr) (f : FileMetadata) (root : cstr) : Prop := {
  mv_was : registry ns !! src = Some f;
  mv_dest : is_folder (registry ns) dest;
  mv_root : ∃ s, last (segments src) = Some s ∧ segments root = folder_segments dest ++ [s];
  mv_owned : ∀ name g, registry ns !! name = Some g → below (fm_is_directory f) src name → fm_owner g = user;
  mv_moved : ∀ name g, registry ns !! name = Some g → below (fm_is_directory f) src name →
    ∃ new h, grafted src root name new ∧ registry ns !! new = None ∧ registry ns' !! name = None ∧
             registry ns' !! new = Some h ∧ same_file (fm_with_name g new) h;
  mv_rest : ∀ name, ¬ (is_Some (registry ns !! name) ∧ below (fm_is_directory f) src name) →
    (∀ old, is_Some (registry ns !! old) → below (fm_is_directory f) src old → ¬ grafted src root old name) →
    registry ns' !! name = registry ns !! name
}.

Lemma plan_moves ns src dest f root plan now :
  ns_wf ns → plan_ok (registry ns) src dest f root plan →
  let ns' := move_registry ns plan user now in
  refines user ns ns' ∧ moved ns ns' src dest f root.
Proof.
  intros Hwf [Hwas Hdest Hroot _ Hnd Hnames Hown Hok] ns'.
  destruct (move_registry_spec plan ns src root now Hwf Hnd Hok) as (Hr & _ & Hmoved & Hrest).
  { intros e He. assert (is_Some (registry ns !! me_old_path e) ∧ below (fm_is_directory f) src (me_old_path e)) as [[g Hg] Hb]
      by by apply Hnames, list_elem_of_fmap_2. exists g. split; [done|by apply (Hown _ _ Hg)]. }
  split; [done|]. rewrite Forall_forall in Hok. split; [done..| |].
  - intros name g Hg Hb. assert (Hin : name ∈ map me_old_path plan) by (apply Hnames; by rewrite Hg).
    apply list_elem_of_fmap in Hin as (e & -> & He). destruct (Hmoved e g He Hg) as (Hgone & h & Hh & Hsame).
    destruct (Hok e He) as [Hgr Hfree _]. exists (me_new_path e), h. by split_and!.
  - intros name Hn Hg. apply Hrest.
    + by intros ?%Hnames.
    + intros (e & -> & He)%list_elem_of_fmap. destruct (Hok e He) as [Hgr _ _].
      assert (is_Some (registry ns !! me_old_path e) ∧ below (fm_is_directory f) src (me_old_path e)) as [Hs Hb]
        by by apply Hnames, list_elem_of_fmap_2. exact (Hg _ Hs Hb Hgr).
Qed.

Lemma normalized_path input dest :
  ns_normalize_destination input MAX_FILENAME_LENGTH = Some dest →
  (input = $"." ∨ input = $"/") ∧ dest = [] ∨ ns_validate_logical_path input = true ∧ dest = input.
Proof.
  unfold ns_normalize_destination. destruct (streq input ($".") || streq input ($"/")) eqn:Hr.
  - apply orb_true_iff in Hr. rewrite !streq_true in Hr. case_decide; [|done]. intros [= <-]. tauto.
  - destruct (ns_validate_logical_path input) eqn:Hv; [|done]. pose proof (valid_path_name _ Hv) as [_ Hl].
    rewrite safe_strcpy_short //. intros [= <-]. tauto.
Qed.

(** A move that only sends an error. *)
Ltac move_refused :=
  split; [first [done|by apply refines_refl]|left; split; [done|by do 2 eexists]].

Lemma move_spec {W} `{Servers W} (w : W) ns msg now :
  ns_wf ns → let '(w', ns', out) := handle_move w ns ctx msg now in
  refines user ns ns' ∧
  (registry ns' = registry ns ∧ (∃ code detail, out = send_error_and_log (cx_fd ctx) code detail) ∨
   ∃ dest f root, ns_normalize_destination (fld msg 2) MAX_FILENAME_LENGTH = Some dest ∧
     moved ns ns' (fld msg 1) dest f root ∧ out = ns_send_simple_ok (cx_fd ctx) ($"Move completed.")).
Proof.
  intros Hwf. unfold handle_move.
  case_decide; [move_refused|]. destruct (negb (ns_validate_logical_path (fld msg 1))) eqn:Hv; [move_refused|].
  apply negb_false_iff, valid_path_name in Hv as [Hne Hl].
  destruct (streq user []); [move_refused|].
  destruct (ns_normalize_destination (fld msg 2) _) as [dest|] eqn:Hd; [|move_refused].
  pose proof (move_prepare_spec ns (fld msg 1) dest Hwf Hne Hl) as Hp.
  destruct (move_prepare ns user (fld msg 1) dest) as [ns1 r]. destruct Hp as (Hwf1 & (c & t & ->) & Hp).
  assert (Hr1 : refines user ns (set_cache ns c t)) by by apply refines_frame; [|apply Hwf1| |apply Hwf1].
  destruct r as [[code detail]|plan]; [move_refused|]. destruct Hp as (f & root & Hp).
  destruct (move_servers w plan []) as [w1 [[code detail]|]]; [move_refused|].
  destruct (plan_moves (set_cache ns c t) _ _ _ _ plan now Hwf1 Hp) as [Hr Hmv].
  split; [eapply refines_trans; [exact Hr1|]; eapply refines_trans; [exact Hr|]; apply refines_save, Hr|].
  right. exists dest, f, root. split; [done|]. split; [|done]. destruct Hmv. by split.
Qed.
End user.

(** ** Properties *)

(** C12 MOVE moves a whole subtree or nothing.  Whatever the storage servers
    answer, either the registry is as before and the client gets an error, or:
    the destination was the root or a folder, the user owned everything in the
    subtree of the source, each of its entries has the new name that has the
    destination and the source's last segment in the place of the source's
    segments, a name nothing had before, with its owner, place, size and access
    lists as they were; its old name is gone, and all other names are as before. *)
Theorem move_correct {W} `{Servers W} (w : W) ns ctx msg now :
  length (cx_username ctx) < MAX_USERNAME_LENGTH → ns_wf ns →
  let '(_, ns', out) := handle_move w ns ctx msg now in
  ns_wf ns' ∧
  (registry ns' = registry ns ∧ (∃ code detail, out = send_error_and_log (cx_fd ctx) code detail) ∨
   ∃ dest f root, ns_normalize_destination (fld msg 2) MAX_FILENAME_LENGTH = Some dest ∧
     moved ctx ns ns' (fld msg 1) dest f root ∧ out = ns_send_simple_ok (cx_fd ctx) ($"Move completed.")).
Proof.
  intros Hu Hwf. pose proof (move_spec ctx Hu w ns msg now Hwf) as Hm.
  destruct (handle_move w ns ctx msg now) as [[w' ns'] out]. destruct Hm as [[Hwf' _] Hm]. by split.
Qed.

(** C13 DELETE deletes a whole subtree or nothing of the registry.  Whatever the
    storage servers answer, either registry and access requests are as before
    and the client gets an error, or the user owned everything in the subtree of
    the target, exactly the names of the subtree are gone, and no request for one
    of them is pending. *)
Theorem delete_correct {W} `{Servers W} (w : W) ns ctx msg :
  length (cx_username ctx) < MAX_USERNAME_LENGTH → ns_wf ns →
  let '(_, ns', out) := handle_delete w ns ctx msg in
  ns_wf ns' ∧
  (registry ns' = registry ns ∧ ns_requests ns' = ns_requests ns ∧
     (∃ code detail, out = send_error_and_log (cx_fd ctx) code detail) ∨
   ∃ f n, deleted ctx ns ns' (fld msg 1) f ∧ out = ns_send_simple_ok (cx_fd ctx) (deleted_detail n (fld msg 1))).
Proof.
  intros Hu Hwf. pose proof (delete_spec ctx Hu w ns msg Hwf) as Hm.
  destruct (handle_delete w ns ctx msg) as [[w' ns'] out]. destruct Hm as [[Hwf' _] Hm]. by split.
Qed.

(** The folder [docs] with its file, moved into [old]. *)
Lemma move_correct_witness :
  let ns' := (handle_move [line [$"OK"; $"renamed"]] demo_tree ann [$"MOVE"; $"docs"; $"old"] 7).1.2 in
  ∃ root, moved ann demo_tree ns' ($"docs") ($"old") (entry ($"docs") ($"ann") true) root.
Proof.
  assert (Hu : length (cx_username ann) < MAX_USERNAME_LENGTH) by vmd.
  pose proof (move_correct [line [$"OK"; $"renamed"]] demo_tree ann [$"MOVE"; $"docs"; $"old"] 7 Hu demo_tree_wf) as Hm.
  assert (Hnew : registry (handle_move [line [$"OK"; $"renamed"]] demo_tree ann [$"MOVE"; $"docs"; $"old"] 7).1.2
                 !! $"old/docs" ≠ registry demo_tree !! $"old/docs") by (vm_compute; discriminate).
  destruct (handle_move _ _ _ _ _) as [[w' ns'] out]. cbn [fst snd] in *.
  destruct Hm as [_ [[Heq _]|(dest & f & root & Hd & Hm & _)]]; [contradiction (Hnew (f_equal (λ m : gmap cstr FileMetadata, m !! $"old/docs") Heq))|].
  assert (Hdest : dest = $"old") by (vm_compute in Hd; vm_compute; congruence). subst dest. exists root.
  pose proof (mv_was _ _ _ _ _ _ _ Hm) as Hf. vm_compute in Hf. by injection Hf as <-.
Defined.

(** The folder deleted. *)
Lemma delete_correct_witness :
  let ns' := (handle_delete [line [$"OK_DELETE"; $"deleted"]] demo_tree ann [$"DELETE"; $"docs"]).1.2 in
  deleted ann demo_tree ns' ($"docs") (entry ($"docs") ($"ann") true).
Proof.
  assert (Hu : length (cx_username ann) < MAX_USERNAME_LENGTH) by vmd.
  pose proof (delete_correct [line [$"OK_DELETE"; $"deleted"]] demo_tree ann [$"DELETE"; $"docs"] Hu demo_tree_wf) as Hm.
  assert (Hgone : registry (handle_delete [line [$"OK_DELETE"; $"deleted"]] demo_tree ann [$"DELETE"; $"docs"]).1.2
                 !! $"docs/a" ≠ registry demo_tree !! $"docs/a") by (vm_compute; discriminate).
  destruct (handle_delete _ _ _ _) as [[w' ns'] out]. cbn [fst snd] in *.
  destruct Hm as [_ [[Heq _]|(f & n & Hm & _)]]; [contradiction (Hgone (f_equal (λ m : gmap cstr FileMetadata, m !! $"docs/a") Heq))|].
  pose proof (dd_was _ _ _ _ _ Hm) as Hf. vm_compute in Hf. by injection Hf as <-.
Defined.
