(* ===== verification/NSCommands.v ===== *)
(** * The name server as a whole

    A turn of a client's connection makes only the changes that [NSSpec] allows
    its user, and every event of the server keeps the invariant of the registry.
    [net_step] is the server with its connections: the handshakes, the turns of
    [run_client_loop] and of the two loops of [run_ss_loop], and the ends of
    connections, each as one step. *)
From S2P Require Import Prelude CStr Utils Protocol Disk NSMeta NSState NSIndex NSPersist NSPeer NSQueries NSAccess NSFiles NSTree NSServe NSSessions NSSpec NSDemo NSRefine NSTreeSpec.
From stdpp Require Import relations.

(** ** Client commands *)

Section client.
Context (format_time : Z → cstr) (shell : cstr → option cstr).
Context {W : Type} `{Servers W}.

(** The command does not approve a request. *)
Definition approves (msg : list cstr) : bool := streq (fld msg 0) ($"APPROVEACCESS").

Lemma client_refines (w : W) ns ctx msg now :
  length (cx_username ctx) < MAX_USERNAME_LENGTH → ns_wf ns → (approves msg = true → requests_ok ns) →
  refines (cx_username ctx) ns (client_command format_time shell w ns ctx msg now).1.2.
Proof.
  intros Hu Hwf Hq. unfold client_command, approves in *.
  repeat match goal with
  | |- refines _ _ (if streq (fld msg 0) ?c then _ else _).1.2 => destruct (streq (fld msg 0) c)
  end; try (by apply refines_refl).
  - by apply refines_view.
  - by apply refines_info.
  - by apply refines_exec.
  - by apply refines_request_access.
  - by apply refines_approve, Hq.
  - by apply refines_reject.
  - by apply refines_copy.
  - by apply refines_create.
  - by apply refines_createfolder.
  - by apply refines_viewfolder.
  - pose proof (move_spec ctx Hu w ns msg now Hwf) as Hm. destruct (handle_move w ns ctx msg now) as [[w' ns'] out]. apply Hm.
  - pose proof (delete_spec ctx Hu w ns msg Hwf) as Hm. destruct (handle_delete w ns ctx msg) as [[w' ns'] out]. apply Hm.
  - by apply refines_req_loc.
  - by apply refines_addaccess.
  - by apply refines_remaccess.
Qed.

Lemma client_wf (w : W) ns ctx msg now :
  length (cx_username ctx) < MAX_USERNAME_LENGTH → ns_wf ns →
  ns_wf (client_command format_time shell w ns ctx msg now).1.2.
Proof.
  intros Hu Hwf. destruct (approves msg) eqn:Ha; [|by apply (client_refines w ns ctx msg now Hu Hwf); rewrite Ha].
  unfold approves in Ha. apply streq_true in Ha.
  replace (client_command format_time shell w ns ctx msg now) with (handle_approve_access w ns ctx msg)
    by (unfold client_command; rewrite Ha; done).
  by apply approve_wf.
Qed.
End client.

(** ** Messages of storage servers *)

Lemma fit_username s : length (fit MAX_USERNAME_LENGTH s) < MAX_USERNAME_LENGTH.
Proof. pose proof (length_fit MAX_USERNAME_LENGTH s). assert (0 < MAX_USERNAME_LENGTH) by vmd. lia. Qed.

Lemma parse_csv_wf csv : names_wf (file_acl_parse_csv csv).
Proof.
  unfold file_acl_parse_csv. pose proof names_wf_nil as Hwf. revert Hwf.
  generalize (strtok (λ c, bool_decide (c = ","%char)) (fit NS_MAX_FIELD_SIZE csv)) as tokens.
  generalize (@nil cstr) as acc. intros acc tokens. revert acc.
  induction tokens as [|t tokens IH]; intros acc Hwf; cbn [parse_csv_loop]; [done|].
  destruct (negb _ && validate_username _) eqn:Hv; [|by apply IH].
  apply andb_true_iff in Hv as [_ Hv%username_length].
  pose proof (file_acl_add_spec acc _ Hwf Hv) as Ha. destruct (file_acl_add acc (trim_string t)) as [acc' r].
  destruct Ha as (Hwf' & _). destruct r; [by apply IH|done|done].
Qed.

Lemma synced_wf file msg ss now : meta_wf file → meta_wf (synced_file file msg ss now).
Proof.
  intros (Ho & _ & _). split; [|split; apply parse_csv_wf]. unfold synced_file.
  destruct (fld msg 2) as [|c o]; [exact Ho|]. apply fit_username.
Qed.

(** The state of the registry up to the tables that are not its own. *)
Lemma server_change_wf ns servers : ns_wf ns → ns_wf (set_servers ns servers).
Proof. intros Hwf. apply (refines_servers [] ns servers Hwf). Qed.

Lemma found_file ns filename i file :
  ns_wf ns → (file_index_find ns filename ≫= λ i, (i,.) <$> ns_files ns !! i) = Some (i, file) →
  ns_files ns !! i = Some file ∧ fm_filename file = filename ∧ meta_wf file.
Proof.
  intros Hwf Hfind. apply bind_Some in Hfind as (j & Hj & Hf). apply fmap_Some in Hf as (g & Hg & [= -> ->]).
  apply (rw_agree _ (nf_reg _ Hwf)) in Hj as (h & Hh & Hn). assert (h = g) as -> by congruence.
  split_and!; [done|done|]. exact (nf_meta _ Hwf _ _ (registry_at _ Hwf _ _ Hg)).
Qed.

Lemma store_wf ns i f filename : ns_wf ns → ns_files ns !! i = Some f → fm_filename f = filename →
  ns_wf (file_cache_store ns filename i).
Proof.
  intros Hwf Hf Hn. destruct (file_cache_store_wf ns filename i f (nf_reg _ Hwf) Hf Hn) as [Hreg (c & t & Heq)]. rewrite Heq in Hreg |- *.
  eapply wf_frame; [exact Hwf|exact Hreg|done|apply Hwf].
Qed.

Lemma stored_wf ns filename i file file' :
  ns_wf ns → (file_index_find ns filename ≫= λ i, (i,.) <$> ns_files ns !! i) = Some (i, file) →
  fm_filename file' = fm_filename file → meta_wf file' →
  ns_wf (file_cache_store (update_file ns i file') filename i).
Proof.
  intros Hwf Hfind Hn Hm. destruct (found_file _ _ _ _ Hwf Hfind) as (Hf & Hfn & _).
  destruct (update_wf ns Hwf i file file' Hf Hn Hm) as [Hwf' _].
  apply store_wf with file'; [done|by apply updated_at with file|congruence].
Qed.

Lemma ss_has_file_wf ns fd ss msg now : ns_wf ns → ns_wf (ss_has_file ns fd ss msg now).1.
Proof.
  intros Hwf. unfold ss_has_file. case_decide; [done|].
  destruct (negb (validate_filename (fld msg 1))) eqn:Hv; [done|]. apply negb_false_iff, validate_filename_spec in Hv as (Hne & Hl & _).
  destruct (negb (streq _ _) && _); [done|].
  destruct (file_index_find ns (fld msg 1) ≫= _) as [[i file]|] eqn:Hfind; cbn [fst].
  - destruct (found_file _ _ _ _ Hwf Hfind) as (_ & _ & Hm).
    eapply stored_wf; [done|exact Hfind|unfold synced_file; by case_match|by apply synced_wf].
  - case_decide as Hmax; [done|]. set (file := synced_file (new_file (fld msg 1) now) msg ss now).
    assert (Hname : fm_filename file = fld msg 1).
    { trans (fit MAX_FILENAME_LENGTH (fld msg 1)); [|by apply fit_short]. unfold file, synced_file. by case_match. }
    assert (Hnew : registry ns !! fld msg 1 = None).
    { apply registry_None; [apply Hwf|]. destruct (index_find _ _) as [j|] eqn:Hj; [|done].
      pose proof Hj as Hj'. apply (rw_agree _ (nf_reg _ Hwf)) in Hj' as (g & Hg & _).
      unfold file_index_find in Hfind. by rewrite Hj /= Hg in Hfind. }
    rewrite -Hname in Hnew, Hne, Hl |- *.
    pose proof (register_spec ns file (nf_reg _ Hwf) Hnew Hne Hl) as Hr.
    destruct (register_file ns (fm_filename file) file) as [ns' ok].
    destruct Hr as (-> & Hreg & Heq & index & c & t & Hns); [lia|]. cbn [fst].
    split; [done| |by rewrite Hns; apply Hwf]. rewrite Heq. apply map_Forall_insert_2; [|apply Hwf].
    apply synced_wf. split; [vmd|split; apply names_wf_nil].
Qed.

Lemma sync_message_wf ns fd ss msg now : ns_wf ns → ns_wf (sync_message ns fd ss msg now).1.1.
Proof.
  intros Hwf. unfold sync_message. case_match; [by apply ss_has_file_wf|]. case_match; [|done].
  unfold ns_recalculate_server_load_locked. destruct (server_load _ _ _). by apply server_change_wf.
Qed.

Lemma ss_message_wf ns ss msg now : ns_wf ns → ns_wf (ss_message ns ss msg now).
Proof.
  intros Hwf. unfold ss_message. case_match; [|done]. unfold write_complete. case_decide; [done|].
  destruct (file_index_find ns (fld msg 1) ≫= _) as [[i file]|] eqn:Hfind; [|done].
  destruct (found_file _ _ _ _ Hwf Hfind) as (_ & _ & Hm).
  apply (refines_save []). set (file' := fm_with_modified _ now).
  assert (Hs : ns_wf (file_cache_store (update_file ns i file') (fld msg 1) i)) by (eapply stored_wf; done).
  case_match; [by apply server_change_wf|done].
Qed.

(** ** The server with its connections *)

(** A connection of a storage server: its descriptor, its entry, and whether
    its list of files is complete. *)
Record ServerConn := mkServerConn {
  sc_fd : Z;
  sc_ss : StorageServerInfo;
  sc_synced : bool
}.

Record Net := mkNet {
  nt_ns : NameServer;
  nt_clients : list Ctx;
  nt_servers : list ServerConn
}.

Section net.
Context (format_time : Z → cstr) (shell : cstr → option cstr) (is_valid_ip : cstr → bool).
Context {W : Type} `{Servers W}.

Inductive net_step : Net → Net → Prop :=
  | nt_client_hello net fd msg ns' out :
      hello_client (nt_ns net) fd msg = (ns', out, None) →
      net_step net (mkNet ns' (nt_clients net) (nt_servers net))
  | nt_client_in net fd msg ns' out ctx :
      hello_client (nt_ns net) fd msg = (ns', out, Some ctx) →
      net_step net (mkNet ns' (nt_clients net ++ [ctx]) (nt_servers net))
  | nt_client_turn net ctx (w : W) raw now :
      ctx ∈ nt_clients net →
      net_step net (mkNet (client_turn format_time shell w (nt_ns net) ctx raw now).1.2 (nt_clients net) (nt_servers net))
  | nt_client_end ns l1 ctx l2 servers :
      net_step (mkNet ns (l1 ++ ctx :: l2) servers)
               (mkNet (client_disconnected ns (cx_username ctx)) (l1 ++ l2) servers)
  | nt_server_hello net fd msg now ns' out :
      hello_ss is_valid_ip (nt_ns net) fd msg now = (ns', out, None) →
      net_step net (mkNet ns' (nt_clients net) (nt_servers net))
  | nt_server_in net fd msg now ns' out ss :
      hello_ss is_valid_ip (nt_ns net) fd msg now = (ns', out, Some ss) →
      net_step net (mkNet (sync_start ns' ss) (nt_clients net) (nt_servers net ++ [mkServerConn fd ss false]))
  | nt_sync ns clients l1 fd ss l2 msg now ns' out complete :
      sync_message ns fd ss msg now = (ns', out, complete) →
      net_step (mkNet ns clients (l1 ++ mkServerConn fd ss false :: l2))
               (mkNet ns' clients (l1 ++ mkServerConn fd ss complete :: l2))
  | nt_server_turn net fd ss msg now :
      mkServerConn fd ss true ∈ nt_servers net →
      net_step net (mkNet (ss_message (nt_ns net) ss msg now) (nt_clients net) (nt_servers net))
  | nt_server_end ns clients l1 conn l2 :
      net_step (mkNet ns clients (l1 ++ conn :: l2))
               (mkNet (server_connection_end ns (sc_ss conn) (sc_fd conn)).1 clients (l1 ++ l2)).

(** A client's connection: its user is marked as connected there. *)
Definition in_session (ns : NameServer) (ctx : Ctx) : Prop :=
  cx_username ctx ≠ [] ∧ length (cx_username ctx) < MAX_USERNAME_LENGTH ∧
  mkClient (cx_username ctx) (cx_fd ctx) true ∈ ns_clients ns.

Record sessions_wf (ns : NameServer) (clients : list Ctx) : Prop := {
  sw_table : NoDup (map cl_username (ns_clients ns));
  sw_users : NoDup (map cx_username clients);
  sw_in : Forall (in_session ns) clients
}.

Record net_wf (net : Net) : Prop := {
  nw_ns : ns_wf (nt_ns net);
  nw_sessions : sessions_wf (nt_ns net) (nt_clients net)
}.

Lemma sessions_same ns ns' clients : ns_clients ns' = ns_clients ns → sessions_wf ns clients → sessions_wf ns' clients.
Proof.
  intros Heq [Ht Hu Hi]. split; [by rewrite Heq|done|]. eapply Forall_impl; [exact Hi|].
  intros ctx (? & ? & ?). split_and!; [done|done|by rewrite Heq].
Qed.

(** A record of the table, by its name. *)
Lemma table_unique ns i c d : NoDup (map cl_username (ns_clients ns)) → ns_clients ns !! i = Some c →
  d ∈ ns_clients ns → cl_username d = cl_username c → d = c.
Proof.
  intros Hnd Hc [j Hj]%list_elem_of_lookup Heq. assert (i = j) as ->; [|congruence].
  eapply (NoDup_lookup _ _ _ (cl_username c) Hnd); rewrite list_lookup_fmap; [by rewrite Hc|by rewrite Hj /= Heq].
Qed.

Lemma hello_registry ns fd msg : let '(ns', _, _) := hello_client ns fd msg in
  ∃ clients, ns' = set_clients ns clients.
Proof.
  unfold hello_client. assert (Hid : ∃ clients, ns = set_clients ns clients) by (exists (ns_clients ns); by destruct ns).
  case_decide; [done|]. destruct (negb (validate_username (fld msg 1))); [done|]. unfold ns_register_client.
  repeat case_match; simplify_eq/=; eauto.
Qed.

(** A handshake adds a session of a user who had none. *)
Lemma hello_session ns fd msg clients : sessions_wf ns clients →
  let '(ns', _, r) := hello_client ns fd msg in
  match r with
  | None => ns' = ns
  | Some ctx => sessions_wf ns' (clients ++ [ctx])
  end.
Proof.
  intros [Ht Hu Hi]. unfold hello_client. case_decide; [done|].
  destruct (negb (validate_username (fld msg 1))) eqn:Hv; [done|]. apply negb_false_iff in Hv.
  pose proof (username_length _ Hv) as Hl. assert (Hne : fld msg 1 ≠ []) by (intros Heq; by rewrite Heq in Hv).
  unfold ns_register_client. rewrite fit_short //.
  destruct (findb (λ c, streq (cl_username c) (fld msg 1)) (ns_clients ns)) as [i|] eqn:Hf.
  - apply findb_lookup in Hf as (c & Hc & Hn%streq_true). rewrite Hc. destruct (cl_is_connected c) eqn:Hconn; [done|].
    set (c' := mkClient (cl_username c) fd true).
    assert (Hnot : fld msg 1 ∉ map cx_username clients).
    { intros (ctx & Heq & Hctx)%list_elem_of_fmap. rewrite Forall_forall in Hi. destruct (Hi ctx Hctx) as (_ & _ & Hin).
      assert (mkClient (cx_username ctx) (cx_fd ctx) true = c) as <-; [|done].
      eapply table_unique; [done|exact Hc|done|cbn; congruence]. }
    assert (Hothers : ∀ d, d ∈ ns_clients ns → cl_username d ≠ cl_username c → d ∈ <[i := c']> (ns_clients ns)).
    { intros d [j Hj]%list_elem_of_lookup Hd. apply list_elem_of_lookup. exists j.
      rewrite list_lookup_insert_ne; [|done]. intros <-. congruence. }
    split; cbn.
    + change (NoDup (cl_username <$> <[i := c']> (ns_clients ns))). rewrite list_fmap_insert list_insert_id; [|done].
      by rewrite list_lookup_fmap Hc.
    + rewrite map_app. apply NoDup_app. split_and!; [done| |apply NoDup_singleton].
      intros x Hx ->%list_elem_of_singleton. by apply Hnot.
    + apply Forall_app. split; [|apply Forall_singleton].
      * rewrite Forall_forall in Hi. apply Forall_forall. intros ctx Hctx. destruct (Hi ctx Hctx) as (Hc1 & Hc2 & Hin).
        split_and!; [done|done|]. apply Hothers; [done|]. cbn. rewrite Hn. intros Heq. apply Hnot. rewrite -Heq.
        by apply list_elem_of_fmap_2.
      * split_and!; [done|done|]. cbn. unfold c'. rewrite Hn. apply list_elem_of_lookup. exists i.
        apply list_lookup_insert_eq. by eapply lookup_lt_Some.
  - apply findb_None in Hf. rewrite Forall_forall in Hf. case_decide; [done|].
    assert (Hnew : ∀ d, d ∈ ns_clients ns → cl_username d ≠ fld msg 1).
    { intros d Hd. by apply streq_false, Hf. }
    assert (Hnot : fld msg 1 ∉ map cx_username clients).
    { intros (ctx & Heq & Hctx)%list_elem_of_fmap. rewrite Forall_forall in Hi. destruct (Hi ctx Hctx) as (_ & _ & Hin).
      by apply (Hnew _ Hin). }
    split; cbn.
    + rewrite map_app. apply NoDup_app. split_and!; [done| |apply NoDup_singleton].
      intros x (d & -> & Hd)%list_elem_of_fmap Hx%list_elem_of_singleton. by apply (Hnew d).
    + rewrite map_app. apply NoDup_app. split_and!; [done| |apply NoDup_singleton].
      intros x Hx ->%list_elem_of_singleton. by apply Hnot.
    + apply Forall_app. split; [|apply Forall_singleton].
      * eapply Forall_impl; [exact Hi|]. intros ctx (Hc1 & Hc2 & Hin). split_and!; [done|done|].
        cbn. apply elem_of_app. by left.
      * split_and!; [done|done|]. cbn. apply elem_of_app. right. by apply list_elem_of_singleton.
Qed.

Lemma disconnect_names name l :
  map cl_username (update_firstb (λ c, streq (cl_username c) name) (λ c, mkClient (cl_username c) (-1) false) l) =
  map cl_username l.
Proof. induction l as [|c l IH]; cbn; [done|]. by destruct (streq _ _); cbn; rewrite ?IH. Qed.

Lemma disconnect_others name l d : d ∈ l → cl_username d ≠ name →
  d ∈ update_firstb (λ c, streq (cl_username c) name) (λ c, mkClient (cl_username c) (-1) false) l.
Proof.
  intros Hd Hn. induction l as [|c l IH]; [done|]. cbn. apply elem_of_cons in Hd as [->|Hd].
  - rewrite (proj2 (streq_false _ _) Hn). by left.
  - destruct (streq (cl_username c) name); right; [done|by apply IH].
Qed.

Lemma end_session ns l1 ctx l2 : sessions_wf ns (l1 ++ ctx :: l2) →
  sessions_wf (client_disconnected ns (cx_username ctx)) (l1 ++ l2).
Proof.
  intros [Ht Hu Hi]. rewrite map_app /= in Hu. apply NoDup_app in Hu as (Hu1 & Hd & [Hx Hu2]%NoDup_cons).
  apply Forall_app in Hi as [Hi1 [(Hne & _ & _) Hi2]%Forall_cons].
  unfold client_disconnected. destruct (cx_username ctx) as [|a name] eqn:Hname; [done|]. rewrite -Hname in Hd, Hx |- *.
  split; cbn.
  - by rewrite disconnect_names.
  - rewrite map_app. apply NoDup_app. split_and!; [done| |done]. intros x Hx1 Hx2. apply (Hd x Hx1). by right.
  - assert (Hall : Forall (in_session ns) (l1 ++ l2)) by by apply Forall_app.
    rewrite Forall_forall in Hall. apply Forall_forall. intros c Hc. destruct (Hall c Hc) as (Hc1 & Hc2 & Hin).
    split_and!; [done|done|]. cbn. apply disconnect_others; [done|]. cbn. intros Heq.
    apply elem_of_app in Hc as [Hc|Hc].
    + apply (Hd (cx_username c)); [by apply list_elem_of_fmap_2|rewrite Heq; by left].
    + apply Hx. rewrite -Heq. by apply list_elem_of_fmap_2.
Qed.

(** The tables of the storage servers are not part of the invariant. *)
Lemma hello_ss_frame ns fd msg now : let '(ns', _, _) := hello_ss is_valid_ip ns fd msg now in
  ns' = ns ∨ ∃ servers next, ns' = set_servers (set_next_ss ns next) servers.
Proof.
  unfold hello_ss. case_decide; [by left|]. destruct (negb _ || _ || _ || _); [by left|].
  unfold ns_register_storage_server. case_decide; [by left|]. destruct (existsb _ _); [by left|].
  right. by do 2 eexists.
Qed.

Lemma client_table_wf ns clients : ns_wf ns → ns_wf (set_clients ns clients).
Proof. intros Hwf. apply (wf_frame ns); [done|split; apply (nf_reg _ Hwf)|done|apply Hwf]. Qed.

Lemma hello_ss_wf ns fd msg now : ns_wf ns → let '(ns', _, _) := hello_ss is_valid_ip ns fd msg now in
  ns_wf ns' ∧ ns_clients ns' = ns_clients ns.
Proof.
  intros Hwf. pose proof (hello_ss_frame ns fd msg now) as Hf. destruct (hello_ss is_valid_ip ns fd msg now) as [[ns' out] r].
  destruct Hf as [->|(servers & next & ->)]; [done|]. split; [|done].
  apply (wf_frame ns); [done|split; apply (nf_reg _ Hwf)|done|apply Hwf].
Qed.

Lemma connection_end_frame ns ss fd : ∃ servers, (server_connection_end ns ss fd).1 = set_servers ns servers.
Proof.
  unfold server_connection_end, deregister_storage_server. destruct (findb _ _); by eexists.
Qed.

Lemma net_step_wf net net' : net_step net net' → net_wf net → net_wf net'.
Proof.
  intros Hs [Hwf Hses]. destruct Hs as [net fd msg ns' out Hh|net fd msg ns' out ctx Hh|net ctx w raw now Hctx
    |ns l1 ctx l2 servers|net fd msg now ns' out Hh|net fd msg now ns' out ss Hh|ns clients l1 fd ss l2 msg now ns' out complete Hh
    |net fd ss msg now Hin|ns clients l1 conn l2]; cbn [nt_ns nt_clients] in *.
  - pose proof (hello_session (nt_ns net) fd msg _ Hses) as H1. rewrite Hh in H1. by subst ns'.
  - pose proof (hello_session (nt_ns net) fd msg _ Hses) as H1. pose proof (hello_registry (nt_ns net) fd msg) as H2.
    rewrite Hh in H1 H2. destruct H2 as (clients & ->). split; [by apply client_table_wf|done].
  - unfold client_turn. destruct Hses as [Ht Hu Hi]. pose proof Hi as Hi'. rewrite Forall_forall in Hi'.
    destruct (Hi' ctx Hctx) as (_ & Hl & _). split; [by apply client_wf|].
    apply sessions_same with (nt_ns net); [apply command_sessions|by split].
  - split; [|by apply end_session]. cbn. unfold client_disconnected. case_match; [done|by apply client_table_wf].
  - pose proof (hello_ss_wf (nt_ns net) fd msg now Hwf) as H1. rewrite Hh in H1. destruct H1 as [H1 H2].
    split; [done|by eapply sessions_same].
  - pose proof (hello_ss_wf (nt_ns net) fd msg now Hwf) as H1. rewrite Hh in H1. destruct H1 as [H1 H2].
    split; [by apply server_change_wf|]. by apply sessions_same with (nt_ns net).
  - pose proof (sync_message_wf ns fd ss msg now Hwf) as H1. pose proof (sync_message_sessions ns fd ss msg now) as H2.
    rewrite Hh in H1 H2. split; [done|by eapply sessions_same].
  - split; [by apply ss_message_wf|]. eapply sessions_same; [apply ss_message_sessions|done].
  - destruct (connection_end_frame ns (sc_ss conn) (sc_fd conn)) as [servers' Heq]. split; cbn [nt_ns nt_clients]; rewrite Heq.
    + by apply server_change_wf.
    + by apply sessions_same with ns.
Qed.
End net.

(** ** Properties *)

(** Any number of users, servers and events.  Whatever the interleaving of
    handshakes, commands (with any answers of the storage servers), file lists,
    completions and disconnections, the array, hash index and cache of files
    stay consistent (so that they are one map with at most one file of a name),
    every access list stays free of duplicates and within its bounds, every
    connected client is marked as connected in the session table, and no user
    has two connections. *)
Theorem server_invariant format_time shell is_valid_ip {W} `{Servers W} ns net :
  ns_wf ns → ns_clients ns = [] →
  rtc (net_step format_time shell is_valid_ip) (mkNet ns [] []) net → net_wf net.
Proof.
  intros Hwf Hcl Hs. assert (Hstart : net_wf (mkNet ns [] [])).
  { split; [done|]. split; [rewrite /= Hcl; constructor|constructor|done]. }
  clear Hwf Hcl. remember (mkNet ns [] []) as start eqn:He. clear He.
  induction Hs as [|n1 n2 n3 H12 _ IH]; [done|]. by apply IH, (net_step_wf _ _ _ _ _ H12).
Qed.

(** C2 The commands of a user implement the registry with owners: whatever the
    storage servers answer, one command of a client keeps the invariant and
    changes the registry only by steps of the specification for this user:
    marking a file the user may read as accessed, adding a new name owned by the user
    with empty access lists, and changing the rights of, removing or renaming
    (to a free name) the user's own files; so the names, owners,
    places, sizes and access lists of other users' files are as before.  An
    approval needs that pending requests are addressed to the owners of the files
    they name, which a MOVE may break ([stale_request_grants]). *)
Theorem client_refines_acl format_time shell {W} `{Servers W} (w : W) ns ctx msg now :
  length (cx_username ctx) < MAX_USERNAME_LENGTH → ns_wf ns → (approves msg = true → requests_ok ns) →
  let ns' := (client_command format_time shell w ns ctx msg now).1.2 in
  ns_wf ns' ∧ rtc (acl_step (cx_username ctx)) (registry ns) (registry ns') ∧
  ∀ name f, registry ns !! name = Some f → fm_owner f ≠ cx_username ctx →
    ∃ g, registry ns' !! name = Some g ∧ same_file f g.
Proof.
  intros Hu Hwf Hq ns'. destruct (client_refines format_time shell w ns ctx msg now Hu Hwf Hq) as [Hwf' Hs].
  split_and!; [done|done|]. intros name f Hf Ho. by eapply acl_steps_other.
Qed.

(** *** Witnesses *)

(** A user's commands, one after the other, each with what the storage servers
    answer. *)
Definition run (format_time : Z → cstr) (shell : cstr → option cstr) (ns : NameServer)
    (commands : list (Ctx * list cstr * list cstr)) : NameServer :=
  foldl (λ ns '(ctx, msg, answers), (client_command format_time shell answers ns ctx msg 7).1.2) ns commands.

Definition carol : Ctx := mkCtx 12 ($"carol").

(** bob asks ann for the right to write [docs/a]; ann moves the folder away, and
    carol creates a file of the name. *)
Definition name_taken_over : list (Ctx * list cstr * list cstr) :=
  [(bob, [$"REQUESTACCESS"; $"docs/a"; $"W"], []);
   (ann, [$"MOVE"; $"docs"; $"old"], [line [$"OK"; $"renamed"]]);
   (carol, [$"CREATE"; $"docs/a"], [line [$"OK_CREATE"; $"created"]])].

Definition approval : list (Ctx * list cstr * list cstr) :=
  [(ann, [$"APPROVEACCESS"; $"1"], [line [$"OK_ACCESS_CHANGED"; $"granted"]])].

(** C36 A request outlives its file.  MOVE leaves pending requests under the old
    name; when another user then creates a file of that name, the first owner's
    approval gives the requester write access to the other user's file.  The
    hypothesis of [client_refines_acl] on approvals is therefore needed. *)
Theorem stale_request_grants format_time shell :
  let ns := run format_time shell demo_tree name_taken_over in
  let ns' := run format_time shell ns approval in
  ns_wf ns ∧ (∃ f, registry ns !! $"docs/a" = Some f ∧ fm_owner f = $"carol" ∧ file_has_write_access f ($"bob") = false) ∧
  (∃ g, registry ns' !! $"docs/a" = Some g ∧ file_has_write_access g ($"bob") = true) ∧
  ¬ rtc (acl_step ($"ann")) (registry ns) (registry ns').
Proof.
  intros ns ns'.
  assert (Hwf : ns_wf ns).
  { unfold ns, run, name_taken_over. cbn [foldl]. do 3 (apply client_wf; [vmd|]). apply demo_tree_wf. }
  assert (Hf : ∃ f, registry ns !! $"docs/a" = Some f ∧ fm_owner f = $"carol" ∧ file_has_write_access f ($"bob") = false)
    by (eexists; split; [vm_compute; reflexivity|split; vm_compute; reflexivity]).
  assert (Hg : ∃ g, registry ns' !! $"docs/a" = Some g ∧ file_has_write_access g ($"bob") = true)
    by (eexists; split; vm_compute; reflexivity).
  split_and!; [exact Hwf|exact Hf|exact Hg|]. intros Hs.
  destruct Hf as (f & Hf & Ho & Hno), Hg as (g & Hg & Hyes).
  destruct (acl_steps_other _ _ _ _ f Hs Hf) as (h & Hh & Hsame); [rewrite Ho; vm_compute; discriminate|].
  assert (h = g) as -> by (rewrite Hg in Hh; congruence). destruct Hsame as [_ Howner _ _ _ _ [_ Hacl]].
  unfold file_has_write_access, is_fm_owner in Hno, Hyes. rewrite Howner Hacl in Hyes. congruence.
Qed.

(** ann revokes and grants; bob's file stays as it was. *)
Lemma client_refines_acl_witness :
  let ns' := (client_command (λ _, []) (λ _, None) [line [$"OK_ACCESS_CHANGED"; $"granted"]] demo_tree ann
                [$"ADDACCESS"; $"docs/a"; $"bob"; $"R"] 7).1.2 in
  file_has_read_access (default meta0 (registry ns' !! $"docs/a")) ($"bob") = true ∧
  ∃ g, registry ns' !! $"b" = Some g ∧ same_file (entry ($"b") ($"bob") false) g.
Proof.
  intros ns'. split; [vm_compute; reflexivity|].
  assert (Hu : length (cx_username ann) < MAX_USERNAME_LENGTH) by vmd.
  destruct (client_refines_acl (λ _, []) (λ _, None) [line [$"OK_ACCESS_CHANGED"; $"granted"]] demo_tree ann
    [$"ADDACCESS"; $"docs/a"; $"bob"; $"R"] 7 Hu demo_tree_wf) as (_ & _ & H); [vm_compute; discriminate|].
  apply (H ($"b")); [vm_compute; reflexivity|vm_compute; discriminate].
Defined.

(** A client arrives, and creates a folder. *)
Lemma server_invariant_witness :
  let ns1 := (hello_client demo_tree 10 [$"HELLO"; $"ann"]).1.1 in
  let ns2 := (client_turn (λ _, []) (λ _, None) [] ns1 ann ($"CREATEFOLDER|new") 7).1.2 in
  net_wf (mkNet ns2 [ann] []).
Proof.
  intros ns1 ns2.
  assert (Hin : hello_client demo_tree 10 [$"HELLO"; $"ann"] =
                (ns1, (hello_client demo_tree 10 [$"HELLO"; $"ann"]).1.2, Some ann)) by (vm_compute; reflexivity).
  assert (Hnone : ns_clients demo_tree = []) by (vm_compute; reflexivity). clearbody ns1.
  apply (server_invariant (λ _, []) (λ _, None) (λ _, true) (W := list cstr) demo_tree _ demo_tree_wf Hnone).
  apply rtc_l with (mkNet ns1 [ann] []).
  - exact (nt_client_in (λ _, []) (λ _, None) (λ _, true) (mkNet demo_tree [] []) 10 [$"HELLO"; $"ann"] ns1 _ ann Hin).
  - apply rtc_once.
    apply (nt_client_turn (λ _, []) (λ _, None) (λ _, true) (mkNet ns1 [ann] []) ann [] ($"CREATEFOLDER|new") 7).
    by apply list_elem_of_singleton.
Defined.
