(* ===== verification/NSStart.v ===== *)
(** * The name server, from its start to its connections

    [main], [ns_start], [connection_thread] and [ns_cleanup] of
    [src/name_server/name_server.c].  The accept loop gives every connection a
    thread of its own; here the threads are the map [rn_conns] from the
    descriptor of a connection to what its thread is doing, and what the
    operating system and the other programs do is a list of events.  A turn of a
    thread is one event: [NSComm] has the steps inside of a request. *)
From S2P Require Import Prelude CStr Utils Protocol Disk NSMeta NSState NSPersist NSPeer NSServe.

(** ** Connections *)

(** What [connection_thread] has in its context after the handshake:
    [is_client] and [username], or [is_storage_server] and [ss_info]; [synced]
    tells the second loop of [run_ss_loop] from the first. *)
Inductive Connection :=
  | Greeting
  | OfClient (ctx : Ctx)
  | OfServer (ss : StorageServerInfo) (synced : bool).

Record Running := mkRunning {
  rn_ns : NameServer;
  rn_conns : gmap Z Connection
}.

(** [accept] returned a connection, for which a thread could be started or not;
    a message arrives on a connection, with the answers of the storage servers
    that its command asks; a connection ends. *)
Inductive Event (W : Type) :=
  | Accepted (conn_fd : Z) (started : bool)
  | Arrived (conn_fd : Z) (raw : cstr) (w : W) (now : Z)
  | Ended (conn_fd : Z).
Arguments Accepted {W} conn_fd started.
Arguments Arrived {W} conn_fd raw w now.
Arguments Ended {W} conn_fd.

Section connections.
Context (format_time : Z → cstr) (shell : cstr → option cstr) (is_valid_ip : cstr → bool).
Context {W : Type} `{Servers W}.

(** The first message of a connection; [None]: the connection is closed. *)
Definition handshake (ns : NameServer) (conn_fd : Z) (msg : list cstr) (now : Z)
  : NameServer * Outbox * option Connection :=
  if streq (fld msg 0) ($"HELLO_CLIENT") then
    let '(ns, out, session) := hello_client ns conn_fd msg in (ns, out, OfClient <$> session)
  else if streq (fld msg 0) ($"HELLO_SS") then
    match hello_ss is_valid_ip ns conn_fd msg now with
    | (ns, out, Some ss) => (sync_start ns ss, out, Some (OfServer ss false))
    | (ns, out, None) => (ns, out, None)
    end
  else (ns, send_error_and_log conn_fd ERR_INVALID_REQUEST ($"Unknown command."), None).

(** A message on a connection. *)
Definition connection_turn (ns : NameServer) (conn_fd : Z) (conn : Connection) (raw : cstr) (w : W) (now : Z)
  : NameServer * Outbox * option Connection :=
  match conn with
  | Greeting => handshake ns conn_fd (protocol_parse_message raw) now
  | OfClient ctx =>
      let '(_, ns, out) := client_turn format_time shell w ns ctx raw now in (ns, out, Some conn)
  | OfServer ss false =>
      let '(ns, out, complete) := sync_message ns conn_fd ss (protocol_parse_message raw) now in
      (ns, out, Some (OfServer ss complete))
  | OfServer ss true => (ss_message ns ss (protocol_parse_message raw) now, [], Some conn)
  end.

(** What a thread does when its connection is lost. *)
Definition connection_end (ns : NameServer) (conn_fd : Z) (conn : Connection) : NameServer :=
  match conn with
  | Greeting => ns
  | OfClient ctx => client_disconnected ns (cx_username ctx)
  | OfServer ss _ => (server_connection_end ns ss conn_fd).1
  end.

(** A descriptor in use is not given to another connection. *)
Definition accept_connection (rn : Running) (conn_fd : Z) (started : bool) : Running :=
  if (conn_fd <? 0)%Z || bool_decide (is_Some (rn_conns rn !! conn_fd)) || negb started then rn
  else mkRunning (rn_ns rn) (<[conn_fd := Greeting]> (rn_conns rn)).

Definition serve_event (rn : Running) (e : Event W) : Running * Outbox :=
  match e with
  | Accepted conn_fd started => (accept_connection rn conn_fd started, [])
  | Arrived conn_fd raw w now =>
      match rn_conns rn !! conn_fd with
      | None => (rn, [])
      | Some conn =>
          let '(ns, out, conn) := connection_turn (rn_ns rn) conn_fd conn raw w now in
          (mkRunning ns (partial_alter (λ _, conn) conn_fd (rn_conns rn)), out)
      end
  | Ended conn_fd =>
      match rn_conns rn !! conn_fd with
      | None => (rn, [])
      | Some conn => (mkRunning (connection_end (rn_ns rn) conn_fd conn) (delete conn_fd (rn_conns rn)), [])
      end
  end.

Definition serve (rn : Running) (events : list (Event W)) : Running :=
  foldl (λ rn e, (serve_event rn e).1) rn events.
End connections.

(** ** The program *)

(** The accept loop never ends: the program serves, or exits with a status. *)
Inductive Course := Exits (status : Z) | Serves (rn : Running).

(** [listens]: [socket], [bind] and [listen] succeed; [None] is the result -1. *)
Definition ns_start (ns : NameServer) (listens : bool) : option Running :=
  if listens then Some (mkRunning ns ∅) else None.

Definition main (d : Disk) (argv : list cstr) (listens : bool) : Course :=
  match argv with
  | [_; arg] =>
      let port := atoi arg in
      if negb (is_valid_port port) then Exits 1
      else match ns_start (ns_init port d) listens with
           | None => Exits 1
           | Some rn => Serves rn
           end
  | _ => Exits 1
  end.

(** The descriptors [ns_cleanup] closes, and the state it leaves; the counts of
    servers and clients are not reset. *)
Definition ns_cleanup (ns : NameServer) : NameServer * list Z :=
  (set_index (set_servers ns []) (replicate FILE_INDEX_SIZE []),
   filter (λ fd, 0 <= fd)%Z (map cl_sockfd (ns_clients ns) ++ map si_sockfd (ns_servers ns))).
