(* ===== verification/NSConnections.v ===== *)
(** * The tables of the name server tell which connections are open

    From the start of the program on, and whatever arrives on its connections in
    whatever order, a client is marked as connected if and only if a connection
    of its user is open, on the descriptor that is recorded, and the live storage
    servers are exactly those whose connection is open. *)
From S2P Require Import Prelude CStr Utils Protocol Disk NSMeta NSState NSIndex NSPersist NSPeer NSServe NSSessions NSSpec NSRefine NSCommands NSWires NSLost NSDemo NSStart.

Record conns_ok (rn : Running) : Prop := {
  co_fds : ∀ fd conn, rn_conns rn !! fd = Some conn → (0 <= fd)%Z;
  co_names : NoDup (map cl_username (ns_clients (rn_ns rn)));
  co_client : ∀ fd ctx, rn_conns rn !! fd = Some (OfClient ctx) →
    cx_fd ctx = fd ∧ cx_username ctx ≠ [] ∧ length (cx_username ctx) < MAX_USERNAME_LENGTH ∧
    mkClient (cx_username ctx) fd true ∈ ns_clients (rn_ns rn);
  co_session : ∀ user fd, mkClient user fd true ∈ ns_clients (rn_ns rn) →
    rn_conns rn !! fd = Some (OfClient (mkCtx fd user));
  co_ids : ids_distinct (rn_ns rn) ∧ Forall (λ x, x.1.1 < (wires (rn_ns rn)).2) (wires (rn_ns rn)).1;
  co_server : ∀ fd ss b, rn_conns rn !! fd = Some (OfServer ss b) → (si_id ss, fd, true) ∈ (wires (rn_ns rn)).1;
  co_wire : ∀ id fd, (id, fd, true) ∈ (wires (rn_ns rn)).1 → ∃ ss b, rn_conns rn !! fd = Some (OfServer ss b) ∧ si_id ss = id;
  co_lost : ∀ id fd, (id, fd, false) ∈ (wires (rn_ns rn)).1 → fd = (-1)%Z
}.

(** ** The table of clients *)

(** A handshake enters the user, who was not connected, with the descriptor. *)
Lemma register_client_spec ns user fd ns' :
  NoDup (map cl_username (ns_clients ns)) → length user < MAX_USERNAME_LENGTH →
  ns_register_client ns user fd = (ns', true) →
  ∃ clients, ns' = set_clients ns clients ∧ NoDup (map cl_username clients) ∧
    (∀ fd, mkClient user fd true ∉ ns_clients ns) ∧
    ∀ c, c ∈ clients ↔ c = mkClient user fd true ∨ (c ∈ ns_clients ns ∧ cl_username c ≠ user).
Proof.
  intros Hnd Hl. unfold ns_register_client. rewrite fit_short //.
  destruct (findb (λ c, streq (cl_username c) user) (ns_clients ns)) as [i|] eqn:Hf.
  - apply findb_lookup in Hf as (c & Hc & Hn%streq_true). rewrite Hc. destruct (cl_is_connected c) eqn:Hconn; [done|].
    intros [= <-]. eexists. split; [done|]. split; [|split].
    + change (NoDup (cl_username <$> <[i := mkClient (cl_username c) fd true]> (ns_clients ns))).
      rewrite list_fmap_insert list_insert_id; [|done]. by rewrite list_lookup_fmap Hc.
    + intros fd' Hin. assert (mkClient user fd' true = c) as <-; [|done].
      eapply table_unique; [done|exact Hc|done|done].
    + intros d. rewrite Hn. split.
      * intros [j Hj]%list_elem_of_lookup. apply list_lookup_insert_Some in Hj as [(<- & <- & _)|[Hne Hj]]; [by left|].
        right. split; [by eapply list_elem_of_lookup_2|]. intros Hd. apply Hne.
        eapply (NoDup_lookup _ _ _ user Hnd); rewrite list_lookup_fmap; [by rewrite Hc /= Hn|by rewrite Hj /= Hd].
      * intros [->|[[j Hj]%list_elem_of_lookup Hd]]; apply list_elem_of_lookup.
        -- exists i. apply list_lookup_insert_eq. by eapply lookup_lt_Some.
        -- exists j. rewrite list_lookup_insert_ne; [|done]. intros <-. congruence.
  - apply findb_None in Hf. rewrite Forall_forall in Hf. case_decide; [done|]. intros [= <-].
    assert (Hnew : ∀ d, d ∈ ns_clients ns → cl_username d ≠ user) by (intros d Hd; by apply streq_false, Hf).
    eexists. split; [done|]. split; [|split].
    + rewrite map_app. apply NoDup_app. split_and!; [done| |apply NoDup_singleton].
      intros x (d & -> & Hd)%list_elem_of_fmap Hx%list_elem_of_singleton. by apply (Hnew d).
    + intros fd' Hin. by apply (Hnew _ Hin).
    + intros d. rewrite elem_of_app list_elem_of_singleton. split; [intros [Hd| ->]; [right|by left]|intros [->|[? _]]; auto].
      split; [done|by apply Hnew].
Qed.

(** A user of a free table who is not connected can register. *)
Lemma register_client_free ns user fd :
  NoDup (map cl_username (ns_clients ns)) → (∀ fd', mkClient user fd' true ∉ ns_clients ns) →
  length (ns_clients ns) < NS_MAX_CLIENTS → (ns_register_client ns user fd).2 = true.
Proof.
  intros Hnd Hno Hl. unfold ns_register_client.
  destruct (findb (λ c, streq (cl_username c) user) (ns_clients ns)) as [i|] eqn:Hf; [|by case_decide; [lia|]].
  apply findb_lookup in Hf as (c & Hc & Hn%streq_true). rewrite Hc. destruct (cl_is_connected c) eqn:Hconn; [|done].
  exfalso. apply (Hno (cl_sockfd c)). apply list_elem_of_lookup. exists i. rewrite Hc. f_equal. destruct c. cbn in *. by subst.
Qed.

(** The end of a session keeps its entry, not connected. *)
Lemma disconnect_elem name l c :
  NoDup (map cl_username l) → name ∈ map cl_username l →
  c ∈ update_firstb (λ c, streq (cl_username c) name) (λ c, mkClient (cl_username c) (-1) false) l ↔
  c = mkClient name (-1) false ∨ (c ∈ l ∧ cl_username c ≠ name).
Proof.
  induction l as [|d l IH]; cbn [map update_firstb]; [set_solver|]. intros [Hd Hnd]%NoDup_cons Hin.
  destruct (streq (cl_username d) name) eqn:Hs.
  - apply streq_true in Hs as Hs'. rewrite Hs' !elem_of_cons. split.
    + intros [->|Hc]; [by left|]. right. split; [by right|]. intros Heq. apply Hd. rewrite Hs' -Heq. by apply (list_elem_of_fmap_2 cl_username).
    + intros [->|[[->|Hc] Hne]]; [by left|done|by right].
  - apply streq_false in Hs. apply elem_of_cons in Hin as [Hin|Hin]; [congruence|]. rewrite !elem_of_cons IH //.
    split; [intros [->|[->|[? ?]]]; auto|intros [->|[[->|?] ?]]; auto].
Qed.

(** ** Each event *)

Section events.
Context (format_time : Z → cstr) (shell : cstr → option cstr) (is_valid_ip : cstr → bool).
Context {W : Type} `{Servers W}.

(** What changes neither table. *)
Lemma conns_same ns ns' conns :
  ns_clients ns' = ns_clients ns → wires ns' = wires ns → conns_ok (mkRunning ns conns) → conns_ok (mkRunning ns' conns).
Proof.
  intros Hc Hw []. split; cbn [rn_ns rn_conns] in *; rewrite ?Hc ?Hw; auto. split; [|apply co_ids0]. by eapply wires_distinct, co_ids0.
Qed.

(** The thread of a storage server goes on to its second loop. *)
Lemma conns_synced ns conns fd ss b b' :
  conns !! fd = Some (OfServer ss b) → conns_ok (mkRunning ns conns) → conns_ok (mkRunning ns (<[fd := OfServer ss b']> conns)).
Proof.
  intros Hfd []. split; cbn [rn_ns rn_conns] in *; try done.
  - intros fd' conn. rewrite lookup_insert_Some. intros [[<- _]|[_ Hc]]; eauto.
  - intros fd' ctx. rewrite lookup_insert_Some. intros [[_ [=]]|[_ Hc]]. by apply co_client0.
  - intros user fd' Hin. apply co_session0 in Hin. rewrite lookup_insert_ne; [|done]. intros ->. congruence.
  - intros fd' ss' b''. rewrite lookup_insert_Some. intros [[<- [= <- _]]|[_ Hc]]; eauto.
  - intros id fd' (ss' & b'' & Hc & Hid)%co_wire0. destruct (decide (fd = fd')) as [->|Hne].
    + rewrite lookup_insert_eq. simplify_eq. eauto.
    + rewrite lookup_insert_ne //. eauto.
Qed.

(** A connection that is in neither table is dropped, or made. *)
Lemma conns_drop ns conns fd : conns !! fd = Some Greeting → conns_ok (mkRunning ns conns) → conns_ok (mkRunning ns (delete fd conns)).
Proof.
  intros Hfd []. split; cbn [rn_ns rn_conns] in *; try done.
  - intros fd' conn [_ Hc]%lookup_delete_Some. eauto.
  - intros fd' ctx [_ Hc]%lookup_delete_Some. by apply co_client0.
  - intros user fd' Hin. apply co_session0 in Hin. rewrite lookup_delete_ne; [|done]. intros ->. congruence.
  - intros fd' ss' b'' [_ Hc]%lookup_delete_Some. eauto.
  - intros id fd' (ss' & b'' & Hc & Hid)%co_wire0. exists ss', b''. rewrite lookup_delete_ne; [|done]. intros ->. congruence.
Qed.

Lemma conns_accept rn fd started : conns_ok rn → conns_ok (accept_connection rn fd started).
Proof.
  intros Hok. unfold accept_connection. destruct (_ || _) eqn:Hb; [done|].
  apply orb_false_iff in Hb as [[Hfd Hno]%orb_false_iff _]. apply Z.ltb_ge in Hfd. apply bool_decide_eq_false in Hno.
  destruct Hok. split; cbn [rn_ns rn_conns]; try done.
  - intros fd' conn. rewrite lookup_insert_Some. intros [[<- _]|[_ Hc]]; eauto.
  - intros fd' ctx. rewrite lookup_insert_Some. intros [[_ [=]]|[_ Hc]]. by apply co_client0.
  - intros user fd' Hin. apply co_session0 in Hin. rewrite lookup_insert_ne; [|done]. intros ->. by apply Hno.
  - intros fd' ss' b''. rewrite lookup_insert_Some. intros [[_ [=]]|[_ Hc]]. eauto.
  - intros id fd' (ss' & b'' & Hc & Hid)%co_wire0. exists ss', b''. rewrite lookup_insert_ne; [|done]. intros ->. by apply Hno.
Qed.

(** *** Handshakes *)

Lemma conns_client ns conns fd msg ns' out ctx :
  conns !! fd = Some Greeting → conns_ok (mkRunning ns conns) → hello_client ns fd msg = (ns', out, Some ctx) →
  conns_ok (mkRunning ns' (<[fd := OfClient ctx]> conns)).
Proof.
  intros Hfd [] Hh. cbn [rn_ns rn_conns] in *. unfold hello_client in Hh. case_decide; [done|].
  destruct (negb (validate_username (fld msg 1))) eqn:Hv; [done|]. apply negb_false_iff in Hv.
  pose proof (username_length _ Hv) as Hl. assert (Hne : fld msg 1 ≠ []) by (intros Heq; by rewrite Heq in Hv).
  destruct (ns_register_client ns (fld msg 1) fd) as [ns1 []] eqn:Hr; [|done]. injection Hh as <- <- <-. rewrite fit_short //.
  destruct (register_client_spec _ _ _ _ co_names0 Hl Hr) as (clients & -> & Hnd & Hno & Hin).
  split; cbn [rn_ns rn_conns set_clients ns_clients]; try done.
  - intros fd' conn. rewrite lookup_insert_Some. intros [[<- _]|[_ Hc]]; eauto.
  - intros fd' ctx. rewrite lookup_insert_Some. intros [[<- [= <-]]|[Hne' Hc]]; cbn.
    + split_and!; [done..|]. apply Hin. by left.
    + apply co_client0 in Hc as (H1 & H2 & H3 & H4). split_and!; [done..|]. apply Hin. right. split; [done|].
      intros Heq. cbn in Heq. apply (Hno fd'). by rewrite -Heq.
  - intros user fd' [[= -> ->]|[Hc Hu]]%Hin; [by rewrite lookup_insert_eq|]. rewrite lookup_insert_ne; [|by apply co_session0].
    intros <-. apply co_session0 in Hc. congruence.
  - intros fd' ss' b''. rewrite lookup_insert_Some. intros [[_ [=]]|[_ Hc]]. eauto.
  - intros id fd' (ss' & b'' & Hc & Hid)%co_wire0. exists ss', b''. rewrite lookup_insert_ne; [|done]. intros ->. congruence.
Qed.

(** What a handshake that fails leaves. *)
Lemma refused_client ns fd msg ns' out : hello_client ns fd msg = (ns', out, None) → ns' = ns.
Proof.
  unfold hello_client. case_decide; [by intros [= <- _]|]. case_match; [by intros [= <- _]|]. unfold ns_register_client.
  intros Hh. by repeat case_match; simplify_eq.
Qed.

(** The entry of a storage server that has just registered. *)
Lemma hello_ss_entry ns fd msg now :
  (∀ id b, (id, fd, b) ∉ (wires ns).1) →
  match hello_ss is_valid_ip ns fd msg now with
  | (ns', _, None) => ns' = ns
  | (ns', _, Some ss) => ns_clients ns' = ns_clients ns ∧ si_id ss = ns_next_ss ns ∧
      wires ns' = ((wires ns).1 ++ [(ns_next_ss ns, fd, true)], S (ns_next_ss ns))
  end.
Proof.
  intros Hnew. unfold hello_ss. case_decide; [done|]. destruct (negb _ || _ || _ || _); [done|].
  unfold ns_register_storage_server. case_decide; [done|]. destruct (existsb _ _); [done|]. set (ss := mkInfo _ _ _ _ _ _ _ _ _ _). unfold find_storage_server_by_sockfd.
  cbn [set_servers ns_servers]. rewrite NSLost.firstb_snoc; [|by apply Z.eqb_refl|].
  - apply Forall_forall. intros s Hs. apply Z.eqb_neq. intros Heq. apply (Hnew (si_id s) (si_is_alive s)).
    change (wires ns).1 with (map wire (ns_servers ns)). rewrite -Heq. by apply (list_elem_of_fmap_2 wire).
  - split_and!; [done..|]. unfold wires. cbn. by rewrite map_app.
Qed.

Lemma conns_server ns conns fd msg now ns' out ss :
  conns !! fd = Some Greeting → conns_ok (mkRunning ns conns) → hello_ss is_valid_ip ns fd msg now = (ns', out, Some ss) →
  conns_ok (mkRunning (sync_start ns' ss) (<[fd := OfServer ss false]> conns)).
Proof.
  intros Hfd Hok Hh. pose proof Hok as []. cbn [rn_ns rn_conns] in *. destruct co_ids0 as [Hnd Hlt].
  assert (Hnew : ∀ id b, (id, fd, b) ∉ (wires ns).1).
  { intros id [] Hin; [apply co_wire0 in Hin as (ss' & b & Hc & _); congruence|]. apply co_lost0 in Hin. apply co_fds0 in Hfd. lia. }
  pose proof (hello_ss_entry ns fd msg now Hnew) as He. rewrite Hh in He. destruct He as (Hcl & Hid & Hw).
  assert (Hfresh : Forall (λ s, si_id s ≠ ns_next_ss ns) (ns_servers ns)).
  { rewrite Forall_map in Hlt. eapply Forall_impl; [exact Hlt|]. cbn. lia. }
  assert (Hdist : ids_distinct ns').
  { injection Hw as Hw _. unfold ids_distinct.
    assert (Hm : map si_id (ns_servers ns') = map si_id (ns_servers ns) ++ [ns_next_ss ns]).
    { transitivity (map (λ x, x.1.1) (map wire (ns_servers ns'))); [by rewrite map_map|]. rewrite Hw map_app map_map. done. }
    rewrite Hm. apply NoDup_app. split_and!; [done| |apply NoDup_singleton].
    intros x (s & -> & Hs)%list_elem_of_fmap Hx%list_elem_of_singleton. rewrite Forall_forall in Hfresh. by apply (Hfresh s). }
  split; cbn [rn_ns rn_conns]; change (ns_clients (sync_start ns' ss)) with (ns_clients ns'); rewrite ?Hcl ?(sync_start_wires ns' ss Hdist) ?Hw;
    cbn [fst snd]; try done.
  - intros fd' conn. rewrite lookup_insert_Some. intros [[<- _]|[_ Hc]]; eauto.
  - intros fd' ctx. rewrite lookup_insert_Some. intros [[_ [=]]|[_ Hc]]. by apply co_client0.
  - intros user fd' Hin. apply co_session0 in Hin. rewrite lookup_insert_ne; [|done]. intros ->. congruence.
  - split; [by eapply wires_distinct; [apply sync_start_wires|]|]. apply Forall_app. split; [|apply Forall_singleton; cbn; lia].
    eapply Forall_impl; [exact Hlt|]. cbn. lia.
  - intros fd' ss' b. rewrite lookup_insert_Some elem_of_app. intros [[<- [= <- _]]|[_ Hc]]; [right|left; eauto].
    rewrite Hid. by apply list_elem_of_singleton.
  - intros id fd'. rewrite elem_of_app list_elem_of_singleton. intros [Hin|[= -> ->]].
    + apply co_wire0 in Hin as (ss' & b & Hc & Hi). exists ss', b. rewrite lookup_insert_ne; [|done]. intros ->. congruence.
    + rewrite lookup_insert_eq. eauto.
  - intros id fd'. rewrite elem_of_app list_elem_of_singleton. intros [Hin|[=]]. eauto.
Qed.

(** *** Ends *)

Lemma conns_client_end ns conns fd ctx :
  conns !! fd = Some (OfClient ctx) → conns_ok (mkRunning ns conns) →
  conns_ok (mkRunning (client_disconnected ns (cx_username ctx)) (delete fd conns)).
Proof.
  intros Hfd []. cbn [rn_ns rn_conns] in *. destruct (co_client0 _ _ Hfd) as (Hcfd & Hne & Hl & Hin).
  set (name := cx_username ctx) in *.
  assert (Hn : name ∈ map cl_username (ns_clients ns)).
  { change name with (cl_username (mkClient name fd true)). by apply (list_elem_of_fmap_2 cl_username). }
  assert (Heq : client_disconnected ns name = set_clients ns (update_firstb (λ c, streq (cl_username c) name)
      (λ c, mkClient (cl_username c) (-1) false) (ns_clients ns))) by (unfold client_disconnected; by destruct name).
  rewrite Heq. split; cbn [rn_ns rn_conns set_clients ns_clients]; try done.
  - intros fd' conn [_ Hc]%lookup_delete_Some. eauto.
  - by rewrite disconnect_names.
  - intros fd' ctx' [Hne' Hc]%lookup_delete_Some. pose proof (co_client0 _ _ Hc) as (H1 & H2 & H3 & H4). split_and!; [done..|].
    apply disconnect_elem; [done|done|]. right. split; [done|]. cbn. intros Hu. apply Hne'.
    assert (mkClient (cx_username ctx') fd' true = mkClient name fd true) as [= _ <-]; [|done].
    by eapply (NoDup_key_inj cl_username).
  - intros user fd' [[=]|[Hc Hu]]%disconnect_elem; [|done|done]. rewrite lookup_delete_ne; [|by apply co_session0].
    intros <-. apply co_session0 in Hc. rewrite Hfd in Hc. injection Hc as Hc. apply Hu. unfold name. by rewrite Hc.
  - intros fd' ss' b [_ Hc]%lookup_delete_Some. eauto.
  - intros id fd' (ss' & b & Hc & Hid)%co_wire0. exists ss', b. rewrite lookup_delete_ne; [|done]. intros ->. congruence.
Qed.

(** The wires once the entry has lost its connection. *)
Lemma lost_wires ns ss id fd :
  ids_distinct ns → si_id ss = id → (id, fd, true) ∈ (wires ns).1 →
  (wires (server_lost ns ss)).2 = (wires ns).2 ∧ ids_distinct (server_lost ns ss) ∧
  ∀ x, x ∈ (wires (server_lost ns ss)).1 ↔ x = (id, (-1)%Z, false) ∨ (x ∈ (wires ns).1 ∧ x.1.1 ≠ id).
Proof.
  intros Hids Hid Hin. change (wires ns).1 with (map wire (ns_servers ns)) in *.
  apply list_elem_of_fmap in Hin as (s & Hs & Hin). injection Hs as Hsid Hsfd Hal.
  assert (Hnow : si_id (server_now ns ss) = id).
  { unfold server_now. destruct (firstb _ _) as [s'|] eqn:Hf; [|done]. apply firstb_elem in Hf as [_ Hf%bool_decide_eq_true].
    cbn. congruence. }
  split; [done|]. split.
  - unfold ids_distinct, server_lost. cbn. rewrite map_map. unfold ids_distinct in Hids.
    assert (map (λ x, si_id (if decide (si_id x = si_id (server_now ns ss)) then si_lost (server_now ns ss) else x)) (ns_servers ns) =
            map si_id (ns_servers ns)) as ->; [|done].
    apply map_ext. intros x. case_decide as Hx; [|done]. by rewrite Hx.
  - intros x. unfold server_lost. cbn. rewrite map_map. split.
    + intros (y & -> & Hy)%list_elem_of_fmap. case_decide as Hyid; [left|right].
      * unfold wire. cbn. by rewrite Hnow.
      * split; [by apply (list_elem_of_fmap_2 wire)|]. cbn. congruence.
    + intros [->|[(y & -> & Hy)%list_elem_of_fmap Hne]]; apply list_elem_of_fmap.
      * exists s. split; [|done]. rewrite decide_True; [congruence|]. unfold wire. cbn. by rewrite Hnow.
      * exists y. split; [|done]. rewrite decide_False; [cbn in Hne; congruence|done].
Qed.

Lemma conns_server_end ns conns fd ss b :
  conns !! fd = Some (OfServer ss b) → conns_ok (mkRunning ns conns) →
  conns_ok (mkRunning (server_connection_end ns ss fd).1 (delete fd conns)).
Proof.
  intros Hfd []. cbn [rn_ns rn_conns] in *. pose proof (co_server0 _ _ _ Hfd) as Hin. destruct co_ids0 as [Hids Hlt].
  destruct (lost_wires ns ss (si_id ss) fd Hids eq_refl Hin) as (Hnext & Hids' & Hx).
  assert (Hother : ∀ id fd' b', (id, fd', b') ∈ (wires ns).1 → id ≠ si_id ss → fd' ≠ fd).
  { intros id fd' [] Hi Hne ->; [|apply co_lost0 in Hi; apply co_fds0 in Hfd; lia].
    apply co_wire0 in Hi as (ss' & b'' & Hc & Hid). congruence. }
  assert (Hend : (server_connection_end ns ss fd).1 = server_lost ns ss).
  { unfold server_connection_end, deregister_storage_server. destruct (findb _ _) as [i|] eqn:Hf; [|done].
    apply findb_lookup in Hf as (s & Hs & Hsfd%Z.eqb_eq). apply list_elem_of_lookup_2, (list_elem_of_fmap_2 wire) in Hs.
    apply Hx in Hs as [Heq|[Hs Hne]]; exfalso.
    - injection Heq as _ Hlost _. apply co_fds0 in Hfd. lia.
    - by apply (Hother _ _ _ Hs Hne). }
  rewrite Hend. split; cbn [rn_ns rn_conns]; change (ns_clients (server_lost ns ss)) with (ns_clients ns); try done.
  - intros fd' conn [_ Hc]%lookup_delete_Some. eauto.
  - intros fd' ctx [_ Hc]%lookup_delete_Some. by apply co_client0.
  - intros user fd' Hc. apply co_session0 in Hc. rewrite lookup_delete_ne; [|done]. intros ->. congruence.
  - split; [done|]. rewrite Hnext. apply Forall_forall. intros x [->|[Hx' _]]%Hx; rewrite Forall_forall in Hlt; [|by apply Hlt].
    by apply (Hlt _ Hin).
  - intros fd' ss' b' [Hne Hc]%lookup_delete_Some. apply Hx. right. split; [by eapply co_server0|]. cbn. intros Hid.
    pose proof (co_server0 _ _ _ Hc) as Hin'. rewrite Hid in Hin'. apply Hne.
    change (wires ns).1 with (map wire (ns_servers ns)) in *.
    apply list_elem_of_fmap in Hin as (s & Hs & Hi), Hin' as (s' & Hs' & Hi').
    injection Hs as Hs1 Hs2 _. injection Hs' as Hs1' Hs2' _.
    assert (s = s') as <-; [|congruence]. eapply (NoDup_key_inj si_id); [exact Hids|done|done|]. congruence.
  - intros id fd' [[=]|[Hi Hne]]%Hx. pose proof (co_wire0 _ _ Hi) as (ss' & b' & Hc & Hid). exists ss', b'.
    rewrite lookup_delete_ne; [|done]. intros ->. by apply (Hother _ _ _ Hi Hne).
  - intros id fd' [[= -> ->]|[Hi _]]%Hx; [done|eauto].
Qed.

(** *** The whole loop *)

Lemma same_conn (conns : gmap Z Connection) fd conn : conns !! fd = Some conn → partial_alter (λ _, Some conn) fd conns = conns.
Proof. intros Hc. change (<[fd := conn]> conns = conns). by apply insert_id. Qed.

Lemma turn_ok rn fd conn raw w now :
  conns_ok rn → rn_conns rn !! fd = Some conn →
  let '(ns, _, conn') := connection_turn format_time shell is_valid_ip (rn_ns rn) fd conn raw w now in
  conns_ok (mkRunning ns (partial_alter (λ _, conn') fd (rn_conns rn))).
Proof.
  destruct rn as [ns conns]. cbn [rn_ns rn_conns]. intros Hok Hfd. destruct conn as [|ctx|ss []]; cbn [connection_turn].
  - unfold handshake. destruct (streq _ ($"HELLO_CLIENT")).
    + destruct (hello_client ns fd _) as [[ns' out] [ctx|]] eqn:Hh; cbn [fmap option_fmap option_map].
      * by eapply conns_client.
      * apply refused_client in Hh as ->. by apply conns_drop.
    + destruct (streq _ _); [|by apply conns_drop]. destruct (hello_ss is_valid_ip ns fd _ now) as [[ns' out] [ss|]] eqn:Hh.
      * by eapply conns_server.
      * pose proof (hello_ss_entry ns fd (protocol_parse_message raw) now) as He. rewrite Hh in He. rewrite He; [|by apply conns_drop].
        intros id b Hin. pose proof Hok as []. cbn in *. destruct b.
        -- apply co_wire0 in Hin as (ss & b & Hc & _). congruence.
        -- apply co_lost0 in Hin. apply co_fds0 in Hfd. lia.
  - unfold client_turn. pose proof (command_sessions format_time shell w ns ctx (protocol_parse_message raw) now) as H1.
    pose proof (command_wires format_time shell w ns ctx (protocol_parse_message raw) now) as H2.
    destruct (client_command _ _ _ _ _ _ _) as [[w' ns'] out]. rewrite same_conn //. by apply (conns_same ns).
  - rewrite same_conn //. apply (conns_same ns); [apply ss_message_sessions|apply ss_message_wires, (co_ids _ Hok)|done].
  - pose proof (sync_message_sessions ns fd ss (protocol_parse_message raw) now) as H1.
    pose proof (sync_message_wires ns fd ss (protocol_parse_message raw) now (proj1 (co_ids _ Hok))) as H2.
    destruct (sync_message _ _ _ _ _) as [[ns' out] complete]. apply (conns_same ns); [done|done|]. by apply (conns_synced _ _ _ _ false).
Qed.

Lemma event_ok rn e : conns_ok rn → conns_ok (serve_event format_time shell is_valid_ip rn e).1.
Proof.
  intros Hok. destruct e as [fd started|fd raw w now|fd]; cbn [serve_event].
  - by apply conns_accept.
  - destruct (rn_conns rn !! fd) as [conn|] eqn:Hfd; [|done]. pose proof (turn_ok rn fd conn raw w now Hok Hfd) as Ht.
    by destruct (connection_turn _ _ _ _ _ _ _ _ _) as [[ns out] conn'].
  - destruct (rn_conns rn !! fd) as [conn|] eqn:Hfd; [|done]. destruct rn as [ns conns]. destruct conn as [|ctx|ss b]; cbn.
    + by apply conns_drop.
    + by apply conns_client_end.
    + by eapply conns_server_end.
Qed.

Lemma serve_ok rn events : conns_ok rn → conns_ok (serve format_time shell is_valid_ip rn events).
Proof. unfold serve. revert rn. induction events as [|e events IH]; intros rn Hok; [done|]. by apply IH, event_ok. Qed.

(** The registry stays consistent as well. *)
Lemma event_wf rn e :
  conns_ok rn → ns_wf (rn_ns rn) → ns_wf (rn_ns (serve_event format_time shell is_valid_ip rn e).1).
Proof.
  intros Hok Hwf. destruct e as [fd started|fd raw w now|fd]; cbn [serve_event].
  - unfold accept_connection. by case_match.
  - destruct (rn_conns rn !! fd) as [conn|] eqn:Hfd; [|done].
    assert (Ht : ns_wf (connection_turn format_time shell is_valid_ip (rn_ns rn) fd conn raw w now).1.1).
    { destruct conn as [|ctx|ss []]; cbn [connection_turn].
      - unfold handshake. destruct (streq _ ($"HELLO_CLIENT")); [|destruct (streq _ _); [|done]].
        + pose proof (hello_registry (rn_ns rn) fd (protocol_parse_message raw)) as Hh.
          destruct (hello_client _ _ _) as [[ns' out] r]. destruct Hh as (clients & ->). by apply client_table_wf.
        + pose proof (hello_ss_wf is_valid_ip (rn_ns rn) fd (protocol_parse_message raw) now Hwf) as Hh.
          destruct (hello_ss _ _ _ _ _) as [[ns' out] [ss|]]; [|apply Hh]. apply server_change_wf, Hh.
      - unfold client_turn. destruct (co_client _ Hok _ _ Hfd) as (_ & _ & Hl & _).
        pose proof (client_wf format_time shell w (rn_ns rn) ctx (protocol_parse_message raw) now Hl Hwf) as Hc.
        by destruct (client_command _ _ _ _ _ _ _) as [[w' ns'] out].
      - by apply ss_message_wf.
      - pose proof (sync_message_wf (rn_ns rn) fd ss (protocol_parse_message raw) now Hwf) as Hc.
        by destruct (sync_message _ _ _ _ _) as [[ns' out] complete]. }
    by destruct (connection_turn _ _ _ _ _ _ _ _ _) as [[ns out] conn'].
  - destruct (rn_conns rn !! fd) as [conn|] eqn:Hfd; [|done]. destruct conn as [|ctx|ss b]; cbn; [done| |].
    + unfold client_disconnected. case_match; [done|by apply client_table_wf].
    + destruct (connection_end_frame (rn_ns rn) ss fd) as [servers ->]. by apply server_change_wf.
Qed.

Lemma serve_wf rn events :
  conns_ok rn → ns_wf (rn_ns rn) → ns_wf (rn_ns (serve format_time shell is_valid_ip rn events)).
Proof.
  unfold serve. revert rn. induction events as [|e events IH]; intros rn Hok Hwf; [done|].
  apply IH; [by apply event_ok|by apply event_wf].
Qed.
End events.

(** The start: nobody is connected. *)
Lemma load_tables lines st :
  ns_clients (load_db_loop lines st) = ns_clients st.1 ∧ ns_servers (load_db_loop lines st) = ns_servers st.1.
Proof.
  revert st. induction lines as [|l lines IH]; intros st; cbn [load_db_loop]; [done|]. case_decide; [done|].
  destruct (IH (load_db_line st l)) as [-> ->]. destruct st as [ns current]. unfold load_db_line, file_index_insert.
  repeat case_match; simplify_eq/=; done.
Qed.

Lemma init_tables port d : ns_clients (ns_init port d) = [] ∧ ns_servers (ns_init port d) = [].
Proof.
  unfold ns_init, ns_load_metadata. destruct (read_file _ _) as [text|]; [|done].
  destruct (fgets_lines _ _) as [|l lines]; [done|]. apply load_tables.
Qed.

Lemma main_starts d argv listens rn :
  main d argv listens = Serves rn → conns_ok rn ∧ ∃ port, rn = mkRunning (ns_init port d) ∅.
Proof.
  unfold main, ns_start. intros Hm. destruct argv as [|name [|arg [|arg2 rest]]]; [done|done| |done].
  destruct (negb _); [done|]. destruct listens; [|done]. injection Hm as <-. destruct (init_tables (atoi arg) d) as [Hc Hs].
  split; [|by eexists]. split; cbn [rn_ns rn_conns]; rewrite ?Hc; try done.
  - constructor.
  - intros user fd Hin. by apply not_elem_of_nil in Hin.
  - unfold ids_distinct, wires. rewrite Hs. split; constructor.
  - intros id fd Hin. unfold wires in Hin. rewrite Hs in Hin. by apply not_elem_of_nil in Hin.
  - intros id fd Hin. unfold wires in Hin. rewrite Hs in Hin. by apply not_elem_of_nil in Hin.
Qed.

(** ** Properties *)

(** C7 The name server, from its start on.  Whatever metadata it found, and
    whatever is then accepted, arrives and ends on its connections in whatever
    order, with any answers of the storage servers: the clients marked as
    connected are exactly those with an open connection, on the recorded
    descriptor; no user has two connections; the live storage servers are exactly
    those with an open connection; a user who is not connected can log in, if the
    table has room; and if the metadata was a consistent registry, then array,
    hash index and cache of files are one all along. *)
Theorem connections_match format_time shell is_valid_ip {W} `{Servers W} d argv rn (events : list (Event W)) :
  main d argv true = Serves rn →
  let rn' := serve format_time shell is_valid_ip rn events in
  (∀ fd user, rn_conns rn' !! fd = Some (OfClient (mkCtx fd user)) ↔ mkClient user fd true ∈ ns_clients (rn_ns rn')) ∧
  (∀ fd fd' ctx ctx', rn_conns rn' !! fd = Some (OfClient ctx) → rn_conns rn' !! fd' = Some (OfClient ctx') →
     cx_username ctx = cx_username ctx' → fd = fd' ∧ cx_fd ctx = fd) ∧
  (∀ id fd, (∃ ss synced, rn_conns rn' !! fd = Some (OfServer ss synced) ∧ si_id ss = id) ↔
     ∃ s, s ∈ ns_servers (rn_ns rn') ∧ si_id s = id ∧ si_sockfd s = fd ∧ si_is_alive s = true) ∧
  (∀ fd user, validate_username user = true → length (ns_clients (rn_ns rn')) < NS_MAX_CLIENTS →
     (∀ fd', mkClient user fd' true ∉ ns_clients (rn_ns rn')) →
     (hello_client (rn_ns rn') fd [$"HELLO_CLIENT"; user]).2 = Some (mkCtx fd user)) ∧
  (ns_wf (rn_ns rn) → ns_wf (rn_ns rn')).
Proof.
  intros Hm rn'. destruct (main_starts _ _ _ _ Hm) as [Hok _].
  pose proof (serve_ok format_time shell is_valid_ip rn events Hok) as Hok'. fold rn' in Hok'. pose proof Hok' as []. split_and!.
  - intros fd user. split; [|apply co_session0]. by intros (_ & _ & _ & Hin)%co_client0.
  - intros fd fd' ctx ctx' (H1 & _ & _ & H2)%co_client0 (_ & _ & _ & H3)%co_client0 Hu. split; [|done].
    assert (mkClient (cx_username ctx) fd true = mkClient (cx_username ctx') fd' true) as [= _ ->]; [|done].
    by eapply (NoDup_key_inj cl_username).
  - intros id fd. split.
    + intros (ss & b & Hc & <-). apply co_server0 in Hc. change (wires _).1 with (map wire (ns_servers (rn_ns rn'))) in Hc.
      apply list_elem_of_fmap in Hc as (s & Hs & Hin). injection Hs as H1 H2 H3. exists s. by split_and!.
    + intros (s & Hin & <- & <- & Hal). apply co_wire0. apply (list_elem_of_fmap_2 wire) in Hin. unfold wire in Hin. by rewrite Hal in Hin.
  - intros fd user Hv Hroom Hno. unfold hello_client. case_decide; [cbn in *; lia|]. change (fld _ 1) with user. rewrite Hv. cbn [negb].
    pose proof (register_client_free (rn_ns rn') user fd co_names0 Hno Hroom) as Hr.
    destruct (ns_register_client _ _ _) as [ns' ok]. cbn in Hr. subst ok. cbn [snd].
    apply validate_username_spec in Hv as (_ & Hl & _). by rewrite fit_short.
  - by apply serve_wf.
Qed.

(** ann logs in twice, the second time without success, and leaves; a storage
    server comes. *)
Definition first_day : list (Event (list cstr)) :=
  [Accepted 5 true; Accepted 6 true; Arrived 5 ($"HELLO_CLIENT|ann") [] 7; Arrived 6 ($"HELLO_CLIENT|ann") [] 7;
   Accepted 6 true; Arrived 6 ($"HELLO_SS|127.0.0.1|9100|127.0.0.1|9000") [] 8; Arrived 5 ($"CREATEFOLDER|docs") [] 8;
   Arrived 6 ($"SS_FILES_DONE") [] 9; Ended 5].

(** ann can log in again, and the server is there. *)
Lemma connections_match_witness :
  let d := mkDisk ∅ {[ $"." ]} (λ _, NoFault) in
  let rn := serve (λ _, []) (λ _, None) (λ _, true) (mkRunning (ns_init 8080 d) ∅) first_day in
  (hello_client (rn_ns rn) 9 [$"HELLO_CLIENT"; $"ann"]).2 = Some (mkCtx 9 ($"ann")) ∧
  (∃ s, s ∈ ns_servers (rn_ns rn) ∧ si_id s = 0 ∧ si_sockfd s = 6%Z ∧ si_is_alive s = true).
Proof.
  intros d rn.
  destruct (connections_match (λ _, []) (λ _, None) (λ _, true) d [$"name_server"; $"8080"] (mkRunning (ns_init 8080 d) ∅)
    first_day eq_refl) as (_ & _ & Hservers & Hlogin & _).
  split.
  - apply Hlogin; [reflexivity|apply Nat.ltb_lt; vm_compute; reflexivity|].
    assert (Hno : ∀ l, map cl_is_connected l = [false] → ∀ fd', mkClient ($"ann") fd' true ∉ l).
    { intros l Hl fd' Hin. apply (list_elem_of_fmap_2 cl_is_connected) in Hin. change (true ∈ map cl_is_connected l) in Hin.
      rewrite Hl in Hin. by apply list_elem_of_singleton in Hin. }
    apply Hno. vm_compute. reflexivity.
  - refine (proj1 (Hservers 0 6%Z) _). change (∃ ss b, rn_conns rn !! 6%Z = Some (OfServer ss b) ∧ si_id ss = 0).
    assert (Hk : (λ c, match c with OfServer ss b => (si_id ss, b) | _ => (1, false) end) <$> rn_conns rn !! 6%Z = Some (0, true))
      by (vm_compute; reflexivity).
    revert Hk. generalize (rn_conns rn !! 6%Z) as o. clear. intros [[|ctx|ss b]|] Hk; [discriminate Hk..| |discriminate Hk].
    injection Hk as Hid Hb. exists ss, b. split; [reflexivity|exact Hid].
Defined.
