(* ===== verification/NSCustody.v ===== *)
(** * What a storage server guarantees to the name server

    [Custodian] is the interface of a storage server to the name server's
    handlers: which documents it has, and that a command which it answers with
    an error took nothing away.  [tended] is the invariant that the two keep
    together: every document is in the registry with its owner, and the
    registry gives no right on it that the storage server would refuse.  Here are
    the interface, the invariant, and what leaves both alone. *)
From S2P Require Import Prelude CStr Utils Protocol Wire SSState SSFiles SSGrants NSMeta NSPaths NSState NSIndex NSPersist NSPeer NSQueries NSAccess NSFiles NSTree NSServe NSWires NSSpec NSRefine NSTreeSpec NSCommands.

(** ** The interface to the storage server *)

(** The response says that the command failed, or that it did what it says. *)
Definition declined (r : Z + cstr) : Prop :=
  match r with inl _ => True | inr raw => protocol_is_error (protocol_parse_message raw) = true end.

Definition confirmed (r : Z + cstr) (expected : cstr) : Prop := ∃ msg, check_response r expected = inr msg.

(** A storage server: its documents, what it can be relied on to keep, and how
    it answers the commands of the handlers. *)
Class Custodian (W : Type) `{Servers W} := {
  held_by : W → StorageServer;
  sound : W → Prop;
  cu_create w info name user :
    sound w → validate_filename name = true → plain name → validate_username user = true →
    let '(w', r) := ask w info [$"CREATE_FILE"; name; user] in
    sound w' ∧
    ((confirmed r ($"OK_CREATE") ∧
      ∃ doc, ss_files (held_by w') = doc :: ss_files (held_by w) ∧ fr_filename doc = name ∧ fr_owner doc = user) ∨
     (declined r ∧ no_less (held_by w) (held_by w')));
  cu_delete w info name :
    sound w → plain name → length name < MAX_FILENAME_LENGTH →
    let '(w', r) := ask w info [$"DELETE_FILE"; name] in
    sound w' ∧ no_less (held_by w) (held_by w') ∧ (declined r ∨ name ∉ map fr_filename (ss_files (held_by w')));
  cu_grant w info name user gr gw :
    sound w → plain name → length name < MAX_FILENAME_LENGTH → validate_username user = true →
    let token := match permission_token gr gw with [] => $"R" | token => token end in
    let '(w', r) := ask w info [$"SS_ADDACCESS"; name; user; token] in
    sound w' ∧ no_less (held_by w) (held_by w') ∧
    (declined r ∨ ∀ doc, doc ∈ ss_files (held_by w') → fr_filename doc = name →
       (gr || gw = true → may doc false user) ∧ (gw = true → may doc true user));
  cu_revoke w info name user :
    sound w → plain name → length name < MAX_FILENAME_LENGTH → validate_username user = true →
    let '(w', r) := ask w info [$"SS_REMACCESS"; name; user] in
    sound w' ∧
    ((declined r ∧ no_less (held_by w) (held_by w')) ∨
     (confirmed r ($"OK_ACCESS_CHANGED") ∧ no_less_but name user (held_by w) (held_by w')));
  cu_content w info name :
    sound w → plain name → length name < MAX_FILENAME_LENGTH →
    let '(w', _) := ask w info [$"GET_CONTENT"; name] in sound w' ∧ no_less (held_by w) (held_by w');
  cu_copy w info dest src user :
    sound w → plain dest → plain src → length dest < MAX_FILENAME_LENGTH → length src < MAX_FILENAME_LENGTH →
    validate_username user = true →
    let '(w', _) := ask w info [$"SS_COPY"; dest; $"LOCAL"; $"0"; src; user] in sound w' ∧ no_less (held_by w) (held_by w');
  (** The lists are short. *)
  cu_few w doc : sound w → doc ∈ ss_files (held_by w) →
    length (fr_read_users doc) + length (fr_write_users doc) < NS_MAX_CLIENTS - 1
}.

Lemma declined_check r expected : declined r → ∃ code detail, check_response r expected = inl (code, detail).
Proof. destruct r as [e|raw]; cbn; [eauto|]. intros ->. eauto. Qed.

Lemma confirmed_not_declined r expected : confirmed r expected → declined r → False.
Proof. intros [msg Hm] (code & detail & Hd)%(declined_check _ expected). congruence. Qed.

(** ** The invariant *)

(** The entry of a document of the storage server. *)
Record covers (f : FileMetadata) (doc : FileRecord) : Prop := {
  cv_file : fm_is_directory f = false;
  cv_owner : fm_owner f = fr_owner doc;
  cv_readers : ∀ u, u ∈ fm_read_users f → may doc false u;
  cv_writers : ∀ u, u ∈ fm_write_users f → may doc true u
}.

Definition covered (reg : gmap cstr FileMetadata) (ss : StorageServer) : Prop :=
  ∀ doc, doc ∈ ss_files ss → ∃ f, reg !! fr_filename doc = Some f ∧ covers f doc.

Definition request_ok (req : AccessRequest) : Prop :=
  plain (ar_filename req) ∧ length (ar_filename req) < MAX_FILENAME_LENGTH ∧ validate_username (ar_from_user req) = true.

(** Names that are sent to the storage server as they are, and only one server. *)
Record tidy_ns (ns : NameServer) : Prop := {
  tn_wf : ns_wf ns;
  tn_names : map_Forall (λ name _, plain name ∧ length name < MAX_FILENAME_LENGTH) (registry ns);
  tn_requests : Forall request_ok (ns_requests ns);
  tn_alone : length (ns_servers ns) <= 1
}.

Section promises.
Context {W : Type} `{Custodian W}.

Record tended (ns : NameServer) (w : W) : Prop := {
  te_ns : tidy_ns ns;
  te_sound : sound w;
  te_covered : covered (registry ns) (held_by w)
}.

(** [g] gives no right that [f] does not. *)
Record tame (f g : FileMetadata) : Prop := {
  ta_file : fm_is_directory g = fm_is_directory f;
  ta_owner : fm_owner g = fm_owner f;
  ta_readers : ∀ u, u ∈ fm_read_users g → u ∈ fm_read_users f;
  ta_writers : ∀ u, u ∈ fm_write_users g → u ∈ fm_write_users f
}.

Lemma tame_covers f g doc : tame f g → covers f doc → covers g doc.
Proof. intros [] []. split; [congruence|congruence|auto|auto]. Qed.

Lemma may_more_covers f doc doc' :
  fr_owner doc = fr_owner doc' → (∀ write u, may doc write u → may doc' write u) → covers f doc → covers f doc'.
Proof. intros Ho Hm []. split; [done|congruence|auto|auto]. Qed.

(** No document more, no right less; no entry away, no right more. *)
Lemma covered_less reg reg' ss ss' :
  covered reg ss → no_less ss ss' →
  (∀ name f, reg !! name = Some f → ∃ g, reg' !! name = Some g ∧ tame f g) → covered reg' ss'.
Proof.
  intros Hc Hl Hr doc' Hin'. destruct (Hl doc' Hin') as (doc & Hin & Hn & Ho & Hm). destruct (Hc doc Hin) as (f & Hf & Hcov).
  rewrite Hn in Hf. destruct (Hr _ _ Hf) as (g & Hg & Ht). exists g. split; [done|].
  eapply tame_covers; [done|]. by eapply may_more_covers.
Qed.

Lemma tame_refl f : tame f f.
Proof. by split. Qed.

Lemma covered_no_less reg ss ss' : covered reg ss → no_less ss ss' → covered reg ss'.
Proof. intros Hc Hl. eapply covered_less; [done..|]. intros name f Hf. exists f. by split. Qed.

(** *** Changes that say nothing *)

Definition entry_view (f : FileMetadata) : cstr * bool * cstr * list cstr * list cstr :=
  (fm_filename f, fm_is_directory f, fm_owner f, fm_read_users f, fm_write_users f).

Definition request_view (req : AccessRequest) : cstr * cstr := (ar_filename req, ar_from_user req).

(** What matters of the registry, the requests and the servers. *)
Definition said (ns : NameServer) : list (cstr * bool * cstr * list cstr * list cstr) * list (cstr * cstr) * nat :=
  (map entry_view (ns_files ns), map request_view (ns_requests ns), length (ns_servers ns)).

Lemma said_registry ns ns' name f :
  ns_wf ns → ns_wf ns' → said ns' = said ns → registry ns !! name = Some f →
  ∃ g, registry ns' !! name = Some g ∧ entry_view g = entry_view f.
Proof.
  intros Hwf Hwf' [= Hs _ _] (i & Hi & <-)%registry_lookup; [|apply Hwf].
  assert (Hv : map entry_view (ns_files ns') !! i = Some (entry_view f)).
  { rewrite Hs. change (map entry_view) with (fmap (M := list) entry_view). by rewrite list_lookup_fmap Hi. }
  apply list_lookup_fmap_Some in Hv as (g & Hv & Hg). exists g. split; [|done]. apply registry_lookup; [apply Hwf'|]. exists i. split; [done|].
  by injection Hv.
Qed.

Lemma said_tidy ns ns' : tidy_ns ns → ns_wf ns' → said ns' = said ns → tidy_ns ns'.
Proof.
  intros [Hwf Hn Hq Ha] Hwf' Hs. split; [done| | |].
  - intros name g Hg. destruct (said_registry ns' ns name g) as (f & Hf & _); [done..|]. exact (Hn _ _ Hf).
  - injection Hs as _ Hs _. assert (Hall : ∀ l, Forall request_ok l ↔
      Forall (λ v, plain v.1 ∧ length v.1 < MAX_FILENAME_LENGTH ∧ validate_username v.2 = true) (map request_view l)) by (intros l; by rewrite Forall_map).
    by rewrite Hall Hs -Hall.
  - by injection Hs as _ _ ->.
Qed.

Lemma said_tended ns ns' w w' :
  tended ns w → ns_wf ns' → said ns' = said ns → sound w' → no_less (held_by w) (held_by w') → tended ns' w'.
Proof.
  intros [Hns Hw Hc] Hwf' Hs Hw' Hl. split; [by eapply said_tidy|done|]. eapply covered_less; [done..|].
  intros name f Hf. destruct (said_registry ns ns' name f) as (g & Hg & He); [apply Hns|done..|].
  exists g. split; [done|]. injection He as _ Hd Ho Hr Hw0. split; [done|done| |]; intros u; by rewrite ?Hr ?Hw0.
Qed.

Lemma said_here ns ns' w : tended ns w → ns_wf ns' → said ns' = said ns → tended ns' w.
Proof. intros Ht Hwf Hs. eapply said_tended; [done..|apply Ht|done]. Qed.

(** *** Commands that change nothing of it *)

Lemma lookup_said ns name ns' r : file_lookup_locked ns name = (ns', r) → said ns' = said ns.
Proof.
  unfold file_lookup_locked, file_cache_lookup, file_cache_store. intros Hl. repeat case_match; simplify_eq/=; done.
Qed.

Lemma store_said ns name i : said (file_cache_store ns name i) = said ns.
Proof. unfold file_cache_store. repeat case_match; done. Qed.

Lemma save_said ns : said (ns_save_metadata ns) = said ns.
Proof. done. Qed.

Lemma servers_said ns ns' : ns_files ns' = ns_files ns → ns_requests ns' = ns_requests ns →
  length (ns_servers ns') = length (ns_servers ns) → said ns' = said ns.
Proof. unfold said. by intros -> -> ->. Qed.

Lemma update_said ns i f g : ns_files ns !! i = Some f → entry_view g = entry_view f → said (update_file ns i g) = said ns.
Proof.
  intros Hf Hg. unfold said. cbn. f_equal. f_equal.
  change (entry_view <$> <[i:=g]> (ns_files ns) = entry_view <$> ns_files ns).
  rewrite list_fmap_insert list_insert_id; [|done]. by rewrite list_lookup_fmap Hf Hg.
Qed.

Lemma change_request_said ns k pending : said (change_request ns k pending) = said ns.
Proof.
  unfold said, change_request. cbn. f_equal. f_equal.
  change (request_view <$> alter (λ req, set_pending req pending) k (ns_requests ns) = request_view <$> ns_requests ns).
  apply list_eq. intros j. rewrite !list_lookup_fmap. destruct (decide (k = j)) as [->|Hj].
  - rewrite list_lookup_alter_eq. by destruct (ns_requests ns !! j).
  - by rewrite list_lookup_alter_ne.
Qed.

Section quiet.
Context (format_time : Z → cstr) (shell : cstr → option cstr) (ctx : Ctx).

Ltac quiet :=
  repeat case_match; simplify_eq/=;
  repeat match goal with Hl : file_lookup_locked _ _ = _ |- _ => apply lookup_said in Hl end;
  rewrite ?save_said ?change_request_said; congruence.

Lemma view_said ns msg : said (handle_view format_time ns ctx msg).1 = said ns.
Proof. unfold handle_view. quiet. Qed.

Lemma info_said ns msg : said (handle_info format_time ns ctx msg).1 = said ns.
Proof. unfold handle_info. quiet. Qed.

Lemma viewfolder_said ns msg : said (handle_viewfolder ns ctx msg).1 = said ns.
Proof. unfold handle_viewfolder. quiet. Qed.

Lemma reject_said ns msg : said (handle_reject_access ns ctx msg).1 = said ns.
Proof. unfold handle_reject_access. quiet. Qed.

Lemma loc_said ns msg now : said (handle_req_loc ns ctx msg now).1 = said ns.
Proof.
  unfold handle_req_loc. case_decide; [done|]. destruct (if decide (3 <= length msg) then _ else _) as [operation filename].
  destruct (negb _); [done|]. destruct (streq _ _); [done|].
  destruct (file_lookup_locked ns filename) as [ns1 [i|]] eqn:Hl; apply lookup_said in Hl; [|done].
  destruct (ns_files ns1 !! i) as [f|] eqn:Hf; [|done].
  destruct (loc_access operation f (cx_username ctx)) as [[]|]; [|done..]. cbn [fst]. rewrite save_said store_said -Hl.
  eapply update_said; [done|]. unfold loc_touch. by case_match.
Qed.

Lemma exec_said ns msg now : said (exec_begin ns ctx msg now).1 = said ns.
Proof.
  unfold exec_begin. case_decide; [done|]. destruct (negb _); [done|]. destruct (streq _ _); [done|].
  destruct (file_lookup_locked ns (fld msg 1)) as [ns1 [i|]] eqn:Hl; apply lookup_said in Hl; [|done].
  destruct (negb _); [done|]. destruct (ns_files ns1 !! i) as [f|] eqn:Hf.
  - change (default meta0 (Some f)) with f. pose proof (update_said ns1 i f (fm_with_access_by f (cx_username ctx) now) Hf eq_refl) as Hs.
    destruct (server_of _ _); cbn [fst]; rewrite ?save_said; congruence.
  - set (g := fm_with_access_by _ _ _). assert (Hs : said (update_file ns1 i g) = said ns1).
    { unfold said. cbn. by rewrite list_insert_ge; [apply lookup_ge_None|]. }
    destruct (server_of _ _); cbn [fst]; rewrite ?save_said; congruence.
Qed.

Lemma copy_said ns msg : said (copy_begin ns ctx msg).1 = said ns.
Proof.
  unfold copy_begin. case_decide; [done|]. destruct (negb _ || negb _); [done|]. destruct (streq _ _); [done|].
  destruct (file_lookup_locked ns (fld msg 1)) as [ns1 r1] eqn:Hl1. destruct (file_lookup_locked ns1 (fld msg 2)) as [ns2 r2] eqn:Hl2.
  apply lookup_said in Hl1, Hl2. assert (Hs : said ns2 = said ns) by congruence. repeat case_match; exact Hs.
Qed.

Lemma copy_finish_said now ns p r : said (copy_finish ctx now ns p r).1 = said ns.
Proof.
  unfold copy_finish. destruct r as [e|raw]; [done|]. case_match; [done|]. case_decide as Hi; [|done]. cbn [fst].
  apply lookup_lt_is_Some in Hi as [f Hf]. etrans; [apply save_said|].
  change (said (change_file ns (pcp_source_index p) (λ f, fm_with_access_by f (cx_username ctx) now)) = said ns).
  rewrite (change_file_update _ _ _ _ Hf). by eapply update_said.
Qed.
End quiet.

(** A message of the storage server. *)
Lemma ss_message_said ns ss msg now : ids_distinct ns → said (ss_message ns ss msg now) = said ns.
Proof.
  intros Hids. unfold ss_message. case_match; [|done]. unfold write_complete. case_decide; [done|].
  destruct (_ ≫= _) as [[i file]|] eqn:Hf; [|done].
  apply bind_Some in Hf as (j & _ & Hf). apply fmap_Some in Hf as (g & Hg & [= -> ->]).
  etrans; [apply save_said|]. set (ns1 := file_cache_store _ _ _).
  assert (Hsa : said ns1 = said ns) by (unfold ns1; rewrite store_said; by eapply update_said).
  case_match; [|exact Hsa]. rewrite -Hsa. apply servers_said; [done|done|]. cbn. by rewrite length_map.
Qed.
End promises.
