(* ===== verification/NSPromises.v ===== *)
(** * What the name server promises, the storage server grants

    Every command of a client but MOVE keeps [tended], with any storage server
    that is a [Custodian]: the change of the registry, what is asked of the
    storage server, and what is taken back when it refuses. *)
From S2P Require Import Prelude CStr Utils Protocol Wire SSState SSFiles SSGrants NSMeta NSPaths NSState NSIndex NSPersist NSPeer NSQueries NSAccess NSFiles NSTree NSServe NSWires NSSpec NSRefine NSTreeSpec NSCommands NSCustody.

Section promises.
Context {W : Type} `{Custodian W}.

(** *** Commands that ask, and change nothing *)

Section asking.
Context (format_time : Z → cstr) (shell : cstr → option cstr) (ctx : Ctx).
Context (Huser : validate_username (cx_username ctx) = true).

Lemma user_short : length (cx_username ctx) < MAX_USERNAME_LENGTH.
Proof. by apply validate_username_spec in Huser as (_ & ? & _). Qed.

Lemma fld_plain msg i : Forall plain msg → plain (fld msg i).
Proof.
  intros Hall. unfold fld. destruct (msg !! i) as [f|] eqn:Hf; cbn; [|apply plain_nil]. by eapply Forall_lookup_1 in Hf.
Qed.

Lemma valid_short name : validate_filename name = true → length name < MAX_FILENAME_LENGTH.
Proof. by intros (_ & ? & _)%validate_filename_spec. Qed.

(** Reading at the storage server, in the middle of a quiet handler. *)
Lemma complete_quiet {P} (w : W) ns (begun : NameServer * Phase P) finish :
  tended ns w → ns_wf (complete w begun finish).1.2 → said begun.1 = said ns →
  (∀ ns' p r, said (finish ns' p r).1 = said ns') →
  match begun.2 with
  | Finished _ => True
  | Asking ss fields _ => let '(w', _) := ask w ss fields in sound w' ∧ no_less (held_by w) (held_by w')
  end →
  let '(w', ns', _) := complete w begun finish in tended ns' w'.
Proof.
  unfold complete. intros Ht Hwf Hs Hfin Hask. destruct begun as [ns1 [out|ss fields p]]; cbn in *; [by eapply said_here|].
  destruct (ask w ss fields) as [w' r]. destruct Hask as [Hw Hl]. specialize (Hfin ns1 p r).
  destruct (finish ns1 p r) as [ns2 out]. cbn in *. eapply said_tended; [done..|congruence|done|done].
Qed.

Lemma exec_tended w ns msg now : tended ns w →
  let '(w', ns', _) := handle_exec shell w ns ctx msg now in tended ns' w'.
Proof.
  intros Ht. pose proof Ht as [[Hwf Hn _ _] Hw _].
  unfold handle_exec. apply (complete_quiet w ns); [done|by apply (refines_exec ctx)|apply exec_said|done|].
  unfold exec_begin. case_decide; [done|]. destruct (negb _) eqn:Hv; [done|]. destruct (streq _ _); [done|].
  pose proof (lookup_refines [] ns (fld msg 1) Hwf) as Hl. destruct (file_lookup_locked ns (fld msg 1)) as [ns1 [i|]]; [|done].
  destruct Hl as (_ & _ & _ & f & Hf & Hname & Hreg & _). rewrite Hf. change (default meta0 (Some f)) with f.
  destruct (negb (file_has_read_access _ _)); [done|]. cbv zeta. destruct (server_of _ _) as [ss|]; [|done]. cbn [snd].
  change (fm_filename (fm_with_access_by f (cx_username ctx) now)) with (fm_filename f). rewrite Hname.
  destruct (Hn _ _ Hreg) as [Hp Hlen]. by apply cu_content.
Qed.

Lemma server_elem ns f ss : server_of ns f = Some ss → ss ∈ ns_servers ns.
Proof. by intros [? _]%firstb_elem. Qed.

Lemma alone_same ns s1 s2 : length (ns_servers ns) <= 1 → s1 ∈ ns_servers ns → s2 ∈ ns_servers ns → s1 = s2.
Proof.
  intros Hl Hs1 Hs2. destruct (ns_servers ns) as [|s [|]]; cbn in Hl; [by apply elem_of_nil in Hs1| |lia].
  apply list_elem_of_singleton in Hs1, Hs2. congruence.
Qed.

Lemma copy_tended w ns msg now : tended ns w → Forall plain msg →
  let '(w', ns', _) := handle_copy w ns ctx msg now in tended ns' w'.
Proof.
  intros Ht Hmsg. pose proof Ht as [[Hwf _ _ Ha] Hw _].
  unfold handle_copy. apply (complete_quiet w ns); [done|by apply (refines_copy ctx)|apply copy_said|intros; apply copy_finish_said|].
  unfold copy_begin. case_decide; [done|]. destruct (negb _ || negb _) eqn:Hv; [done|]. destruct (streq _ _); [done|].
  apply orb_false_iff in Hv as [Hv1%negb_false_iff Hv2%negb_false_iff].
  destruct (file_lookup_locked ns (fld msg 1)) as [ns1 r1] eqn:Hl1. destruct (file_lookup_locked ns1 (fld msg 2)) as [ns2 r2] eqn:Hl2.
  apply lookup_said in Hl1, Hl2. assert (Hs : length (ns_servers ns2) = length (ns_servers ns)) by (injection Hl1; injection Hl2; congruence).
  destruct r1 as [i|]; [|done]. destruct r2 as [j|]; [|done].
  destruct (negb (file_has_read_access _ _)); [done|]. destruct (negb (file_has_write_access _ _)); [done|].
  destruct (server_of ns2 _) as [s1|] eqn:Hs1; [|done]. destruct (server_of ns2 (default meta0 (ns_files ns2 !! i))) as [s2|] eqn:Hs2; [|done].
  apply server_elem in Hs1, Hs2. rewrite decide_True; [by rewrite (alone_same ns2 s1 s2) // Hs|]. cbn [snd].
  apply cu_copy; auto using fld_plain, valid_short.
Qed.

(** *** New requests and entries *)

Lemma request_tended w ns msg : tended ns w → Forall plain msg → tended (handle_request_access ns ctx msg).1 w.
Proof.
  intros Ht Hmsg. pose proof Ht as [[Hwf _ _ _] _ _].
  pose proof (refines_request_access ctx user_short ns msg Hwf) as [Hwf' _]. revert Hwf'.
  unfold handle_request_access. case_decide; [done|]. destruct (negb _) eqn:Hv; [done|]. apply negb_false_iff in Hv.
  destruct (parse_permission_flags _) as [[gr gw]|]; [|done].
  pose proof (lookup_refines [] ns (fld msg 1) Hwf) as Hl. destruct (file_lookup_locked ns (fld msg 1)) as [ns1 r] eqn:Hlk.
  apply lookup_said in Hlk. destruct Hl as ([Hwf1 _] & _). pose proof (said_here _ _ _ Ht Hwf1 Hlk) as Ht1.
  destruct r as [i|]; [|done]. case_decide; [done|]. cbn [fst]. intros Hwf'.
  destruct Ht1 as [[_ Hn Hq Ha] Hw Hc]. split; [|done|done]. split; [done|done| |done].
  apply Forall_app. split; [done|]. apply Forall_singleton. unfold request_ok. cbn [ar_filename ar_from_user].
  rewrite !fit_short; [by apply valid_short|apply user_short|]. auto using fld_plain, valid_short.
Qed.

Lemma register_keeps ns name file ns' r : register_file ns name file = (ns', r) →
  ns_requests ns' = ns_requests ns ∧ ns_servers ns' = ns_servers ns.
Proof.
  unfold register_file, file_index_insert, file_cache_store. destruct (index_insert _ _ _) as [index []]; intros [= <- <-]; [|done].
  by repeat case_match.
Qed.

Lemma register_tended w ns name file :
  tended ns w → registry ns !! name = None → validate_filename name = true → plain name → length (ns_files ns) < NS_MAX_FILES →
  fm_filename file = name → fm_owner file = cx_username ctx → fm_read_users file = [] → fm_write_users file = [] →
  let '(ns', ok) := register_file ns name file in
  ok = true ∧ tended ns' w ∧ registry ns' = <[name := file]> (registry ns).
Proof.
  intros [[Hwf Hn Hq Ha] Hw Hc] Hnew Hv Hp Hcount Hname Ho Hr Hx.
  pose proof (register_new ctx user_short ns name file Hwf Hnew Hv Hcount Hname Ho Hr Hx) as Hreg.
  destruct (register_file ns name file) as [ns' ok] eqn:Hrf. apply register_keeps in Hrf as [Hrq Hsv].
  destruct Hreg as (-> & [Hwf' _] & _ & Heq). split; [done|]. split; [|done].
  split; [split; [done| |by rewrite Hrq|by rewrite Hsv]|done|]; rewrite Heq.
  - apply map_Forall_insert_2; [|done]. split; [done|by apply valid_short].
  - eapply covered_less; [done..|]. intros other f Hf. exists f. split; [|apply tame_refl].
    rewrite lookup_insert_ne; [congruence|done].
Qed.

Lemma folder_tended w ns msg now : tended ns w → Forall plain msg → tended (handle_createfolder ns ctx msg now).1 w.
Proof.
  intros Ht Hmsg. unfold handle_createfolder. case_decide; [done|]. destruct (negb _) eqn:Hv; [done|].
  apply negb_false_iff in Hv. destruct (streq _ _); [done|]. set (path := fld msg 1) in *.
  assert (Hpath : validate_filename path = true).
  { unfold ns_validate_logical_path in Hv. destruct (validate_filename path); [done|]. by rewrite andb_false_r in Hv. }
  assert (Hadd : tended (add_folder ns path (cx_username ctx) now).1 w); revgoals.
  { destruct (add_folder _ _ _ _) as [ns1 [[code detail]|]]; [done|]. cbn [fst] in *.
    eapply said_here; [done| |done]. apply (refines_save []), Hadd. }
  unfold add_folder. case_decide as Hcount; [done|]. pose proof Ht as [[Hwf _ _ _] _ _].
  pose proof (lookup_refines [] ns path Hwf) as Hl. destruct (file_lookup_locked ns path) as [ns1 r] eqn:Hlk.
  apply lookup_said in Hlk as Hs1. destruct Hl as ([Hwf1 _] & Hreg1 & (c1 & t1 & Hns1) & Hr). pose proof (said_here _ _ _ Ht Hwf1 Hs1) as Ht1.
  destruct r as [i|]; [done|]. destruct (ns_split_parent_child _ _ _) as [[parent child]|]; [|done].
  assert (Hlk2 : ∃ ns2 r2, (if streq parent [] then (ns1, None) else file_lookup_locked ns1 parent) = (ns2, r2) ∧
    tended ns2 w ∧ registry ns2 = registry ns1 ∧ ns_files ns2 = ns_files ns1).
  { destruct (streq parent []); [by exists ns1, None|]. pose proof (lookup_refines [] ns1 parent Hwf1) as Hl.
    destruct (file_lookup_locked ns1 parent) as [ns2 r2] eqn:Hlk2. apply lookup_said in Hlk2.
    destruct Hl as ([Hwf2 _] & Hreg2 & (c & t & Hns2) & _). exists ns2, r2. split; [done|].
    split; [by eapply said_here|]. split; [done|by rewrite Hns2]. }
  destruct Hlk2 as (ns2 & r2 & -> & Ht2 & Hreg2 & Hf2). cbv zeta. destruct (if streq parent [] then _ else _); [done|].
  pose proof (register_tended w ns2 path (created_folder path (cx_username ctx) now) Ht2) as Hrt.
  rewrite Hreg2 Hreg1 Hf2 Hns1 in Hrt. cbn [ns_files set_cache] in Hrt.
  specialize (Hrt Hr Hpath (fld_plain msg 1 Hmsg) ltac:(lia) (fit_short _ _ (valid_short _ Hpath)) (fit_short _ _ user_short) eq_refl eq_refl).
  destruct (register_file ns2 path _) as [ns3 ok]. destruct Hrt as (-> & Hrt & _). exact Hrt.
Qed.

(** *** CREATE *)

Lemma select_said ns ns' r : ns_select_storage_server_balanced ns = (ns', r) → said ns' = said ns.
Proof.
  intros Hs. pose proof (select_wires _ _ _ Hs) as [= Hw _]. apply (f_equal length) in Hw. rewrite !length_map in Hw.
  apply servers_said; [..|done]; unfold ns_select_storage_server_balanced in Hs; by repeat case_match; simplify_eq.
Qed.

Lemma unregistered ns w name : tended ns w → registry ns !! name = None → name ∉ map fr_filename (ss_files (held_by w)).
Proof. intros Ht Hn (doc & -> & Hin)%list_elem_of_fmap. destruct (te_covered _ _ Ht doc Hin) as (f & Hf & _). congruence. Qed.

Lemma covered_delete reg ss name : covered reg ss → (name ∉ map fr_filename (ss_files ss)) → covered (delete name reg) ss.
Proof.
  intros Hc Hno doc Hin. destruct (Hc doc Hin) as (f & Hf & Hcov). exists f. split; [|done].
  rewrite lookup_delete_ne; [|done]. intros ->. apply Hno. by apply list_elem_of_fmap_2.
Qed.

Lemma rollback_tended w ns name :
  tidy_ns ns → sound w → covered (delete name (registry ns)) (held_by w) → tended (create_rollback ns name) w.
Proof.
  intros [Hwf Hn Hq Ha] Hw Hc. pose proof (remove_wf ns Hwf name) as Hr. unfold create_rollback.
  destruct (remove_file_metadata_locked ns name) as [ns' b]. destruct Hr as (Hwf' & _ & Heq & Hsv & Hrq & _). cbn [fst].
  split; [split; [done| |by rewrite Hrq|by rewrite Hsv]|done|]; rewrite Heq; [|done]. by apply map_Forall_delete.
Qed.

Lemma no_less_names ss ss' name : no_less ss ss' → (name ∉ map fr_filename (ss_files ss)) → name ∉ map fr_filename (ss_files ss').
Proof.
  intros Hl Hno (doc' & -> & Hin')%list_elem_of_fmap. destruct (Hl doc' Hin') as (doc & Hin & Hn & _). apply Hno.
  rewrite -Hn. by apply list_elem_of_fmap_2.
Qed.

(** A new document with the entry made for it. *)
Lemma covered_new reg ss ss' doc f :
  covered (delete (fr_filename doc) reg) ss → reg !! fr_filename doc = Some f → ss_files ss' = doc :: ss_files ss →
  fm_is_directory f = false → fm_owner f = fr_owner doc → fm_read_users f = [] → fm_write_users f = [] → covered reg ss'.
Proof.
  intros Hc Hf Hs Hd Ho Hr Hw other Hin. rewrite Hs in Hin. apply elem_of_cons in Hin as [->|Hin].
  - exists f. split; [done|]. split; [done|done| |]; rewrite ?Hr ?Hw; intros u Hu; by apply elem_of_nil in Hu.
  - destruct (Hc other Hin) as (g & Hg & Hcov). apply lookup_delete_Some in Hg as [_ Hg]. by exists g.
Qed.

Lemma create_tended w ns msg now : tended ns w → Forall plain msg →
  let '(w', ns', _) := handle_create w ns ctx msg now in tended ns' w'.
Proof.
  intros Ht Hmsg. unfold handle_create, create_begin. case_decide; [done|]. destruct (negb _) eqn:Hv; [done|]. apply negb_false_iff in Hv.
  destruct (streq _ _); [done|]. case_decide as Hcount; [done|]. set (name := fld msg 1) in *.
  pose proof (fld_plain msg 1 Hmsg) as Hp. fold name in Hp. pose proof (valid_short _ Hv) as Hlen.
  pose proof Ht as [[Hwf _ _ _] _ _].
  pose proof (lookup_refines [] ns name Hwf) as Hl. destruct (file_lookup_locked ns name) as [ns1 r] eqn:Hlk.
  apply lookup_said in Hlk as Hs1. destruct Hl as ([Hwf1 _] & Hreg1 & (c1 & t1 & Hns1) & Hr). pose proof (said_here _ _ _ Ht Hwf1 Hs1) as Ht1.
  destruct r as [i|]; [done|]. cbn iota beta. destruct (ns_servers ns1) as [|s0 l0]; [done|].
  pose proof (select_frame ctx ns1 Hwf1) as Hsel. destruct (ns_select_storage_server_balanced ns1) as [ns2 best] eqn:Hs2.
  apply select_said in Hs2. destruct Hsel as ([Hwf2 _] & Hreg2 & Hfiles2). pose proof (said_here _ _ _ Ht1 Hwf2 Hs2) as Ht2.
  destruct best as [ss|]; [|done].
  set (file := created_file _ _ _ _ _). pose proof (register_tended w ns2 name file Ht2) as Hrt.
  rewrite Hreg2 Hreg1 Hfiles2 Hns1 in Hrt. cbn [ns_files set_cache] in Hrt.
  specialize (Hrt Hr Hv Hp ltac:(lia) (fit_short _ _ Hlen) (fit_short _ _ user_short) eq_refl eq_refl).
  destruct (register_file ns2 name file) as [ns3 ok]. destruct Hrt as (-> & Ht3 & Hreg3). cbn iota beta.
  assert (Hnone : name ∉ map fr_filename (ss_files (held_by w))) by (by apply (unregistered ns)).
  destruct (si_sockfd ss <? 0)%Z; unfold complete.
  { apply rollback_tended; [apply Ht3..|]. by apply covered_delete; [apply Ht3|]. }
  pose proof (cu_create w ss name (cx_username ctx) (te_sound _ _ Ht3) Hv Hp Huser) as Hask.
  destruct (ask w ss _) as [w' resp]. destruct Hask as [Hw' Hask]. unfold create_finish. cbn [pc_filename].
  destruct Hask as [([m Hm] & doc & Hfiles & Hname & Hown)|[Hd Hless]].
  - rewrite Hm. pose proof Ht3 as [Hns3 _ Hc3].
    assert (Ht4 : tended ns3 w').
    { split; [done|done|]. subst name. rewrite -Hname in Hreg3, Hnone.
      eapply (covered_new _ (held_by w) _ doc file); [by apply covered_delete| |done|done| |done|done].
      - by rewrite Hreg3 lookup_insert_eq.
      - rewrite Hown. apply fit_short, user_short. }
    eapply said_here; [exact Ht4| |].
    + apply (refines_save []), (refines_servers [] ns3). apply Ht4.
    + rewrite save_said. apply servers_said; [done|done|]. cbn. by rewrite length_map.
  - destruct (declined_check resp ($"OK_CREATE") Hd) as (code & detail & ->). cbn [fst].
    apply rollback_tended; [apply Ht3|done|]. apply covered_delete; [|by eapply no_less_names].
    by eapply covered_no_less; [apply Ht3|].
Qed.

(** *** Rights *)

(** The members of the lists after a grant, also one that failed half way. *)
Lemma add_access_adds f u gr gw : meta_wf f → length u < MAX_USERNAME_LENGTH →
  let g := (file_add_access f u gr gw).1 in
  (∀ v, v ∈ fm_read_users g → v ∈ fm_read_users f ∨ (v = u ∧ gr || gw = true)) ∧
  (∀ v, v ∈ fm_write_users g → v ∈ fm_write_users f ∨ (v = u ∧ gw = true)).
Proof.
  intros Hm Hu g. pose proof (file_add_access_spec f u gr gw Hm Hu) as Hs. unfold g. clear g.
  assert (Hnone : (gr || gw = false → fm_read_users (file_add_access f u gr gw).1 = fm_read_users f) ∧
    (gw = false → fm_write_users (file_add_access f u gr gw).1 = fm_write_users f)).
  { unfold file_add_access. split; [intros [-> ->]%orb_false_iff; done|intros ->]. destruct gr; [|done].
    destruct (file_acl_add _ _) as [rs r]. by destruct (negb _). }
  destruct (file_add_access f u gr gw) as [g r]. destruct Hs as (_ & _ & Hother & _). cbn [fst] in *.
  split; intros v Hv; (destruct (decide (v = u)) as [->|Hne]; [|left; by apply (Hother v Hne)]).
  - destruct (gr || gw); [by right|]. left. by rewrite (proj1 Hnone eq_refl) in Hv.
  - destruct gw; [by right|]. left. by rewrite (proj2 Hnone eq_refl) in Hv.
Qed.

Definition same_entry (f g : FileMetadata) : Prop :=
  fm_filename g = fm_filename f ∧ fm_is_directory g = fm_is_directory f ∧ fm_owner g = fm_owner f.

Lemma add_access_same f u gr gw : meta_wf f → length u < MAX_USERNAME_LENGTH →
  same_entry f (file_add_access f u gr gw).1 ∧ meta_wf (file_add_access f u gr gw).1.
Proof.
  intros Hm Hu. pose proof (file_add_access_spec f u gr gw Hm Hu) as Hs.
  destruct (file_add_access f u gr gw) as [g r]. by destruct Hs as (Hg & (rs & ws & ->) & _).
Qed.

Lemma remove_access_same f u : meta_wf f → length u < MAX_USERNAME_LENGTH →
  let g := (file_remove_access f u).1 in
  same_entry f g ∧ meta_wf g ∧ (∀ v, v ∈ fm_read_users g ↔ v ≠ u ∧ v ∈ fm_read_users f) ∧
  (∀ v, v ∈ fm_write_users g ↔ v ≠ u ∧ v ∈ fm_write_users f).
Proof.
  intros Hm Hu g. pose proof (file_remove_access_spec f u Hm Hu) as Hs. unfold g.
  destruct (file_remove_access f u) as [h r]. by destruct Hs as (Hh & (rs & ws & ->) & _ & H1 & H2).
Qed.

(** The documents of other names. *)
Definition covered_but (name : cstr) (reg : gmap cstr FileMetadata) (ss : StorageServer) : Prop :=
  ∀ doc, doc ∈ ss_files ss → fr_filename doc ≠ name → ∃ f, reg !! fr_filename doc = Some f ∧ covers f doc.

Lemma covered_but_less name user reg ss ss' : covered_but name reg ss → no_less_but name user ss ss' → covered_but name reg ss'.
Proof.
  intros Hc Hl doc' Hin' Hne. destruct (Hl doc' Hin') as (doc & Hin & Hn & Ho & Hm). rewrite -Hn in Hne |- *.
  destruct (Hc doc Hin Hne) as (f & Hf & Hcov). exists f. split; [done|]. eapply may_more_covers; [done| |done]. auto.
Qed.

Lemma no_less_any name user ss ss' : no_less ss ss' → no_less_but name user ss ss'.
Proof. intros Hl doc' Hin'. destruct (Hl doc' Hin') as (doc & ? & ? & ? & Hm). exists doc. split_and!; auto. Qed.

(** An entry is changed: what it says is to be settled with the storage server. *)
Lemma update_tidy ns i f g : tidy_ns ns → ns_files ns !! i = Some f → same_entry f g → meta_wf g →
  tidy_ns (update_file ns i g) ∧ registry (update_file ns i g) = <[fm_filename f := g]> (registry ns).
Proof.
  intros [Hwf Hn Hq Ha] Hf (Hname & _) Hg. destruct (update_wf ns Hwf i f g Hf Hname Hg) as [Hwf' Heq].
  split; [|done]. split; [done| |done|done]. rewrite Heq. apply map_Forall_insert_2; [|done].
  exact (Hn _ _ (registry_at _ Hwf i f Hf)).
Qed.

Lemma covered_insert name reg ss g : covered_but name reg ss → covered_but name (<[name := g]> reg) ss.
Proof.
  intros Hc doc Hin Hne. destruct (Hc doc Hin Hne) as (h & Hh & Hcov). exists h. split; [|done]. by rewrite lookup_insert_ne.
Qed.

Lemma settled ns w i g :
  tidy_ns ns → sound w → ns_files ns !! i = Some g → covered_but (fm_filename g) (registry ns) (held_by w) →
  (∀ doc, doc ∈ ss_files (held_by w) → fr_filename doc = fm_filename g → covers g doc) → tended ns w.
Proof.
  intros Hns Hw Hg Hc Hcov. split; [done|done|]. intros doc Hin.
  destruct (decide (fr_filename doc = fm_filename g)) as [Heq|Hne]; [|by apply Hc].
  exists g. split; [|by apply Hcov]. rewrite Heq. by apply (registry_at _ (tn_wf _ Hns) i).
Qed.

Lemma settled_by_change ns w i g h :
  tidy_ns ns → sound w → ns_files ns !! i = Some g → covered_but (fm_filename g) (registry ns) (held_by w) →
  same_entry g h → meta_wf h →
  (∀ doc, doc ∈ ss_files (held_by w) → fr_filename doc = fm_filename g → covers h doc) → tended (update_file ns i h) w.
Proof.
  intros Hns Hw Hg Hc Hsame Hm Hcov. destruct (update_tidy ns i g h Hns Hg Hsame Hm) as [Hns' Heq].
  destruct Hsame as (Hname & _). apply (settled _ _ i h); [done|done|by eapply updated_at| |]; rewrite Hname.
  - rewrite Heq. by apply covered_insert.
  - done.
Qed.

Lemma covered_forget name reg ss : covered reg ss → covered_but name reg ss.
Proof. intros Hc doc Hin _. by apply Hc. Qed.

(** The entry of a document has room for another name. *)
Lemma covers_room w f doc : sound w → doc ∈ ss_files (held_by w) → meta_wf f → covers f doc →
  length (fm_read_users f) < NS_MAX_CLIENTS ∧ length (fm_write_users f) < NS_MAX_CLIENTS.
Proof.
  intros Hw Hin (_ & [Hr _ _] & [Hx _ _]) [_ _ Hcr Hcw]. pose proof (cu_few w doc Hw Hin) as Hfew.
  assert (Hall : ∀ l, NoDup l → (∀ u, u ∈ l → may doc false u) → length l < NS_MAX_CLIENTS).
  { intros l Hnd Hl. assert (Hs : l ⊆+ fr_owner doc :: fr_read_users doc ++ fr_write_users doc).
    { apply NoDup_submseteq; [done|]. intros u Hu. destruct (Hl u Hu) as [->|[?|[_ ?]]]; set_solver. }
    apply submseteq_length in Hs. cbn [length] in Hs. rewrite length_app in Hs. lia. }
  split; apply Hall; [done|done|done|]. intros u Hu. destruct (Hcw u Hu) as [?|[?|[? ?]]]; [by left|by right; left|done].
Qed.

(** A grant in the registry, before the storage server is asked; [w'] is what it
    has when it answered. *)
Section grant.
Context (w w' : W) (ns : NameServer) (i : nat) (f : FileMetadata) (u : cstr) (gr gw : bool).
Context (Ht : tended ns w) (Hf : ns_files ns !! i = Some f) (Hm : meta_wf f) (Hu : length u < MAX_USERNAME_LENGTH).
Context (Hw : sound w') (Hless : no_less (held_by w) (held_by w')).
Abbreviation g := (file_add_access f u gr gw).1.

Lemma covers_before doc : doc ∈ ss_files (held_by w') → fr_filename doc = fm_filename f → covers f doc.
Proof.
  intros Hin Hn. destruct (Hless doc Hin) as (doc0 & Hin0 & Hn0 & Ho0 & Hmay).
  destruct (te_covered _ _ Ht doc0 Hin0) as (f0 & Hf0 & Hcov).
  pose proof (registry_at _ (tn_wf _ (te_ns _ _ Ht)) i f Hf) as Hreg. rewrite Hn0 Hn in Hf0.
  assert (f0 = f) as -> by congruence. by eapply may_more_covers.
Qed.

Lemma granted_half : tidy_ns (update_file ns i g) ∧ ns_files (update_file ns i g) !! i = Some g ∧
  covered_but (fm_filename g) (registry (update_file ns i g)) (held_by w').
Proof.
  destruct (add_access_same f u gr gw Hm Hu) as [Hsame Hg].
  destruct (update_tidy ns i f g (te_ns _ _ Ht) Hf Hsame Hg) as [Hns Heq]. split; [done|]. split; [by eapply updated_at|].
  destruct Hsame as (Hname & _). rewrite Heq Hname. apply covered_insert, covered_forget.
  eapply covered_no_less; [apply Ht|done].
Qed.

(** The grant is taken back, with what the user had before. *)
Lemma grant_undone : tended (change_file (update_file ns i g) i (λ f, (file_remove_access f u).1)) w'.
Proof.
  destruct granted_half as (Hns & Hg & Hc). destruct (add_access_same f u gr gw Hm Hu) as [(Hname & Hd & Ho) Hmg].
  destruct (remove_access_same g u Hmg Hu) as (Hsame & Hmh & Hr & Hx).
  rewrite (change_file_update _ _ _ _ Hg). apply settled_by_change with g; [done..|].
  intros doc Hin Hn. rewrite Hname in Hn. apply (tame_covers f); [|by apply covers_before].
  destruct (add_access_adds f u gr gw Hm Hu) as [Hra Hwa]. destruct Hsame as (_ & Hd' & Ho'). split; [congruence|congruence|..].
  - intros v [Hv [?|[? _]]%Hra]%Hr; [done|congruence].
  - intros v [Hv [?|[? _]]%Hwa]%Hx; [done|congruence].
Qed.

(** The storage server granted as much. *)
Lemma grant_settled :
  (∀ doc, doc ∈ ss_files (held_by w') → fr_filename doc = fm_filename f →
     (gr || gw = true → may doc false u) ∧ (gw = true → may doc true u)) →
  tended (update_file ns i g) w'.
Proof.
  intros Hgrant. destruct granted_half as (Hns & Hg & Hc). apply (settled _ _ i g); [done..|].
  destruct (add_access_same f u gr gw Hm Hu) as [(Hname & Hd & Ho) _]. rewrite Hname. intros doc Hin Hn.
  destruct (covers_before doc Hin Hn) as [Hcd Hco Hcr Hcw]. destruct (Hgrant doc Hin Hn) as [Hr Hx].
  destruct (add_access_adds f u gr gw Hm Hu) as [Hra Hwa]. split; [congruence|congruence|..].
  - intros v [?|[-> Hgg]]%Hra; [auto|]. by apply Hr.
  - intros v [?|[-> ->]]%Hwa; [auto|]. by apply Hx.
Qed.

(** A full list: there is no such document. *)
Lemma grant_failed : (file_add_access f u gr gw).2 ≠ 0%Z → tended (update_file ns i g) w'.
Proof.
  intros Hr. destruct granted_half as (Hns & Hg & Hc). apply (settled _ _ i g); [done..|].
  destruct (add_access_same f u gr gw Hm Hu) as [(Hname & _ & _) _]. rewrite Hname. intros doc Hin Hn.
  destruct (covers_room w' f doc Hw Hin Hm (covers_before doc Hin Hn)) as [Hr1 Hr2].
  pose proof (file_add_access_spec f u gr gw Hm Hu) as Hs. destruct (file_add_access f u gr gw) as [g' r].
  destruct Hs as (_ & _ & _ & _ & _ & Hok). by specialize (Hok Hr1 Hr2).
Qed.
End grant.

Lemma addaccess_tended w ns msg : tended ns w → Forall plain msg →
  let '(w', ns', _) := handle_addaccess w ns ctx msg in tended ns' w'.
Proof.
  intros Ht Hmsg. unfold handle_addaccess, addaccess_begin. case_decide; [done|].
  destruct (negb _ || negb _) eqn:Hv; [done|]. apply orb_false_iff in Hv as [Hvf%negb_false_iff Hvu%negb_false_iff].
  pose proof (fld_plain msg 1 Hmsg) as Hp. pose proof (valid_short _ Hvf) as Hlen. set (name := fld msg 1) in *. set (u := fld msg 2) in *.
  assert (Hu : length u < MAX_USERNAME_LENGTH) by (by apply validate_username_spec in Hvu as (_ & ? & _)).
  destruct (parse_permission_flags _) as [[gr gw]|] eqn:Hflags; [|done]. destruct (streq _ _); [done|].
  pose proof Ht as [[Hwf _ _ _] Hw _]. pose proof (lookup_refines [] ns name Hwf) as Hl.
  destruct (file_lookup_locked ns name) as [ns1 r] eqn:Hlk. apply lookup_said in Hlk as Hs1.
  destruct Hl as ([Hwf1 _] & _ & _ & Hr). pose proof (said_here _ _ _ Ht Hwf1 Hs1) as Ht1.
  destruct r as [i|]; [|done]. destruct Hr as (f & Hf & Hname & _ & Hm). rewrite Hf. change (default meta0 (Some f)) with f.
  destruct (negb _); [done|]. destruct (is_fm_owner f u); [done|].
  pose proof (λ w' Hs Hl, grant_failed w w' ns1 i f u gr gw Ht1 Hf Hm Hu Hs Hl) as Hfail.
  pose proof (λ w' Hs Hl, grant_undone w w' ns1 i f u gr gw Ht1 Hf Hm Hu Hs Hl) as Hundo.
  pose proof (λ w' Hs Hl, grant_settled w w' ns1 i f u gr gw Ht1 Hf Hm Hu Hs Hl) as Hdone.
  destruct (file_add_access f u gr gw) as [g r]. cbn [fst snd] in *.
  destruct (r =? 0)%Z eqn:Hr0; cbn [negb]; [|apply Hfail; [done|done|by apply Z.eqb_neq]].
  destruct (server_of _ g) as [ss|]; [|by apply Hundo]. unfold complete.
  assert (Htok : permission_token gr gw = match permission_token gr gw with [] => $"R" | token => token end).
  { unfold parse_permission_flags in Hflags. repeat case_match; simplify_eq; done. }
  pose proof (cu_grant w ss name u gr gw Hw Hp Hlen Hvu) as Hask. cbv zeta in Hask. rewrite -Htok in Hask.
  destruct (ask w ss _) as [w' resp]. destruct Hask as (Hw' & Hless & Hresp). unfold addaccess_finish. cbn [pa_index pa_user].
  destruct (check_response resp _) as [[code detail]|m] eqn:Hc; [by apply Hundo|].
  destruct Hresp as [Hd|Hgrant]; [exfalso; eapply confirmed_not_declined; [by exists m|done]|].
  assert (Ht2 : tended (update_file ns1 i g) w') by (apply Hdone; [done|done|by rewrite Hname]).
  eapply said_here; [exact Ht2| |done]. apply (refines_save []), Ht2.
Qed.

(** *** REMACCESS *)

Section revocation.
Context (w : W) (ns : NameServer) (i : nat) (f : FileMetadata) (u : cstr).
Context (Ht : tended ns w) (Hf : ns_files ns !! i = Some f) (Hm : meta_wf f) (Hu : length u < MAX_USERNAME_LENGTH).
Abbreviation g := (file_remove_access f u).1.

Lemma revoked_half w' : no_less_but (fm_filename f) u (held_by w) (held_by w') →
  tidy_ns (update_file ns i g) ∧ ns_files (update_file ns i g) !! i = Some g ∧
  covered_but (fm_filename g) (registry (update_file ns i g)) (held_by w').
Proof.
  intros Hless. destruct (remove_access_same f u Hm Hu) as (Hsame & Hg & _).
  destruct (update_tidy ns i f g (te_ns _ _ Ht) Hf Hsame Hg) as [Hns Heq]. split; [done|]. split; [by eapply updated_at|].
  destruct Hsame as (Hname & _). rewrite Heq Hname. apply covered_insert. eapply covered_but_less; [|exact Hless].
  apply covered_forget, Ht.
Qed.

(** The user gets back what he had, and the right to read if he could write. *)
Lemma revocation_undone w' : sound w' → no_less (held_by w) (held_by w') →
  tended (change_file (update_file ns i g) i
    (λ h, (file_add_access h u (file_acl_contains (fm_read_users f) u) (file_acl_contains (fm_write_users f) u)).1)) w'.
Proof.
  intros Hw' Hless. destruct (revoked_half w' (no_less_any _ _ _ _ Hless)) as (Hns & Hg & Hc).
  destruct (remove_access_same f u Hm Hu) as ((Hname & Hd & Ho) & Hmg & Hr & Hx).
  rewrite (change_file_update _ _ _ _ Hg). pose proof Hm as (_ & Hrd & Hwr).
  pose proof (file_acl_contains_spec _ u Hrd Hu) as Hhr. pose proof (file_acl_contains_spec _ u Hwr Hu) as Hhw.
  revert Hhr Hhw. generalize (file_acl_contains (fm_read_users f) u) as hr, (file_acl_contains (fm_write_users f) u) as hw.
  intros hr hw Hhr Hhw. destruct (add_access_same g u hr hw Hmg Hu) as [Hsame Hmh].
  apply settled_by_change with g; [done..|]. intros doc Hin Hn. rewrite Hname in Hn.
  destruct (covers_before w w' ns i f Ht Hf Hless doc Hin Hn) as [Hcd Hco Hcr Hcw].
  destruct (add_access_adds g u hr hw Hmg Hu) as [Hra Hwa]. destruct Hsame as (_ & Hd' & Ho').
  assert (Hmore : may doc true u → may doc false u) by (intros [?|[?|[? ?]]]; [by left|by right; left|done]).
  split; [congruence|congruence|..].
  - intros v [[_ ?]%Hr|[-> Hh]]%Hra; [by apply Hcr|]. apply orb_true_iff in Hh as [?%Hhr|?%Hhw]; auto.
  - intros v [[_ ?]%Hx|[-> ?%Hhw]]%Hwa; by apply Hcw.
Qed.

Lemma revocation_settled w' : sound w' → no_less_but (fm_filename f) u (held_by w) (held_by w') → tended (update_file ns i g) w'.
Proof.
  intros Hw' Hless. destruct (revoked_half w' Hless) as (Hns & Hg & Hc). apply (settled _ _ i g); [done..|].
  destruct (remove_access_same f u Hm Hu) as ((Hname & Hd & Ho) & _ & Hr & Hx). rewrite Hname. intros doc Hin Hn.
  destruct (Hless doc Hin) as (doc0 & Hin0 & Hn0 & Ho0 & Hmay).
  destruct (te_covered _ _ Ht doc0 Hin0) as (f0 & Hf0 & [Hcd Hco Hcr Hcw]).
  pose proof (registry_at _ (tn_wf _ (te_ns _ _ Ht)) i f Hf) as Hreg. rewrite Hn0 Hn in Hf0.
  assert (f0 = f) as -> by congruence. split; [congruence|congruence|..].
  - intros v [Hv ?]%Hr. auto.
  - intros v [Hv ?]%Hx. auto.
Qed.
End revocation.

Lemma remaccess_tended w ns msg : tended ns w → Forall plain msg →
  let '(w', ns', _) := handle_remaccess w ns ctx msg in tended ns' w'.
Proof.
  intros Ht Hmsg. unfold handle_remaccess, remaccess_begin. case_decide; [done|].
  destruct (negb _ || negb _) eqn:Hv; [done|]. apply orb_false_iff in Hv as [Hvf%negb_false_iff Hvu%negb_false_iff].
  pose proof (fld_plain msg 1 Hmsg) as Hp. pose proof (valid_short _ Hvf) as Hlen. set (name := fld msg 1) in *. set (u := fld msg 2) in *.
  assert (Hu : length u < MAX_USERNAME_LENGTH) by (by apply validate_username_spec in Hvu as (_ & ? & _)).
  destruct (streq _ _); [done|].
  pose proof Ht as [[Hwf _ _ _] Hw _]. pose proof (lookup_refines [] ns name Hwf) as Hl.
  destruct (file_lookup_locked ns name) as [ns1 r] eqn:Hlk. apply lookup_said in Hlk as Hs1.
  destruct Hl as ([Hwf1 _] & _ & _ & Hr). pose proof (said_here _ _ _ Ht Hwf1 Hs1) as Ht1.
  destruct r as [i|]; [|done]. destruct Hr as (f & Hf & Hname & _ & Hm). rewrite Hf. change (default meta0 (Some f)) with f.
  destruct (negb _); [done|]. cbv zeta.
  pose proof (revocation_undone w ns1 i f u Ht1 Hf Hm Hu) as Hundo. pose proof (revocation_settled w ns1 i f u Ht1 Hf Hm Hu) as Hdone.
  destruct (file_remove_access f u) as [g removed]. cbn [fst snd] in *. destruct (negb removed); [done|].
  destruct (server_of _ g) as [ss|]; [|by apply Hundo]. unfold complete.
  pose proof (cu_revoke w ss name u Hw Hp Hlen Hvu) as Hask.
  destruct (ask w ss _) as [w' resp]. destruct Hask as (Hw' & Hresp). unfold remaccess_finish. cbn [pr_index pr_user pr_had_read pr_had_write].
  destruct Hresp as [[Hd Hless]|[[m Hc] Hless]].
  - destruct (declined_check resp ($"OK_ACCESS_CHANGED") Hd) as (code & detail & ->). by apply Hundo.
  - rewrite Hc. assert (Ht2 : tended (update_file ns1 i g) w') by (apply Hdone; [done|by rewrite Hname]).
    eapply said_here; [exact Ht2| |done]. apply (refines_save []), Ht2.
Qed.

(** *** APPROVEACCESS *)

Lemma pending_tended w ns k pending : tended ns w → tended (change_request ns k pending) w.
Proof. intros Ht. eapply said_here; [done| |apply change_request_said]. apply (change_request_wf ctx), Ht. Qed.

Lemma approve_tended w ns msg : tended ns w →
  let '(w', ns', _) := handle_approve_access w ns ctx msg in tended ns' w'.
Proof.
  intros Ht. unfold handle_approve_access, approve_begin. case_decide; [done|].
  destruct (find_request ns _) as [k|]; [|done]. destruct (ns_requests ns !! k) as [req|] eqn:Hk; [|done].
  destruct (negb _); [done|]. pose proof Ht as [[Hwf _ Hq _] Hw _].
  destruct (Forall_lookup_1 _ _ _ _ Hq Hk) as (Hp & Hlen & Hvu). set (name := ar_filename req) in *. set (u := ar_from_user req) in *.
  assert (Hu : length u < MAX_USERNAME_LENGTH) by (by apply validate_username_spec in Hvu as (_ & ? & _)).
  pose proof (lookup_refines [] ns name Hwf) as Hl.
  destruct (file_lookup_locked ns name) as [ns1 r] eqn:Hlk. apply lookup_said in Hlk as Hs1.
  destruct Hl as ([Hwf1 _] & _ & (c & t & Hns1) & Hr). pose proof (said_here _ _ _ Ht Hwf1 Hs1) as Ht1.
  destruct r as [i|]; [|done]. destruct Hr as (f & Hf & Hname & _ & Hm). rewrite Hf. change (default meta0 (Some f)) with f.
  cbv zeta. set (gr := ar_grant_read req). set (gw := ar_grant_write req).
  assert (Hk1 : ns_requests ns1 !! k = Some req) by by rewrite Hns1. clear Hns1.
  set (g := (file_add_access f u gr gw).1). set (ns2 := change_request (update_file ns1 i g) k false).
  assert (Hundo : ∀ w', sound w' → no_less (held_by w) (held_by w') → tended (approve_rollback ns2 (mkPendingApproval k i)) w').
  { intros w' Hw' Hless. unfold approve_rollback. cbn [pp_request pp_index].
    assert (Hk2 : ns_requests ns2 !! k = Some (set_pending req false)).
    { unfold ns2, change_request. cbn. by rewrite list_lookup_alter_eq Hk1. }
    rewrite Hk2. apply pending_tended. change (ar_from_user (set_pending req false)) with u.
    change (tended (change_request (change_file (update_file ns1 i g) i (λ f, (file_remove_access f u).1)) k false) w').
    apply pending_tended. by apply (grant_undone w). }
  destruct (server_of ns2 g) as [ss|]; [|by apply Hundo]. unfold complete.
  pose proof (cu_grant w ss name u gr gw Hw Hp Hlen Hvu) as Hask. cbv zeta in Hask.
  destruct (ask w ss _) as [w' resp]. destruct Hask as (Hw' & Hless & Hresp). unfold approve_finish.
  destruct resp as [e|raw]; [by apply Hundo|]. destruct (protocol_is_error _) eqn:He; [by apply Hundo|].
  destruct Hresp as [Hd|Hgrant]; [unfold declined in Hd; congruence|]. cbn [fst].
  apply pending_tended. apply (grant_settled w); [done..|by rewrite Hname].
Qed.

(** *** DELETE *)

(** The plan asks the servers of all files. *)
Lemma delete_plan_files ns path dir files plan name :
  delete_plan ns (cx_username ctx) path dir files = inr plan → name ∈ map de_path plan →
  (∃ f, f ∈ files ∧ fm_filename f = name ∧ fm_is_directory f = true) ∨ ∃ e, e ∈ plan ∧ de_path e = name ∧ de_ss e ≠ None.
Proof.
  revert plan. induction files as [|fm files IH]; intros plan; cbn [delete_plan]; [by intros [= <-] ?%elem_of_nil|].
  destruct (negb (in_subtree _ _ _)).
  { intros Hp Hn. destruct (IH _ Hp Hn) as [(f & ? & ? & ?)|?]; [left; exists f; split_and!; [by right|done..]|by right]. }
  destruct (negb _); [done|]. cbv zeta. destruct (negb (fm_is_directory fm) && _) eqn:Hs; [done|].
  destruct (delete_plan _ _ _ _ files) as [e|rest]; [done|]. intros [= <-]. cbn [map]. intros [->|Hn]%elem_of_cons.
  - destruct (fm_is_directory fm) eqn:Hd; [left; exists fm; split_and!; [by left|done..]|right].
    eexists. split; [by left|]. cbn. split; [done|]. cbn in Hs. by apply bool_decide_eq_false in Hs.
  - destruct (IH rest eq_refl Hn) as [(f & ? & ? & ?)|(e & ? & ? & ?)].
    + left. exists f. split_and!; [by right|done..].
    + right. exists e. split_and!; [by right|done..].
Qed.

Lemma declined_deletion r : declined r → delete_result r ≠ None.
Proof. unfold declined, delete_result. destruct r as [st|raw]; [done|]. by intros ->. Qed.

(** What was deleted before an error stays deleted. *)
Lemma delete_servers_tended plan w w' r : sound w → Forall (λ e, plain (de_path e) ∧ length (de_path e) < MAX_FILENAME_LENGTH) plan →
  delete_servers w plan = (w', r) →
  sound w' ∧ no_less (held_by w) (held_by w') ∧
  (r = None → ∀ e, e ∈ plan → de_ss e ≠ None → de_path e ∉ map fr_filename (ss_files (held_by w'))).
Proof.
  revert w. induction plan as [|e plan IH]; intros w Hw Hall; cbn [delete_servers].
  { intros [= <- <-]. split_and!; [done|done|]. by intros _ e ?%elem_of_nil. }
  apply Forall_cons in Hall as [[Hp Hl] Hall]. destruct (de_ss e) as [ss|] eqn:Hs.
  - pose proof (cu_delete w ss (de_path e) Hw Hp Hl) as Hask. destruct (ask w ss _) as [w1 resp].
    destruct Hask as (Hw1 & Hless & Hresp). destruct (delete_result resp) as [e'|] eqn:Hr; [intros [= <- <-]; by split_and!|].
    intros Hrest. destruct (IH w1 Hw1 Hall Hrest) as (Hw' & Hless' & Hgone). split; [done|]. split; [by etrans|].
    intros Hok e' [->|He']%elem_of_cons Hne; [|by apply Hgone]. eapply no_less_names; [exact Hless'|].
    destruct Hresp as [Hd|?]; [|done]. by apply declined_deletion in Hd.
  - intros Hrest. destruct (IH w Hw Hall Hrest) as (Hw' & Hless' & Hgone). split_and!; [done|done|].
    intros Hok e' [->|He']%elem_of_cons Hne; [done|by apply Hgone].
Qed.

(** The requests for what is deleted are cancelled, and the servers are the same. *)
Lemma cancel_requests_ok ns path : Forall request_ok (ns_requests ns) → Forall request_ok (ns_requests (cancel_requests ns path)).
Proof. intros Hq. unfold cancel_requests. cbn. apply Forall_map. eapply Forall_impl; [exact Hq|]. intros req Hreq. by case_match. Qed.

Lemma remove_requests ns name : ns_requests (remove_file_metadata_locked ns name).1 = ns_requests ns.
Proof. unfold remove_file_metadata_locked. by repeat case_match. Qed.

Lemma delete_entry_requests ns e : Forall request_ok (ns_requests ns) → Forall request_ok (ns_requests (delete_entry ns e)).
Proof.
  intros Hq. unfold delete_entry. pose proof (remove_requests ns (de_path e)) as Hr.
  destruct (remove_file_metadata_locked ns (de_path e)) as [ns1 []]; cbn [fst] in Hr; [|by rewrite Hr].
  apply cancel_requests_ok. destruct (de_ss e); cbn; by rewrite Hr.
Qed.

Lemma delete_registry_requests rounds ns plan :
  Forall request_ok (ns_requests ns) → Forall request_ok (ns_requests (delete_registry rounds ns plan)).
Proof.
  revert ns plan. induction rounds as [|rounds IH]; intros ns plan Hq; cbn [delete_registry]; [done|].
  destruct (longest _ _ _ _) as [best|]; [|done]. destruct (plan !! best) as [e|]; [|done].
  by apply IH, delete_entry_requests.
Qed.

Lemma wires_length ns ns' : wires ns' = wires ns → length (ns_servers ns') = length (ns_servers ns).
Proof. intros Hw. apply (f_equal fst), (f_equal length) in Hw. cbn in Hw. by rewrite !length_map in Hw. Qed.

(** The plan, and what it asks for. *)
Lemma delete_prepare_tended ns w path : tended ns w →
  let '(ns1, r) := delete_prepare ns (cx_username ctx) path in
  tended ns1 w ∧ registry ns1 = registry ns ∧
  match r with
  | inl _ => True
  | inr plan =>
      Forall (λ e, plain (de_path e) ∧ length (de_path e) < MAX_FILENAME_LENGTH) plan ∧
      (∀ e f, e ∈ plan → registry ns !! de_path e = Some f → fm_owner f = cx_username ctx) ∧
      ∀ name, name ∈ map de_path plan →
        (∃ f, registry ns !! name = Some f ∧ fm_is_directory f = true) ∨ ∃ e, e ∈ plan ∧ de_path e = name ∧ de_ss e ≠ None
  end.
Proof.
  intros Ht. pose proof Ht as [[Hwf Hns _ _] _ _]. pose proof (delete_prepare_spec ctx user_short ns path Hwf) as Hpre.
  assert (Hs : said (delete_prepare ns (cx_username ctx) path).1 = said ns ∧
    ∀ plan, (delete_prepare ns (cx_username ctx) path).2 = inr plan →
      ∃ dir, delete_plan (delete_prepare ns (cx_username ctx) path).1 (cx_username ctx) path dir
               (ns_files (delete_prepare ns (cx_username ctx) path).1) = inr plan).
  { unfold delete_prepare. destruct (file_lookup_locked ns path) as [ns1 [i|]] eqn:Hlk; apply lookup_said in Hlk; [|done].
    destruct (negb _); [done|]. destruct (delete_plan _ _ _ _ _) as [e|[|e plan]] eqn:Hp; [done..|].
    split; [done|]. intros plan' [= <-]. by eexists. }
  destruct (delete_prepare ns (cx_username ctx) path) as [ns1 r]. cbn [fst snd] in Hs. destruct Hs as [Hs Hplan].
  destruct Hpre as ([Hwf1 _] & Hreg & _ & Hr). split; [by eapply said_here|]. split; [done|].
  destruct r as [e|plan]; [done|]. destruct Hr as (f & _ & Hnames & Hown). split_and!.
  - apply Forall_forall. intros e He. apply (list_elem_of_fmap_2 de_path) in He. apply Hnames in He as [[g Hg] _].
    exact (Hns _ _ Hg).
  - intros e g He Hg. eapply Hown; [exact Hg|]. apply (Hnames (de_path e)). by apply list_elem_of_fmap_2.
  - intros name Hin. destruct (Hplan plan eq_refl) as [dir Hd].
    destruct (delete_plan_files _ _ _ _ _ _ Hd Hin) as [(h & Hh & Hn & Hdir)|?]; [left|by right].
    exists h. split; [|done]. rewrite -Hreg -Hn. by apply registry_elem.
Qed.

Lemma delete_tended w ns msg : tended ns w →
  let '(w', ns', _) := handle_delete w ns ctx msg in tended ns' w'.
Proof.
  intros Ht. unfold handle_delete. case_decide; [done|]. destruct (negb _); [done|]. destruct (streq _ _); [done|].
  pose proof (delete_prepare_tended ns w (fld msg 1) Ht) as Hpre.
  destruct (delete_prepare ns (cx_username ctx) (fld msg 1)) as [ns1 [[code detail]|plan]]; destruct Hpre as (Ht1 & Hreg1 & Hpre); [done|].
  destruct Hpre as (Hall & Hown & Hplan). destruct (delete_servers w plan) as [w' r] eqn:Hds.
  destruct (delete_servers_tended plan w w' r (te_sound _ _ Ht) Hall Hds) as (Hw' & Hless & Hgone).
  pose proof Ht1 as [[Hwf1 Hn Hq Ha] _ _]. assert (Ht2 : tended ns1 w') by (by eapply said_tended).
  destruct r as [[code detail]|]; [done|]. specialize (Hgone eq_refl).
  pose proof (delete_registry_spec ctx user_short (length plan) ns1 plan eq_refl Hwf1) as Hdel. cbv zeta in Hdel.
  destruct Hdel as ([Hwf' _] & Hreg' & _); [by rewrite Hreg1|].
  pose proof (delete_registry_requests (length plan) ns1 plan Hq) as Hq'.
  pose proof (wires_length _ _ (delete_registry_wires (length plan) ns1 plan)) as Hlen'. revert Hwf' Hreg' Hq' Hlen'.
  generalize (delete_registry (length plan) ns1 plan) as ns'. intros ns' Hwf' Hreg' Hq' Hlen'.
  apply (said_here ns'); [|by apply (refines_save [])|apply save_said]. split; [|done|].
  - split; [done| |done|by rewrite Hlen']. intros name g Hg. rewrite Hreg' in Hg. case_decide; [done|]. by apply (Hn name g).
  - intros doc Hin. destruct (te_covered _ _ Ht2 doc Hin) as (g & Hg & Hcov). exists g. split; [|done]. rewrite Hreg'.
    case_decide as Hin'; [|done]. exfalso. destruct (Hplan _ Hin') as [(h & Hh & Hd)|(e & He & Hne & Hss)].
    + rewrite -Hreg1 Hg in Hh. injection Hh as ->. destruct Hcov. congruence.
    + apply (Hgone e He Hss). rewrite Hne. by apply list_elem_of_fmap_2.
Qed.

(** *** Every command but MOVE *)

Lemma alone_tended w (r : NameServer * Outbox) : tended r.1 w → let '(w', ns', _) := alone w r in tended ns' w'.
Proof. done. Qed.

Lemma quiet_tended w ns (r : NameServer * Outbox) : tended ns w → ns_wf r.1 → said r.1 = said ns →
  let '(w', ns', _) := alone w r in tended ns' w'.
Proof. intros Ht Hwf Hs. by eapply said_here. Qed.

Lemma client_tended w ns msg now : tended ns w → Forall plain msg → fld msg 0 ≠ $"MOVE" →
  let '(w', ns', _) := client_command format_time shell w ns ctx msg now in tended ns' w'.
Proof.
  intros Ht Hmsg Hmove%streq_false. pose proof (tn_wf _ (te_ns _ _ Ht)) as Hwf. unfold client_command. rewrite Hmove.
  repeat match goal with |- context [if streq (fld msg 0) ?c then _ else _] => destruct (streq (fld msg 0) c) end; try done.
  - apply (quiet_tended w ns); [done| |apply view_said]. by apply (refines_view ctx).
  - apply (quiet_tended w ns); [done| |apply info_said]. by apply (refines_info ctx).
  - by apply exec_tended.
  - by apply alone_tended, request_tended.
  - by apply approve_tended.
  - apply (quiet_tended w ns); [done| |apply reject_said]. by apply (refines_reject ctx).
  - by apply copy_tended.
  - by apply create_tended.
  - by apply alone_tended, folder_tended.
  - apply (quiet_tended w ns); [done| |apply viewfolder_said]. by apply (refines_viewfolder ctx).
  - by apply delete_tended.
  - apply (quiet_tended w ns); [done| |apply loc_said]. by apply (refines_req_loc ctx user_short).
  - by apply addaccess_tended.
  - by apply remaccess_tended.
Qed.
End asking.

(** What a storage server tells on its own. *)
Lemma event_tended w ns ss msg now : tended ns w → tended (ss_message ns ss msg now) w.
Proof.
  intros Ht. eapply said_here; [done| |].
  - apply ss_message_wf, Ht.
  - apply ss_message_said. unfold ids_distinct. pose proof (tn_alone _ (te_ns _ _ Ht)) as Ha.
    destruct (ns_servers ns) as [|s [|]]; cbn in Ha |- *; [constructor|apply NoDup_singleton|lia].
Qed.
End promises.
