(* ===== verification/NSKept.v ===== *)
(** * What locations and events keep

    REQ_LOC and the events of a storage server change times, counts and loads,
    but no file's owner, place or rights: what a client relies on between the
    commands of a session. *)
From S2P Require Import Prelude CStr Utils Protocol Disk NSMeta NSState NSIndex NSPersist NSPeer NSQueries NSServe NSSpec NSRefine NSCommands.

Record same_rights (f g : FileMetadata) : Prop := {
  sr_name : fm_filename g = fm_filename f;
  sr_owner : fm_owner g = fm_owner f;
  sr_place : fm_ss_ip g = fm_ss_ip f ∧ fm_ss_port g = fm_ss_port f;
  sr_acl : fm_read_users g = fm_read_users f ∧ fm_write_users g = fm_write_users f
}.

#[export] Instance same_rights_preorder : PreOrder same_rights.
Proof.
  split; [done|]. intros f g h [H1 H2 [H3 H4] [H5 H6]] [K1 K2 [K3 K4] [K5 K6]]. by split; [..|split|split]; congruence.
Qed.

Definition kept (ns ns' : NameServer) : Prop :=
  ns_wf ns → ns_wf ns' ∧
  ∀ name f, registry ns !! name = Some f → ∃ g, registry ns' !! name = Some g ∧ same_rights f g.

#[export] Instance kept_preorder : PreOrder kept.
Proof.
  split; [intros ns Hwf; split; [done|]; intros name f Hf; by exists f|].
  intros ns1 ns2 ns3 H12 H23 Hwf. destruct (H12 Hwf) as [Hwf2 Hk]. destruct (H23 Hwf2) as [Hwf3 Hk'].
  split; [done|]. intros name f (g & Hg & Hfg)%Hk. destruct (Hk' _ _ Hg) as (h & Hh & Hgh). exists h. split; [done|by etrans].
Qed.

(** The access rights are those of the owner and the lists. *)
Lemma same_rights_write f g u : same_rights f g → file_has_write_access g u = file_has_write_access f u.
Proof. intros [_ Ho _ [Hr Hw]]. unfold file_has_write_access, is_fm_owner. by rewrite Ho Hw. Qed.

Lemma same_rights_read f g u : same_rights f g → file_has_read_access g u = file_has_read_access f u.
Proof. intros [_ Ho _ [Hr Hw]]. unfold file_has_read_access, is_fm_owner. by rewrite Ho Hr Hw. Qed.

Lemma kept_frame ns ns' :
  (ns_wf ns → ns_wf ns') → registry ns' = registry ns → kept ns ns'.
Proof. intros Hwf Heq Hns. split; [by apply Hwf|]. rewrite Heq. intros name f Hf. by exists f. Qed.

(** A file that is replaced by one of the same rights. *)
Lemma kept_update ns i f g :
  ns_files ns !! i = Some f → same_rights f g → kept ns (update_file ns i g).
Proof.
  intros Hf Hg Hwf. pose proof (registry_at ns Hwf i f Hf) as Hr. pose proof (nf_meta _ Hwf _ _ Hr) as (Ho & Hrd & Hwr).
  destruct (update_wf ns Hwf i f g Hf (sr_name _ _ Hg)) as [Hwf' Heq].
  { destruct Hg as [_ Howner _ [Hr1 Hw1]]. split_and!; by rewrite ?Howner ?Hr1 ?Hw1. }
  split; [done|]. rewrite Heq. intros name h Hh. destruct (decide (name = fm_filename f)) as [->|Hne].
  - assert (h = f) as -> by congruence. exists g. by rewrite lookup_insert_eq.
  - exists h. by rewrite lookup_insert_ne.
Qed.

Lemma kept_store ns i f filename :
  ns_files ns !! i = Some f → fm_filename f = filename → kept ns (file_cache_store ns filename i).
Proof.
  intros Hf Hn Hwf. destruct (file_cache_store_wf ns filename i f (nf_reg _ Hwf) Hf Hn) as [_ (c & t & Heq)].
  revert Hwf. apply kept_frame; [intros Hwf; by eapply store_wf|]. by rewrite Heq.
Qed.

Lemma kept_save ns : kept ns (ns_save_metadata ns).
Proof. apply kept_frame; [|done]. intros Hwf. by apply (refines_save []). Qed.

Lemma kept_servers ns servers : kept ns (set_servers ns servers).
Proof. apply kept_frame; [|done]. apply server_change_wf. Qed.

(** A file found, changed, cached and saved. *)
Lemma kept_touched ns i f g filename :
  ns_files ns !! i = Some f → fm_filename f = filename → same_rights f g →
  kept ns (file_cache_store (update_file ns i g) filename i).
Proof.
  intros Hf Hn Hg. etrans; [by apply (kept_update ns i f g)|]. apply (kept_store _ _ g).
  - by eapply updated_at.
  - by rewrite (sr_name _ _ Hg).
Qed.

Lemma ss_message_kept ns ss msg now : kept ns (ss_message ns ss msg now).
Proof.
  intros Hwf. cut (kept ns (ss_message ns ss msg now)); [intros Hk; by apply Hk|].
  unfold ss_message. case_match; [|done]. unfold write_complete. case_decide; [done|].
  destruct (file_index_find ns (fld msg 1) ≫= _) as [[i file]|] eqn:Hfind; [|done].
  destruct (found_file _ _ _ _ Hwf Hfind) as (Hf & Hn & _).
  etrans; [|apply kept_save]. set (file' := fm_with_modified _ now).
  etrans; [by apply (kept_touched ns i file file' (fld msg 1))|]. case_match; [apply kept_servers|done].
Qed.
