(* ===== verification/ClientIO.v ===== *)
(** * The client's input and output

    The effects of [src/client/client.c]: what a client sees of the two
    servers, its standard input and output, a state monad over them, and the
    [sscanf] conversions its commands use.

    A connection is seen from the client: each message sent brings the messages
    to be received before the next one is sent.  (A message that comes later is
    not distinguishable, since a receive waits for it.)  When none is left, a
    receive sees the end of file if the server has closed the connection, and
    waits for ever otherwise: [recv] has no timeout.  A program's run is
    therefore [Done] with a result or [Blocked].  There is one connection to the
    name server and at most one to a storage server at a time. *)
From S2P Require Import Prelude CStr Utils Protocol.

(** ** The world outside *)

Inductive ConnectResult := NoSocket | BadAddress | Refused | Connected.

(** The servers: opening a connection to the name server (its descriptor, [None]
    when [socket], [inet_pton] or [connect] fails) and closing it, sending to the
    servers ([None]: the send failed), opening and closing a connection to a
    storage server, and whether the server at the other end of a connection has
    closed it, after the messages it sent. *)
Class Remote (W : Type) := {
  ns_connect : W → cstr → Z → W * option Z;
  ns_hangup : W → W;
  ns_deliver : W → cstr → W * option (list cstr);
  ss_connect : W → cstr → Z → W * ConnectResult;
  ss_deliver : W → cstr → W * option (list cstr);
  ss_hangup : W → W;
  ns_closed : W → bool;
  ss_closed : W → bool
}.

(** The servers, the messages still to be received on the two connections, the
    lines of input ([fgets] results) still to be read and the text printed. *)
Record Term (W : Type) := mkTerm {
  tm_world : W;
  tm_ns : list cstr;
  tm_ss : list cstr;
  tm_stdin : list cstr;
  tm_out : cstr
}.
Arguments mkTerm {W} _ _ _ _ _.
Arguments tm_world {W} _.
Arguments tm_ns {W} _.
Arguments tm_ss {W} _.
Arguments tm_stdin {W} _.
Arguments tm_out {W} _.

(** ** The monad *)

(** [Blocked]: inside a [recv] that nothing will ever end. *)
Inductive Outcome (A : Type) := Done (a : A) | Blocked.
Arguments Done {A} _.
Arguments Blocked {A}.

Definition IO (W A : Type) : Type := Term W → Outcome A * Term W.

#[export] Instance io_ret {W} : MRet (IO W) := λ A a t, (Done a, t).
#[export] Instance io_bind {W} : MBind (IO W) := λ A B k m t,
  match m t with
  | (Done a, t) => k a t
  | (Blocked, t) => (Blocked, t)
  end.

Section io.
Context {W : Type} `{Remote W}.

Definition print (s : cstr) : IO W unit :=
  λ t, (Done tt, mkTerm (tm_world t) (tm_ns t) (tm_ss t) (tm_stdin t) (tm_out t ++ s)).

(** [client_send_message] of built fields: [false] is the result -1. *)
Definition send_ns (msg : cstr) : IO W bool := λ t,
  match ns_deliver (tm_world t) msg with
  | (w, Some replies) => (Done true, mkTerm w (tm_ns t ++ replies) (tm_ss t) (tm_stdin t) (tm_out t))
  | (w, None) => (Done false, mkTerm w (tm_ns t) (tm_ss t) (tm_stdin t) (tm_out t))
  end.

Definition send_ss (msg : cstr) : IO W bool := λ t,
  match ss_deliver (tm_world t) msg with
  | (w, Some replies) => (Done true, mkTerm w (tm_ns t) (tm_ss t ++ replies) (tm_stdin t) (tm_out t))
  | (w, None) => (Done false, mkTerm w (tm_ns t) (tm_ss t) (tm_stdin t) (tm_out t))
  end.

Definition connect_ns (ip : cstr) (port : Z) : IO W (option Z) := λ t,
  let '(w, r) := ns_connect (tm_world t) ip port in
  (Done r, mkTerm w [] (tm_ss t) (tm_stdin t) (tm_out t)).

Definition hangup_ns : IO W unit := λ t,
  (Done tt, mkTerm (ns_hangup (tm_world t)) [] (tm_ss t) (tm_stdin t) (tm_out t)).

(** [client_read_response] and [client_receive_ss_message]: the fields of the
    next message, [None] when the connection is lost (parsing never fails).
    Without a message the function does not return, unless the server has
    closed the connection. *)
Definition receive_ns : IO W (option (list cstr)) := λ t,
  match tm_ns t with
  | raw :: rest => (Done (Some (protocol_parse_message raw)), mkTerm (tm_world t) rest (tm_ss t) (tm_stdin t) (tm_out t))
  | [] => (if ns_closed (tm_world t) then Done None else Blocked, t)
  end.

Definition receive_ss : IO W (option (list cstr)) := λ t,
  match tm_ss t with
  | raw :: rest => (Done (Some (protocol_parse_message raw)), mkTerm (tm_world t) (tm_ns t) rest (tm_stdin t) (tm_out t))
  | [] => (if ss_closed (tm_world t) then Done None else Blocked, t)
  end.

(** [socket], [inet_pton] and [connect]. *)
Definition connect (ip : cstr) (port : Z) : IO W ConnectResult := λ t,
  let '(w, r) := ss_connect (tm_world t) ip port in
  (Done r, mkTerm w (tm_ns t) [] (tm_stdin t) (tm_out t)).

(** [close]: what was not received is lost. *)
Definition hangup : IO W unit := λ t,
  (Done tt, mkTerm (ss_hangup (tm_world t)) (tm_ns t) [] (tm_stdin t) (tm_out t)).

(** [fgets] on the input. *)
Definition read_line : IO W (option cstr) := λ t,
  match tm_stdin t with
  | line :: rest => (Done (Some line), mkTerm (tm_world t) (tm_ns t) (tm_ss t) rest (tm_out t))
  | [] => (Done None, t)
  end.

(** ** Receive loops

    [while (1)] around a receive: the body takes the state and the message to
    the text to print and the next state or the result; [lost] is what happens
    when the connection ends, that is when no message is left and the server has
    [closed] it. *)
Fixpoint recv_loop {S A} (closed : bool) (body : S → list cstr → cstr * (S + A)) (lost : S → cstr * A) (s : S)
    (msgs : list cstr) : cstr * Outcome A * list cstr :=
  match msgs with
  | [] => if closed then let '(out, a) := lost s in (out, Done a, []) else ([], Blocked, [])
  | raw :: rest =>
      match body s (protocol_parse_message raw) with
      | (out, inr a) => (out, Done a, rest)
      | (out, inl s) => let '(out', a, rest) := recv_loop closed body lost s rest in (out ++ out', a, rest)
      end
  end.

Definition loop_ns {S A} (body : S → list cstr → cstr * (S + A)) (lost : S → cstr * A) (s : S) : IO W A := λ t,
  let '(out, a, rest) := recv_loop (ns_closed (tm_world t)) body lost s (tm_ns t) in
  (a, mkTerm (tm_world t) rest (tm_ss t) (tm_stdin t) (tm_out t ++ out)).

Definition loop_ss {S A} (body : S → list cstr → cstr * (S + A)) (lost : S → cstr * A) (s : S) : IO W A := λ t,
  let '(out, a, rest) := recv_loop (ss_closed (tm_world t)) body lost s (tm_ss t) in
  (a, mkTerm (tm_world t) (tm_ns t) rest (tm_stdin t) (tm_out t ++ out)).
End io.

(** ** [sscanf] *)

Definition not_space (c : ascii) : bool := negb (isspace c).

(** [%<n>s]: the word and the rest, [None] when there is none. *)
Definition scan_s (n : nat) (s : cstr) : option (cstr * cstr) :=
  let s := drop_while isspace s in
  match take n (take_while not_space s) with
  | [] => None
  | word => Some (word, drop (length word) s)
  end.

(** [%s] and [%*s]: without a bound. *)
Definition scan_word (s : cstr) : option (cstr * cstr) := scan_s (length s) s.

Definition scan_skip (s : cstr) : option cstr := snd <$> scan_word s.

(** [%d], whose overflow is that of [strtol] converted to [int]. *)
Definition scan_d (s : cstr) : option (Z * cstr) :=
  let r := strtol s in
  if bool_decide (st_end r = s) then None else Some (wrap32 (st_value r), st_end r).

(** [%*s %511s] and its like: the arguments after the command. *)
Definition scan1 (n : nat) (input : cstr) : option cstr :=
  r ← scan_skip input; '(a, _) ← scan_s n r; Some a.

Definition scan2 (n m : nat) (input : cstr) : option (cstr * cstr) :=
  r ← scan_skip input; '(a, r) ← scan_s n r; '(b, _) ← scan_s m r; Some (a, b).

Definition scan3 (n m k : nat) (input : cstr) : option (cstr * cstr * cstr) :=
  r ← scan_skip input; '(a, r) ← scan_s n r; '(b, r) ← scan_s m r; '(c, _) ← scan_s k r; Some (a, b, c).

Definition scan1d (n : nat) (input : cstr) : option (cstr * Z) :=
  r ← scan_skip input; '(a, r) ← scan_s n r; '(i, _) ← scan_d r; Some (a, i).

Definition scand (input : cstr) : option Z :=
  r ← scan_skip input; '(i, _) ← scan_d r; Some i.

(** ** [printf] conversions *)

(** [%5s] and [%-10s]. *)
Definition pad_left (n : nat) (s : cstr) : cstr := replicate (n - length s) " "%char ++ s.
Definition pad_right (n : nat) (s : cstr) : cstr := s ++ replicate (n - length s) " "%char.
Definition nl (s : cstr) : cstr := s ++ [c_nl].

(** ** Equations *)

Section equations.
Context {W : Type} `{Remote W}.
Implicit Types (w : W) (ns ss i : list cstr) (o : cstr).

Lemma bind_eq {A B} (m : IO W A) (k : A → IO W B) t a t' : m t = (Done a, t') → (m ≫= k) t = k a t'.
Proof. unfold mbind, io_bind. by intros ->. Qed.

Lemma print_eq s w ns ss i o : print s (mkTerm w ns ss i o) = (Done tt, mkTerm w ns ss i (o ++ s)).
Proof. done. Qed.

Lemma send_ns_eq msg w w' replies ns ss i o :
  ns_deliver w msg = (w', Some replies) →
  send_ns msg (mkTerm w ns ss i o) = (Done true, mkTerm w' (ns ++ replies) ss i o).
Proof. unfold send_ns. cbn [tm_world]. by intros ->. Qed.

Lemma send_ss_eq msg w w' replies ns ss i o :
  ss_deliver w msg = (w', Some replies) →
  send_ss msg (mkTerm w ns ss i o) = (Done true, mkTerm w' ns (ss ++ replies) i o).
Proof. unfold send_ss. cbn [tm_world]. by intros ->. Qed.

Lemma receive_ns_eq raw w ns ss i o :
  receive_ns (mkTerm w (raw :: ns) ss i o) = (Done (Some (protocol_parse_message raw)), mkTerm w ns ss i o).
Proof. done. Qed.

Lemma receive_ss_eq raw w ns ss i o :
  receive_ss (mkTerm w ns (raw :: ss) i o) = (Done (Some (protocol_parse_message raw)), mkTerm w ns ss i o).
Proof. done. Qed.

Lemma connect_eq ip port w w' r ns ss i o :
  ss_connect w ip port = (w', r) → connect ip port (mkTerm w ns ss i o) = (Done r, mkTerm w' ns [] i o).
Proof. unfold connect. cbn [tm_world]. by intros ->. Qed.

Lemma hangup_eq w ns ss i o : hangup (mkTerm w ns ss i o) = (Done tt, mkTerm (ss_hangup w) ns [] i o).
Proof. done. Qed.

Lemma loop_ss_eq {S A} (body : S → list cstr → cstr * (S + A)) lost s w ns ss i o out a rest :
  recv_loop (ss_closed w) body lost s ss = (out, a, rest) →
  loop_ss body lost s (mkTerm w ns ss i o) = (a, mkTerm w ns rest i (o ++ out)).
Proof. unfold loop_ss. cbn [tm_world tm_ss]. by intros ->. Qed.

Lemma loop_ns_eq {S A} (body : S → list cstr → cstr * (S + A)) lost s w ns ss i o out a rest :
  recv_loop (ns_closed w) body lost s ns = (out, a, rest) →
  loop_ns body lost s (mkTerm w ns ss i o) = (a, mkTerm w rest ss i (o ++ out)).
Proof. unfold loop_ns. cbn [tm_world tm_ns]. by intros ->. Qed.
End equations.
