(* ===== verification/ClientNS.v ===== *)
(** * The client's commands to the name server

    The handlers of [src/client/client.c] that need only the name server: each
    sends one message and prints what comes back, one response or a stream that
    ends with a marker.  The results are the functions' 0 and -1. *)
From S2P Require Import Prelude CStr Utils Protocol ClientIO.

Definition CLIENT_BUFFER_SIZE : nat := Z.to_nat 8192.

Record Client := mkClientState {
  cc_username : cstr;
  cc_ns_ip : cstr;
  cc_ns_port : Z;
  cc_ns_sockfd : Z
}.

(** A field that may be missing. *)
Definition arg (msg : list cstr) (i : nat) : cstr := default [] (msg !! i).

Definition client_print_ns_response (msg : list cstr) : cstr :=
  if protocol_is_error msg then nl ($"Error: " ++ if decide (3 <= length msg) then arg msg 2 else $"Unknown error")
  else if decide (2 <= length msg) then nl (arg msg 1)
  else nl ($"OK").

Section commands.
Context {W : Type} `{Remote W}.
Context (client : Client).

(** ** Requests *)

(** The start of every handler: without a connection, nothing happens; a failed
    send is reported. *)
Definition request (fields : list cstr) (name : cstr) (k : IO W Z) : IO W Z :=
  if (cc_ns_sockfd client <? 0)%Z then mret (-1)%Z
  else
    match protocol_build_message fields with
    | None => mret (-1)%Z
    | Some message =>
        sent ← send_ns message;
        if (sent : bool) then k
        else print (nl ($"Failed to send " ++ name ++ $" command"));; mret (-1)%Z
    end.

(** One response, printed.  [strict]: an error response is a failure. *)
Definition response (name : cstr) (strict : bool) : IO W Z :=
  r ← receive_ns;
  match r with
  | None => print (nl ($"No response from Name Server for " ++ name));; mret (-1)%Z
  | Some msg => print (client_print_ns_response msg);; mret (if strict && protocol_is_error msg then (-1)%Z else 0%Z)
  end.

Definition simple_command (fields : list cstr) (name : cstr) (strict : bool) : IO W Z :=
  request fields name (response name strict).

(** A refusal of the arguments. *)
Definition refuse (text : cstr) : IO W Z := print (nl text);; mret (-1)%Z.

(** ** Commands with one response *)

Definition client_handle_addaccess (perm_flag filename username : cstr) : IO W Z :=
  let permission :=
    match perm_flag with
    | c :: ((_ :: _) as rest) => if bool_decide (c = "-"%char) then rest else perm_flag
    | _ => perm_flag
    end in
  simple_command [$"ADDACCESS"; filename; username; permission] ($"ADDACCESS") false.

Definition client_handle_remaccess (filename username : cstr) : IO W Z :=
  simple_command [$"REMACCESS"; filename; username] ($"REMACCESS") false.

Definition is_rw (c : ascii) : bool := bool_decide (c = "R"%char) || bool_decide (c = "W"%char).

Definition client_handle_requestaccess (filename permission : cstr) : IO W Z :=
  if (cc_ns_sockfd client <? 0)%Z then mret (-1)%Z
  else if negb (validate_filename filename) then refuse ($"Invalid filename.")
  else
    let perm_token := map toupper (drop_while (λ c, bool_decide (c = "-"%char)) (fit 16 permission)) in
    if negb (forallb is_rw perm_token) then refuse ($"Permission must contain only R or W.")
    else match perm_token with
         | [] => refuse ($"Permission flag must include R or W.")
         | _ => simple_command [$"REQUESTACCESS"; filename; perm_token] ($"REQUESTACCESS") false
         end.

Definition client_handle_approveaccess (request_id : Z) : IO W Z :=
  if (cc_ns_sockfd client <? 0)%Z then mret (-1)%Z
  else if (request_id <=? 0)%Z then refuse ($"Request ID must be positive.")
  else simple_command [$"APPROVEACCESS"; fit 16 (to_dec request_id)] ($"APPROVEACCESS") false.

Definition client_handle_rejectaccess (request_id : Z) : IO W Z :=
  if (cc_ns_sockfd client <? 0)%Z then mret (-1)%Z
  else if (request_id <=? 0)%Z then refuse ($"Request ID must be positive.")
  else simple_command [$"REJECTACCESS"; fit 16 (to_dec request_id)] ($"REJECTACCESS") false.

Definition client_handle_create (filename : cstr) : IO W Z :=
  if (cc_ns_sockfd client <? 0)%Z then mret (-1)%Z
  else if negb (validate_filename filename) then refuse ($"Invalid filename.")
  else simple_command [$"CREATE"; filename] ($"CREATE") true.

Definition client_handle_delete (filename : cstr) : IO W Z :=
  if (cc_ns_sockfd client <? 0)%Z then mret (-1)%Z
  else if negb (validate_filename filename) then refuse ($"Invalid filename.")
  else simple_command [$"DELETE"; filename] ($"DELETE") true.

Definition client_handle_createfolder (path : cstr) : IO W Z :=
  if (cc_ns_sockfd client <? 0)%Z then mret (-1)%Z
  else match path with
       | [] => refuse ($"Folder path cannot be empty.")
       | _ => simple_command [$"CREATEFOLDER"; path] ($"CREATEFOLDER") true
       end.

Definition client_handle_move (source destination : cstr) : IO W Z :=
  if (cc_ns_sockfd client <? 0)%Z then mret (-1)%Z
  else match source, destination with
       | [], _ | _, [] => refuse ($"Source and destination paths cannot be empty.")
       | _, _ => simple_command [$"MOVE"; source; destination] ($"MOVE") true
       end.

Definition client_handle_copy (src dest : cstr) : IO W Z :=
  if (cc_ns_sockfd client <? 0)%Z then mret (-1)%Z
  else if negb (validate_filename src) || negb (validate_filename dest) then refuse ($"Invalid filename(s).")
  else simple_command [$"COPY"; src; dest] ($"COPY") true.

(** ** Commands with a stream of responses *)

(** A reported error response ends the stream. *)
Definition failed {S} (msg : list cstr) : cstr * (S + Z) := (client_print_ns_response msg, inr (-1)%Z).

Definition lost {S} (text : cstr) (_ : S) : cstr * Z := (nl text, (-1)%Z).

(** The check of the VIEW flags: all, details; [None]: another character. *)
Fixpoint client_view_flags (flags : cstr) (all details : bool) : option (bool * bool) :=
  match flags with
  | [] => Some (all, details)
  | c :: rest =>
      if bool_decide (c = "-"%char) || bool_decide (c = " "%char) || bool_decide (c = "009"%char) then
        client_view_flags rest all details
      else if bool_decide (c = "a"%char) || bool_decide (c = "A"%char) then client_view_flags rest true details
      else if bool_decide (c = "l"%char) || bool_decide (c = "L"%char) then client_view_flags rest all true
      else None
  end.

Definition view_row (msg : list cstr) : cstr :=
  nl ($"| " ++ pad_right 10 (arg msg 1) ++ $" | " ++ pad_left 5 (arg msg 3) ++ $" | " ++ pad_left 5 (arg msg 4) ++
      $" | " ++ pad_right 16 (arg msg 5) ++ $" | " ++
      pad_right 5 (match arg msg 2 with [] => $"N/A" | owner => owner end) ++ $" |").

Definition view_rule : cstr := nl ($"---------------------------------------------------------").

Definition view_body (details : bool) (_ : unit) (msg : list cstr) : cstr * (unit + Z) :=
  if streq (arg msg 0) ($"OK_VIEW_END") then ([], inr 0%Z)
  else if bool_decide (2 <= length msg) && streq (arg msg 0) ($"OK_VIEW_L") then
    ((if details && bool_decide (6 <= length msg) then view_row msg
      else if negb details then nl ($"--> " ++ arg msg 1) else []), inl tt)
  else if protocol_is_error msg then failed msg else ([], inl tt).

(** [None] for the flags is no argument. *)
Definition client_handle_view (flags : option cstr) : IO W Z :=
  if (cc_ns_sockfd client <? 0)%Z then mret (-1)%Z
  else
    match client_view_flags (default [] flags) false false with
    | None => refuse ($"Invalid VIEW flag. Use -a, -l, or -al.")
    | Some (_, details) =>
        let fields := match flags with
                      | Some ((_ :: _) as flags) => [$"VIEW"; flags]
                      | _ => [$"VIEW"]
                      end in
        request fields ($"VIEW")
          (print (if details
                  then view_rule ++ nl ($"|  Filename  | Words | Chars | Last Access Time | Owner |") ++
                       nl ($"|------------|-------|-------|------------------|-------|")
                  else []);;
           rc ← loop_ns (view_body details) (lost ($"Connection lost while viewing files")) tt;
           print (if details && (rc =? 0)%Z then view_rule else []);; mret rc)
    end.

Definition list_body (_ : unit) (msg : list cstr) : cstr * (unit + Z) :=
  if streq (arg msg 0) ($"OK_LIST_END") then ([], inr 0%Z)
  else if bool_decide (2 <= length msg) && streq (arg msg 0) ($"OK_LIST") then (nl ($" - " ++ arg msg 1), inl tt)
  else if protocol_is_error msg then failed msg else ([], inl tt).

Definition client_handle_list : IO W Z :=
  request [$"LIST_USERS"] ($"LIST")
    (print (nl ($"Users:"));; loop_ns list_body (lost ($"Connection lost while listing users")) tt).

(** The state is [printed_any]. *)
Definition requests_body (any : bool) (msg : list cstr) : cstr * (bool + Z) :=
  if streq (arg msg 0) ($"OK_REQUEST_LIST_END") then
    ((if any then [] else nl ($"No pending access requests.")), inr 0%Z)
  else if streq (arg msg 0) ($"OK_REQUEST_LIST") && bool_decide (5 <= length msg) then
    (nl ($"  #" ++ arg msg 1 ++ $" " ++ arg msg 3 ++ $" -> " ++ arg msg 2 ++ $" (" ++ arg msg 4 ++ $" access)"), inl true)
  else if protocol_is_error msg then failed msg else ([], inl any).

Definition client_handle_listrequests : IO W Z :=
  request [$"LISTREQUESTS"] ($"LISTREQUESTS")
    (loop_ns requests_body (lost ($"Connection lost while listing requests")) false).

Definition folder_body (any : bool) (msg : list cstr) : cstr * (bool + Z) :=
  if streq (arg msg 0) ($"OK_VIEWFOLDER_END") then ((if any then [] else nl ($"(Folder is empty)")), inr 0%Z)
  else if streq (arg msg 0) ($"OK_VIEWFOLDER") && bool_decide (2 <= length msg) then
    (nl ($" - " ++ arg msg 1), inl true)
  else if protocol_is_error msg then failed msg else ([], inl any).

Definition client_handle_viewfolder (path : cstr) : IO W Z :=
  if (cc_ns_sockfd client <? 0)%Z then mret (-1)%Z
  else match path with
       | [] => refuse ($"Folder path cannot be empty.")
       | _ => request [$"VIEWFOLDER"; path] ($"VIEWFOLDER")
                (loop_ns folder_body (lost ($"Connection lost while viewing folder")) false)
       end.

(** The state is the name to display and [info_started]. *)
Definition info_body (st : cstr * bool) (msg : list cstr) : cstr * (cstr * bool + Z) :=
  let '(display_name, started) := st in
  let type := arg msg 0 in
  if protocol_is_error msg then failed msg
  else if streq type ($"OK_INFO_START") then
    let display_name := if bool_decide (2 <= length msg) && negb (streq (arg msg 1) [])
                        then fit MAX_FILENAME_LENGTH (arg msg 1) else display_name in
    (nl ($"---- " ++ match display_name with [] => $"File Info" | _ => display_name end ++ $" ----"),
     inl (display_name, true))
  else if streq type ($"INFO_LINE") then
    if started then ((if decide (2 <= length msg) then nl (arg msg 1) else []), inl st)
    else (nl ($"Unexpected INFO_LINE without INFO_START"), inr (-1)%Z)
  else if streq type ($"OK_INFO_END") then
    if started then (nl [], inr 0%Z) else (nl ($"Unexpected INFO_END without INFO_START"), inr (-1)%Z)
  else (nl ($"Unexpected response while receiving info: " ++ type), inr (-1)%Z).

Definition client_handle_info (filename : cstr) : IO W Z :=
  if (cc_ns_sockfd client <? 0)%Z then mret (-1)%Z
  else if negb (validate_filename filename) then refuse ($"Invalid filename.")
  else request [$"INFO"; filename] ($"INFO")
         (loop_ns info_body (lost ($"Connection lost while receiving info")) (fit MAX_FILENAME_LENGTH filename, false)).

(** The state is [saw_start]. *)
Definition exec_body (saw_start : bool) (msg : list cstr) : cstr * (bool + Z) :=
  let type := arg msg 0 in
  if protocol_is_error msg then failed msg
  else if streq type ($"OK_EXEC_START") then ([], inl true)
  else if streq type ($"EXEC_OUT") then ((if decide (2 <= length msg) then nl (arg msg 1) else []), inl saw_start)
  else if streq type ($"OK_EXEC_END") then
    if saw_start then ([], inr 0%Z) else (nl ($"EXEC sequence missing start acknowledgement."), inr (-1)%Z)
  else (nl ($"Unexpected response from server: " ++ type), inr (-1)%Z).

Definition client_handle_exec (filename : cstr) : IO W Z :=
  if (cc_ns_sockfd client <? 0)%Z then mret (-1)%Z
  else if negb (validate_filename filename) then refuse ($"Invalid filename.")
  else request [$"EXEC"; filename] ($"EXEC") (loop_ns exec_body (lost ($"Connection lost during EXEC.")) false).
End commands.
