(* ===== verification/ClientSS.v ===== *)
(** * The client's commands to storage servers

    The handlers of [src/client/client.c] that ask the name server where a file
    is ([client_request_location]) and then talk to its storage server on a
    connection of their own: READ, STREAM, UNDO, the checkpoint commands, and the
    three phases of WRITE. *)
From S2P Require Import Prelude CStr Utils Protocol ClientIO ClientNS.

Section commands.
Context {W : Type} `{Remote W}.
Context (client : Client).

(** ** Finding and reaching the storage server *)

(** The address, the port and the name of the file. *)
Definition client_request_location (operation filename : cstr) : IO W (option (cstr * Z * cstr)) :=
  if (cc_ns_sockfd client <? 0)%Z then mret None
  else
    match protocol_build_message [$"REQ_LOC"; operation; filename] with
    | None => mret None
    | Some message =>
        sent ← send_ns message;
        if negb sent then print (nl ($"Failed to contact Name Server for REQ_LOC"));; mret None
        else
          r ← receive_ns;
          match r with
          | None => print (nl ($"No response from Name Server for REQ_LOC"));; mret None
          | Some msg =>
              if protocol_is_error msg then print (client_print_ns_response msg);; mret None
              else if bool_decide (length msg < 4) || negb (streq (arg msg 0) ($"OK_LOC")) then
                print (nl ($"Unexpected response from Name Server for REQ_LOC"));; mret None
              else
                let port := strtol (arg msg 3) in
                if streq (arg msg 3) [] || negb (streq (st_end port) []) then
                  print (nl ($"Invalid port in Name Server response"));; mret None
                else if negb (is_valid_port (wrap32 (st_value port))) then
                  print (nl ($"Out-of-range port in Name Server response"));; mret None
                else mret (Some (fit MAX_IP_LENGTH (arg msg 2), wrap32 (st_value port),
                                 fit MAX_FILENAME_LENGTH (arg msg 1)))
          end
    end.

Definition client_connect_to_storage (ip : cstr) (port : Z) : IO W bool :=
  if negb (is_valid_port port) then mret false
  else
    r ← connect ip port;
    match r with
    | NoSocket => print (nl ($"Failed to create socket to Storage Server"));; mret false
    | BadAddress => print (nl ($"Invalid Storage Server IP address"));; mret false
    | Refused => print (nl ($"Failed to connect to Storage Server " ++ ip ++ $":" ++ to_dec port));; mret false
    | Connected => mret true
    end.

(** [resolved_filename[0] ? resolved_filename : filename]. *)
Definition target (resolved filename : cstr) : cstr := match resolved with [] => filename | _ => resolved end.

(** What the handlers share: check the name, find the server, connect, and close
    the connection at the end, whatever happens on it. *)
Definition on_storage (operation filename : cstr) (k : cstr → IO W Z) : IO W Z :=
  if (cc_ns_sockfd client <? 0)%Z then mret (-1)%Z
  else if negb (validate_filename filename) then refuse ($"Invalid filename.")
  else
    loc ← client_request_location operation filename;
    match loc with
    | None => mret (-1)%Z
    | Some (ip, port, resolved) =>
        connected ← client_connect_to_storage ip port;
        if negb connected then mret (-1)%Z
        else rc ← k (target resolved filename); hangup;; mret rc
    end.

Definition ss_request (fields : list cstr) (failed_text : cstr) (k : IO W Z) : IO W Z :=
  match protocol_build_message fields with
  | None => mret (-1)%Z
  | Some req =>
      sent ← send_ss req;
      if (sent : bool) then k else print (nl failed_text);; mret (-1)%Z
  end.

Definition ss_response (lost_text : cstr) : IO W Z :=
  r ← receive_ss;
  match r with
  | None => print (nl lost_text);; mret (-1)%Z
  | Some msg => print (client_print_ns_response msg);; mret (if protocol_is_error msg then (-1)%Z else 0%Z)
  end.

(** ** Streams *)

Definition shown_name (msg : list cstr) (display_name : cstr) : cstr :=
  if bool_decide (2 <= length msg) && negb (streq (arg msg 1) []) then arg msg 1 else display_name.

Definition unexpected {S} (text type : cstr) : cstr * (S + Z) := (nl (text ++ type), inr (-1)%Z).

(** The state: [saw_start], [content_printed] and [last_char_newline]. *)
Definition read_body (display_name : cstr) (st : bool * bool * bool) (msg : list cstr)
  : cstr * (bool * bool * bool + Z) :=
  let '(saw_start, printed, newline) := st in
  let type := arg msg 0 in
  if protocol_is_error msg then failed msg
  else if streq type ($"OK_READ_START") then
    (nl (match shown_name msg display_name with
         | [] => $"---- File ----"
         | name => $"---- " ++ name ++ $" ----"
         end), inl (true, printed, newline))
  else if streq type ($"OK_CONTENT") then
    match arg msg 1 with
    | [] => ([], inl st)
    | payload => (payload, inl (saw_start, true, bool_decide (last payload = Some c_nl)))
    end
  else if streq type ($"OK_READ_END") then
    if negb saw_start then unexpected ($"Unexpected READ_END without READ_START") []
    else ((if negb printed then nl ($"(empty file)") else if negb newline then nl [] else []), inr 0%Z)
  else unexpected ($"Unexpected response from Storage Server: ") type.

Definition client_receive_read_stream (display_name : cstr) : IO W Z :=
  loop_ss (read_body display_name) (lost ($"Connection lost while reading file")) (false, false, true).

Definition word_body (display_name : cstr) (st : bool * bool) (msg : list cstr) : cstr * (bool * bool + Z) :=
  let '(saw_start, printed) := st in
  let type := arg msg 0 in
  if protocol_is_error msg then failed msg
  else if streq type ($"OK_STREAM") then
    (nl ($"--- Streaming " ++ match shown_name msg display_name with [] => $"file" | name => name end ++ $" ---"),
     inl (true, printed))
  else if streq type ($"OK_CONTENT") then
    if decide (2 <= length msg) then (arg msg 1 ++ $" ", inl (saw_start, true)) else ([], inl st)
  else if streq type ($"OK_STREAM_END") then
    ((if saw_start then [] else nl ($"Unexpected STREAM_END without STREAM_START")) ++
     (if printed then [] else $"(empty file)") ++ [c_nl] ++ nl ($"--- End of Stream ---"), inr 0%Z)
  else unexpected ([c_nl] ++ $"Unexpected response from Storage Server: ") type.

Definition client_receive_word_stream (display_name : cstr) : IO W Z :=
  loop_ss (word_body display_name) (lost ([c_nl] ++ $"Connection lost while streaming file")) (false, false).

Definition client_handle_read (filename : cstr) : IO W Z :=
  on_storage ($"READ") filename (λ name,
    ss_request [$"REQ_READ"; cc_username client; name] ($"Failed to send READ request to Storage Server")
      (client_receive_read_stream name)).

Definition client_handle_stream (filename : cstr) : IO W Z :=
  on_storage ($"STREAM") filename (λ name,
    ss_request [$"REQ_STREAM"; cc_username client; name] ($"Failed to send STREAM request to Storage Server")
      (client_receive_word_stream name)).

(** ** Undo and checkpoints *)

(** The location is asked for a WRITE. *)
Definition client_handle_undo (filename : cstr) : IO W Z :=
  on_storage ($"WRITE") filename (λ name,
    ss_request [$"REQ_UNDO"; cc_username client; name] ($"Failed to send UNDO request to Storage Server")
      (ss_response ($"Connection lost waiting for UNDO response."))).

(** The check of the tag comes after that of the name and before the location. *)
Definition tagged (filename tag : cstr) (k : IO W Z) : IO W Z :=
  if (cc_ns_sockfd client <? 0)%Z then mret (-1)%Z
  else if negb (validate_filename filename) then refuse ($"Invalid filename.")
  else match tag with [] => refuse ($"Checkpoint tag cannot be empty.") | _ => k end.

Definition client_handle_checkpoint (filename tag : cstr) : IO W Z :=
  tagged filename tag (on_storage ($"CHECKPOINT") filename (λ name,
    ss_request [$"REQ_CHECKPOINT"; cc_username client; name; tag]
      ($"Failed to send CHECKPOINT request to Storage Server")
      (ss_response ($"Connection lost waiting for CHECKPOINT response.")))).

Definition client_handle_revert (filename tag : cstr) : IO W Z :=
  tagged filename tag (on_storage ($"REVERT") filename (λ name,
    ss_request [$"REQ_REVERT"; cc_username client; name; tag]
      ($"Failed to send REVERT request to Storage Server")
      (ss_response ($"Connection lost waiting for REVERT response.")))).

Definition checkpoints_body (_ : unit) (msg : list cstr) : cstr * (unit + Z) :=
  let type := arg msg 0 in
  if protocol_is_error msg then failed msg
  else if streq type ($"OK_LIST_CHECKPOINT") then
    (nl ($"  - " ++ if decide (1 < length msg) then arg msg 1 else $"(unknown)"), inl tt)
  else if streq type ($"OK_LIST_CHECKPOINT_END") then ([], inr 0%Z)
  else unexpected ($"Unexpected response while listing checkpoints: ") type.

Definition client_handle_listcheckpoints (filename : cstr) : IO W Z :=
  on_storage ($"LISTCHECKPOINTS") filename (λ name,
    ss_request [$"REQ_LIST_CHECKPOINTS"; cc_username client; name]
      ($"Failed to send LISTCHECKPOINTS request to Storage Server")
      (print (nl ($"Checkpoints for " ++ name ++ $":"));;
       loop_ss checkpoints_body (lost ($"Connection lost while listing checkpoints.")) tt)).

Definition client_handle_viewcheckpoint (filename tag : cstr) : IO W Z :=
  tagged filename tag (on_storage ($"VIEWCHECKPOINT") filename (λ name,
    ss_request [$"REQ_VIEWCHECKPOINT"; cc_username client; name; tag]
      ($"Failed to send VIEWCHECKPOINT request to Storage Server")
      (client_receive_read_stream
         (fit (MAX_FILENAME_LENGTH + MAX_TAG_LENGTH + 4) (name ++ $" [" ++ tag ++ $"]"))))).

(** ** WRITE: acquiring the lock

    The state: [got_lock], [got_content], [locked_filename],
    [locked_sentence_index] and [current_sentence].  The result [None] is the
    way to [cleanup]. *)
Definition LockState : Type := bool * bool * cstr * Z * cstr.

Definition lock_done (st : LockState) : LockState + option (cstr * Z * cstr) :=
  let '(got_lock, got_content, name, index, sentence) := st in
  if got_lock && got_content then inr (Some (name, index, sentence)) else inl st.

(** [fields[2]] as the index locked, when it is one. *)
Definition locked_index (msg : list cstr) (index : Z) : Z :=
  let r := strtol (arg msg 2) in
  if bool_decide (3 <= length msg) && streq (st_end r) [] && (0 <=? st_value r)%Z && (st_value r <=? INT_MAX)%Z
  then st_value r else index.

Definition lock_body (st : LockState) (msg : list cstr) : cstr * (LockState + option (cstr * Z * cstr)) :=
  let '(got_lock, got_content, name, index, sentence) := st in
  let type := arg msg 0 in
  if protocol_is_error msg then (client_print_ns_response msg, inr None)
  else if streq type ($"OK_LOCKED") then
    ([], lock_done (true, got_content,
                    if decide (2 <= length msg) then fit MAX_FILENAME_LENGTH (arg msg 1) else name,
                    locked_index msg index, sentence))
  else if streq type ($"OK_CONTENT") then ([], lock_done (got_lock, true, name, index, arg msg 1))
  else (nl ($"Unexpected response from Storage Server: " ++ type), inr None).

Definition lock_lost (text : cstr) {S A} (_ : S) : cstr * option A := (nl text, None).

(** ** WRITE: the session *)

Definition current_line (sentence : cstr) : cstr :=
  nl ($"Current sentence: " ++ match sentence with [] => $"(empty)" | _ => sentence end).

Definition shown_content (msg : list cstr) : cstr :=
  if decide (2 <= length msg) then current_line (arg msg 1) else [].

(** The answers to ETIRW: the loop ends by an error response, and the session
    goes on ([None]), or by the commit, with the result of the command. *)
Definition etirw_body (_ : unit) (msg : list cstr) : cstr * (unit + option Z) :=
  let type := arg msg 0 in
  if protocol_is_error msg then (client_print_ns_response msg, inr None)
  else if streq type ($"OK_WRITE_DONE") then (nl ($"Write committed successfully."), inr (Some 0%Z))
  else if streq type ($"OK_CONTENT") then (shown_content msg, inl tt)
  else if streq type ($"OK") then (nl (if decide (2 <= length msg) then arg msg 1 else $"OK"), inl tt)
  else (nl ($"Unexpected response from Storage Server: " ++ type), inl tt).

(** The answers to an edit. *)
Definition edit_body (_ : unit) (msg : list cstr) : cstr * (unit + option Z) :=
  let type := arg msg 0 in
  if protocol_is_error msg then (client_print_ns_response msg, inr None)
  else if streq type ($"OK") then (nl (if decide (2 <= length msg) then arg msg 1 else $"Edit applied."), inr None)
  else if streq type ($"OK_CONTENT") then (shown_content msg, inl tt)
  else if streq type ($"OK_WRITE_DONE") then (nl ($"Write committed on server."), inr (Some 0%Z))
  else (nl ($"Unexpected response from Storage Server: " ++ type), inr None).

Definition session_lost (text : cstr) (_ : unit) : cstr * option Z := (nl text, Some (-1)%Z).

Definition is_blank (c : ascii) : bool := bool_decide (c = " "%char) || bool_decide (c = "009"%char).

(** [input[strlen(input) - 1] = 0] when that is a newline. *)
Definition chomp (line : cstr) : cstr :=
  match last line with
  | Some c => if bool_decide (c = c_nl) then removelast line else line
  | None => line
  end.

(** One line of the session: [None] when it goes on. *)
Definition write_line (line : cstr) : IO W (option Z) :=
  let cursor := drop_while is_blank (chomp line) in
  match cursor with
  | [] => mret None
  | _ =>
      if streq cursor ($"ETIRW") then
        match protocol_build_message [$"ETIRW"] with
        | None => print (nl ($"Failed to build ETIRW message."));; mret (Some (-1)%Z)
        | Some etirw_msg =>
            sent ← send_ss etirw_msg;
            if negb sent then print (nl ($"Failed to send ETIRW to Storage Server."));; mret (Some (-1)%Z)
            else loop_ss etirw_body (session_lost ($"Connection lost while finalizing write.")) tt
        end
      else
        let r := strtol cursor in
        if streq (st_end r) cursor || st_erange r || (st_value r <? 0)%Z || (INT_MAX <? st_value r)%Z then
          print (nl ($"Invalid word index. Use a non-negative integer."));; mret None
        else
          let content := drop_while is_blank (st_end r) in
          match protocol_build_message [$"WRITE_DATA"; to_dec (st_value r); content] with
          | None => print (nl ($"Failed to build WRITE_DATA message."));; mret None
          | Some write_msg =>
              sent ← send_ss write_msg;
              if negb sent then print (nl ($"Failed to send WRITE_DATA to Storage Server."));; mret (Some (-1)%Z)
              else loop_ss edit_body (session_lost ($"Connection lost while applying edit.")) tt
          end
  end.

(** The session over the lines of input that are left. *)
Fixpoint write_session (lines : list cstr) : IO W Z :=
  print ($"write> ");;
  r ← read_line;
  match lines, r with
  | _ :: lines, Some line =>
      done ← write_line line;
      match done with Some rc => mret rc | None => write_session lines end
  | _, _ => print (nl ([c_nl] ++ $"Input closed; aborting write session."));; mret (-1)%Z
  end.

Definition write_edit : IO W Z := λ t, write_session (tm_stdin t) t.

Definition client_handle_write (filename : cstr) (sentence_index : Z) : IO W Z :=
  if (cc_ns_sockfd client <? 0)%Z then mret (-1)%Z
  else if negb (validate_filename filename) then refuse ($"Invalid filename.")
  else if (sentence_index <? 0)%Z then refuse ($"Sentence index must be a non-negative integer.")
  else
    on_storage ($"WRITE") filename (λ name,
      match protocol_build_message [$"REQ_WRITE_LOCK"; cc_username client; name; to_dec sentence_index] with
      | None => print (nl ($"Failed to build WRITE lock request."));; mret (-1)%Z
      | Some lock_msg =>
          sent ← send_ss lock_msg;
          if negb sent then print (nl ($"Failed to send WRITE lock request to Storage Server."));; mret (-1)%Z
          else
            locked ← loop_ss lock_body (lock_lost ($"Connection lost while acquiring write lock."))
                       (false, false, [], sentence_index, []);
            match locked with
            | None => mret (-1)%Z
            | Some (locked_filename, index, sentence) =>
                print (nl ($"Locked sentence " ++ to_dec index ++ $" in " ++ target locked_filename name ++ $"."));;
                print (current_line sentence);;
                print (nl ($"Enter '<word_index> <content>' to edit, or 'ETIRW' to finalize."));;
                print (nl ($"Word indices start at 0; punctuation marks (., !, ?) mark sentence boundaries."));;
                write_edit
            end
      end).
End commands.
