(* ===== verification/ClientMain.v ===== *)
(** * The client's session

    [client_init], [client_connect_to_ns], the dispatcher
    [client_process_command], the interactive loop [client_start] and [main] of
    [src/client/client.c].  What goes to the log and to [stderr], and the check
    of the number of arguments, is not modelled. *)
From S2P Require Import Prelude CStr Utils Protocol ClientIO ClientNS ClientSS.

(** ** The connection to the name server *)

(** [None] is the result -1.  [strncpy] leaves the last byte of the two arrays as
    it was, and [main] has not initialised them: [rest] is what memory has from
    there on. *)
Definition client_init (rest : cstr * cstr) (username ns_ip : cstr) (ns_port : Z) : option Client :=
  if negb (validate_username username) then None
  else Some (mkClientState (strncpy_into rest.1 MAX_USERNAME_LENGTH username) (strncpy_into rest.2 MAX_IP_LENGTH ns_ip)
               ns_port (-1)%Z).

Definition with_sockfd (client : Client) (fd : Z) : Client :=
  mkClientState (cc_username client) (cc_ns_ip client) (cc_ns_port client) fd.

Section session.
Context {W : Type} `{Remote W}.

(** The client afterwards and the result. *)
Definition client_connect_to_ns (client : Client) : IO W (Client * Z) :=
  let closed := with_sockfd client (-1)%Z in
  fd ← connect_ns (cc_ns_ip client) (cc_ns_port client);
  match fd with
  | None => mret (closed, (-1)%Z)
  | Some fd =>
      match protocol_build_message [$"HELLO_CLIENT"; cc_username client] with
      | None => hangup_ns;; mret (closed, (-1)%Z)
      | Some handshake =>
          sent ← send_ns handshake;
          if negb sent then hangup_ns;; mret (closed, (-1)%Z)
          else
            response ← receive_ns;
            match response with
            | None => hangup_ns;; mret (closed, (-1)%Z)
            | Some msg =>
                if protocol_is_error msg then hangup_ns;; mret (closed, (-1)%Z)
                else mret (with_sockfd client fd, 0%Z)
            end
      end
  end.

Definition client_cleanup (client : Client) : IO W unit :=
  if (0 <=? cc_ns_sockfd client)%Z then hangup_ns else mret tt.

(** ** The dispatcher *)

(** The flags of VIEW: what follows the first space of the line, not of the
    command. *)
Definition view_flags_of (input : cstr) : option cstr :=
  match split_at " "%char input with
  | None => None
  | Some (_, rest) =>
      match trim_string (fit CLIENT_BUFFER_SIZE (drop_while (λ c, bool_decide (c = " "%char)) rest)) with
      | [] => None
      | flags => Some flags
      end
  end.

Context (client : Client).

(** Handlers of one filename, of two arguments and of a request id. *)
Definition with1 (input usage : cstr) (k : cstr → IO W Z) : IO W Z :=
  match scan1 (MAX_FILENAME_LENGTH - 1) input with Some a => k a | None => refuse usage end.

Definition with2 (width : nat) (input usage : cstr) (k : cstr → cstr → IO W Z) : IO W Z :=
  match scan2 (MAX_FILENAME_LENGTH - 1) width input with Some (a, b) => k a b | None => refuse usage end.

Definition with_id (input usage : cstr) (k : Z → IO W Z) : IO W Z :=
  match scand input with
  | Some id => if (id <=? 0)%Z then refuse ($"Request ID must be a positive integer.") else k id
  | None => refuse usage
  end.

(** The dispatcher's second half: users, rights, EXEC, folders and checkpoints. *)
Definition client_more_commands (command input : cstr) : IO W Z :=
  if strcaseeq command ($"LIST") then client_handle_list client
  else if strcaseeq command ($"REQUESTACCESS") then
    with2 15 input ($"Usage: REQUESTACCESS <filename> <R|W|RW>") (client_handle_requestaccess client)
  else if strcaseeq command ($"LISTREQUESTS") then client_handle_listrequests client
  else if strcaseeq command ($"ADDACCESS") then
    match scan3 15 (MAX_FILENAME_LENGTH - 1) (MAX_USERNAME_LENGTH - 1) input with
    | None => refuse ($"Usage: ADDACCESS -R|-W <filename> <username>")
    | Some (perm, filename, user) => client_handle_addaccess client perm filename user
    end
  else if strcaseeq command ($"REMACCESS") then
    with2 (MAX_USERNAME_LENGTH - 1) input ($"Usage: REMACCESS <filename> <username>")
      (client_handle_remaccess client)
  else if strcaseeq command ($"APPROVEACCESS") then
    with_id input ($"Usage: APPROVEACCESS <request_id>") (client_handle_approveaccess client)
  else if strcaseeq command ($"REJECTACCESS") then
    with_id input ($"Usage: REJECTACCESS <request_id>") (client_handle_rejectaccess client)
  else if strcaseeq command ($"EXEC") then
    with1 input ($"Usage: EXEC <filename>") (client_handle_exec client)
  else if strcaseeq command ($"CREATEFOLDER") then
    with1 input ($"Usage: CREATEFOLDER <path>") (client_handle_createfolder client)
  else if strcaseeq command ($"MOVE") then
    with2 (MAX_FILENAME_LENGTH - 1) input ($"Usage: MOVE <source_path> <destination_folder>")
      (client_handle_move client)
  else if strcaseeq command ($"VIEWFOLDER") then
    with1 input ($"Usage: VIEWFOLDER <path>") (client_handle_viewfolder client)
  else if strcaseeq command ($"CHECKPOINT") then
    with2 (MAX_TAG_LENGTH - 1) input ($"Usage: CHECKPOINT <filename> <tag>") (client_handle_checkpoint client)
  else if strcaseeq command ($"VIEWCHECKPOINT") then
    with2 (MAX_TAG_LENGTH - 1) input ($"Usage: VIEWCHECKPOINT <filename> <tag>")
      (client_handle_viewcheckpoint client)
  else if strcaseeq command ($"REVERT") then
    with2 (MAX_TAG_LENGTH - 1) input ($"Usage: REVERT <filename> <tag>") (client_handle_revert client)
  else if strcaseeq command ($"LISTCHECKPOINTS") then
    with1 input ($"Usage: LISTCHECKPOINTS <filename>") (client_handle_listcheckpoints client)
  else refuse ($"Unknown command: " ++ command).

Definition client_process_command (input : cstr) : IO W Z :=
  match scan_word input with
  | None => mret (-1)%Z
  | Some (command, _) =>
      if strcaseeq command ($"VIEW") then client_handle_view client (view_flags_of input)
      else if strcaseeq command ($"READ") then
        with1 input ($"Usage: READ <filename>") (client_handle_read client)
      else if strcaseeq command ($"CREATE") then
        with1 input ($"Usage: CREATE <filename>") (client_handle_create client)
      else if strcaseeq command ($"WRITE") then
        match scan1d (MAX_FILENAME_LENGTH - 1) input with
        | None => refuse ($"Usage: WRITE <filename> <sentence_index>")
        | Some (filename, sentence_index) =>
            if (sentence_index <? 0)%Z then refuse ($"Sentence index must be a non-negative integer.")
            else client_handle_write client filename sentence_index
        end
      else if strcaseeq command ($"UNDO") then
        with1 input ($"Usage: UNDO <filename>") (client_handle_undo client)
      else if strcaseeq command ($"INFO") then
        with1 input ($"Usage: INFO <filename>") (client_handle_info client)
      else if strcaseeq command ($"DELETE") then
        with1 input ($"Usage: DELETE <filename>") (client_handle_delete client)
      else if strcaseeq command ($"COPY") then
        with2 (MAX_FILENAME_LENGTH - 1) input ($"Usage: COPY <source_filename> <dest_filename>")
          (client_handle_copy client)
      else if strcaseeq command ($"STREAM") then
        with1 input ($"Usage: STREAM <filename>") (client_handle_stream client)
      else client_more_commands command input
  end.

(** ** The interactive loop *)

Definition help_text : cstr :=
  concat (map nl
    [$"Available commands:"; $"  CREATE <filename>"; $"  DELETE <filename>"; $"  COPY <source> <dest>";
     $"  READ <filename>"; $"  WRITE <filename> <sentence_index>"; $"  VIEW [-a] [-l] [-al]";
     $"  VIEWFOLDER <path>"; $"  INFO <filename>"; $"  STREAM <filename>"; $"  UNDO <filename>";
     $"  EXEC <filename>"; $"  LIST"; $"  CREATEFOLDER <path>"; $"  MOVE <source> <destination>";
     $"  ADDACCESS -R|-W <filename> <username>"; $"  REMACCESS <filename> <username>";
     $"  REQUESTACCESS <filename> <R|W|RW>"; $"  LISTREQUESTS"; $"  APPROVEACCESS <request_id>";
     $"  REJECTACCESS <request_id>"; $"  CHECKPOINT <filename> <tag>"; $"  VIEWCHECKPOINT <filename> <tag>";
     $"  REVERT <filename> <tag>"; $"  LISTCHECKPOINTS <filename>"; $"  quit/exit - Exit the client"]).

(** One round of the loop; [true]: the loop is left. *)
Definition client_round : IO W bool :=
  print ($"> ");;
  line ← read_line;
  match line with
  | None => mret true
  | Some line =>
      let input := chomp line in
      if streq input ($"quit") || streq input ($"exit") then mret true
      else if streq input ($"help") then print help_text;; mret false
      else
        rc ← client_process_command input;
        (if (rc =? 0)%Z then mret tt else print (nl ($"Error processing command")));; mret false
  end.

(** The loop with fuel; [None]: out of fuel. *)
Fixpoint client_rounds (fuel : nat) : IO W (option Z) :=
  match fuel with
  | O => mret None
  | S fuel =>
      quit ← client_round;
      if (quit : bool) then mret (Some 0%Z) else client_rounds fuel
  end.

(** A round reads a line, or is the last: the lines of input and one more
    round are enough. *)
Definition client_start : IO W (option Z) := λ t,
  (print (nl ($"Welcome, " ++ cc_username client ++ $"!"));;
   print (nl (nl ($"Type 'help' for available commands, 'quit' to exit.")));;
   client_rounds (S (length (tm_stdin t)))) t.
End session.

(** ** The program *)

Section main.
Context {W : Type} `{Remote W}.

(** The prompt for a name, over the lines of input: what does not fit the
    buffer is discarded with the rest of its line.  [None]: the end of the input. *)
Fixpoint ask_username (lines : list cstr) : IO W (option cstr) :=
  print ($"Enter username: ");;
  r ← read_line;
  match lines, r with
  | _ :: lines, Some line =>
      let username := trim_string (fit MAX_USERNAME_LENGTH line) in
      if streq username [] then print (nl ($"Username cannot be empty."));; ask_username lines
      else if negb (validate_username username) then
        print (nl ($"Invalid username. Please try again."));; ask_username lines
      else mret (Some username)
  | _, _ => mret None
  end.

(** The exit code, for the two arguments; [None] is [client_start]'s. *)
Definition client_main (rest : cstr * cstr) (ns_ip ns_port : cstr) : IO W (option Z) := λ t,
  (username ← ask_username (tm_stdin t);
   match username with
   | None => mret (Some 1%Z)
   | Some username =>
       match client_init rest username ns_ip (atoi ns_port) with
       | None => mret (Some 1%Z)
       | Some client =>
           '(client, rc) ← client_connect_to_ns client;
           if negb (rc =? 0)%Z then client_cleanup client;; mret (Some 1%Z)
           else
             rc ← client_start client;
             client_cleanup client;; print (nl ($"Goodbye!"));;
             mret (match rc with Some _ => Some 0%Z | None => None end)
       end
   end) t.
End main.
