(* ===== verification/ClientFlow.v ===== *)
(** * How the client's session ends

    What every command of the client does to its input, its output and its
    connections: it takes lines from the front of the input, only appends to the
    output, and either returns, leaving no connection to a storage server open,
    or waits in a [recv] for a server that neither answers nor closes its
    connection.  Hence [client_start] ends, at a [quit] or at the end of the
    input, unless a server keeps it waiting. *)
From S2P Require Import Prelude CStr Utils Protocol ClientIO ClientNS ClientSS ClientMain.

Create HintDb flow.

Section flow.
Context {W : Type} `{Remote W}.

(** Whether a connection to a storage server is open, as the servers see it. *)
Class Connections (open : W → bool) : Prop := {
  open_ns_connect : ∀ w ip port, open (ns_connect w ip port).1 = open w;
  open_ns_hangup : ∀ w, open (ns_hangup w) = open w;
  open_ns_deliver : ∀ w msg, open (ns_deliver w msg).1 = open w;
  open_ss_deliver : ∀ w msg, open (ss_deliver w msg).1 = open w;
  open_ss_connect : ∀ w ip port, (ss_connect w ip port).2 ≠ Connected → open (ss_connect w ip port).1 = open w;
  open_ss_hangup : ∀ w, open (ss_hangup w) = false
}.

Context (open : W → bool) `{!Connections open}.

Definition moved (t t' : Term W) : Prop :=
  tm_stdin t' `suffix_of` tm_stdin t ∧ tm_out t `prefix_of` tm_out t'.

(** On one connection, and over a whole command. *)
Definition flows (t t' : Term W) : Prop := moved t t' ∧ open (tm_world t') = open (tm_world t).
Definition settles (t t' : Term W) : Prop :=
  moved t t' ∧ (open (tm_world t) = false → open (tm_world t') = false).

#[export] Instance moved_preorder : PreOrder moved.
Proof. split; [by split|]. intros t u v [] []. by split; etrans. Qed.

#[export] Instance flows_preorder : PreOrder flows.
Proof. split; [by split|]. intros t u v [? Hu] [? Hv]. split; [by etrans|by rewrite Hv]. Qed.

#[export] Instance settles_preorder : PreOrder settles.
Proof. split; [by split|]. intros t u v [? Hu] [? Hv]. split; [by etrans|auto]. Qed.

Lemma flows_settles t t' : flows t t' → settles t t'.
Proof. intros [? Ho]. split; [done|by rewrite Ho]. Qed.

#[export] Instance flows_moved : subrelation flows moved.
Proof. by intros t t' []. Qed.

#[export] Instance settles_moved : subrelation settles moved.
Proof. by intros t t' []. Qed.

(** Nothing is left to receive on a connection that the server has not closed. *)
Definition waiting (t : Term W) : Prop :=
  tm_ns t = [] ∧ ns_closed (tm_world t) = false ∨ tm_ss t = [] ∧ ss_closed (tm_world t) = false.

(** A run started at [t]: [Q] of its result and its end when it returns, and
    otherwise a wait. *)
Definition ran {A} (Q : A → Term W → Prop) (t : Term W) (run : Outcome A * Term W) : Prop :=
  match run with
  | (Done a, t') => Q a t'
  | (Blocked, t') => moved t t' ∧ waiting t'
  end.

(** An action that relates where it starts to where it returns. *)
Definition keeps (R : Term W → Term W → Prop) {A} (m : IO W A) : Prop := ∀ t, ran (λ _, R t) t (m t).

Lemma ran_mono {A} (Q Q' : A → Term W → Prop) t run : (∀ a t', Q a t' → Q' a t') → ran Q t run → ran Q' t run.
Proof. intros HQ. destruct run as [[a|] t']; [|done]. apply HQ. Qed.

(** The start may be put back. *)
Lemma ran_from {A} (Q : A → Term W → Prop) t u run : moved t u → ran Q u run → ran Q t run.
Proof.
  intros Htu. destruct run as [[a|] t']; [done|]. intros [Hm Hw]. split; [by etrans|done].
Qed.

Lemma ran_bind {A B} Q Q' (m : IO W A) (k : A → IO W B) t u :
  ran Q t (m u) → (∀ a v, m u = (Done a, v) → Q a v → ran Q' t (k a v)) → ran Q' t ((m ≫= k) u).
Proof.
  intros Hm Hk. unfold mbind, io_bind. destruct (m u) as [[a|] v] eqn:E; [|exact Hm]. by apply Hk.
Qed.

(** A step that keeps a relation, then the rest. *)
Lemma ran_step {A B} R Q (m : IO W A) (k : A → IO W B) t :
  subrelation R moved → keeps R m → (∀ a v, m t = (Done a, v) → R t v → ran Q v (k a v)) → ran Q t ((m ≫= k) t).
Proof.
  intros Hsub Hm Hk. apply (ran_bind (λ _, R t)); [apply Hm|]. intros a v E Hv.
  eapply ran_from; [by apply (Hsub t v)|]. by apply Hk.
Qed.

Lemma keeps_ret R `{!Reflexive R} {A} (a : A) : keeps R (mret a).
Proof. intros t. cbn. reflexivity. Qed.

Lemma keeps_bind R `{!Transitive R} {Hsub : subrelation R moved} {A B} (m : IO W A) (k : A → IO W B) :
  keeps R m → (∀ a, keeps R (k a)) → keeps R (m ≫= k).
Proof.
  intros Hm Hk t. apply (ran_step R); [done..|]. intros a u _ Hu.
  eapply ran_mono; [|apply Hk]. intros b v Hv. cbn in *. by etrans.
Qed.

Lemma keeps_settles {A} (m : IO W A) : keeps flows m → keeps settles m.
Proof. intros Hm t. eapply ran_mono; [|apply Hm]. intros a u. apply flows_settles. Qed.

(** ** The actions *)

Lemma moved_out w ns ss i o s w' ns' ss' : moved (mkTerm w ns ss i o) (mkTerm w' ns' ss' i (o ++ s)).
Proof. split; [done|]. by apply prefix_app_r. Qed.

Lemma keeps_print s : keeps flows (print s).
Proof. intros [w ns ss i o]. split; [|done]. apply moved_out. Qed.

Lemma keeps_send_ns msg : keeps flows (send_ns msg).
Proof.
  intros [w ns ss i o]. unfold send_ns. cbn [tm_world]. pose proof (open_ns_deliver w msg) as Ho.
  destruct (ns_deliver w msg) as [w' [replies|]]; by split.
Qed.

Lemma keeps_send_ss msg : keeps flows (send_ss msg).
Proof.
  intros [w ns ss i o]. unfold send_ss. cbn [tm_world]. pose proof (open_ss_deliver w msg) as Ho.
  destruct (ss_deliver w msg) as [w' [replies|]]; by split.
Qed.

Lemma keeps_receive_ns : keeps flows receive_ns.
Proof.
  intros [w [|raw ns] ss i o]; [|by split]. unfold receive_ns. cbn. destruct (ns_closed w) eqn:Hc; [done|].
  split; [done|]. by left.
Qed.

Lemma keeps_receive_ss : keeps flows receive_ss.
Proof.
  intros [w ns [|raw ss] i o]; [|by split]. unfold receive_ss. cbn. destruct (ss_closed w) eqn:Hc; [done|].
  split; [done|]. by right.
Qed.

Lemma keeps_read_line : keeps flows read_line.
Proof. intros [w ns ss [|line i] o]; split; [done..| |done]. split; [by exists [line]|done]. Qed.

Lemma keeps_connect_ns ip port : keeps flows (connect_ns ip port).
Proof.
  intros [w ns ss i o]. unfold connect_ns. cbn [tm_world]. pose proof (open_ns_connect w ip port) as Ho.
  destruct (ns_connect w ip port) as [w' r]. by split.
Qed.

Lemma keeps_hangup_ns : keeps flows hangup_ns.
Proof. intros [w ns ss i o]. split; [done|]. apply open_ns_hangup. Qed.

(** A loop that does not return has received everything. *)
Lemma recv_loop_blocked {S A} closed (body : S → list cstr → cstr * (S + A)) lost s msgs out rest :
  recv_loop closed body lost s msgs = (out, Blocked, rest) → rest = [] ∧ closed = false.
Proof.
  revert s out. induction msgs as [|raw msgs IH]; intros s out; cbn [recv_loop].
  - destruct closed; [by destruct (lost s)|]. by intros [= _ <-].
  - destruct (body s _) as [out1 [s'|a]]; [|done].
    destruct (recv_loop closed body lost s' msgs) as [[out2 a] rest'] eqn:E. intros [= _ -> ->]. by eapply IH.
Qed.

Lemma keeps_loop_ns {S A} (body : S → list cstr → cstr * (S + A)) lost s : keeps flows (loop_ns body lost s).
Proof.
  intros [w ns ss i o]. unfold loop_ns. cbn [tm_world tm_ns].
  destruct (recv_loop (ns_closed w) body lost s ns) as [[out [a|]] rest] eqn:E; (split; [apply moved_out|]); [done|].
  left. by apply recv_loop_blocked in E as [-> ?].
Qed.

Lemma keeps_loop_ss {S A} (body : S → list cstr → cstr * (S + A)) lost s : keeps flows (loop_ss body lost s).
Proof.
  intros [w ns ss i o]. unfold loop_ss. cbn [tm_world tm_ss].
  destruct (recv_loop (ss_closed w) body lost s ss) as [[out [a|]] rest] eqn:E; (split; [apply moved_out|]); [done|].
  right. by apply recv_loop_blocked in E as [-> ?].
Qed.

(** Only a successful [connect] opens a connection, and [hangup] closes it. *)
Lemma connect_opens ip port t :
  ∃ r t', connect ip port t = (Done r, t') ∧ moved t t' ∧ (r ≠ Connected → open (tm_world t') = open (tm_world t)).
Proof.
  destruct t as [w ns ss i o]. unfold connect. cbn [tm_world]. pose proof (open_ss_connect w ip port) as Ho.
  destruct (ss_connect w ip port) as [w' r]. by exists r, (mkTerm w' ns [] i o).
Qed.

Lemma hangup_closes t : ∃ t', hangup t = (Done tt, t') ∧ moved t t' ∧ open (tm_world t') = false.
Proof. eexists. split; [done|]. split; [done|]. apply open_ss_hangup. Qed.
End flow.

#[export] Hint Resolve keeps_print keeps_send_ns keeps_send_ss keeps_receive_ns keeps_receive_ss keeps_read_line
  keeps_connect_ns keeps_hangup_ns keeps_loop_ns keeps_loop_ss : flow.

(** Follows the structure of an action. *)
Ltac flow :=
  match goal with
  | |- keeps _ (mret _) => apply keeps_ret; apply _
  | |- keeps _ (mbind _ _) => apply keeps_bind; [apply _..|flow|intros; flow]
  | |- keeps _ (if ?b then _ else _) => destruct b; flow
  | |- keeps _ (match ?x with _ => _ end) => destruct x; flow
  | |- keeps _ _ => first [solve [auto with flow] | apply keeps_settles; solve [auto with flow] | idtac]
  end.

Section commands.
Context {W : Type} `{Remote W} (open : W → bool) `{!Connections open} (client : Client).

(** ** The commands to the name server *)

Lemma keeps_refuse text : keeps (flows open) (refuse text).
Proof. unfold refuse. flow. Qed.

Lemma keeps_request fields name k : keeps (flows open) k → keeps (flows open) (request client fields name k).
Proof. intros Hk. unfold request. flow. Qed.

Lemma keeps_response name strict : keeps (flows open) (response name strict).
Proof. unfold response. flow. Qed.

Hint Resolve keeps_refuse keeps_request keeps_response : flow.

Lemma keeps_simple fields name strict : keeps (flows open) (simple_command client fields name strict).
Proof. unfold simple_command. flow. Qed.

Hint Resolve keeps_simple : flow.

Lemma keeps_addaccess perm f u : keeps (flows open) (client_handle_addaccess client perm f u).
Proof. unfold client_handle_addaccess. flow. Qed.

Lemma keeps_remaccess f u : keeps (flows open) (client_handle_remaccess client f u).
Proof. unfold client_handle_remaccess. flow. Qed.

Lemma keeps_requestaccess f p : keeps (flows open) (client_handle_requestaccess client f p).
Proof. unfold client_handle_requestaccess. flow. Qed.

Lemma keeps_approveaccess i : keeps (flows open) (client_handle_approveaccess client i).
Proof. unfold client_handle_approveaccess. flow. Qed.

Lemma keeps_rejectaccess i : keeps (flows open) (client_handle_rejectaccess client i).
Proof. unfold client_handle_rejectaccess. flow. Qed.

Lemma keeps_create f : keeps (flows open) (client_handle_create client f).
Proof. unfold client_handle_create. flow. Qed.

Lemma keeps_delete f : keeps (flows open) (client_handle_delete client f).
Proof. unfold client_handle_delete. flow. Qed.

Lemma keeps_createfolder p : keeps (flows open) (client_handle_createfolder client p).
Proof. unfold client_handle_createfolder. flow. Qed.

Lemma keeps_move a b : keeps (flows open) (client_handle_move client a b).
Proof. unfold client_handle_move. flow. Qed.

Lemma keeps_copy a b : keeps (flows open) (client_handle_copy client a b).
Proof. unfold client_handle_copy. flow. Qed.

Lemma keeps_view flags : keeps (flows open) (client_handle_view client flags).
Proof.
  unfold client_handle_view. destruct (_ <? 0)%Z; [flow|].
  destruct (client_view_flags _ _ _) as [[a details]|]; [|flow]. cbn zeta. apply keeps_request. flow.
Qed.

Lemma keeps_list : keeps (flows open) (client_handle_list client).
Proof. unfold client_handle_list. apply keeps_request. flow. Qed.

Lemma keeps_listrequests : keeps (flows open) (client_handle_listrequests client).
Proof. unfold client_handle_listrequests. flow. Qed.

Lemma keeps_viewfolder p : keeps (flows open) (client_handle_viewfolder client p).
Proof. unfold client_handle_viewfolder. flow. Qed.

Lemma keeps_info f : keeps (flows open) (client_handle_info client f).
Proof. unfold client_handle_info. flow. Qed.

Lemma keeps_exec f : keeps (flows open) (client_handle_exec client f).
Proof. unfold client_handle_exec. flow. Qed.

(** ** The commands to a storage server *)

Lemma keeps_location op f : keeps (flows open) (client_request_location client op f).
Proof. unfold client_request_location. cbn zeta. flow. Qed.

Lemma keeps_ss_request fields text k : keeps (flows open) k → keeps (flows open) (ss_request fields text k).
Proof. intros Hk. unfold ss_request. flow. Qed.

Lemma keeps_ss_response text : keeps (flows open) (ss_response text).
Proof. unfold ss_response. flow. Qed.

(** A connection that was not made leaves nothing open. *)
Lemma connect_to_storage_flows ip port t :
  ∃ ok t', client_connect_to_storage ip port t = (Done ok, t') ∧ moved t t' ∧
    (ok = false → open (tm_world t') = open (tm_world t)).
Proof.
  unfold client_connect_to_storage. destruct (negb _); [by exists false, t|].
  destruct (connect_opens open ip port t) as (r & [w ns ss i o] & Hr & Hm & Ho). erewrite bind_eq by exact Hr.
  destruct r; eexists _, _; (split; [done|]); try (split; [etrans; [exact Hm|apply moved_out]|intros _; by apply Ho]).
  by split.
Qed.

Lemma keeps_on_storage op f k :
  (∀ name, keeps (flows open) (k name)) → keeps (settles open) (on_storage client op f k).
Proof.
  intros Hk. unfold on_storage. destruct (_ <? 0)%Z; [flow|]. destruct (negb _).
  { apply keeps_settles, keeps_refuse. }
  apply keeps_bind; [apply _..|apply keeps_settles, keeps_location|].
  intros [[[ip port] resolved]|]; [|flow]. intros t.
  destruct (connect_to_storage_flows ip port t) as (ok & u & Hc & Hm & Ho). erewrite bind_eq by exact Hc.
  destruct ok; cbn [negb].
  - apply (ran_bind (λ _, moved t)).
    { eapply ran_from; [exact Hm|]. eapply ran_mono; [|apply Hk]. intros rc v [Hm' _]. by etrans. }
    intros rc v _ Hm'. destruct (hangup_closes open v) as (x & Hh & Hm'' & Hx).
    erewrite bind_eq by exact Hh. split; [by etrans|done].
  - split; [done|]. by rewrite Ho.
Qed.

Lemma keeps_tagged f tag k : keeps (settles open) k → keeps (settles open) (tagged client f tag k).
Proof.
  intros Hk. unfold tagged. destruct (_ <? 0)%Z; [flow|]. destruct (negb _); [apply keeps_settles, keeps_refuse|].
  destruct tag; [apply keeps_settles, keeps_refuse|done].
Qed.

Hint Resolve keeps_on_storage keeps_ss_request keeps_ss_response keeps_tagged : flow.

Lemma keeps_read_stream name : keeps (flows open) (client_receive_read_stream name).
Proof. unfold client_receive_read_stream. flow. Qed.

Lemma keeps_word_stream name : keeps (flows open) (client_receive_word_stream name).
Proof. unfold client_receive_word_stream. flow. Qed.

Hint Resolve keeps_read_stream keeps_word_stream : flow.

Lemma keeps_read f : keeps (settles open) (client_handle_read client f).
Proof. unfold client_handle_read. auto with flow. Qed.

Lemma keeps_stream f : keeps (settles open) (client_handle_stream client f).
Proof. unfold client_handle_stream. auto with flow. Qed.

Lemma keeps_undo f : keeps (settles open) (client_handle_undo client f).
Proof. unfold client_handle_undo. auto with flow. Qed.

Lemma keeps_checkpoint f tag : keeps (settles open) (client_handle_checkpoint client f tag).
Proof. unfold client_handle_checkpoint. auto with flow. Qed.

Lemma keeps_revert f tag : keeps (settles open) (client_handle_revert client f tag).
Proof. unfold client_handle_revert. auto with flow. Qed.

Lemma keeps_listcheckpoints f : keeps (settles open) (client_handle_listcheckpoints client f).
Proof.
  unfold client_handle_listcheckpoints. apply keeps_on_storage. intros name. apply keeps_ss_request. flow.
Qed.

Lemma keeps_viewcheckpoint f tag : keeps (settles open) (client_handle_viewcheckpoint client f tag).
Proof. unfold client_handle_viewcheckpoint. auto with flow. Qed.

Lemma keeps_write_line line : keeps (flows open) (write_line line).
Proof. unfold write_line. cbn zeta. flow. Qed.

Lemma keeps_write_session lines : keeps (flows open) (write_session lines).
Proof.
  induction lines as [|l lines IH]; cbn [write_session]; (apply keeps_bind; [apply _..|flow|intros _]).
  - flow.
  - apply keeps_bind; [apply _..|flow|]. intros [line|]; [|flow].
    apply keeps_bind; [apply _..|apply keeps_write_line|]. intros [rc|]; [flow|done].
Qed.

Lemma keeps_write_edit : keeps (flows open) write_edit.
Proof. intros t. apply keeps_write_session. Qed.

Lemma keeps_write f i : keeps (settles open) (client_handle_write client f i).
Proof.
  unfold client_handle_write. destruct (_ <? 0)%Z; [flow|]. destruct (negb _); [apply keeps_settles, keeps_refuse|].
  destruct (i <? 0)%Z; [apply keeps_settles, keeps_refuse|]. apply keeps_on_storage. intros name.
  destruct (protocol_build_message _); [|flow]. apply keeps_bind; [apply _..|flow|]. intros []; cbn [negb]; [|flow].
  apply keeps_bind; [apply _..|flow|]. intros [[[locked index] sentence]|]; [|flow].
  repeat (apply keeps_bind; [apply _..|flow|intros _]). apply keeps_write_edit.
Qed.
End commands.

#[export] Hint Resolve keeps_addaccess keeps_remaccess keeps_requestaccess keeps_approveaccess keeps_rejectaccess
  keeps_create keeps_delete keeps_createfolder keeps_move keeps_copy keeps_view keeps_list keeps_listrequests
  keeps_viewfolder keeps_info keeps_exec keeps_read keeps_stream keeps_undo keeps_checkpoint keeps_revert
  keeps_listcheckpoints keeps_viewcheckpoint keeps_write keeps_refuse : flow.

Section session.
Context {W : Type} `{Remote W} (open : W → bool) `{!Connections open} (client : Client).

(** ** A command line *)

Lemma keeps_with1 input usage k :
  (∀ a, keeps (settles open) (k a)) → keeps (settles open) (with1 input usage k).
Proof. intros Hk. unfold with1. destruct (scan1 _ _); [done|flow]. Qed.

Lemma keeps_with2 n input usage k :
  (∀ a b, keeps (settles open) (k a b)) → keeps (settles open) (with2 n input usage k).
Proof. intros Hk. unfold with2. destruct (scan2 _ _ _) as [[a b]|]; [done|flow]. Qed.

Lemma keeps_with_id input usage k :
  (∀ i, keeps (settles open) (k i)) → keeps (settles open) (with_id input usage k).
Proof. intros Hk. unfold with_id. destruct (scand _) as [i|]; [|flow]. destruct (i <=? 0)%Z; [flow|done]. Qed.

Hint Resolve keeps_with1 keeps_with2 keeps_with_id : flow.

Lemma keeps_process_command input : keeps (settles open) (client_process_command client input).
Proof.
  unfold client_process_command, client_more_commands. destruct (scan_word input) as [[command rest]|]; [|flow].
  repeat match goal with
         | |- keeps _ (if ?b then _ else _) => destruct b
         | |- keeps _ (match ?x with _ => _ end) => destruct x as [[[]]|] || destruct x as [[]|]
         | |- keeps _ (with1 _ _ _) => apply keeps_with1; intros
         | |- keeps _ (with2 _ _ _ _) => apply keeps_with2; intros
         | |- keeps _ (with_id _ _ _) => apply keeps_with_id; intros
         end; flow.
Qed.

(** ** The loop *)

(** What ends a session. *)
Definition leaves (line : cstr) : Prop := chomp line = $"quit" ∨ chomp line = $"exit".

(** What a line of input does to the input: the end of the loop, or one line
    less. *)
Definition round_input (lines : list cstr) (quit : bool) (t' : Term W) : Prop :=
  match lines with
  | [] => quit = true ∧ tm_stdin t' = []
  | line :: lines => if quit then leaves line ∧ tm_stdin t' = lines else tm_stdin t' `suffix_of` lines
  end.

Lemma client_round_spec t :
  ran (λ quit t', settles open t t' ∧ round_input (tm_stdin t) quit t') t (client_round client t).
Proof.
  destruct t as [w ns ss i o]. unfold client_round. rewrite (bind_eq _ _ _ _ _ (print_eq _ _ _ _ _ _)).
  destruct i as [|l lines]; (erewrite bind_eq by reflexivity); cbn [tm_world tm_ns tm_ss tm_stdin tm_out].
  { cbn. split; [|by split]. split; [apply moved_out|done]. }
  cbv zeta. set (u := mkTerm w ns ss lines (o ++ $"> ")).
  assert (Hread : settles open (mkTerm w ns ss (l :: lines) o) u).
  { split; [split; [by exists [l]|by apply prefix_app_r]|done]. }
  destruct (streq (chomp l) ($"quit") || streq (chomp l) ($"exit")) eqn:Hq.
  { split; [exact Hread|]. split; [|done]. apply orb_true_iff in Hq as [Hq%streq_true|Hq%streq_true]; [by left|by right]. }
  eapply ran_from; [apply Hread|].
  destruct (streq (chomp l) ($"help")).
  { split; [|by exists []]. etrans; [exact Hread|]. split; [apply moved_out|done]. }
  eapply ran_bind; [apply (keeps_process_command (chomp l) u)|]. intros rc v _ Hv. cbn beta in Hv.
  destruct (rc =? 0)%Z; cbn.
  - split; [by etrans|apply Hv].
  - destruct v as [w' ns' ss' i' o']. cbn. split; [|apply Hv]. etrans; [exact Hread|]. etrans; [exact Hv|].
    split; [apply moved_out|done].
Qed.

(** Where a session that ended did so. *)
Definition ended (lines lines' : list cstr) : Prop :=
  lines' = [] ∨ ∃ line, (line :: lines') `suffix_of` lines ∧ leaves line.

Lemma ended_suffix lines lines' rest : lines' `suffix_of` lines → ended lines' rest → ended lines rest.
Proof.
  intros Hs [?|(line & Hl & Hq)]; [by left|]. right. exists line. split; [|done]. by etrans.
Qed.

Lemma client_rounds_end fuel t :
  length (tm_stdin t) < fuel →
  ran (λ r t', r = Some 0%Z ∧ settles open t t' ∧ ended (tm_stdin t) (tm_stdin t')) t (client_rounds client fuel t).
Proof.
  revert t. induction fuel as [|fuel IH]; intros t Hf; [lia|]. cbn [client_rounds].
  eapply ran_bind; [apply client_round_spec|]. intros quit u _ [Hs Hi]. destruct (tm_stdin t) as [|l lines] eqn:Ht.
  { destruct Hi as [-> Hi]. split; [done|]. split; [done|]. by left. }
  destruct quit; cbn in Hi.
  - split; [done|]. split; [done|]. right. exists l. by destruct Hi as [Hl ->].
  - eapply ran_from; [apply Hs|]. eapply ran_mono; [|apply IH].
    + intros r v (-> & Hv & Hend). split; [done|]. split; [by etrans|].
      eapply ended_suffix; [|exact Hend]. by apply suffix_cons_r.
    + apply suffix_length in Hi. cbn in Hf. lia.
Qed.

(** The loop, from the greeting on. *)
Lemma client_start_ends t :
  ran (λ r t', r = Some 0%Z ∧ settles open t t' ∧ ended (tm_stdin t) (tm_stdin t')) t (client_start client t).
Proof.
  unfold client_start. destruct t as [w ns ss i o]. do 2 rewrite (bind_eq _ _ _ _ _ (print_eq _ _ _ _ _ _)).
  cbn [tm_stdin]. set (t := mkTerm w ns ss i o). set (u := mkTerm w ns ss i _).
  assert (Hu : settles open t u) by (unfold t, u; rewrite <- app_assoc; by split; [apply moved_out|]).
  eapply ran_from; [apply Hu|]. eapply ran_mono; [|apply client_rounds_end; cbn; lia].
  intros r v (-> & Hv & Hend). split; [done|]. split; [by etrans|done].
Qed.
End session.

(** ** The program *)

Section main.
Context {W : Type} `{Remote W} (open : W → bool) `{!Connections open}.

Lemma keeps_ask_username lines : keeps (flows open) (ask_username lines).
Proof.
  induction lines as [|l lines IH]; cbn [ask_username]; (apply keeps_bind; [apply _..|flow|intros _]);
    (apply keeps_bind; [apply _..|flow|]); intros [line|]; try flow; exact IH.
Qed.

Lemma cleanup_returns client t :
  ∃ t', client_cleanup client t = (Done tt, t') ∧ settles open t t' ∧ tm_stdin t' = tm_stdin t.
Proof.
  unfold client_cleanup. destruct (_ <=? _)%Z.
  - destruct t as [w ns ss i o]. eexists. split; [done|]. split; [|done]. split; [done|]. cbn. by rewrite open_ns_hangup.
  - by exists t.
Qed.

Lemma keeps_connect_to_ns client : keeps (flows open) (client_connect_to_ns client).
Proof. unfold client_connect_to_ns. cbn zeta. flow. Qed.

(** How the program's run ends: the exit code and the input that is left. *)
Definition exits (t : Term W) (r : option Z) (t' : Term W) : Prop :=
  settles open t t' ∧ (r = Some 1%Z ∨ r = Some 0%Z ∧ ended (tm_stdin t) (tm_stdin t')).

Lemma client_main_runs rest ns_ip ns_port t : ran (exits t) t (client_main rest ns_ip ns_port t).
Proof.
  unfold client_main. apply (ran_step (flows open)); [apply _|apply keeps_ask_username|].
  intros [username|] t1 _ H1%flows_settles; [|by split; [|left]].
  destruct (client_init rest username ns_ip (atoi ns_port)) as [client|]; [|by split; [|left]].
  apply (ran_step (flows open)); [apply _|apply keeps_connect_to_ns|]. intros [client' rc] t2 _ H2%flows_settles.
  assert (H02 : settles open t t2) by by etrans.
  destruct (rc =? 0)%Z; cbn [negb].
  - eapply ran_bind; [apply (client_start_ends open client' t2)|]. intros r t3 _ (-> & H3 & Hend).
    destruct (cleanup_returns client' t3) as ([w ns ss i o] & Hc & H4 & Hi). erewrite bind_eq by exact Hc.
    split; [|right; split; [done|]].
    + etrans; [exact H02|]. etrans; [exact H3|]. etrans; [exact H4|]. split; [apply moved_out|done].
    + cbn in Hi. cbn. rewrite Hi. eapply ended_suffix; [apply H02|done].
  - destruct (cleanup_returns client' t2) as (t3 & Hc & H3 & _). erewrite bind_eq by exact Hc.
    split; [by etrans|by left].
Qed.

End main.

(** ** Scripted servers

    Each message sent takes the next answers; without one the send fails.  After
    its answers a server closes the connection, or keeps it open and is silent. *)
Record Script := mkScript {
  sc_ns : list (list cstr);
  sc_ss : list (list cstr);
  sc_open : bool;
  sc_closes : bool
}.

#[export] Instance script : Remote Script := {
  ns_connect := λ w _ _, (w, Some 3%Z);
  ns_hangup := λ w, w;
  ns_deliver := λ w _, match sc_ns w with
                       | a :: rest => (mkScript rest (sc_ss w) (sc_open w) (sc_closes w), Some a)
                       | [] => (w, None)
                       end;
  ss_connect := λ w _ _, (mkScript (sc_ns w) (sc_ss w) true (sc_closes w), Connected);
  ss_deliver := λ w _, match sc_ss w with
                       | a :: rest => (mkScript (sc_ns w) rest (sc_open w) (sc_closes w), Some a)
                       | [] => (w, None)
                       end;
  ss_hangup := λ w, mkScript (sc_ns w) (sc_ss w) false (sc_closes w);
  ns_closed := sc_closes;
  ss_closed := sc_closes
}.

#[export] Instance script_connections : Connections sc_open.
Proof.
  split; try done.
  - intros [[|a ns] ss o c] msg; done.
  - intros [ns [|a ss] o c] msg; done.
Qed.

Definition ann_client : Client := mkClientState ($"ann") ($"127.0.0.1") 8080 3.

(** A name, a listing, a reading whose storage server stops half way, and a
    blank line. *)
Definition demo_session (closes : bool) : Term Script :=
  mkTerm (mkScript [[$"OK|Welcome, ann."]; [$"OK_LIST|ann"; $"OK_LIST_END"]; [$"OK_LOC|a|127.0.0.1|9002"]]
                   [[$"OK_READ_START|a"; $"OK_CONTENT|Hi."]] false closes)
    [] [] [nl ($"ann"); nl ($"LIST"); nl ($"read a"); nl []; nl ($"quit"); nl ($"LIST")] [].


(** The storage server closes the connection after the first answer. *)
Example demo_session_output :
  let '(run, t) := client_main ([], []) ($"127.0.0.1") ($"8080") (demo_session true) in
  run = Done (Some 0%Z) ∧ sc_open (tm_world t) = false ∧
  tm_out t =
    $"Enter username: " ++ nl ($"Welcome, ann!") ++ nl (nl ($"Type 'help' for available commands, 'quit' to exit.")) ++
    $"> " ++ nl ($"Users:") ++ nl ($" - ann") ++
    $"> " ++ nl ($"---- a ----") ++ $"Hi." ++ nl ($"Connection lost while reading file") ++
    nl ($"Error processing command") ++
    $"> " ++ nl ($"Error processing command") ++ $"> " ++ nl ($"Goodbye!").
Proof. by vm_compute. Qed.

(** It keeps the connection open: the program waits, with three lines of input
    that nobody reads. *)
Example demo_session_waits :
  let '(run, t) := client_main ([], []) ($"127.0.0.1") ($"8080") (demo_session false) in
  run = Blocked ∧ tm_stdin t = [nl []; nl ($"quit"); nl ($"LIST")] ∧ sc_open (tm_world t) = true ∧
  tm_out t =
    $"Enter username: " ++ nl ($"Welcome, ann!") ++ nl (nl ($"Type 'help' for available commands, 'quit' to exit.")) ++
    $"> " ++ nl ($"Users:") ++ nl ($" - ann") ++ $"> " ++ nl ($"---- a ----") ++ $"Hi.".
Proof. by vm_compute. Qed.
