(* ===== verification/System.v ===== *)
(** * The three programs together

    One client, one name server and one storage server that are connected: the
    client's view of them ([Remote]) and the name server's view of the storage
    server ([Servers]) given by the models of the other programs.  Messages are
    cut at newlines on every connection.  What the storage server sends to the
    name server answers the request the name server waits for, if there is one
    and it is the first message, and is otherwise taken by the reader of the
    connection, after the command. *)
From S2P Require Import Prelude CStr Utils Protocol Wire SSState SSClient SSControl NSMeta NSState NSIndex NSPeer NSServe NSSpec NSKept ClientIO ClientNS ClientSS ClientMain ClientFlow.

(** ** The storage server, as the name server sees it *)

(** The server, the messages its reader has not taken and the time. *)
Record Node := mkSSNode {
  nd_ss : StorageServer;
  nd_events : list cstr;
  nd_now : Z
}.

Section system.
(** The other storage servers a COPY reads from, the commands of EXEC and the
    format of times. *)
Context (peer : cstr → Z → Peer) (shell : cstr → option cstr) (format_time : Z → cstr).

Definition control_turns (nd : Node) (messages : list cstr) : Node * Outbox :=
  foldl (λ '(nd, out) raw,
           let '(ss, out') := ns_control_turn (nd_ss nd) (Some raw) peer (nd_now nd) in
           (mkSSNode ss (nd_events nd) (nd_now nd), out ++ out'))
    (nd, []) messages.

(** The answer is the first message that comes; if none comes, the handler waits
    until the connection ends. *)
#[export] Instance node_servers : Servers Node := λ nd info fields,
  if (si_sockfd info <? 0)%Z || negb (si_is_alive info) then (nd, inl (-2)%Z)
  else
    match protocol_build_message fields with
    | None => (nd, inl (-3)%Z)
    | Some command =>
        let '(nd, out) := control_turns nd (frames command) in
        match frames (sent_to (ss_ns_sockfd (nd_ss nd)) out) with
        | response :: events => (mkSSNode (nd_ss nd) (nd_events nd ++ events) (nd_now nd), inr response)
        | [] => (nd, inl (-5)%Z)
        end
    end.

(** ** The servers, as the client sees them *)

(** [sy_peer] is the storage server's entry at the name server, [sy_fd] and
    [sy_conn] are the descriptors of the client's connections at the two servers,
    [sy_session] is the session at the name server and [sy_open] tells whether
    there is a connection to the storage server. *)
Record System := mkSystem {
  sy_ns : NameServer;
  sy_node : Node;
  sy_peer : StorageServerInfo;
  sy_fd : Z;
  sy_session : option Ctx;
  sy_conn : Z;
  sy_open : bool
}.

(** The reader of the storage server's connection. *)
Definition take_events (sy : System) : System :=
  mkSystem
    (foldl (λ ns raw, ss_message ns (sy_peer sy) (protocol_parse_message raw) (nd_now (sy_node sy)))
       (sy_ns sy) (nd_events (sy_node sy)))
    (mkSSNode (nd_ss (sy_node sy)) [] (nd_now (sy_node sy)))
    (sy_peer sy) (sy_fd sy) (sy_session sy) (sy_conn sy) (sy_open sy).

(** A message on the client's connection to the name server: the handshake
    comes first, and a refused one ends the connection. *)
Definition ns_turn (sy : System) (raw : cstr) : System * Outbox :=
  match sy_session sy with
  | None =>
      let msg := protocol_parse_message raw in
      if streq (fld msg 0) ($"HELLO_CLIENT") then
        let '(ns, out, session) := hello_client (sy_ns sy) (sy_fd sy) msg in
        (mkSystem ns (sy_node sy) (sy_peer sy) (sy_fd sy) session (sy_conn sy) (sy_open sy), out)
      else (sy, send_error_and_log (sy_fd sy) ERR_INVALID_REQUEST ($"Unknown command."))
  | Some ctx =>
      let '(node, ns, out) := client_turn format_time shell (sy_node sy) (sy_ns sy) ctx raw (nd_now (sy_node sy)) in
      (take_events (mkSystem ns node (sy_peer sy) (sy_fd sy) (sy_session sy) (sy_conn sy) (sy_open sy)), out)
  end.

(** A message on the client's connection to the storage server. *)
Definition ss_turn (sy : System) (raw : option cstr) : System * Outbox :=
  let node := sy_node sy in
  let '(ss, out) := client_thread_turn (nd_ss node) (sy_conn sy) raw (nd_now node) in
  let events := nd_events node ++ frames (sent_to (ss_ns_sockfd ss) out) in
  (take_events (mkSystem (sy_ns sy) (mkSSNode ss events (nd_now node)) (sy_peer sy) (sy_fd sy) (sy_session sy)
                  (sy_conn sy) (sy_open sy)), out).

Definition turns (turn : System → cstr → System * Outbox) (sy : System) (messages : list cstr) : System * Outbox :=
  foldl (λ '(sy, out) raw, let '(sy, out') := turn sy raw in (sy, out ++ out')) (sy, []) messages.

Definition set_open (sy : System) (x : bool) : System :=
  mkSystem (sy_ns sy) (sy_node sy) (sy_peer sy) (sy_fd sy) (sy_session sy) (sy_conn sy) x.

(** The end of the client's connection: its lock is released. *)
Definition ss_leave (sy : System) : System :=
  if sy_open sy then set_open (ss_turn sy None).1 false else sy.

Definition ns_leave (sy : System) : System :=
  match sy_session sy with
  | None => sy
  | Some ctx => mkSystem (client_disconnected (sy_ns sy) (cx_username ctx)) (sy_node sy) (sy_peer sy) (sy_fd sy) None
                  (sy_conn sy) (sy_open sy)
  end.

Definition served (answered : System * Outbox) (fd : Z) : System * option (list cstr) :=
  (answered.1, Some (frames (sent_to fd answered.2))).

#[export] Instance system_remote : Remote System := {
  ns_connect := λ sy _ _, (sy, Some 3%Z);
  ns_hangup := ns_leave;
  ns_deliver := λ sy message, served (turns ns_turn sy (frames message)) (sy_fd sy);
  ss_connect := λ sy ip port,
    if streq ip (ss_client_ip (nd_ss (sy_node sy))) && (port =? ss_client_port (nd_ss (sy_node sy)))%Z
    then (set_open sy true, Connected) else (sy, Refused);
  ss_deliver := λ sy message,
    if sy_open sy then served (turns (λ sy raw, ss_turn sy (Some raw)) sy (frames message)) (sy_conn sy)
    else (sy, None);
  ss_hangup := ss_leave;
  ns_closed := λ sy, match sy_session sy with None => true | Some _ => false end;
  ss_closed := λ sy, negb (sy_open sy && ss_running (nd_ss (sy_node sy)))
}.
End system.

(** ** One exchange *)

Section exchanges.
Context (peer : cstr → Z → Peer) (shell : cstr → option cstr) (format_time : Z → cstr).

#[local] Instance remote : Remote System := system_remote peer shell format_time.
#[local] Instance servers : Servers Node := node_servers peer.

Lemma events_kept ns info events now :
  kept ns (foldl (λ ns raw, ss_message ns info (protocol_parse_message raw) now) ns events).
Proof.
  revert ns. induction events as [|raw events IH]; intros ns; [done|]. cbn [foldl].
  etrans; [apply ss_message_kept|apply IH].
Qed.

Lemma turns_one turn sy raw : turns turn sy [raw] = turn sy raw.
Proof. unfold turns. cbn [foldl]. by destruct (turn sy raw). Qed.

(** A command of a user in session, answered on the user's connection. *)
Lemma ns_exchange sy ctx fields node ns fss :
  sendable fields → sy_session sy = Some ctx → (0 <= sy_fd sy)%Z → Forall sendable fss →
  client_command format_time shell (sy_node sy) (sy_ns sy) ctx fields (nd_now (sy_node sy)) =
    (node, ns, concat (map (emit (sy_fd sy)) fss)) →
  ns_deliver sy (message fields) =
    (take_events (mkSystem ns node (sy_peer sy) (sy_fd sy) (sy_session sy) (sy_conn sy) (sy_open sy)),
     Some (map message fss)).
Proof.
  intros Hs Hc Hfd Hall Hcmd. cbn [ns_deliver remote system_remote]. rewrite frames_message; [done|].
  rewrite turns_one. unfold ns_turn. rewrite Hc. unfold client_turn. rewrite parse_sendable; [done|]. rewrite Hcmd.
  unfold served. cbn [fst snd]. by rewrite frames_emits.
Qed.

(** A message of the client, answered on its connection; what goes to others
    ([rest]) does not reach it. *)
Lemma ss_exchange sy fields ss fss rest :
  sendable fields → sy_open sy = true → (0 <= sy_conn sy)%Z → Forall sendable fss →
  Forall (λ m, m.1 ≠ sy_conn sy) rest →
  client_message (nd_ss (sy_node sy)) (sy_conn sy) fields (nd_now (sy_node sy)) =
    (ss, concat (map (emit (sy_conn sy)) fss) ++ rest) →
  ∃ ns, kept (sy_ns sy) ns ∧ ss_deliver sy (message fields) =
    (mkSystem ns (mkSSNode ss [] (nd_now (sy_node sy))) (sy_peer sy) (sy_fd sy) (sy_session sy) (sy_conn sy) true,
     Some (map message fss)).
Proof.
  intros Hs Ho Hfd Hall Hrest Hcmd. cbn [ss_deliver remote system_remote]. rewrite Ho frames_message; [done|].
  rewrite turns_one. unfold ss_turn, client_thread_turn. rewrite parse_sendable; [done|]. rewrite Hcmd.
  unfold served. cbn [fst snd]. rewrite (sent_to_app (sy_conn sy)) (sent_to_other _ rest); [done|].
  rewrite app_nil_r frames_emits; [done..|]. rewrite Ho. eexists. split; [|done]. apply events_kept.
Qed.

(** The laws of the client's connections. *)
Lemma turns_open turn sy msgs :
  (∀ sy raw, sy_open (turn sy raw).1 = sy_open sy) → sy_open (turns turn sy msgs).1 = sy_open sy.
Proof.
  intros Ht. unfold turns. generalize ([] : Outbox) as out. revert sy.
  induction msgs as [|raw msgs IH]; intros sy out; [done|]. cbn [foldl].
  specialize (Ht sy raw) as Hr. destruct (turn sy raw) as [sy' out']. cbn in Hr. by rewrite -Hr.
Qed.

#[export] Instance system_connections : Connections sy_open.
Proof.
  split; cbn [ns_connect ns_hangup ns_deliver ss_connect ss_deliver ss_hangup remote system_remote fst].
  - done.
  - intros sy. unfold ns_leave. by destruct (sy_session sy).
  - intros sy msg. cbn [served fst]. apply turns_open. intros sy' raw. unfold ns_turn.
    destruct (sy_session sy') as [ctx|].
    + by destruct (client_turn _ _ _ _ _ _ _) as [[node ns] out].
    + destruct (streq _ _); [|done]. by destruct (hello_client _ _ _) as [[ns out] session].
  - intros sy msg. destruct (sy_open sy) eqn:Ho; [|done]. cbn [served fst]. rewrite -Ho. apply turns_open. intros sy' raw.
    unfold ss_turn. by destruct (client_thread_turn _ _ _ _).
  - intros sy ip port. by destruct (_ && _).
  - intros sy. unfold ss_leave. by destruct (sy_open sy) eqn:Ho.
Qed.
End exchanges.
