(* ===== verification/SystemRead.v ===== *)
(** * Reading a document, end to end

    The client's READ through the name server and the storage server: the user
    sees the document the storage server holds. *)
From S2P Require Import Prelude CStr Utils Protocol Wire Disk SSState SSAcl SSFiles SSMeta SSClient SSControl NSMeta NSState NSIndex NSPersist NSPeer NSQueries NSServe NSSpec NSRefine NSKept ClientIO ClientNS ClientSS ClientMain ClientFlow System.

Lemma found_name ss filename rec :
  length filename < MAX_FILENAME_LENGTH → ss_find_file ss filename = Some rec → fr_filename rec = filename.
Proof.
  intros Hl [_ Hs]%firstb_elem. symmetry. apply (strneq_short MAX_FILENAME_LENGTH); [done|].
  unfold same_name, strneq in *. rewrite bool_decide_eq_true in Hs. by rewrite bool_decide_eq_true.
Qed.

(** ** Finding the storage server *)

(** The client is in session, and the name server has a file of this name that
    the user may use for the operation and that is on the storage server. *)
Record located (sy : System) (client : Client) (operation filename : cstr) (file : FileMetadata) : Prop := {
  lc_socket : (0 <= cc_ns_sockfd client)%Z;
  lc_session : sy_session sy = Some (mkCtx (sy_fd sy) (cc_username client));
  lc_fd : (0 <= sy_fd sy)%Z;
  lc_user : validate_username (cc_username client) = true;
  lc_name : validate_filename filename = true;
  lc_plain : plain filename;
  lc_registry : ns_wf (sy_ns sy);
  lc_file : registry (sy_ns sy) !! filename = Some file;
  lc_access : loc_access operation file (cc_username client) = Some true;
  lc_ip : fm_ss_ip file = ss_client_ip (nd_ss (sy_node sy));
  lc_ip_plain : plain (fm_ss_ip file) ∧ length (fm_ss_ip file) < MAX_IP_LENGTH;
  lc_port : fm_ss_port file = ss_client_port (nd_ss (sy_node sy));
  lc_port_valid : is_valid_port (fm_ss_port file) = true
}.

Lemma loc_touch_rights operation f user now : same_rights f (loc_touch operation f user now).
Proof. unfold loc_touch. by destruct (loc_modifies operation). Qed.

Lemma req_loc_answer ns ctx operation filename file now :
  ns_wf ns → cx_username ctx ≠ [] → validate_filename filename = true → registry ns !! filename = Some file →
  loc_access operation file (cx_username ctx) = Some true →
  ∃ ns', kept ns ns' ∧ handle_req_loc ns ctx [$"REQ_LOC"; operation; filename] now =
    (ns', emit (cx_fd ctx) [$"OK_LOC"; filename; fm_ss_ip file; to_dec (fm_ss_port file)]).
Proof.
  intros Hwf Hu Hv Hf Ha. unfold handle_req_loc. do 2 (case_decide as Hlen; cbn [length] in Hlen; [lia || clear Hlen|lia || clear Hlen]).
  change (fld [$"REQ_LOC"; operation; filename] 1) with operation.
  change (fld [$"REQ_LOC"; operation; filename] 2) with filename. rewrite Hv.
  cbn [negb]. destruct (streq (cx_username ctx) []) eqn:Hs; [by apply streq_true in Hs|].
  pose proof (lookup_refines [] ns filename Hwf) as Hl. destruct (file_lookup_locked ns filename) as [ns1 r].
  destruct Hl as ([Hwf1 _] & Hreg & _ & Hr). destruct r as [i|]; [|congruence].
  destruct Hr as (g & Hg & Hn & Hgf & _). assert (g = file) as -> by congruence. rewrite Hg Ha.
  set (file' := loc_touch _ _ _ _). pose proof (loc_touch_rights operation file (cx_username ctx) now) as Hsame.
  fold file' in Hsame. exists (ns_save_metadata (file_cache_store (update_file ns1 i file') filename i)). split.
  - etrans; [by apply (kept_frame ns ns1)|]. etrans; [by apply (kept_touched ns1 i file file' filename)|]. apply kept_save.
  - destruct Hsame as [Hn' _ [-> ->] _]. by rewrite Hn' Hn.
Qed.

(** ** From one command to the next

    What a command that finds and uses a storage server leaves as it was. *)
Record onward (sy sy' : System) : Prop := {
  og_ns : kept (sy_ns sy) (sy_ns sy');
  og_session : sy_session sy' = sy_session sy;
  og_fd : sy_fd sy' = sy_fd sy;
  og_conn : sy_conn sy' = sy_conn sy;
  og_place : ss_client_ip (nd_ss (sy_node sy')) = ss_client_ip (nd_ss (sy_node sy)) ∧
             ss_client_port (nd_ss (sy_node sy')) = ss_client_port (nd_ss (sy_node sy))
}.

#[export] Instance onward_preorder : PreOrder onward.
Proof.
  split; [done|]. intros s1 s2 s3 [H1 H2 H3 H4 [H5 H6]] [K1 K2 K3 K4 [K5 K6]].
  split; [by etrans|congruence..|split; congruence].
Qed.

Lemma leave_onward sy : onward sy (ss_leave sy).
Proof.
  unfold ss_leave. destruct (sy_open sy); [|done]. split; try done. apply events_kept.
Qed.

(** Who may write may read: a file that was found for writing is found for
    reading later. *)
Lemma located_onward sy sy' client filename file :
  located sy client ($"WRITE") filename file → onward sy sy' →
  ∃ file', located sy' client ($"READ") filename file'.
Proof.
  intros [] [Hk Hs Hfd _ [Hip Hport]]. destruct (Hk lc_registry0) as [Hwf Hall].
  destruct (Hall _ _ lc_file0) as (g & Hg & Hsame). exists g. pose proof Hsame as [_ _ [Hgi Hgp] _].
  split; rewrite ?Hgi ?Hgp ?Hs ?Hfd; try done; [|congruence..].
  assert (Hw : file_has_write_access g (cc_username client) = true).
  { rewrite (same_rights_write _ _ _ Hsame). unfold loc_access in lc_access0. by injection lc_access0. }
  change (Some (file_has_read_access g (cc_username client)) = Some true). f_equal.
  revert Hw. unfold file_has_write_access, file_has_read_access. rewrite !orb_true_iff. tauto.
Qed.

Section reading.
Context (peer : cstr → Z → Peer) (shell : cstr → option cstr) (format_time : Z → cstr).

#[local] Instance remote : Remote System := system_remote peer shell format_time.
#[local] Instance servers : Servers Node := node_servers peer.

Lemma command_req_loc node ns ctx rest now :
  client_command format_time shell node ns ctx ($"REQ_LOC" :: rest) now =
  alone node (handle_req_loc ns ctx ($"REQ_LOC" :: rest) now).
Proof. done. Qed.

(** The client's state after an exchange with the name server. *)
Lemma location_found sy client operation filename file inp out :
  located sy client operation filename file → plain operation → length operation < 100 →
  ∃ sy', client_request_location client operation filename (mkTerm sy [] [] inp out) =
      (Done (Some (fm_ss_ip file, fm_ss_port file, filename)), mkTerm sy' [] [] inp out) ∧
    onward sy sy' ∧ nd_ss (sy_node sy') = nd_ss (sy_node sy) ∧ sy_open sy' = sy_open sy.
Proof.
  intros [] Hop Hlop. pose proof (validate_filename_spec filename) as [Hvf _]. destruct (Hvf lc_name0) as (_ & Hlf & _).
  pose proof (validate_username_spec (cc_username client)) as [Hvu _]. destruct (Hvu lc_user0) as (Hune & _ & _).
  destruct lc_ip_plain0 as [Hip Hlip]. unfold MAX_FILENAME_LENGTH, MAX_IP_LENGTH in *.
  assert (Hport : (1 <= fm_ss_port file <= 65535)%Z) by (revert lc_port_valid0; unfold is_valid_port; lia).
  assert (Hlport : length (to_dec (fm_ss_port file)) ≤ 11) by (apply to_dec_int_length; unfold INT_MIN, INT_MAX; lia).
  assert (Hask : sendable [$"REQ_LOC"; operation; filename]).
  { sendable. }
  assert (Hans : sendable [$"OK_LOC"; filename; fm_ss_ip file; to_dec (fm_ss_port file)]).
  { sendable. }
  destruct (req_loc_answer (sy_ns sy) (mkCtx (sy_fd sy) (cc_username client)) operation filename file
              (nd_now (sy_node sy))) as (ns' & Hkept & Hns); [done..|].
  unfold client_request_location. rewrite (proj2 (Z.ltb_ge _ _) lc_socket0). rewrite build_sendable; [done|].
  pose proof (ns_exchange peer shell format_time sy _ _ (sy_node sy) ns'
    [[$"OK_LOC"; filename; fm_ss_ip file; to_dec (fm_ss_port file)]] Hask lc_session0 lc_fd0) as Hx.
  erewrite bind_eq; [|apply send_ns_eq, Hx; [by apply Forall_singleton|]].
  2: { etrans; [apply command_req_loc|]. rewrite Hns. unfold alone. cbn [map concat fst snd cx_fd]. by rewrite app_nil_r. }
  cbn [negb app map]. erewrite bind_eq; [|apply receive_ns_eq]. rewrite parse_sendable; [done|].
  change (protocol_is_error _) with false. change (bool_decide _ || _) with false. cbn iota zeta.
  change (arg _ 3) with (to_dec (fm_ss_port file)). change (arg _ 2) with (fm_ss_ip file). change (arg _ 1) with filename.
  rewrite -(app_nil_r (to_dec _)) strtol_to_dec; [unfold LONG_MIN, LONG_MAX; lia|done|]. cbn [st_end st_value].
  assert (Hw : wrap32 (fm_ss_port file) = fm_ss_port file) by (unfold wrap32; rewrite Z.mod_small; lia).
  destruct (streq (_ ++ []) []) eqn:Hd; [by apply streq_true in Hd; rewrite app_nil_r in Hd; apply to_dec_nonempty in Hd|].
  change (false || negb (streq [] [])) with false. cbn iota. rewrite Hw lc_port_valid0. cbn [negb].
  rewrite !fit_short; [done..|]. eexists. split; [done|]. split; [|done]. split; [|done..].
  etrans; [exact Hkept|apply events_kept].
Qed.

(** The handlers of a located file reach its server, and close the connection. *)
Lemma storage_reached sy client operation filename file k inp out :
  located sy client operation filename file → plain operation → length operation < 100 →
  ∃ sy', on_storage client operation filename k (mkTerm sy [] [] inp out) =
      (k filename ≫= λ rc, hangup;; mret rc) (mkTerm sy' [] [] inp out) ∧
    onward sy sy' ∧ nd_ss (sy_node sy') = nd_ss (sy_node sy) ∧ sy_open sy' = true.
Proof.
  intros Hl Hop Hlop. destruct (location_found sy client operation filename file inp out Hl Hop Hlop)
    as (sy1 & Hloc & Hon & Hss & Hopen).
  exists (set_open sy1 true). split; [|by destruct Hon]. destruct Hl. unfold on_storage.
  rewrite (proj2 (Z.ltb_ge _ _) lc_socket0) lc_name0. cbn [negb]. erewrite bind_eq; [|exact Hloc]. cbn iota beta.
  assert (Hc : client_connect_to_storage (fm_ss_ip file) (fm_ss_port file) (mkTerm sy1 [] [] inp out) =
               (Done true, mkTerm (set_open sy1 true) [] [] inp out)).
  { unfold client_connect_to_storage. rewrite lc_port_valid0. cbn [negb]. erewrite bind_eq; [|apply connect_eq].
    2: { cbn [ss_connect remote system_remote]. by rewrite Hss -lc_ip0 -lc_port0 streq_refl Z.eqb_refl. }
    done. }
  erewrite bind_eq; [|exact Hc]. cbn [negb]. destruct filename; [done|]. done.
Qed.

(** ** Reading *)

(** The storage server has the file, the user may read it, and this is it. *)
Record readable (sy : System) (user filename : cstr) (rec : FileRecord) (doc : cstr) : Prop := {
  rd_conn : (0 <= sy_conn sy)%Z;
  rd_file : ss_find_file (nd_ss (sy_node sy)) filename = Some rec;
  rd_access : ss_check_read_access rec user = true;
  rd_content : ss_read_file_content (ss_disk (nd_ss (sy_node sy))) (fr_filepath rec) = Some doc;
  rd_plain : plain doc;
  rd_length : (Z.of_nat (length doc) < 64000)%Z
}.

(** What the client prints for a document. *)
Definition shown (filename doc : cstr) : cstr :=
  nl ($"---- " ++ filename ++ $" ----") ++ match doc with [] => nl ($"(empty file)") | _ => nl doc end.

Lemma read_stream closed filename doc :
  filename ≠ [] → sendable [$"OK_READ_START"; filename] → sendable [$"OK_CONTENT"; doc] →
  recv_loop closed (read_body filename) (lost ($"Connection lost while reading file")) (false, false, true)
    (map message [[$"OK_READ_START"; filename]; [$"OK_CONTENT"; doc]; [$"OK_READ_END"]]) =
  (shown filename doc, Done 0%Z, []).
Proof.
  intros Hne Hs Hd. cbn [map recv_loop]. rewrite !parse_sendable; [done..|by sendable|].
  assert (Hstart : read_body filename (false, false, true) [$"OK_READ_START"; filename] =
                   (nl ($"---- " ++ filename ++ $" ----"), inl (true, false, true))).
  { by destruct filename. }
  rewrite Hstart. destruct doc as [|c doc]; [done|].
  assert (Hlast : last (c :: doc) ≠ Some c_nl).
  { intros Hx%last_Some_elem_of. apply sd_plain in Hd. rewrite Forall_cons Forall_singleton in Hd. by apply Hd. }
  assert (Hcont : read_body filename (true, false, true) [$"OK_CONTENT"; c :: doc] = (c :: doc, inl (true, true, false))).
  { transitivity (c :: doc, @inl (bool * bool * bool) Z (true, true, bool_decide (last (c :: doc) = Some c_nl))); [reflexivity|].
    rewrite (bool_decide_eq_false_2 _ Hlast). reflexivity. }
  rewrite Hcont. cbn [bool_decide]. reflexivity.
Qed.

Lemma client_read_answer ss fd user filename rec doc now :
  ss_find_file ss filename = Some rec → ss_check_read_access rec user = true →
  ss_read_file_content (ss_disk ss) (fr_filepath rec) = Some doc →
  client_message ss fd [$"REQ_READ"; user; filename] now =
    (ss_touch_file_metadata ss rec (Some user) false now,
     concat (map (emit fd) [[$"OK_READ_START"; fr_filename rec]; [$"OK_CONTENT"; doc]; [$"OK_READ_END"]])).
Proof.
  intros Hf Ha Hc. change (client_message ss fd _ now) with (handle_client_read ss fd [$"REQ_READ"; user; filename] now).
  unfold handle_client_read. case_decide as Hlen; cbn [length] in Hlen; [lia|].
  change (field _ 1) with user. change (field _ 2) with filename. unfold with_file.
  rewrite Hf Ha Hc. cbn [map concat]. by rewrite app_nil_r.
Qed.

Lemma read_spec sy client filename file rec doc inp out :
  located sy client ($"READ") filename file → readable sy (cc_username client) filename rec doc →
  ∃ sy', client_handle_read client filename (mkTerm sy [] [] inp out) =
      (Done 0%Z, mkTerm sy' [] [] inp (out ++ shown filename doc)) ∧ sy_open sy' = false.
Proof.
  intros Hl [].
  destruct (storage_reached sy client ($"READ") filename file
    (λ name, ss_request [$"REQ_READ"; cc_username client; name] ($"Failed to send READ request to Storage Server")
               (client_receive_read_stream name)) inp out Hl) as (sy1 & Hreach & Hon & Hss & Hopen);
    [split; vmd|cbn; lia|].
  unfold client_handle_read. rewrite Hreach. clear Hreach. destruct Hl.
  pose proof (proj1 (validate_filename_spec filename) lc_name0) as (Hne & Hlf & _).
  pose proof (proj1 (validate_username_spec (cc_username client)) lc_user0) as (Hune & Hlu & _).
  unfold MAX_FILENAME_LENGTH, MAX_USERNAME_LENGTH in *.
  assert (Hname : fr_filename rec = filename) by by eapply found_name.
  assert (Hask : sendable [$"REQ_READ"; cc_username client; filename]) by sendable.
  assert (H1 : sendable [$"OK_READ_START"; filename]) by sendable.
  assert (H2 : sendable [$"OK_CONTENT"; doc]) by sendable.
  assert (H3 : sendable [$"OK_READ_END"]) by sendable.
  rewrite -(og_conn _ _ Hon) in rd_conn0. rewrite -Hss in rd_file0 rd_content0.
  pose proof (client_read_answer (nd_ss (sy_node sy1)) (sy_conn sy1) (cc_username client) filename rec doc
    (nd_now (sy_node sy1)) rd_file0 rd_access0 rd_content0) as Hans. rewrite Hname in Hans.
  rewrite -(app_nil_r (concat _)) in Hans.
  edestruct (ss_exchange peer shell format_time sy1) as (ns & _ & Hx); [exact Hask|done|done| | |exact Hans|].
  { by repeat (apply Forall_cons; split). }
  { done. }
  erewrite bind_eq.
  2: { unfold ss_request. rewrite build_sendable; [done|]. erewrite bind_eq; [|apply send_ss_eq, Hx].
       apply loop_ss_eq, read_stream; done. }
  erewrite bind_eq; [|apply hangup_eq]. eexists. split; [done|]. apply (open_ss_hangup (open := sy_open)).
Qed.

(** READ shows the document: when the name server and the storage server
    both know the file and let the user read it, the client's READ prints the
    file's name and exactly the text the storage server holds, and nothing else;
    it succeeds, no message is left on either connection, and the connection to
    the storage server is closed.  (Texts with a bar or a newline, or near the
    size of a message, do not pass the protocol: [newline_truncates].) *)
Theorem read_shows_document sy client filename file rec doc inp out :
  located sy client ($"READ") filename file → readable sy (cc_username client) filename rec doc →
  ∃ sy', client_handle_read client filename (mkTerm sy [] [] inp out) =
      (Done 0%Z, mkTerm sy' [] [] inp (out ++ shown filename doc)) ∧ sy_open sy' = false.
Proof. apply read_spec. Qed.
End reading.
