(* ===== verification/SystemWrite.v ===== *)
(** * Editing a document, end to end

    The client's WRITE session through the name server and the storage server:
    the edit the user types is in the document once ETIRW is answered. *)
From S2P Require Import Prelude CStr Utils Protocol Wire Disk Sentences SSState SSAcl SSFiles SSMeta SSClient SSControl SSInv SSInvClient SSInvControl SSLocks NSMeta NSState NSIndex NSPeer NSQueries NSServe NSSpec NSKept ClientIO ClientNS ClientSS ClientMain ClientFlow System SystemRead.

(** ** The storage server's three answers *)

Lemma parse_int_to_dec n : (INT_MIN <= n <= INT_MAX)%Z → parse_int (to_dec n) = Some n.
Proof.
  intros Hn. unfold parse_int. rewrite -(app_nil_r (to_dec n)) strtol_to_dec; [|done|].
  { unfold INT_MIN, INT_MAX, LONG_MIN, LONG_MAX in *. lia. }
  cbn [st_end st_value]. by rewrite !(proj2 (Z.ltb_ge _ _)); [lia..|].
Qed.

Lemma slice_nil {A} a b (l : list A) : b <= a → slice a b l = [].
Proof. intros H. unfold slice. by replace (b - a) with 0 by lia. Qed.

(** The addresses of a storage server. *)
Definition config (ss : StorageServer) : Z * cstr * Z := (ss_ns_sockfd ss, ss_client_ip ss, ss_client_port ss).

Lemma etirw_config ss fd now : config (handle_client_etirw ss fd now).1 = config ss.
Proof.
  unfold handle_client_etirw. destruct (etirw_begin ss fd) as [|[[id a] b]]; [done|].
  destruct (deref ss id); [|done]. destruct (ss_find_session ss fd); [|done].
  unfold etirw_commit, ss_touch_file_metadata. repeat case_match; by simplify_eq/=.
Qed.

Section server.
Context (ss : StorageServer) (fd : Z) (user filename content doc new : cstr) (rec : FileRecord).
Context (s_index w_index : Z) (start stop : nat).

(** The user may write the file; nobody else holds the sentence; and the edit
    applies to it. *)
Record editable : Prop := {
  ed_inv : ss_inv ss;
  ed_file : ss_find_file ss filename = Some rec;
  ed_access : ss_check_write_access rec user = true;
  ed_doc : dk_files (ss_disk ss) !! fr_filepath rec = Some doc;
  ed_writable : writable (ss_disk ss) (fr_filepath rec);
  ed_undoable : writable (ss_disk ss) (fr_undopath rec);
  ed_meta : fr_undopath rec ≠ fr_metapath rec;
  ed_s_index : (0 <= s_index <= INT_MAX)%Z;
  ed_w_index : (0 <= w_index <= INT_MAX)%Z;
  ed_bounds : ss_get_sentence_bounds doc s_index = Some (start, stop);
  ed_free : ss_find_session_by_sentence ss rec s_index = None;
  ed_idle : ss_find_session ss fd = None;
  ed_edit : ss_apply_word_edit (slice start stop doc) w_index content = Some new
}.

Context (Hed : editable).

Definition session_for (working : cstr) : WriteSession :=
  mkSession fd (fr_id rec) (fit MAX_USERNAME_LENGTH user) s_index start stop doc working.
Definition locked (working : cstr) : StorageServer := set_ss_sessions ss (session_for working :: ss_sessions ss).

Lemma lock_answer now :
  client_message ss fd [$"REQ_WRITE_LOCK"; user; filename; to_dec s_index] now =
    (locked (slice start stop doc),
     concat (map (emit fd) [[$"OK_LOCKED"; fr_filename rec; to_dec s_index]; [$"OK_CONTENT"; slice start stop doc]])).
Proof.
  destruct Hed. change (client_message ss fd _ now)
    with (handle_client_write_lock ss fd [$"REQ_WRITE_LOCK"; user; filename; to_dec s_index]).
  unfold handle_client_write_lock. case_decide as Hlen; cbn [length] in Hlen; [lia|].
  change (field _ 1) with user. change (field _ 2) with filename. change (field _ 3) with (to_dec s_index).
  rewrite parse_int_to_dec; [unfold INT_MIN; lia|]. rewrite (proj2 (Z.ltb_ge _ _)); [lia|].
  unfold write_lock_begin, ss_abort_session, ss_detach_session.
  assert (Hgone : set_ss_sessions ss (remove_firstb (λ s, (ws_client_fd s =? fd)%Z) (ss_sessions ss)) = ss).
  { rewrite remove_firstb_None; [done|]. by destruct ss. }
  rewrite Hgone ed_file0 ed_access0.
  assert (Hde : deref ss (fr_id rec) = Some rec).
  { apply deref_elem; [apply ed_inv0|]. by apply firstb_elem in ed_file0 as []. }
  rewrite Hde. unfold write_lock_commit. rewrite ed_free0.
  unfold ss_read_file_content. rewrite (writable_read _ _ _ ed_writable0 ed_doc0) ed_bounds0.
  unfold ss_create_session. cbn [map concat]. rewrite app_nil_r. case_decide; [done|].
  unfold locked, session_for. rewrite slice_nil; [lia|done].
Qed.

Lemma edit_answer now :
  client_message (locked (slice start stop doc)) fd [$"WRITE_DATA"; to_dec w_index; content] now =
    (locked new, concat (map (emit fd) [[$"OK"; $"WRITE_DATA applied"]])).
Proof.
  destruct Hed. change (client_message (locked _) fd _ now)
    with (handle_client_write_data (locked (slice start stop doc)) fd [$"WRITE_DATA"; to_dec w_index; content]).
  unfold handle_client_write_data. case_decide as Hlen; cbn [length] in Hlen; [lia|].
  change (field _ 1) with (to_dec w_index). change (field _ 2) with content.
  rewrite parse_int_to_dec; [unfold INT_MIN; lia|]. rewrite (proj2 (Z.ltb_ge _ _)); [lia|].
  unfold ss_find_session, locked. cbn [ss_sessions set_ss_sessions firstb update_firstb session_for ws_client_fd].
  rewrite Z.eqb_refl. cbn [ws_sentence_working]. rewrite ed_edit0. cbn [map concat]. by rewrite app_nil_r.
Qed.

Lemma edited_inv : ss_inv (locked new).
Proof.
  pose proof (lock_answer 0) as H1. pose proof (edit_answer 0) as H2.
  change (locked new) with (fst (locked new, concat (map (emit fd) [[$"OK"; $"WRITE_DATA applied"]]))).
  rewrite -H2. apply client_message_safe.
  change (locked (slice start stop doc)) with (fst (locked (slice start stop doc), @nil (Z * cstr))).
  apply (f_equal fst) in H1. cbn [fst] in H1 |- *. rewrite -H1. apply client_message_safe, Hed.
Qed.

(** The server after the commit: the document is the edited one, and still
    there for its writers. *)
Record committed (ss' : StorageServer) : Prop := {
  cm_config : config ss' = config ss;
  cm_doc : dk_files (ss_disk ss') !! fr_filepath rec = Some (splice doc start stop new);
  cm_readable : writable (ss_disk ss') (fr_filepath rec);
  cm_found : ∃ rec', ss_find_file ss' filename = Some rec' ∧ fr_filepath rec' = fr_filepath rec ∧
    ss_check_read_access rec' user = true
}.

Lemma commit_answer now :
  length filename < MAX_FILENAME_LENGTH →
  ∃ ss' rest,
    client_message (locked new) fd [$"ETIRW"] now = (ss', concat (map (emit fd) [[$"OK_WRITE_DONE"]]) ++ rest) ∧
    Forall (λ m, m.1 = ss_ns_sockfd ss) rest ∧ committed ss'.
Proof.
  intros Hl. pose proof Hed as []. pose proof (found_name _ _ _ Hl ed_file0) as Hname.
  change (client_message (locked new) fd _ now) with (handle_client_etirw (locked new) fd now).
  pose proof edited_inv as Hinv.
  assert (Hfs : ss_find_session (locked new) fd = Some (session_for new)).
  { unfold ss_find_session, locked. cbn [ss_sessions set_ss_sessions firstb session_for ws_client_fd]. by rewrite Z.eqb_refl. }
  assert (Hde : deref (locked new) (ws_file (session_for new)) = Some rec).
  { apply deref_elem; [apply ed_inv0|]. by apply firstb_elem in ed_file0 as []. }
  destruct (etirw_good (locked new) fd (session_for new) rec doc now Hinv Hfs Hde ed_doc0 ed_writable0 ed_undoable0 ed_meta0)
    as (Hnew & _ & Hfault & Hdirs & _ & Hde' & _ & Hout).
  pose proof (etirw_config (locked new) fd now) as Hcfg. change (config (locked new)) with (config ss) in Hcfg.
  pose proof (handle_client_etirw_safe (locked new) fd now Hinv) as [Hinv' _].
  destruct (handle_client_etirw (locked new) fd now) as [ss' out]. cbn [fst snd] in *. subst out.
  exists ss', (ss_sync_metadata_to_ns ss' rec). split; [by cbn [map concat]; rewrite app_nil_r|]. split.
  { injection Hcfg as <- _ _. unfold ss_sync_metadata_to_ns. case_match; [constructor|]. case_match. apply emit_fds. }
  set (rec1 := touch_record _ _ _ _) in Hde'. split; [done|done| |].
  - destruct ed_writable0 as [Hc Hn]. unfold writable, can_create, denied in *. rewrite Hfault Hdirs. by split.
  - exists rec1. apply deref_Some in Hde' as [Hin _]. split; [|split; [done|]].
    + rewrite -Hname. by apply (find_file_elem ss' rec1).
    + change (ss_check_read_access rec user = true). revert ed_access0.
      unfold ss_check_write_access, ss_check_read_access. rewrite !orb_true_iff. tauto.
Qed.
End server.

(** ** Bytes of an edited sentence *)

Lemma fields_on_elem p s f x : f ∈ fields_on p s → x ∈ f → x ∈ s.
Proof.
  revert f. induction s as [|c s IH]; intros f; cbn [fields_on].
  - by intros ->%list_elem_of_singleton Hx%elem_of_nil.
  - destruct (p c).
    + intros [->|Hf]%elem_of_cons Hx; [by apply elem_of_nil in Hx|]. right. by apply (IH f).
    + destruct (fields_on p s) as [|g gs] eqn:Hg; [by apply fields_on_nonempty in Hg|].
      intros [->|Hf]%elem_of_cons Hx.
      * apply elem_of_cons in Hx as [->|Hx]; [left|]. right. apply (IH g); [left|done].
      * right. apply (IH f); [by right|done].
Qed.

Lemma split_words_elem text f x : f ∈ split_words text → x ∈ f → x ∈ text.
Proof. rewrite split_words_strtok. intros [_ Hf]%list_elem_of_filter. by eapply fields_on_elem. Qed.

Lemma rtrim_elem s x : x ∈ rtrim s → x ∈ s.
Proof.
  unfold rtrim. rewrite !list_elem_of_In -in_rev. intros Hx. apply in_rev, list_elem_of_In.
  rewrite -(take_drop_while isspace (rev s)). apply elem_of_app. right. by apply list_elem_of_In.
Qed.

Lemma edit_parts_elem w x :
  (∀ f, f ∈ (edit_parts w).1 → x ∈ f → x ∈ w) ∧ ((edit_parts w).2 = Some x → x ∈ w).
Proof.
  unfold edit_parts. cbn [fst snd]. destruct (last (rtrim w)) as [c|] eqn:Hl.
  - destruct (is_sentence_delimiter c).
    + split; [intros f Hf Hx; by eapply rtrim_elem, elem_of_take_l, split_words_elem|].
      intros [= <-]. by apply rtrim_elem, last_Some_elem_of.
    + split; [|done]. intros f Hf Hx. by eapply rtrim_elem, split_words_elem.
  - split; [|done]. intros f Hf Hx. by eapply rtrim_elem, split_words_elem.
Qed.

(** An edit brings in no byte but those of its content and spaces. *)
Lemma edit_elem w i content w' x :
  ss_apply_word_edit w i content = Some w' → x ∉ w → x ∉ content → x ≠ " "%char → x ∉ w'.
Proof.
  intros [_ ->]%apply_word_edit_Some Hw Hc Hsp. rewrite join_words_spec. destruct (edit_parts_elem w x) as [Hp Hd].
  apply not_elem_of_app. split.
  - apply join_not_elem; [|by intros ->%list_elem_of_singleton]. intros f Hf Hx.
    rewrite !elem_of_app in Hf. destruct Hf as [Hf|[Hf|Hf]].
    + by apply Hw, (Hp f); [eapply elem_of_take_l|].
    + by apply Hc, (split_words_elem content f).
    + by apply Hw, (Hp f); [eapply elem_of_drop_l|].
  - destruct (edit_parts w).2 as [c|]; [|apply not_elem_of_nil]. case_match; [apply not_elem_of_nil|].
    intros ->%list_elem_of_singleton. by apply Hw, Hd.
Qed.

(** ** What the user types *)

Definition edit_input (w_index : Z) (content : cstr) : cstr := nl (to_dec w_index ++ $" " ++ content).

Definition typable (content : cstr) : Prop :=
  plain content ∧ (Z.of_nat (length content) < 8000)%Z ∧ match content with c :: _ => is_blank c = false | [] => True end.

Lemma chomp_nl s : chomp (nl s) = s.
Proof. unfold chomp, nl. rewrite last_snoc bool_decide_eq_true_2; [done|]. by apply removelast_last. Qed.

Lemma to_dec_head n : (0 <= n)%Z → ∃ c rest, to_dec n = c :: rest ∧ isdigit c = true.
Proof.
  intros Hn. destruct (to_dec_nonneg n Hn) as (_ & Hall & Hne).
  destruct (to_dec n) as [|c rest]; [done|]. exists c, rest. split; [done|]. by apply Forall_inv in Hall.
Qed.

Section client.
Context {W : Type} `{Remote W}.

Lemma write_line_edit w_index content t :
  (0 <= w_index <= INT_MAX)%Z → typable content →
  write_line (edit_input w_index content) t =
    (sent ← send_ss (message [$"WRITE_DATA"; to_dec w_index; content]);
     if negb sent then print (nl ($"Failed to send WRITE_DATA to Storage Server."));; mret (Some (-1)%Z)
     else loop_ss edit_body (session_lost ($"Connection lost while applying edit.")) tt) t.
Proof.
  intros Hw (Hp & Hlen & Hblank). destruct (to_dec_head w_index ltac:(lia)) as (c & rest & Hd & Hc).
  assert (Hnb : is_blank c = false).
  { unfold is_blank. rewrite !bool_decide_eq_false_2; [by intros ->..|done]. }
  assert (Hst : strtol (to_dec w_index ++ $" " ++ content) = mkStrtol w_index ($" " ++ content) false).
  { apply strtol_to_dec; [unfold INT_MAX, LONG_MIN, LONG_MAX in *; lia|]. by intros ? ? [= <-]. }
  unfold write_line, edit_input. rewrite chomp_nl.
  assert (Hcur : drop_while is_blank (to_dec w_index ++ $" " ++ content) = to_dec w_index ++ $" " ++ content).
  { rewrite Hd. cbn [app drop_while]. by rewrite Hnb. }
  rewrite Hcur Hst. cbn [st_end st_value st_erange].
  destruct (to_dec w_index ++ $" " ++ content) as [|c' cursor] eqn:Hcu; [by rewrite Hd in Hcu|].
  rewrite -Hcu.
  destruct (streq (to_dec w_index ++ _) ($"ETIRW")) eqn:He.
  { apply streq_true in He. rewrite Hd in He. injection He as -> _. done. }
  destruct (streq ($" " ++ content) (to_dec w_index ++ $" " ++ content)) eqn:He2.
  { apply streq_true in He2. rewrite Hd in He2. injection He2 as <- _. done. }
  rewrite (proj2 (Z.ltb_ge _ _)); [lia|]. rewrite (proj2 (Z.ltb_ge _ _)); [lia|]. cbn [orb].
  assert (Hcont : drop_while is_blank ($" " ++ content) = content).
  { change ($" " ++ content) with (" "%char :: content). cbn [drop_while]. change (is_blank " ") with true. cbn iota.
    destruct content as [|d content]; [done|]. cbn [drop_while]. by rewrite Hblank. }
  rewrite Hcont. pose proof (to_dec_int_length w_index ltac:(unfold INT_MIN; lia)).
  rewrite build_sendable; [sendable|done].
Qed.

Lemma write_line_etirw t :
  write_line (nl ($"ETIRW")) t =
    (sent ← send_ss (message [$"ETIRW"]);
     if negb sent then print (nl ($"Failed to send ETIRW to Storage Server."));; mret (Some (-1)%Z)
     else loop_ss etirw_body (session_lost ($"Connection lost while finalizing write.")) tt) t.
Proof.
  unfold write_line. rewrite chomp_nl. change (drop_while is_blank ($"ETIRW")) with ($"ETIRW").
  change (streq ($"ETIRW") ($"ETIRW")) with true. cbn iota. rewrite build_sendable; [sendable|]. done.
Qed.
End client.

(** ** The session *)

Lemma plain_slice a b s : plain s → plain (slice a b s) ∧ length (slice a b s) <= length s.
Proof.
  intros [Hb Hn]. split; [split|].
  1, 2: intros H; unfold slice in H; apply elem_of_take_l, elem_of_drop_l in H; done.
  unfold slice. len.
Qed.

Section session.
Context (peer : cstr → Z → Peer) (shell : cstr → option cstr) (format_time : Z → cstr).

#[local] Instance remote : Remote System := system_remote peer shell format_time.
#[local] Instance servers : Servers Node := node_servers peer.

Definition lock_transcript (s_index : Z) (filename sentence : cstr) : cstr :=
  nl ($"Locked sentence " ++ to_dec s_index ++ $" in " ++ filename ++ $".") ++ current_line sentence ++
  nl ($"Enter '<word_index> <content>' to edit, or 'ETIRW' to finalize.") ++
  nl ($"Word indices start at 0; punctuation marks (., !, ?) mark sentence boundaries.").

Definition edit_transcript : cstr :=
  $"write> " ++ nl ($"WRITE_DATA applied") ++ $"write> " ++ nl ($"Write committed successfully.").

Lemma lock_stream closed filename s_index sentence :
  filename ≠ [] → length filename < MAX_FILENAME_LENGTH → (0 <= s_index <= INT_MAX)%Z →
  sendable [$"OK_LOCKED"; filename; to_dec s_index] → sendable [$"OK_CONTENT"; sentence] →
  recv_loop closed lock_body (lock_lost ($"Connection lost while acquiring write lock.")) (false, false, [], s_index, [])
    (map message [[$"OK_LOCKED"; filename; to_dec s_index]; [$"OK_CONTENT"; sentence]]) =
  ([], Done (Some (filename, s_index, sentence)), []).
Proof.
  intros Hne Hlf Hi H1 H2. cbn [map recv_loop]. rewrite !parse_sendable; [done..|].
  assert (Hb : lock_body (false, false, [], s_index, []) [$"OK_LOCKED"; filename; to_dec s_index] =
               ([], inl (true, false, filename, s_index, []))).
  { transitivity (@nil ascii, lock_done (true, false, fit MAX_FILENAME_LENGTH filename,
                                 locked_index [$"OK_LOCKED"; filename; to_dec s_index] s_index, [])); [done|].
    rewrite fit_short; [done|]. unfold locked_index. change (arg _ 2) with (to_dec s_index).
    rewrite -(app_nil_r (to_dec s_index)) strtol_to_dec; [unfold INT_MAX, LONG_MIN, LONG_MAX in *; lia|done|].
    cbn [st_end st_value]. by destruct (bool_decide _ && _ && _ && _). }
  by rewrite Hb.
Qed.

Lemma edit_stream closed :
  recv_loop closed edit_body (session_lost ($"Connection lost while applying edit.")) tt
    (map message [[$"OK"; $"WRITE_DATA applied"]]) = (nl ($"WRITE_DATA applied"), Done None, []).
Proof. cbn [map recv_loop]. by rewrite parse_sendable; [sendable|]. Qed.

Lemma etirw_stream closed :
  recv_loop closed etirw_body (session_lost ($"Connection lost while finalizing write.")) tt
    (map message [[$"OK_WRITE_DONE"]]) = (nl ($"Write committed successfully."), Done (Some 0%Z), []).
Proof. cbn [map recv_loop]. by rewrite parse_sendable; [sendable|]. Qed.

(** The two lines of a session in which the storage server has the lock. *)
Lemma edit_session sy rec user filename content doc new s_index w_index start stop inp out :
  editable (nd_ss (sy_node sy)) (sy_conn sy) user filename content doc new rec s_index w_index start stop →
  length filename < MAX_FILENAME_LENGTH → typable content → (0 <= sy_conn sy)%Z →
  sy_conn sy ≠ ss_ns_sockfd (nd_ss (sy_node sy)) →
  ∀ ns node, nd_ss node = locked (nd_ss (sy_node sy)) (sy_conn sy) user doc rec s_index start stop (slice start stop doc) →
  ∃ ns' node', kept ns ns' ∧
    committed (nd_ss (sy_node sy)) user filename doc new rec start stop (nd_ss node') ∧
    write_edit (mkTerm (mkSystem ns node (sy_peer sy) (sy_fd sy) (sy_session sy) (sy_conn sy) true) [] []
                  (edit_input w_index content :: nl ($"ETIRW") :: inp) out) =
      (Done 0%Z, mkTerm (mkSystem ns' node' (sy_peer sy) (sy_fd sy) (sy_session sy) (sy_conn sy) true) [] [] inp
              (out ++ edit_transcript)).
Proof.
  intros Hed Hlf Htyp Hconn Hother ns node Hlocked. pose proof (ed_w_index _ _ _ _ _ _ _ _ _ _ _ _ Hed) as Hw.
  pose proof Htyp as (Hp & Hlen & _). pose proof (to_dec_int_length w_index ltac:(unfold INT_MIN; lia)).
  unfold write_edit. cbn [tm_stdin write_session].
  set (sy0 := mkSystem ns node _ _ _ _ _).
  pose proof (edit_answer _ _ _ _ _ _ _ _ _ _ _ _ Hed (nd_now node)) as H1.
  rewrite -(app_nil_r (concat _)) -Hlocked in H1.
  edestruct (ss_exchange peer shell format_time sy0) as (ns1 & Hk1 & Hx1); [|done|exact Hconn| | |exact H1|].
  { sendable. } { apply Forall_singleton. sendable. } { done. }
  destruct (commit_answer _ _ _ _ _ _ _ _ _ _ _ _ Hed (nd_now node) Hlf) as (ss' & rest & H2 & Hrest & Hdone).
  set (sy1 := mkSystem ns1 _ _ _ _ _ _) in Hx1.
  edestruct (ss_exchange peer shell format_time sy1) as (ns2 & Hk2 & Hx2); [|done|exact Hconn| | |exact H2|].
  { sendable. } { apply Forall_singleton. sendable. } { eapply Forall_impl; [exact Hrest|]. intros m ->. done. }
  erewrite bind_eq; [|apply print_eq]. erewrite bind_eq; [|done]. cbn iota beta.
  erewrite bind_eq.
  2: { rewrite write_line_edit; [done..|]. erewrite bind_eq; [|apply send_ss_eq, Hx1]. cbn [negb app].
       apply loop_ss_eq, edit_stream. }
  cbn iota. erewrite bind_eq; [|apply print_eq]. erewrite bind_eq; [|done]. cbn iota beta.
  erewrite bind_eq.
  2: { rewrite write_line_etirw. erewrite bind_eq; [|apply send_ss_eq, Hx2]. cbn [negb app].
       apply loop_ss_eq, etirw_stream. }
  cbn iota. exists ns2, (mkSSNode ss' [] (nd_now node)). split; [by etrans; [exact Hk1|exact Hk2]|]. split; [exact Hdone|].
  unfold mret, io_ret, edit_transcript. by rewrite -!app_assoc.
Qed.

Lemma plain_edited doc start stop i content new :
  plain doc → plain content → ss_apply_word_edit (slice start stop doc) i content = Some new →
  plain (splice doc start stop new).
Proof.
  intros Hd [Hcb Hcn] Hedit. destruct (plain_slice start stop doc Hd) as [[Hsb Hsn] _]. destruct Hd as [Hb Hn].
  assert (Hall : ∀ x, x ∉ doc → x ∉ new → x ∉ splice doc start stop new).
  { intros x Hx Hnx. unfold splice. rewrite !not_elem_of_app.
    split_and!; [by intros ?%elem_of_take_l|done|by intros ?%elem_of_drop_l]. }
  split; apply Hall; [done| |done|]; by eapply edit_elem.
Qed.

(** The whole command, and what it leaves for the next one. *)
Lemma write_session_spec sy client filename file rec content doc new s_index w_index start stop inp out :
  located sy client ($"WRITE") filename file →
  editable (nd_ss (sy_node sy)) (sy_conn sy) (cc_username client) filename content doc new rec s_index w_index start stop →
  typable content → plain doc → (Z.of_nat (length doc) < 64000)%Z →
  (0 <= sy_conn sy)%Z → sy_conn sy ≠ ss_ns_sockfd (nd_ss (sy_node sy)) →
  ∃ sy', client_handle_write client filename s_index
           (mkTerm sy [] [] (edit_input w_index content :: nl ($"ETIRW") :: inp) out) =
      (Done 0%Z, mkTerm sy' [] [] inp
              (out ++ lock_transcript s_index filename (slice start stop doc) ++ edit_transcript)) ∧
    onward sy sy' ∧
    committed (nd_ss (sy_node sy)) (cc_username client) filename doc new rec start stop (nd_ss (sy_node sy')) ∧
    sy_open sy' = false.
Proof.
  intros Hl Hed Htyp Hdoc Hlen Hconn Hother.
  pose proof (proj1 (validate_filename_spec filename) (lc_name _ _ _ _ _ Hl)) as (Hne & Hlf & _).
  pose proof (proj1 (validate_username_spec (cc_username client)) (lc_user _ _ _ _ _ Hl)) as (Hune & Hlu & _).
  pose proof (lc_user _ _ _ _ _ Hl) as Huser. pose proof (lc_plain _ _ _ _ _ Hl) as Hpf.
  pose proof (ed_s_index _ _ _ _ _ _ _ _ _ _ _ _ Hed) as Hs.
  pose proof (to_dec_int_length s_index ltac:(unfold INT_MIN; lia)).
  unfold MAX_FILENAME_LENGTH, MAX_USERNAME_LENGTH in *.
  assert (Hname : fr_filename rec = filename).
  { apply (found_name (nd_ss (sy_node sy))); [done|]. apply Hed. }
  assert (Hsl : plain (slice start stop doc) ∧ length (slice start stop doc) <= length doc) by by apply plain_slice.
  destruct Hsl as [Hslp Hsll].
  assert (Hask : sendable [$"REQ_WRITE_LOCK"; cc_username client; filename; to_dec s_index]) by sendable.
  assert (Hr1 : sendable [$"OK_LOCKED"; filename; to_dec s_index]) by sendable.
  assert (Hr2 : sendable [$"OK_CONTENT"; slice start stop doc]) by sendable.
  unfold client_handle_write. rewrite (proj2 (Z.ltb_ge _ _) (lc_socket _ _ _ _ _ Hl)) (lc_name _ _ _ _ _ Hl).
  cbn [negb]. rewrite (proj2 (Z.ltb_ge _ _)); [lia|].
  match goal with |- context [on_storage client ($"WRITE") filename ?k ?t] =>
    destruct (storage_reached peer shell format_time sy client ($"WRITE") filename file k (tm_stdin t) out Hl)
      as (sy1 & Hreach & Hon & Hss & Hopen); [split; vmd|cbn; lia|] end.
  cbn [tm_stdin] in Hreach. rewrite Hreach. clear Hreach.
  pose proof (og_conn _ _ Hon) as Hconn1. rewrite -Hss -Hconn1 in Hed Hother. rewrite -Hconn1 in Hconn.
  pose proof (lock_answer _ _ _ _ _ _ _ _ _ _ _ _ Hed (nd_now (sy_node sy1))) as H1. rewrite Hname in H1.
  rewrite -(app_nil_r (concat _)) in H1.
  edestruct (ss_exchange peer shell format_time sy1) as (ns1 & Hk1 & Hx1); [exact Hask|done|done| | |exact H1|].
  { by repeat (apply Forall_cons; split). } { done. }
  edestruct (edit_session sy1) with (ns := ns1) (node := mkSSNode (locked (nd_ss (sy_node sy1)) (sy_conn sy1)
    (cc_username client) doc rec s_index start stop (slice start stop doc)) [] (nd_now (sy_node sy1)))
    as (ns2 & node2 & Hk2 & Hdone & Hrun); [exact Hed|done..|].
  erewrite bind_eq.
  2: { rewrite build_sendable; [done|]. erewrite bind_eq; [|apply send_ss_eq, Hx1]. cbn [negb app].
       erewrite bind_eq; [|apply loop_ss_eq, lock_stream; done]. cbn iota beta.
       do 4 (erewrite bind_eq; [|apply print_eq]). exact Hrun. }
  erewrite bind_eq; [|apply hangup_eq]. eexists. split; [|split; [|split; [|apply (open_ss_hangup (open := sy_open))]]].
  - unfold mret, io_ret. do 2 f_equal. unfold lock_transcript. rewrite -!app_assoc. by destruct filename.
  - etrans; [exact Hon|]. pose proof (cm_config _ _ _ _ _ _ _ _ _ Hdone) as Hcfg. injection Hcfg as _ Hip Hport.
    etrans; [|apply leave_onward]. split; try done. by etrans; [exact Hk1|exact Hk2].
  - rewrite Hss in Hdone. destruct Hdone. by split.
Qed.

(** An edit typed at the client reaches the document: when the name server and
    the storage server both know the file and let the user write it, nobody else
    holds the sentence, and the words fit the sentence, the WRITE command with
    one line of edit and ETIRW tells the user which sentence was locked, that
    the edit was applied and that it was committed, and succeeds; the storage
    server's document is then the old one with exactly the sentence replaced by
    the edited one, nothing is left unread on either connection, and the lines
    typed are consumed. *)
Theorem write_edits_document sy client filename file rec content doc new s_index w_index start stop inp out :
  located sy client ($"WRITE") filename file →
  editable (nd_ss (sy_node sy)) (sy_conn sy) (cc_username client) filename content doc new rec s_index w_index start stop →
  typable content → plain doc → (Z.of_nat (length doc) < 64000)%Z →
  (0 <= sy_conn sy)%Z → sy_conn sy ≠ ss_ns_sockfd (nd_ss (sy_node sy)) →
  ∃ sy', client_handle_write client filename s_index
           (mkTerm sy [] [] (edit_input w_index content :: nl ($"ETIRW") :: inp) out) =
      (Done 0%Z, mkTerm sy' [] [] inp
              (out ++ lock_transcript s_index filename (slice start stop doc) ++ edit_transcript)) ∧
    dk_files (ss_disk (nd_ss (sy_node sy'))) !! fr_filepath rec = Some (splice doc start stop new) ∧
    sy_open sy' = false.
Proof.
  intros Hl Hed Htyp Hdoc Hlen Hconn Hother.
  destruct (write_session_spec sy client filename file rec content doc new s_index w_index start stop inp out)
    as (sy' & Hrun & _ & Hdone & Hopen); [done..|].
  exists sy'. split; [exact Hrun|]. split; [apply Hdone|exact Hopen].
Qed.

(** C5 A user reads what the user wrote: after a WRITE session as in
    [write_edits_document], READ of the same file at the same client prints the
    old text with exactly the sentence replaced by the edited one (while the new
    text fits one message). *)
Theorem write_then_read sy client filename file rec content doc new s_index w_index start stop inp out out' :
  located sy client ($"WRITE") filename file →
  editable (nd_ss (sy_node sy)) (sy_conn sy) (cc_username client) filename content doc new rec s_index w_index start stop →
  typable content → plain doc → (Z.of_nat (length doc) < 64000)%Z →
  (Z.of_nat (length (splice doc start stop new)) < 64000)%Z →
  (0 <= sy_conn sy)%Z → sy_conn sy ≠ ss_ns_sockfd (nd_ss (sy_node sy)) →
  ∃ sy' sy'',
    client_handle_write client filename s_index
      (mkTerm sy [] [] (edit_input w_index content :: nl ($"ETIRW") :: inp) out) =
      (Done 0%Z, mkTerm sy' [] [] inp
              (out ++ lock_transcript s_index filename (slice start stop doc) ++ edit_transcript)) ∧
    client_handle_read client filename (mkTerm sy' [] [] inp out') =
      (Done 0%Z, mkTerm sy'' [] [] inp (out' ++ shown filename (splice doc start stop new))).
Proof.
  intros Hl Hed Htyp Hdoc Hlen Hlen' Hconn Hother.
  destruct (write_session_spec sy client filename file rec content doc new s_index w_index start stop inp out)
    as (sy' & Hrun & Hon & [_ Hnew Hw (rec' & Hf & Hp & Ha)] & _); [done..|].
  destruct (located_onward sy sy' client filename file Hl Hon) as (file' & Hl').
  destruct (read_spec peer shell format_time sy' client filename file' rec' (splice doc start stop new) inp out' Hl')
    as (sy'' & Hread & _).
  - split; [by rewrite (og_conn _ _ Hon)|exact Hf|exact Ha| |eapply plain_edited; [done|apply Htyp|apply Hed]|done].
    unfold ss_read_file_content. rewrite Hp. by apply writable_read.
  - by exists sy', sy''.
Qed.
End session.
