(* ===== verification/SystemCreate.v ===== *)
(** * Creating a document, end to end

    The client's CREATE through the name server to the storage server, and what
    the user can do with the document then: WRITE and READ, without any further
    assumption about the servers. *)
From S2P Require Import Prelude CStr Utils Protocol Wire Disk Sentences SSState SSAcl SSFiles SSMeta SSClient SSControl SSInv SSInvClient SSInvControl SSLocks SSSaved SSSavedNs NSMeta NSState NSIndex NSPersist NSPeer NSQueries NSFiles NSServe NSSpec NSRefine NSKept ClientIO ClientNS ClientSS ClientMain ClientFlow System SystemRead SystemWrite.

(** ** The storage server *)

(** There is no document of this name, nor one whose name flattens alike, and
    the files of a new one can be written. *)
Record creatable (ss : StorageServer) (filename : cstr) : Prop := {
  ct_inv : ss_inv ss;
  ct_new : ss_find_file ss filename = None;
  ct_free : path_free ss (doc_file ss filename);
  ct_writable : writable (ss_disk ss) (doc_file ss filename);
  ct_undoable : writable (ss_disk ss) (doc_file ss filename ++ SS_UNDO_SUFFIX)
}.

(** What CREATE makes: an empty document of the owner's that nobody edits. *)
Record made (ss : StorageServer) (filename owner : cstr) (rec : FileRecord) (ss' : StorageServer) : Prop := {
  md_inv : ss_inv ss';
  md_config : config ss' = config ss;
  md_sessions : ss_sessions ss' = ss_sessions ss;
  md_file : ss_find_file ss' filename = Some rec;
  md_owner : is_owner rec owner = true;
  md_path : fr_filepath rec = doc_file ss filename;
  md_undo : fr_undopath rec = doc_file ss filename ++ SS_UNDO_SUFFIX;
  md_meta : fr_undopath rec ≠ fr_metapath rec;
  md_doc : dk_files (ss_disk ss') !! fr_filepath rec = Some [];
  md_disk : dk_dirs (ss_disk ss') = dk_dirs (ss_disk ss) ∧ dk_fault (ss_disk ss') = dk_fault (ss_disk ss);
  md_unlocked : Forall (λ s, ws_file s ≠ fr_id rec) (ss_sessions ss')
}.

Lemma write_metadata_same d rec d' b :
  ss_write_metadata d rec = (d', b) → dk_dirs d' = dk_dirs d ∧ dk_fault d' = dk_fault d.
Proof.
  unfold ss_write_metadata. destruct (write_file _ _ _) as [d1 r] eqn:Hw. intros H.
  assert (d1 = d') as <- by (by destruct r; simplify_eq). by eapply write_file_same.
Qed.

Lemma create_makes ss filename owner now :
  creatable ss filename → length filename < MAX_FILENAME_LENGTH → length owner < MAX_USERNAME_LENGTH → owner ≠ [] →
  ∃ ss' rec, ss_create_file ss filename owner now = (ss', true) ∧ made ss filename owner rec ss'.
Proof.
  intros [] Hl Ho Hne.
  assert (Hsafe : create_safe ss filename).
  { unfold create_safe. by rewrite flatten_spec decide_True. }
  pose proof (ss_create_file_safe ss filename owner now ct_inv0 Hl Hsafe) as [Hinv _]. revert Hinv.
  destruct (new_paths ss (ss_next_id ss) filename Hl (proj1 (proj2 ct_free0))) as (Hp & Hu & Hm & Hn & Hid & _).
  pose proof (create_written ss filename owner now ct_new0 Ho) as Heq. cbv zeta in Heq. revert Heq.
  destruct (stamped_fields (ss_init_file_record (ss_storage_path ss) (ss_next_id ss) filename) owner now) as (Hk & Hown & _).
  revert Hk Hown. generalize (stamped (ss_init_file_record (ss_storage_path ss) (ss_next_id ss) filename) owner now) as rec.
  intros rec Hk Hown. unfold rec_key in Hk. rewrite Hp Hu Hm Hn Hid in Hk. injection Hk as Hid' Hn' Hp' Hm' Hu'.
  rewrite Hp'. intros Heq. rewrite (Heq (proj1 ct_writable0) (proj2 ct_writable0)). clear Heq. cbn [fst].
  destruct (ss_write_metadata _ rec) as [d b] eqn:Hd. cbn [fst]. intros Hinv.
  pose proof (write_metadata_same _ _ _ _ Hd) as Hsame. apply write_metadata_effect in Hd as [_ Hd].
  eexists _, rec. split; [reflexivity|].
  split; [exact Hinv|reflexivity|reflexivity| | |exact Hp'|exact Hu'| | |exact Hsame|].
  - unfold ss_find_file. cbn [ss_files set_ss_files firstb]. unfold same_name. by rewrite Hn' strneq_refl.
  - unfold is_owner. rewrite Hown bool_decide_eq_false_2; [done|]. apply strneq_refl.
  - rewrite Hu' Hm'. by intros ?%app_inv_head.
  - cbn [ss_disk set_ss_files set_ss_disk]. rewrite Hp' Hd; [|by rewrite /= lookup_insert_eq].
    rewrite Hm'. intros He. rewrite -{1}(app_nil_r (doc_file ss filename)) in He. by apply app_inv_head in He.
  - cbn [ss_sessions set_ss_files set_ss_disk set_ss_next]. rewrite Hid'.
    eapply Forall_impl; [apply (inv_sessions _ ct_inv0)|]. intros s (r & t & [Hr Hrid]%deref_Some & _) He.
    pose proof (inv_next _ ct_inv0) as Hx. rewrite Forall_forall in Hx. specialize (Hx r Hr). cbn in Hx. lia.
Qed.

(** The answer to the name server. *)
Lemma create_answer ss filename owner peer now :
  creatable ss filename → validate_filename filename = true → validate_username owner = true →
  ∃ ss' rec, ns_message ss [$"CREATE_FILE"; filename; owner] peer now = (ss', reply ss' [$"OK_CREATE"; filename]) ∧
    made ss filename owner rec ss'.
Proof.
  intros Hc Hvf Hvu. pose proof (proj1 (validate_filename_spec filename) Hvf) as (_ & Hlf & _).
  pose proof (proj1 (validate_username_spec owner) Hvu) as (Hne & Hlu & _).
  destruct (create_makes ss filename owner now Hc Hlf Hlu Hne) as (ss' & rec & Heq & Hmade). exists ss', rec. split; [|done].
  change (ns_message ss _ peer now) with (ns_create_file ss [$"CREATE_FILE"; filename; owner] now).
  unfold ns_create_file. case_decide as Hlen; cbn [length] in Hlen; [lia|].
  change (field _ 1) with filename. change (field _ 2) with owner. by rewrite Hvf Hvu Heq.
Qed.

(** ** The name server *)

Lemma select_alone ns info :
  ns_servers ns = [info] → si_is_alive info = true →
  (ns_select_storage_server_balanced ns).2 = Some (clamp_load info).
Proof.
  intros Hs Ha. unfold ns_select_storage_server_balanced. rewrite Hs.
  change (length [info]) with 1. cbn [seq select_loop]. change (length [info]) with 1. rewrite Nat.mod_1_r.
  change ([info] !! 0) with (Some info). cbn iota beta. by rewrite Ha.
Qed.

(** The name is new and there is a storage server. *)
Record registrable (ns : NameServer) (filename : cstr) (info : StorageServerInfo) : Prop := {
  rg_wf : ns_wf ns;
  rg_new : registry ns !! filename = None;
  rg_room : length (ns_files ns) < NS_MAX_FILES;
  rg_servers : ns_servers ns = [info];
  rg_alive : si_is_alive info = true ∧ (0 <= si_sockfd info)%Z
}.

Lemma create_asks ns ctx filename info now :
  registrable ns filename info → validate_filename filename = true → validate_username (cx_username ctx) = true →
  ∃ ns' f, create_begin ns ctx [$"CREATE"; filename] now =
      (ns', Asking (clamp_load info) [$"CREATE_FILE"; filename; cx_username ctx] (mkPendingCreate filename (si_id info))) ∧
    f = created_file filename (cx_username ctx) (si_client_ip info) (si_client_port info) now ∧
    ns_wf ns' ∧ registry ns' !! filename = Some f.
Proof.
  intros [] Hvf Hvu. set (user := cx_username ctx) in *.
  pose proof (proj1 (validate_username_spec user) Hvu) as (Hune & Hlu & _).
  pose proof (proj1 (validate_filename_spec filename) Hvf) as (_ & Hlf & _).
  unfold create_begin. case_decide as Hlen; cbn [length] in Hlen; [lia|]. fold user.
  change (fld _ 1) with filename. rewrite Hvf. cbn [negb].
  destruct (streq user []) eqn:Hs; [by apply streq_true in Hs|]. rewrite decide_False; [lia|].
  pose proof (lookup_refines user ns filename rg_wf0) as Hl.
  destruct (file_lookup_locked ns filename) as [ns1 [i|]]; destruct Hl as ([Hwf1 _] & Hreg & (c & t & Hns) & Hr).
  { destruct Hr as (f & _ & _ & Hf & _). congruence. }
  assert (Hs1 : ns_servers ns1 = [info]) by by rewrite Hns. rewrite Hs1.
  pose proof (select_alone ns1 info Hs1 (proj1 rg_alive0)) as Hsel.
  pose proof (select_frame ctx ns1 Hwf1) as Hfr.
  destruct (ns_select_storage_server_balanced ns1) as [ns2 best]. cbn [snd] in Hsel. subst best.
  destruct Hfr as ([Hwf2 _] & Hreg2 & Hfiles2).
  pose proof (register_new ctx Hlu ns2 filename
    (created_file filename user (si_client_ip info) (si_client_port info) now) Hwf2) as Hnew.
  rewrite Hreg2 Hreg in Hnew. specialize (Hnew rg_new0 Hvf). rewrite Hfiles2 Hns in Hnew.
  specialize (Hnew rg_room0 (fit_short _ _ Hlf) (fit_short _ _ Hlu) eq_refl eq_refl).
  change (si_client_ip (clamp_load info)) with (si_client_ip info).
  change (si_client_port (clamp_load info)) with (si_client_port info).
  change (si_sockfd (clamp_load info)) with (si_sockfd info). change (si_id (clamp_load info)) with (si_id info).
  destruct (register_file ns2 filename _) as [ns3 ok]. destruct Hnew as (-> & [Hwf3 _] & _ & Hreg3).
  rewrite (proj2 (Z.ltb_ge _ _) (proj2 rg_alive0)). eexists ns3, _. split; [done|]. split; [done|]. split; [done|].
  by rewrite Hreg3 lookup_insert_eq.
Qed.

(** ** The whole command *)

(** The client's session at the name server. *)
Record logged_in (sy : System) (client : Client) : Prop := {
  li_socket : (0 <= cc_ns_sockfd client)%Z;
  li_session : sy_session sy = Some (mkCtx (sy_fd sy) (cc_username client));
  li_fd : (0 <= sy_fd sy)%Z;
  li_user : validate_username (cc_username client) = true
}.

(** The entry of the system's storage server at the name server. *)
Record serves (sy : System) (info : StorageServerInfo) : Prop := {
  sv_ip : si_client_ip info = ss_client_ip (nd_ss (sy_node sy));
  sv_ip_plain : plain (si_client_ip info) ∧ length (si_client_ip info) < MAX_IP_LENGTH;
  sv_port : si_client_port info = ss_client_port (nd_ss (sy_node sy));
  sv_port_valid : is_valid_port (si_client_port info) = true;
  sv_control : (0 <= ss_ns_sockfd (nd_ss (sy_node sy)))%Z
}.

Definition created_transcript (filename : cstr) : cstr := nl ($"File '" ++ filename ++ $"' created successfully.").

Section creating.
Context (peer : cstr → Z → Peer) (shell : cstr → option cstr) (format_time : Z → cstr).

#[local] Instance remote : Remote System := system_remote peer shell format_time.
#[local] Instance servers : Servers Node := node_servers peer.

(** A request of the name server with one answer. *)
Lemma ask_answered nd info fields answer ss' :
  sendable fields → sendable answer → si_is_alive info = true → (0 <= si_sockfd info)%Z →
  ss_ns_sockfd ss' = ss_ns_sockfd (nd_ss nd) → (0 <= ss_ns_sockfd ss')%Z →
  ns_message (nd_ss nd) fields peer (nd_now nd) = (ss', reply ss' answer) →
  ask nd info fields = (mkSSNode ss' (nd_events nd) (nd_now nd), inr (message answer)).
Proof.
  intros Hf Ha Hal Hfd Hsame Hns Hmsg. unfold ask, servers, node_servers. rewrite (proj2 (Z.ltb_ge _ _) Hfd) Hal.
  cbn [orb negb]. rewrite build_sendable; [done|]. rewrite frames_message; [done|].
  unfold control_turns. cbn [foldl]. unfold ns_control_turn. rewrite parse_sendable; [done|]. rewrite Hmsg.
  cbn [nd_ss nd_events nd_now app]. unfold reply.
  pose proof (frames_emits (ss_ns_sockfd ss') [answer] Hns ltac:(by apply Forall_singleton)) as Hfr.
  cbn [map concat] in Hfr. rewrite app_nil_r in Hfr. rewrite Hfr. by rewrite app_nil_r.
Qed.

Lemma command_create nd ns ctx rest now :
  client_command format_time shell nd ns ctx ($"CREATE" :: rest) now = handle_create nd ns ctx ($"CREATE" :: rest) now.
Proof. done. Qed.

Lemma create_confirmed ctx ns p filename :
  pc_filename p = filename → sendable [$"OK_CREATE"; filename] → length filename < MAX_FILENAME_LENGTH →
  create_finish ctx ns p (inr (message [$"OK_CREATE"; filename])) =
    (ns_save_metadata (count_file ns (pc_server p)),
     emit (cx_fd ctx) [$"OK"; $"File '" ++ filename ++ $"' created successfully."]).
Proof.
  intros Hp Hs Hl. unfold create_finish, check_response. rewrite parse_sendable; [done|].
  change (protocol_is_error _) with false. cbn iota. change (streq (fld _ 0) _) with true. cbn iota.
  rewrite Hp fit_short; [|done]. unfold MAX_FILENAME_LENGTH, NS_MAX_FIELD_SIZE in *. rewrite !length_app.
  cbn [length String.list_ascii_of_string]. lia.
Qed.

(** The client's state after CREATE. *)
Record created (sy : System) (client : Client) (filename : cstr) (sy' : System) : Prop := {
  cd_located : ∃ file, located sy' client ($"WRITE") filename file;
  cd_made : ∃ rec, made (nd_ss (sy_node sy)) filename (cc_username client) rec (nd_ss (sy_node sy'));
  cd_conn : sy_conn sy' = sy_conn sy
}.

Lemma create_spec sy client filename info inp out :
  logged_in sy client → serves sy info → registrable (sy_ns sy) filename info →
  creatable (nd_ss (sy_node sy)) filename → validate_filename filename = true → plain filename →
  ∃ sy', client_handle_create client filename (mkTerm sy [] [] inp out) =
      (Done 0%Z, mkTerm sy' [] [] inp (out ++ created_transcript filename)) ∧
    created sy client filename sy'.
Proof.
  intros [] [] Hreg Hcr Hvf Hpf. set (user := cc_username client) in *.
  pose proof (proj1 (validate_filename_spec filename) Hvf) as (Hne & Hlf & _).
  pose proof (proj1 (validate_username_spec user) li_user0) as (Hune & Hlu & _).
  unfold MAX_FILENAME_LENGTH, MAX_USERNAME_LENGTH in *.
  set (ctx := mkCtx (sy_fd sy) user). set (nd := sy_node sy) in *. set (now := nd_now nd).
  destruct (create_asks (sy_ns sy) ctx filename info now Hreg Hvf li_user0) as (ns1 & f & Hasks & Hf & Hwf1 & Hin).
  destruct (create_answer (nd_ss nd) filename user peer now Hcr Hvf li_user0) as (ss' & rec & Hans & Hmade).
  pose proof (md_config _ _ _ _ _ Hmade) as Hcfg. injection Hcfg as Hcns Hcip Hcport.
  assert (Hs1 : sendable [$"CREATE_FILE"; filename; user]) by sendable.
  assert (Hs2 : sendable [$"OK_CREATE"; filename]) by sendable.
  assert (Hs3 : sendable [$"CREATE"; filename]) by sendable.
  assert (Hpd : plain ($"File '" ++ filename ++ $"' created successfully.")).
  { destruct Hpf as [Hb Hn]. split; rewrite !not_elem_of_app; (split; [vmd|split; [done|vmd]]). }
  assert (Hs4 : sendable [$"OK"; $"File '" ++ filename ++ $"' created successfully."]) by sendable.
  pose proof (rg_alive _ _ _ Hreg) as [Hal Hfd].
  pose proof (ask_answered nd (clamp_load info) _ _ ss' Hs1 Hs2 Hal Hfd Hcns ltac:(by rewrite Hcns) Hans) as Hask.
  set (ns2 := ns_save_metadata (count_file ns1 (si_id info))).
  assert (Hcmd : client_command format_time shell nd (sy_ns sy) ctx [$"CREATE"; filename] now =
    (mkSSNode ss' (nd_events nd) now, ns2,
     concat (map (emit (sy_fd sy)) [[$"OK"; $"File '" ++ filename ++ $"' created successfully."]]))).
  { etrans; [apply command_create|]. unfold handle_create, complete. rewrite Hasks. change (cx_username ctx) with user.
    rewrite Hask create_confirmed; [done..|]. cbn [map concat]. by rewrite app_nil_r. }
  pose proof (ns_exchange peer shell format_time sy ctx _ _ _ _ Hs3 li_session0 li_fd0 ltac:(by apply Forall_singleton) Hcmd) as Hx.
  unfold client_handle_create, simple_command, request. rewrite (proj2 (Z.ltb_ge _ _) li_socket0) Hvf. cbn [negb].
  rewrite build_sendable; [done|]. erewrite bind_eq; [|apply send_ns_eq, Hx]. cbn [app map].
  unfold response. erewrite bind_eq; [|apply receive_ns_eq]. rewrite parse_sendable; [done|]. cbn iota beta.
  erewrite bind_eq; [|apply print_eq]. eexists. split; [reflexivity|].
  split; [|by exists rec|done].
  assert (Hkept : kept ns1 (foldl (λ ns raw, ss_message ns (sy_peer sy) (protocol_parse_message raw) now) ns2 (nd_events nd))).
  { etrans; [apply kept_servers|]. etrans; [apply kept_save|apply events_kept]. }
  destruct (Hkept Hwf1) as [Hwf Hall]. destruct (Hall _ _ Hin) as (g & Hg & Hsame). exists g.
  pose proof Hsame as [_ _ [Hgip Hgport] _]. rewrite Hf in Hgip Hgport. cbn [fm_ss_ip fm_ss_port created_file] in Hgip, Hgport.
  rewrite (fit_short _ _ (proj2 sv_ip_plain0)) in Hgip.
  split; rewrite ?Hgip ?Hgport; try done.
  - change (Some (file_has_write_access g user) = Some true). f_equal. rewrite (same_rights_write _ _ _ Hsame) Hf.
    unfold file_has_write_access, is_fm_owner. cbn [fm_owner created_file]. rewrite fit_short; [done|]. by rewrite strneq_refl.
  - by rewrite /= Hcip.
  - by rewrite /= Hcport.
Qed.

(** The owner can edit the new document at once. *)
Lemma made_editable ss filename owner rec ss' fd content new :
  made ss filename owner rec ss' → creatable ss filename → ss_find_session ss fd = None →
  ss_apply_word_edit [] 0 content = Some new →
  editable ss' fd owner filename content [] new rec 0 0 0 0.
Proof.
  intros [] [] Hidle Hedit.
  assert (Hw : ∀ p, writable (ss_disk ss) p → writable (ss_disk ss') p).
  { destruct md_disk0 as [Hd Hf]. intros p. unfold writable, can_create, denied. by rewrite Hd Hf. }
  split; try done.
  - unfold ss_check_write_access. by rewrite md_owner0.
  - rewrite md_path0. by apply Hw.
  - rewrite md_undo0. by apply Hw.
  - apply firstb_None. eapply Forall_impl; [exact md_unlocked0|]. intros s Hs. cbn.
    by rewrite bool_decide_eq_false_2.
  - unfold ss_find_session. by rewrite md_sessions0.
Qed.

(** C3 From nothing to a document: a user who is logged in creates a file of a
    new name, writes its first words and reads it.  CREATE says that the file was
    created, WRITE locks the empty sentence 0, applies the edit and commits it,
    and READ prints exactly the sentence the edit makes; nothing is assumed about
    the servers but that the name is new at both of them (also its flattened
    form), that the name server has room and knows the storage server, and that
    the two files of the document can be written. *)
Theorem create_write_read sy client filename info content new inp out out1 out2 :
  logged_in sy client → serves sy info → registrable (sy_ns sy) filename info →
  creatable (nd_ss (sy_node sy)) filename → validate_filename filename = true → plain filename →
  ss_find_session (nd_ss (sy_node sy)) (sy_conn sy) = None →
  (0 <= sy_conn sy)%Z → sy_conn sy ≠ ss_ns_sockfd (nd_ss (sy_node sy)) →
  typable content → ss_apply_word_edit [] 0 content = Some new → (Z.of_nat (length new) < 64000)%Z →
  ∃ sy1 sy2 sy3,
    client_handle_create client filename (mkTerm sy [] [] inp out) =
      (Done 0%Z, mkTerm sy1 [] [] inp (out ++ created_transcript filename)) ∧
    client_handle_write client filename 0
      (mkTerm sy1 [] [] (edit_input 0 content :: nl ($"ETIRW") :: inp) out1) =
      (Done 0%Z, mkTerm sy2 [] [] inp (out1 ++ lock_transcript 0 filename [] ++ edit_transcript)) ∧
    client_handle_read client filename (mkTerm sy2 [] [] inp out2) =
      (Done 0%Z, mkTerm sy3 [] [] inp (out2 ++ shown filename new)).
Proof.
  intros Hin Hsv Hrg Hcr Hvf Hpf Hidle Hconn Hother Htyp Hedit Hlen.
  destruct (create_spec sy client filename info inp out Hin Hsv Hrg Hcr Hvf Hpf) as (sy1 & Hcreate & [(f & Hl) (rec & Hmade) Hc1]).
  pose proof (made_editable _ _ _ _ _ (sy_conn sy) content new Hmade Hcr Hidle Hedit) as Hed. rewrite -Hc1 in Hed Hconn Hother.
  assert (Hother1 : sy_conn sy1 ≠ ss_ns_sockfd (nd_ss (sy_node sy1))).
  { pose proof (md_config _ _ _ _ _ Hmade) as Hcfg. injection Hcfg as -> _ _. done. }
  destruct (write_session_spec peer shell format_time sy1 client filename f rec content [] new 0 0 0 0 inp out1)
    as (sy2 & Hwrite & Hon & [_ Hnew Hw (rec' & Hf & Hp & Ha)] & _);
    [exact Hl|exact Hed|exact Htyp|apply plain_nil|cbn; lia|exact Hconn|exact Hother1|].
  assert (Hsp : splice [] 0 0 new = new) by (unfold splice; cbn; apply app_nil_r). rewrite Hsp in Hnew.
  destruct (located_onward sy1 sy2 client filename f Hl Hon) as (f' & Hl').
  assert (Hread : readable sy2 (cc_username client) filename rec' new).
  { split; [by rewrite (og_conn _ _ Hon)|exact Hf|exact Ha| | |exact Hlen].
    - unfold ss_read_file_content. rewrite Hp. by apply writable_read.
    - rewrite -Hsp. apply (plain_edited [] 0 0 0 content new plain_nil); [apply Htyp|exact Hedit]. }
  destruct (read_spec peer shell format_time sy2 client filename f' rec' new inp out2 Hl' Hread) as (sy3 & Hshow & _).
  by exists sy1, sy2, sy3.
Qed.
End creating.
