(* ===== verification/SystemShare.v ===== *)
(** * Sharing a document, end to end

    ADDACCESS of the owner's client through the name server to the storage
    server, and READ of the user who got the right: refused before, and served
    after. *)
From S2P Require Import Prelude CStr Utils Protocol Wire Disk SSState SSAcl SSFiles SSMeta SSClient SSControl SSInv SSInvClient SSInvControl SSLocks SSSaved SSSavedNs NSMeta NSState NSIndex NSPersist NSPeer NSQueries NSAccess NSServe NSSpec NSRefine NSKept ClientIO ClientNS ClientSS ClientMain ClientFlow System SystemRead SystemWrite SystemCreate.

(** ** The storage server *)

Section storage.
Context (ss : StorageServer) (filename user : cstr) (rec : FileRecord).

(** The user has, or can get, the right to read the file. *)
Record grantable : Prop := {
  gr_inv : ss_inv ss;
  gr_file : ss_find_file ss filename = Some rec;
  gr_room : length (fr_read_users rec) < SS_MAX_USERS_PER_FILE;
  gr_meta : writable (ss_disk ss) (fr_metapath rec)
}.

(** The same document, that the user may read. *)
Record granted (ss' : StorageServer) (rec' : FileRecord) : Prop := {
  gd_config : config ss' = config ss;
  gd_file : ss_find_file ss' filename = Some rec';
  gd_path : fr_filepath rec' = fr_filepath rec;
  gd_access : ss_check_read_access rec' user = true;
  gd_doc : read_file (ss_disk ss') (fr_filepath rec) = read_file (ss_disk ss) (fr_filepath rec)
}.

Lemma acl_added entries :
  length entries < SS_MAX_USERS_PER_FILE → length user < MAX_USERNAME_LENGTH →
  let '(entries', r) := ss_acl_add entries user in (0 <= r)%Z ∧ ss_acl_contains entries' user = true.
Proof.
  intros Hr Hu. unfold ss_acl_add. destruct (ss_acl_contains entries user) eqn:Hc; [done|].
  case_decide; [lia|]. rewrite safe_strcpy_short; [done|]. split; [done|].
  unfold ss_acl_contains. rewrite existsb_app. cbn [existsb]. unfold same_user at 2. by rewrite strneq_refl orb_true_r.
Qed.

(** The command changes the list of readers and the sidecar only. *)
Lemma add_reader :
  grantable → length user < MAX_USERNAME_LENGTH →
  ∃ readers d, ns_add_access ss [$"SS_ADDACCESS"; filename; user; $"R"] =
      (update_rec (set_ss_disk ss d) (with_acl rec readers (fr_write_users rec)), reply ss [$"OK_ACCESS_CHANGED"; filename]) ∧
    ss_acl_contains readers user = true ∧ dk_fault d = dk_fault (ss_disk ss) ∧
    ∀ p, p ≠ fr_metapath rec → dk_files d !! p = dk_files (ss_disk ss) !! p.
Proof.
  intros [] Hu. unfold ns_add_access. case_decide as Hlen; cbn [length] in Hlen; [lia|].
  change (field _ 1) with filename. change (field _ 2) with user. change (field _ 3) with ($"R"). rewrite gr_file0.
  change (permission_flags ($"R")) with (true, false). cbn [negb andb orb].
  pose proof (acl_added (fr_read_users rec) gr_room0 Hu) as Hadd. unfold add_if at 1.
  destruct (ss_acl_contains (fr_read_users rec) user) eqn:Hc; cbn [negb andb].
  - unfold add_if. cbn [andb negb orb]. exists (fr_read_users rec), (ss_disk ss). by split_and!.
  - destruct (ss_acl_add (fr_read_users rec) user) as [readers r]. destruct Hadd as [Hr Hin].
    rewrite (proj2 (Z.ltb_ge _ _) Hr). unfold add_if. cbn [andb negb orb]. rewrite orb_false_r.
    exists readers. destruct (0 <? r)%Z.
    + unfold ss_write_metadata. cbn [fr_metapath with_acl].
      rewrite (write_file_good _ _ _ (proj1 gr_meta0) (proj2 gr_meta0)). eexists. split; [reflexivity|].
      split_and!; [done|done|]. intros p Hp. by rewrite /= lookup_insert_ne.
    + exists (ss_disk ss). by split_and!.
Qed.

Lemma grant_answer peer now :
  grantable → length filename < MAX_FILENAME_LENGTH → length user < MAX_USERNAME_LENGTH →
  ∃ ss' rec', ns_message ss [$"SS_ADDACCESS"; filename; user; $"R"] peer now = (ss', reply ss' [$"OK_ACCESS_CHANGED"; filename]) ∧
    granted ss' rec'.
Proof.
  intros Hgr Hlf Hu. pose proof (ns_add_access_safe ss [$"SS_ADDACCESS"; filename; user; $"R"] (gr_inv Hgr)) as [Hinv _].
  destruct (add_reader Hgr Hu) as (readers & d & Heq & Hin & Hfault & Hd). rewrite Heq in Hinv. cbn [fst] in Hinv.
  pose proof Hgr as [Hi Hf _ _]. pose proof (found_name _ _ _ Hlf Hf) as Hname. apply find_file_Some in Hf as [Hel _].
  set (rec' := with_acl rec readers (fr_write_users rec)) in *. set (ss' := update_rec _ rec') in *.
  exists ss', rec'. split; [exact Heq|].
  assert (Hin' : rec' ∈ ss_files ss').
  { pose proof (update_rec_deref (set_ss_disk ss d) rec' rec (inv_ids _ Hi) Hel eq_refl) as Hde. by apply deref_Some in Hde as []. }
  split; [done| |done| |].
  - pose proof (find_file_elem ss' rec' Hinv Hin') as Hx. by change (fr_filename rec') with (fr_filename rec) in Hx; rewrite Hname in Hx.
  - unfold ss_check_read_access. change (existsb (same_user user) (fr_read_users rec')) with (ss_acl_contains readers user).
    by rewrite Hin orb_true_r.
  - unfold read_file, denied. change (ss_disk ss') with d. rewrite Hfault Hd; [|done].
    pose proof (rec_in _ _ Hi Hel) as Hok. pose proof (ro_meta _ Hok). pose proof (ro_doc _ Hok). congruence.
Qed.
End storage.

(** ** The name server *)

(** The file is the owner's, the reader may not read it yet and can be listed,
    and the server that has the file is there. *)
Record grantable_entry (ns : NameServer) (owner reader filename : cstr) (file : FileMetadata) (info : StorageServerInfo) : Prop := {
  ge_wf : ns_wf ns;
  ge_file : registry ns !! filename = Some file;
  ge_owner : fm_owner file = owner;
  ge_denied : file_has_read_access file reader = false;
  ge_room : length (fm_read_users file) < NS_MAX_CLIENTS ∧ length (fm_write_users file) < NS_MAX_CLIENTS;
  ge_server : server_of ns file = Some info
}.

Lemma same_place_server ns ns' file readers writers :
  ns_servers ns' = ns_servers ns → server_of ns' (fm_with_acl file readers writers) = server_of ns file.
Proof. unfold server_of. by intros ->. Qed.

Lemma server_of_alive ns file info : server_of ns file = Some info → si_is_alive info = true ∧ (0 <= si_sockfd info)%Z.
Proof.
  intros [_ H]%firstb_elem. apply andb_true_iff in H as [[Ha Hs]%andb_true_iff _]. split; [done|].
  by apply negb_true_iff, Z.ltb_ge in Hs.
Qed.

Lemma addaccess_asks ns ctx reader filename file info :
  grantable_entry ns (cx_username ctx) reader filename file info →
  validate_filename filename = true → validate_username reader = true → validate_username (cx_username ctx) = true →
  ∃ ns' g i, addaccess_begin ns ctx [$"ADDACCESS"; filename; reader; $"R"] =
      (ns', Asking info [$"SS_ADDACCESS"; filename; reader; $"R"] (mkPendingAccess filename reader ($"R") i)) ∧
    ns_wf ns' ∧ registry ns' !! filename = Some g ∧ file_has_read_access g reader = true ∧
    fm_ss_ip g = fm_ss_ip file ∧ fm_ss_port g = fm_ss_port file.
Proof.
  intros [] Hvf Hvr Hvu. pose proof (proj1 (validate_username_spec reader) Hvr) as (_ & Hlr & _).
  pose proof (proj1 (validate_username_spec _) Hvu) as (Hune & _ & _).
  unfold addaccess_begin. case_decide as Hlen; cbn [length] in Hlen; [lia|].
  change (fld _ 1) with filename. change (fld _ 2) with reader. change (fld _ 3) with ($"R"). rewrite Hvf Hvr. cbn [negb orb].
  change (parse_permission_flags ($"R")) with (Some (true, false)). cbn iota beta.
  destruct (streq (cx_username ctx) []) eqn:Hs; [by apply streq_true in Hs|].
  pose proof (lookup_refines [] ns filename ge_wf0) as Hl.
  destruct (file_lookup_locked ns filename) as [ns1 [i|]]; destruct Hl as ([Hwf1 _] & Hreg & (c & t & Hns) & Hr); [|congruence].
  destruct Hr as (f & Hf & Hn & Hrf & Hm). assert (f = file) as -> by congruence. rewrite Hf. change (default meta0 (Some file)) with file.
  assert (Hown : is_fm_owner file (cx_username ctx) = true) by (unfold is_fm_owner; rewrite ge_owner0; apply strneq_refl).
  rewrite Hown. pose proof ge_denied0 as Hden. unfold file_has_read_access in Hden. rewrite !orb_false_iff in Hden.
  destruct Hden as [[-> _] _]. cbn [negb].
  pose proof (file_add_access_spec file reader true false Hm Hlr) as Hadd.
  destruct (file_add_access file reader true false) as [g r]. destruct Hadd as (Hmg & (rs & ws & ->) & _ & _ & Hok & Hr).
  rewrite Hr; [apply ge_room0..|]. cbn [Z.eqb negb]. destruct (Hok (Hr (proj1 ge_room0) (proj2 ge_room0))) as (Hin & _ & _).
  rewrite (same_place_server ns); [by rewrite /= Hns|]. rewrite ge_server0.
  destruct (update_wf ns1 Hwf1 i file (fm_with_acl file rs ws) Hf eq_refl Hmg) as [Hwf2 Hreg2].
  eexists _, (fm_with_acl file rs ws), i. split; [done|]. split; [done|]. split; [by rewrite Hreg2 Hn lookup_insert_eq|].
  split; [|done]. apply read_access_iff; [done|done|]. right. left. by apply Hin.
Qed.

(** A location is refused to a user without the right. *)
Lemma req_loc_refused ns ctx operation filename file now :
  ns_wf ns → cx_username ctx ≠ [] → validate_filename filename = true → registry ns !! filename = Some file →
  loc_access operation file (cx_username ctx) = Some false →
  ∃ ns', kept ns ns' ∧ handle_req_loc ns ctx [$"REQ_LOC"; operation; filename] now =
    (ns', emit (cx_fd ctx) [$"ERR"; fit 16 (to_dec ERR_PERMISSION_DENIED); $"User lacks required access."]).
Proof.
  intros Hwf Hu Hv Hf Ha. unfold handle_req_loc. do 2 (case_decide as Hlen; cbn [length] in Hlen; [lia || clear Hlen|lia || clear Hlen]).
  change (fld [$"REQ_LOC"; operation; filename] 1) with operation.
  change (fld [$"REQ_LOC"; operation; filename] 2) with filename. rewrite Hv.
  cbn [negb]. destruct (streq (cx_username ctx) []) eqn:Hs; [by apply streq_true in Hs|].
  pose proof (lookup_refines [] ns filename Hwf) as Hl. destruct (file_lookup_locked ns filename) as [ns1 r].
  destruct Hl as ([Hwf1 _] & Hreg & _ & Hr). destruct r as [i|]; [|congruence].
  destruct Hr as (g & Hg & Hn & Hgf & _). assert (g = file) as -> by congruence. rewrite Hg Ha.
  exists ns1. split; [by apply kept_frame|done].
Qed.

(** ** The whole commands *)

(** The same servers, as the client of another user has them, with connections
    of its own. *)
Definition seen_by (sy : System) (user : cstr) (fd conn : Z) : System :=
  mkSystem (sy_ns sy) (sy_node sy) (sy_peer sy) fd (Some (mkCtx fd user)) conn false.

(** The file is on the system's storage server. *)
Record stored (sy : System) (filename : cstr) (file : FileMetadata) : Prop := {
  st_name : validate_filename filename = true;
  st_plain : plain filename;
  st_ip : fm_ss_ip file = ss_client_ip (nd_ss (sy_node sy));
  st_ip_plain : plain (fm_ss_ip file) ∧ length (fm_ss_ip file) < MAX_IP_LENGTH;
  st_port : fm_ss_port file = ss_client_port (nd_ss (sy_node sy));
  st_port_valid : is_valid_port (fm_ss_port file) = true;
  st_control : (0 <= ss_ns_sockfd (nd_ss (sy_node sy)))%Z
}.

Definition refused_transcript : cstr := nl ($"Error: User lacks required access.").
Definition granted_transcript (reader : cstr) : cstr := nl ($"Access granted to " ++ reader ++ $" (R).").

Section sharing.
Context (peer : cstr → Z → Peer) (shell : cstr → option cstr) (format_time : Z → cstr).

#[local] Instance remote : Remote System := system_remote peer shell format_time.
#[local] Instance servers : Servers Node := node_servers peer.

Lemma read_refused sy client filename file inp out :
  logged_in sy client → ns_wf (sy_ns sy) → validate_filename filename = true → plain filename →
  registry (sy_ns sy) !! filename = Some file → file_has_read_access file (cc_username client) = false →
  ∃ sy', client_handle_read client filename (mkTerm sy [] [] inp out) =
      (Done (-1)%Z, mkTerm sy' [] [] inp (out ++ refused_transcript)) ∧ nd_ss (sy_node sy') = nd_ss (sy_node sy) ∧ sy_open sy' = sy_open sy.
Proof.
  intros [] Hwf Hvf Hpf Hf Ha.
  pose proof (proj1 (validate_filename_spec filename) Hvf) as (_ & Hlf & _).
  pose proof (proj1 (validate_username_spec _) li_user) as (Hune & _ & _). unfold MAX_FILENAME_LENGTH in *.
  assert (Hask : sendable [$"REQ_LOC"; $"READ"; filename]) by sendable.
  assert (Hans : sendable [$"ERR"; fit 16 (to_dec ERR_PERMISSION_DENIED); $"User lacks required access."]).
  { apply sendable_of; [done|vmd| |vm_compute; reflexivity].
    repeat (apply plain_cons; [by auto with plain|]). apply Forall_nil_2. }
  destruct (req_loc_refused (sy_ns sy) (mkCtx (sy_fd sy) (cc_username client)) ($"READ") filename file (nd_now (sy_node sy)))
    as (ns' & _ & Hns); [done..| |].
  { change (Some (file_has_read_access file (cc_username client)) = Some false). by rewrite Ha. }
  pose proof (ns_exchange peer shell format_time sy _ _ (sy_node sy) ns'
    [[$"ERR"; fit 16 (to_dec ERR_PERMISSION_DENIED); $"User lacks required access."]] Hask li_session li_fd) as Hx.
  unfold client_handle_read, on_storage. rewrite (proj2 (Z.ltb_ge _ _) li_socket) Hvf. cbn [negb].
  assert (Hloc : ∃ sy', client_request_location client ($"READ") filename (mkTerm sy [] [] inp out) =
    (Done None, mkTerm sy' [] [] inp (out ++ refused_transcript)) ∧ nd_ss (sy_node sy') = nd_ss (sy_node sy) ∧ sy_open sy' = sy_open sy).
  { unfold client_request_location. rewrite (proj2 (Z.ltb_ge _ _) li_socket). rewrite build_sendable; [done|].
    erewrite bind_eq; [|apply send_ns_eq, Hx; [by apply Forall_singleton|]].
    2: { etrans; [apply command_req_loc|]. rewrite Hns. unfold alone. cbn [map concat fst snd cx_fd]. by rewrite app_nil_r. }
    cbn [negb app map]. erewrite bind_eq; [|apply receive_ns_eq]. rewrite parse_sendable; [done|].
    change (protocol_is_error _) with true. cbn iota. erewrite bind_eq; [|apply print_eq]. eexists. split; [reflexivity|done]. }
  destruct Hloc as (sy' & Hloc & Hrest). erewrite bind_eq; [|exact Hloc]. by exists sy'.
Qed.

Lemma command_addaccess nd ns ctx rest now :
  client_command format_time shell nd ns ctx ($"ADDACCESS" :: rest) now = handle_addaccess nd ns ctx ($"ADDACCESS" :: rest).
Proof. done. Qed.

Lemma grant_confirmed ctx ns p filename :
  pa_permission p = $"R" → sendable [$"OK_ACCESS_CHANGED"; filename] → length (pa_user p) < MAX_USERNAME_LENGTH →
  addaccess_finish ctx ns p (inr (message [$"OK_ACCESS_CHANGED"; filename])) =
    (ns_save_metadata ns, emit (cx_fd ctx) [$"OK"; $"Access granted to " ++ pa_user p ++ $" (R)."]).
Proof.
  intros Hp Hs Hl. unfold addaccess_finish, check_response. rewrite parse_sendable; [done|].
  change (protocol_is_error _) with false. cbn iota. change (streq (fld _ 0) _) with true. cbn iota.
  rewrite Hp fit_short; [|done]. unfold MAX_USERNAME_LENGTH, NS_MAX_FIELD_SIZE in *. rewrite !length_app.
  cbn [length String.list_ascii_of_string]. lia.
Qed.

Lemma grant_spec sy owner reader filename file rec info inp out :
  logged_in sy owner → stored sy filename file →
  grantable_entry (sy_ns sy) (cc_username owner) reader filename file info →
  grantable (nd_ss (sy_node sy)) filename rec → validate_username reader = true →
  ∃ sy' g rec', client_handle_addaccess owner ($"-R") filename reader (mkTerm sy [] [] inp out) =
      (Done 0%Z, mkTerm sy' [] [] inp (out ++ granted_transcript reader)) ∧
    ns_wf (sy_ns sy') ∧ registry (sy_ns sy') !! filename = Some g ∧ file_has_read_access g reader = true ∧
    fm_ss_ip g = fm_ss_ip file ∧ fm_ss_port g = fm_ss_port file ∧
    granted (nd_ss (sy_node sy)) filename reader rec (nd_ss (sy_node sy')) rec'.
Proof.
  intros [] [] Hge Hgr Hvr. set (user := cc_username owner) in *. pose proof st_plain0 as Hpf.
  pose proof (proj1 (validate_filename_spec filename) st_name0) as (Hne & Hlf & _).
  pose proof (proj1 (validate_username_spec reader) Hvr) as (Hrne & Hlr & _).
  set (ctx := mkCtx (sy_fd sy) user). set (nd := sy_node sy) in *. set (now := nd_now nd).
  destruct (addaccess_asks (sy_ns sy) ctx reader filename file info Hge st_name0 Hvr li_user)
    as (ns1 & g & i & Hasks & Hwf1 & Hg & Hacc & Hip & Hport).
  destruct (grant_answer (nd_ss nd) filename reader rec peer now Hgr Hlf Hlr) as (ss' & rec' & Hans & Hgranted).
  pose proof (gd_config _ _ _ _ _ _ Hgranted) as Hcfg. injection Hcfg as Hcns Hcip Hcport.
  unfold MAX_FILENAME_LENGTH, MAX_USERNAME_LENGTH in Hlf, Hlr.
  assert (Hs1 : sendable [$"SS_ADDACCESS"; filename; reader; $"R"]) by sendable.
  assert (Hs2 : sendable [$"OK_ACCESS_CHANGED"; filename]) by sendable.
  assert (Hs3 : sendable [$"ADDACCESS"; filename; reader; $"R"]) by sendable.
  assert (Hpd : plain ($"Access granted to " ++ reader ++ $" (R).")).
  { destruct (plain_username reader Hvr) as [Hb Hn]. split; rewrite !not_elem_of_app; (split; [vmd|split; [done|vmd]]). }
  assert (Hs4 : sendable [$"OK"; $"Access granted to " ++ reader ++ $" (R)."]) by sendable.
  destruct (server_of_alive _ _ _ (ge_server _ _ _ _ _ _ Hge)) as [Hal Hfd].
  pose proof (ask_answered peer nd info _ _ ss' Hs1 Hs2 Hal Hfd Hcns ltac:(by rewrite Hcns) Hans) as Hask.
  assert (Hcmd : client_command format_time shell nd (sy_ns sy) ctx [$"ADDACCESS"; filename; reader; $"R"] now =
    (mkSSNode ss' (nd_events nd) now, ns_save_metadata ns1,
     concat (map (emit (sy_fd sy)) [[$"OK"; $"Access granted to " ++ reader ++ $" (R)."]]))).
  { etrans; [apply command_addaccess|]. unfold handle_addaccess, complete. rewrite Hasks Hask grant_confirmed; [done..|].
    cbn [map concat]. by rewrite app_nil_r. }
  pose proof (ns_exchange peer shell format_time sy ctx _ _ _ _ Hs3 li_session li_fd ltac:(by apply Forall_singleton) Hcmd) as Hx.
  change (client_handle_addaccess owner ($"-R") filename reader)
    with (simple_command owner [$"ADDACCESS"; filename; reader; $"R"] ($"ADDACCESS") false).
  unfold simple_command, request. rewrite (proj2 (Z.ltb_ge _ _) li_socket).
  rewrite build_sendable; [done|]. erewrite bind_eq; [|apply send_ns_eq, Hx]. cbn [app map].
  unfold response. erewrite bind_eq; [|apply receive_ns_eq]. rewrite parse_sendable; [done|]. cbn iota beta.
  erewrite bind_eq; [|apply print_eq].
  assert (Hkept : kept ns1 (foldl (λ ns raw, ss_message ns (sy_peer sy) (protocol_parse_message raw) now)
                              (ns_save_metadata ns1) (nd_events nd))).
  { etrans; [apply kept_save|apply events_kept]. }
  destruct (Hkept Hwf1) as [Hwf Hall]. destruct (Hall _ _ Hg) as (h & Hh & Hsame). pose proof Hsame as [_ _ [Hhi Hhp] _].
  eexists _, h, rec'. split; [reflexivity|]. split; [exact Hwf|]. split; [exact Hh|].
  split; [by rewrite (same_rights_read _ _ _ Hsame)|]. split; [congruence|]. split; [congruence|exact Hgranted].
Qed.

(** C4 Sharing works from end to end: as long as the name server does not list
    the reader, the reader's READ prints a refusal and fails, and the storage
    server is not even asked; after the owner's ADDACCESS, which reports the
    grant, the same READ prints exactly the document. *)
Theorem share_then_read sy owner reader filename file rec info doc fd conn inp inp' out out' :
  logged_in sy owner → stored sy filename file →
  grantable_entry (sy_ns sy) (cc_username owner) (cc_username reader) filename file info →
  grantable (nd_ss (sy_node sy)) filename rec → validate_username (cc_username reader) = true →
  ss_read_file_content (ss_disk (nd_ss (sy_node sy))) (fr_filepath rec) = Some doc →
  plain doc → (Z.of_nat (length doc) < 64000)%Z → (0 <= cc_ns_sockfd reader)%Z → (0 <= fd)%Z → (0 <= conn)%Z →
  (∃ sy', client_handle_read reader filename (mkTerm (seen_by sy (cc_username reader) fd conn) [] [] inp' out') =
     (Done (-1)%Z, mkTerm sy' [] [] inp' (out' ++ refused_transcript)) ∧
     nd_ss (sy_node sy') = nd_ss (sy_node sy) ∧ sy_open sy' = false) ∧
  ∃ sy1 sy2,
    client_handle_addaccess owner ($"-R") filename (cc_username reader) (mkTerm sy [] [] inp out) =
      (Done 0%Z, mkTerm sy1 [] [] inp (out ++ granted_transcript (cc_username reader))) ∧
    client_handle_read reader filename (mkTerm (seen_by sy1 (cc_username reader) fd conn) [] [] inp' out') =
      (Done 0%Z, mkTerm sy2 [] [] inp' (out' ++ shown filename doc)).
Proof.
  intros Hown Hst Hge Hgr Hvr Hdoc Hpd Hlen Hsock Hfd Hconn. split.
  - apply (read_refused (seen_by sy (cc_username reader) fd conn) reader filename file); [by split|apply Hge|apply Hst|apply Hst|apply Hge|apply Hge].
  - destruct (grant_spec sy owner (cc_username reader) filename file rec info inp out Hown Hst Hge Hgr Hvr)
      as (sy1 & g & rec' & Hgrant & Hwf & Hg & Hacc & Hip & Hport & []). exists sy1.
    pose proof Hst as []. injection gd_config0 as _ Hcip Hcport.
    destruct (read_spec peer shell format_time (seen_by sy1 (cc_username reader) fd conn) reader filename g rec' doc inp' out')
      as (sy2 & Hread & _); [| |by exists sy2].
    + split; cbn [seen_by sy_ns sy_node sy_fd sy_session]; rewrite ?Hip ?Hport; try done; [|congruence..].
      change (Some (file_has_read_access g (cc_username reader)) = Some true). by rewrite Hacc.
    + split; cbn [seen_by sy_node sy_conn]; [done|exact gd_file0|exact gd_access0| |done|done].
      unfold ss_read_file_content in *. by rewrite gd_path0 gd_doc0.
Qed.
End sharing.
