(* ===== verification/NSJoin.v ===== *)
(** * A storage server joins

    What the list of files that a storage server sends does to the registry:
    the entry of every file on it says what the message says, and the others
    are left alone. *)
From S2P Require Import Prelude CStr Utils Protocol NSMeta NSState NSIndex NSPersist NSPeer NSQueries NSAccess NSFiles NSTree NSServe NSSessions NSSpec NSRefine NSTreeSpec NSKept NSCommands NSLost.

(** The entry of the file of the message. *)
Definition announced (ss : StorageServerInfo) (now : Z) (m : gmap cstr FileMetadata) (msg : list cstr)
  : gmap cstr FileMetadata :=
  <[fld msg 1 := synced_file (default (new_file (fld msg 1) now) (m !! fld msg 1)) msg ss now]> m.

(** A message that is accepted. *)
Record has_file_ok (msg : list cstr) : Prop := {
  hf_command : fld msg 0 = $"SS_HAS_FILE";
  hf_fields : 5 <= length msg;
  hf_name : validate_filename (fld msg 1) = true;
  hf_owner : fld msg 2 = [] ∨ validate_username (fld msg 2) = true
}.

Lemma synced_name file msg ss now : fm_filename (synced_file file msg ss now) = fm_filename file.
Proof. unfold synced_file. by case_match. Qed.

Lemma ss_has_file_spec ns fd ss msg now :
  ns_wf ns → has_file_ok msg → length (ns_files ns) < NS_MAX_FILES →
  let '(ns', out) := ss_has_file ns fd ss msg now in
  out = [] ∧ ns_wf ns' ∧ registry ns' = announced ss now (registry ns) msg ∧
  ns_servers ns' = ns_servers ns ∧ length (ns_files ns') <= S (length (ns_files ns)).
Proof.
  intros Hwf [_ Hl Hname Howner] Hmax. pose proof (ss_has_file_wf ns fd ss msg now Hwf) as Hwf'. revert Hwf'.
  unfold ss_has_file, announced. rewrite decide_False; [lia|]. rewrite Hname. cbn [negb].
  replace (negb (streq (fld msg 2) []) && negb (validate_username (fld msg 2))) with false.
  2: { destruct Howner as [-> | ->]; [done|by rewrite andb_false_r]. }
  apply validate_filename_spec in Hname as (Hne & Hlen & _).
  destruct (file_index_find ns (fld msg 1) ≫= _) as [[i file]|] eqn:Hfind; cbn [fst].
  - intros Hwf'. destruct (found_file _ _ _ _ Hwf Hfind) as (Hf & Hfn & Hm).
    pose proof (registry_at _ Hwf _ _ Hf) as Hreg. rewrite Hfn in Hreg. rewrite Hreg. cbn [default].
    destruct (update_wf ns Hwf i file (synced_file file msg ss now) Hf (synced_name _ _ _ _) (synced_wf _ _ _ _ Hm)) as [Hwf1 Heq].
    rewrite Hfn in Heq.
    destruct (file_cache_store_wf (update_file ns i (synced_file file msg ss now)) (fld msg 1) i (synced_file file msg ss now))
      as [_ (c & t & Hst)]; [apply Hwf1|by apply updated_at with file|by rewrite synced_name|].
    split; [done|]. split; [done|]. rewrite Hst. split; [exact Heq|]. split; [done|]. cbn. rewrite length_insert. lia.
  - rewrite decide_False; [lia|].
    assert (Hnew : registry ns !! fld msg 1 = None).
    { apply registry_None; [apply Hwf|]. destruct (index_find _ _) as [j|] eqn:Hj; [|done].
      pose proof Hj as Hj'. apply (rw_agree _ (nf_reg _ Hwf)) in Hj' as (g & Hg & _).
      unfold file_index_find in Hfind. by rewrite Hj /= Hg in Hfind. }
    rewrite Hnew. cbn [default]. set (file := synced_file (new_file (fld msg 1) now) msg ss now).
    assert (Hname : fm_filename file = fld msg 1) by (unfold file; rewrite synced_name; by apply fit_short).
    pose proof (register_spec ns file (nf_reg _ Hwf)) as Hr. rewrite Hname in Hr.
    specialize (Hr Hnew Hne Hlen Hmax). destruct (register_file ns (fld msg 1) file) as [ns' ok].
    destruct Hr as (-> & Hreg & Heq & index & c & t & Hns). cbn [fst]. intros Hwf'.
    split; [done|]. split; [done|]. split; [done|]. rewrite Hns. split; [done|]. cbn. rewrite length_app. cbn. lia.
Qed.

(** *** The whole list *)

Lemma sync_loop_spec ns fd ss raws now :
  ns_wf ns → Forall (λ raw, has_file_ok (protocol_parse_message raw)) raws →
  length (ns_files ns) + length raws <= NS_MAX_FILES →
  ∃ ns', (∀ done, fld (protocol_parse_message done) 0 = $"SS_FILES_DONE" → 
            sync_loop ns fd ss (raws ++ [done]) now = (ns_recalculate_server_load_locked ns' (server_now ns' ss), [], true)) ∧
    ns_wf ns' ∧ ns_servers ns' = ns_servers ns ∧
    registry ns' = foldl (announced ss now) (registry ns) (map protocol_parse_message raws).
Proof.
  intros Hwf Hall. revert ns Hwf. induction Hall as [|raw raws Hraw _ IH]; intros ns Hwf Hl.
  - exists ns. split; [|done]. intros done Hdone. cbn [app sync_loop]. unfold sync_message. rewrite Hdone. done.
  - cbn [length] in Hl. pose proof (ss_has_file_spec ns fd ss _ now Hwf Hraw ltac:(lia)) as H1.
    destruct (ss_has_file ns fd ss (protocol_parse_message raw) now) as [ns1 out] eqn:Hs.
    destruct H1 as (-> & Hwf1 & Hreg1 & Hsrv1 & Hlen1). destruct (IH ns1 Hwf1 ltac:(lia)) as (ns' & Hloop & Hwf' & Hsrv & Hreg).
    exists ns'. split; [|split; [done|split; [congruence|]]].
    + intros done Hdone. cbn [app sync_loop]. unfold sync_message at 1. rewrite (hf_command _ Hraw) Hs.
      change (streq ($"SS_HAS_FILE") ($"SS_HAS_FILE")) with true. cbn match. by rewrite Hloop.
    + cbn [map foldl]. by rewrite Hreg Hreg1.
Qed.

Lemma announced_other ss now msgs m name :
  name ∉ map (λ msg, fld msg 1) msgs → foldl (announced ss now) m msgs !! name = m !! name.
Proof.
  revert m. induction msgs as [|msg msgs IH]; intros m Hn; [done|]. cbn [map] in Hn. apply not_elem_of_cons in Hn as [Hne Hn].
  cbn [foldl]. rewrite IH; [done|]. unfold announced. by rewrite lookup_insert_ne.
Qed.

Lemma announced_at ss now msgs m msg :
  NoDup (map (λ msg, fld msg 1) msgs) → msg ∈ msgs →
  foldl (announced ss now) m msgs !! fld msg 1 =
  Some (synced_file (default (new_file (fld msg 1) now) (m !! fld msg 1)) msg ss now).
Proof.
  revert m. induction msgs as [|x msgs IH]; intros m Hnd Hin; [by apply elem_of_nil in Hin|].
  cbn [map] in Hnd. apply NoDup_cons in Hnd as [Hx Hnd]. cbn [foldl]. apply elem_of_cons in Hin as [->|Hin].
  - rewrite announced_other; [exact Hx|]. unfold announced. by rewrite lookup_insert_eq.
  - rewrite (IH _ Hnd Hin). unfold announced. rewrite lookup_insert_ne; [|done].
    intros Heq. apply Hx. rewrite Heq. by apply (list_elem_of_fmap_2 (λ msg, fld msg 1)).
Qed.

(** ** The handshake *)

Section hello.
Context (is_valid_ip : cstr → bool).

(** The server introduces itself with an address no live server has, on a new
    descriptor, and its entry is a new one. *)
Record welcome (ns : NameServer) (fd : Z) (msg : list cstr) : Prop := {
  wc_command : fld msg 0 = $"HELLO_SS";
  wc_fields : 5 <= length msg;
  wc_ips : is_valid_ip (fld msg 1) = true ∧ is_valid_ip (fld msg 3) = true;
  wc_ports : is_valid_port (atoi (fld msg 2)) = true ∧ is_valid_port (atoi (fld msg 4)) = true;
  wc_room : length (ns_servers ns) < NS_MAX_STORAGE_SERVERS;
  wc_free : Forall (λ s, si_id s ≠ ns_next_ss ns ∧ si_sockfd s ≠ fd ∧
              ¬ (si_is_alive s = true ∧ si_client_ip s = fld msg 3 ∧ si_client_port s = atoi (fld msg 4))) (ns_servers ns)
}.

Lemma hello_welcome ns fd msg now :
  welcome ns fd msg →
  let info := mkInfo (ns_next_ss ns) (fit MAX_IP_LENGTH (fld msg 1)) (atoi (fld msg 2)) (fit MAX_IP_LENGTH (fld msg 3))
                (atoi (fld msg 4)) fd true now 0 0 in
  hello_ss is_valid_ip ns fd msg now =
    (set_servers (set_next_ss ns (S (ns_next_ss ns))) (ns_servers ns ++ [info]),
     emit fd [$"OK"; $"SS registered. Awaiting file list."], Some info).
Proof.
  intros [_ Hl [H1 H3] [H2 H4] Hroom Hfree] info. unfold hello_ss. rewrite decide_False; [lia|].
  rewrite H1 H2 H3 H4. cbn [negb orb]. unfold ns_register_storage_server. rewrite decide_False; [lia|].
  assert (Hno : existsb (λ info, si_is_alive info && streq (si_client_ip info) (fld msg 3) &&
                           (si_client_port info =? atoi (fld msg 4))%Z) (ns_servers ns) = false).
  { apply not_true_iff_false. intros (s & Hin & Hs)%existsb_exists. apply list_elem_of_In in Hin.
    rewrite Forall_forall in Hfree. destruct (Hfree s Hin) as (_ & _ & Hne). apply Hne.
    apply andb_prop in Hs as [[Ha Hip%streq_true]%andb_prop Hp%Z.eqb_eq]. done. }
  rewrite Hno. fold info. f_equal. unfold find_storage_server_by_sockfd. cbn [ns_servers set_servers].
  apply firstb_snoc; [|by apply Z.eqb_refl]. eapply Forall_impl; [exact Hfree|]. intros s (_ & Hs & _). by apply Z.eqb_neq.
Qed.
(** The handshake and the whole list. *)
Lemma ss_connection_spec ns fd hello raws done now :
  ns_wf ns → welcome ns fd (protocol_parse_message hello) →
  Forall (λ raw, has_file_ok (protocol_parse_message raw)) raws → length (ns_files ns) + length raws <= NS_MAX_FILES →
  fld (protocol_parse_message done) 0 = $"SS_FILES_DONE" →
  let msg := protocol_parse_message hello in
  let info := mkInfo (ns_next_ss ns) (fit MAX_IP_LENGTH (fld msg 1)) (atoi (fld msg 2)) (fit MAX_IP_LENGTH (fld msg 3))
                (atoi (fld msg 4)) fd true now 0 0 in
  ∃ ns' bytes files, ss_connection is_valid_ip ns fd (hello :: raws ++ [done]) now =
      (ns', emit fd [$"OK"; $"SS registered. Awaiting file list."], true) ∧
    ns_wf ns' ∧ ns_servers ns' = ns_servers ns ++ [si_with_load info bytes files] ∧
    registry ns' = foldl (announced info now) (registry ns) (map protocol_parse_message raws).
Proof.
  intros Hwf Hw Hall Hroom Hdone msg info. pose proof (hello_welcome ns fd msg now Hw) as Hh. cbv zeta in Hh. fold info in Hh.
  pose proof (hello_ss_wf is_valid_ip ns fd msg now Hwf) as Hwf1. rewrite Hh in Hwf1. destruct Hwf1 as [Hwf1 _].
  set (ns1 := set_servers _ _) in Hh, Hwf1.
  assert (Hids : Forall (λ s, si_id s ≠ si_id info) (ns_servers ns)) by (eapply Forall_impl; [apply (wc_free _ _ _ Hw)|]; by intros s [? _]).
  assert (Hstart : ns_servers (sync_start ns1 info) = ns_servers ns ++ [si_with_load info 0 0]).
  { unfold sync_start. rewrite (now_last ns1 (ns_servers ns) info info); [done..|]. by apply update_last with info. }
  assert (Hwf2 : ns_wf (sync_start ns1 info)) by by apply server_change_wf.
  destruct (sync_loop_spec (sync_start ns1 info) fd info raws now Hwf2 Hall) as (ns3 & Hloop & Hwf3 & Hsrv & Hreg); [exact Hroom|].
  rewrite Hstart in Hsrv. specialize (Hloop done Hdone).
  rewrite (now_last ns3 (ns_servers ns) (si_with_load info 0 0) info Hsrv Hids eq_refl) in Hloop.
  unfold ns_recalculate_server_load_locked in Hloop. destruct (server_load _ _ _) as [bytes files].
  cbn [ss_connection]. fold msg. rewrite (wc_command _ _ _ Hw) Hh. cbn match. cbn [negb]. rewrite Hloop.
  pose proof (update_last ns3 (ns_servers ns) (si_with_load info 0 0) (si_with_load info (if (bytes <? 0)%Z then 0%Z else bytes) files)
    Hsrv Hids eq_refl) as Hlast.
  eexists _, _, _. split; [by rewrite app_nil_r|]. split; [by apply server_change_wf|]. split; [exact Hlast|exact Hreg].
Qed.
End hello.
