(* ===== verification/SystemJoin.v ===== *)
(** * A storage server comes back

    A storage server that is started on the files it left behind, and the name
    server that it introduces itself to: afterwards the registry says about
    every document of the server what the server says, and nothing else of it
    has changed. *)
From S2P Require Import Prelude CStr Utils Protocol Wire Disk SSAcl SSFiles SSMeta SSState SSClient SSControl SSInv SSInvControl SSLocks SSSaved SSSavedNs SSRestart SSStart NSMeta NSState NSIndex NSRestart NSPeer NSServe NSSpec NSCommands NSJoin NSDemo.

(** ** The two programs *)

(** [sock] and [fd] are the ends of the connection.  What the storage server
    sends before it waits for the reply is what it sends if none comes. *)
Definition boot (is_valid_ip : cstr → bool) (rest : cstr * cstr) (d : Disk) (argv entries : list cstr) (now : Z) (sock : Z) (ns : NameServer)
    (fd : Z) : option (StorageServer * NameServer) :=
  let received (reply : option cstr) :=
    let '(out, course) := main d argv entries now (mkSurroundings (Some sock) true reply None true true rest) in
    (ss_connection is_valid_ip ns fd (frames (sent_to sock out)) now, course) in
  let '(_, answer, _) := (received None).1 in
  match received (head (frames (sent_to fd answer))) with
  | ((ns, _, true), Serves ss) => Some (ss, ns)
  | _ => None
  end.

Definition greeting (ns_ip : cstr) (ns_port : Z) (ip : cstr) (port : Z) : list cstr :=
  [$"HELLO_SS"; ns_ip; fit 16 (to_dec ns_port); ip; fit 16 (to_dec port)].

(** A document that fits the messages of the two. *)
Record announceable (d : Disk) (r : FileRecord) : Prop := {
  an_name : validate_filename (fr_filename r) = true ∧ (c_nl ∉ fr_filename r);
  an_owner : validate_username (fr_owner r) = true;
  an_readers : acl_ok (fr_read_users r);
  an_writers : acl_ok (fr_write_users r);
  an_text : long_int (get_file_size d (fr_filepath r))
}.

(** What the registry then says about the document of [r]. *)
Record says (d : Disk) (ip : cstr) (port : Z) (r : FileRecord) (f : FileMetadata) : Prop := {
  sy_owner : fm_owner f = fr_owner r;
  sy_lists : fm_read_users f = fr_read_users r ∧ fm_write_users f = fr_write_users r;
  sy_place : fm_ss_ip f = ip ∧ fm_ss_port f = port;
  sy_size : ∀ text, dk_files d !! fr_filepath r = Some text → fm_size f = Z.of_nat (length text);
  sy_rights : ∀ user, file_has_read_access f user = ss_check_read_access r user ∧
                      file_has_write_access f user = ss_check_write_access r user
}.

(** ** Lemmas: the messages *)

(** What the rest of a list adds to a line. *)
Fixpoint tail_length (l : list cstr) : nat :=
  match l with [] => 0 | e :: l => S (length e) + tail_length l end.

Lemma join_tail e l : length (join ($",") (e :: l)) = length e + tail_length l.
Proof.
  revert e. induction l as [|x l IH]; intros e; [by cbn; lia|].
  change (join ($",") (e :: x :: l)) with (e ++ $"," ++ join ($",") (x :: l)). rewrite !length_app IH. cbn. lia.
Qed.

Lemma join_acl_some buffer l size :
  buffer ≠ [] → Forall (λ e, e ≠ []) l → length buffer + tail_length l < size → is_Some (join_acl_loop buffer l size).
Proof.
  intros Hb Hne. revert buffer Hb. induction Hne as [|e l He _ IH]; intros buffer Hb Hl; cbn [join_acl_loop]; [done|].
  destruct e as [|c e]; [done|]. destruct buffer as [|b buffer]; [done|]. cbn in Hl. rewrite decide_False; [cbn; lia|].
  apply IH; [done|]. rewrite !length_app. cbn. lia.
Qed.

Lemma join_acl_fits l size :
  Forall (λ e, e ≠ []) l → length (join ($",") l) < size → ss_join_acl l size = Some (join ($",") l).
Proof.
  intros Hne Hl. unfold ss_join_acl. rewrite decide_False; [lia|].
  assert (Hs : is_Some (join_acl_loop [] l size)).
  { destruct Hne as [|e l He Hne]; [done|]. rewrite join_tail in Hl. cbn [join_acl_loop]. destruct e as [|c e]; [done|].
    rewrite decide_False; [cbn in *; lia|]. by apply join_acl_some. }
  destruct Hs as [b Hs]. rewrite Hs. by apply join_acl_loop_spec in Hs as [-> _].
Qed.

Lemma fit_decimal n k : long_int n → 20 < k → fit k (to_dec n) = to_dec n.
Proof. intros Hn Hk. apply fit_short. pose proof (to_dec_long_length n Hn). lia. Qed.

Lemma plain_acl l : acl_ok l → plain (join ($",") l) ∧ length (join ($",") l) < NS_MAX_FIELD_SIZE ∧ Forall (λ e, e ≠ []) l.
Proof.
  intros [Hv _ _ Hf]. split; [|split; [done|]].
  - split; (apply join_not_elem; [|vmd]); intros f Hfl Hc; rewrite Forall_forall in Hv; pose proof (plain_username f (Hv f Hfl)) as [? ?]; done.
  - eapply Forall_impl; [exact Hv|]. by intros u Hu ->.
Qed.

(** The message about a document. *)
Lemma has_file_message d r :
  announceable d r → ∃ size words chars, long_int size ∧
    (∀ text, dk_files d !! fr_filepath r = Some text → size = Z.of_nat (length text)) ∧
    let msg := [$"SS_HAS_FILE"; fr_filename r; fr_owner r; join ($",") (fr_read_users r); join ($",") (fr_write_users r);
                to_dec size; words; chars] in
    has_file_fields d r = msg ∧ sendable msg.
Proof.
  intros [[Hn Hnl] Ho Hr Hw Ht]. pose proof (plain_acl _ Hr) as (Hrp & Hrl & Hrn). pose proof (plain_acl _ Hw) as (Hwp & Hwl & Hwn).
  exists (get_file_size d (fr_filepath r)), (fit 32 (to_dec (Z.of_nat (content_counts d (fr_filepath r)).1))),
    (fit 32 (to_dec (Z.of_nat (content_counts d (fr_filepath r)).2))).
  rename Ht into Hsize. split; [done|]. split; [intros text Htext; unfold get_file_size; by rewrite Htext|]. cbv zeta. split.
  - unfold has_file_fields. destruct (content_counts d (fr_filepath r)) as [w c]. cbn [fst snd].
    rewrite !join_acl_fits; [done..|]. rewrite (fit_decimal (get_file_size _ _)); [done|lia|done].
  - pose proof (proj1 (validate_filename_spec _) Hn) as (_ & Hnlen & _). pose proof (proj1 (validate_username_spec _) Ho) as (_ & Holen & _).
    pose proof (to_dec_long_length _ Hsize).
    pose proof (length_fit 32 (to_dec (Z.of_nat (content_counts d (fr_filepath r)).1))).
    pose proof (length_fit 32 (to_dec (Z.of_nat (content_counts d (fr_filepath r)).2))).
    apply sendable_of; [done|cbn; unfold MAX_FIELDS; lia| |].
    + repeat apply plain_cons; auto with plain. by apply plain_filename.
    + cbn [total_length]. unfold NS_MAX_FIELD_SIZE, MAX_FILENAME_LENGTH, MAX_USERNAME_LENGTH in *. cbn [length String.list_ascii_of_string] in *. lia.
Qed.

Lemma has_file_accepted d r msg : announceable d r → has_file_fields d r = msg → has_file_ok msg ∧ fld msg 1 = fr_filename r.
Proof.
  intros Ha <-. destruct (has_file_message d r Ha) as (size & words & chars & _ & _ & -> & _). destruct Ha as [[Hn _] Ho _ _ _].
  split; [|done]. split; [done|cbn; lia|done|by right].
Qed.

(** The entry that the message makes. *)
Lemma synced_says d r file info now :
  announceable d r → meta_wf file → length (si_client_ip info) < MAX_IP_LENGTH →
  says d (si_client_ip info) (si_client_port info) r (synced_file file (has_file_fields d r) info now).
Proof.
  intros Ha Hwf Hip. destruct (has_file_message d r Ha) as (size & words & chars & Hsize & Htext & -> & _).
  destruct Ha as [_ Ho Hr Hw _]. pose proof (proj1 (validate_username_spec _) Ho) as (Hne & Hlen & _).
  unfold synced_file. change (fld (_ :: fr_filename r :: fr_owner r :: _) 2) with (fr_owner r).
  assert (Howner : match fr_owner r with [] => file | _ :: _ => fm_with_owner file (fit MAX_USERNAME_LENGTH (fr_owner r)) end =
                   fm_with_owner file (fr_owner r)).
  { destruct (fr_owner r) as [|c owner] eqn:Hown; [done|]. by rewrite (fit_short _ (c :: owner)). }
  rewrite Howner. cbn [fld nth]. rewrite (proj2 (acl_parse _ Hr)) (proj2 (acl_parse _ Hw)) atoll_to_dec; [done|].
  rewrite (fit_short _ _ Hip). split; try done. intros user.
  unfold file_has_read_access, file_has_write_access, is_fm_owner, ss_check_read_access, ss_check_write_access, is_owner.
  by rewrite bool_decide_eq_false_2.
Qed.

(** What [ss_init] takes from its arguments. *)
Definition address (ss : StorageServer) : cstr * Z * cstr * Z * Z :=
  (ss_ns_ip ss, ss_ns_port ss, ss_client_ip ss, ss_client_port ss, ss_ns_sockfd ss).

Lemma load_address entries now ss : address (ss_load_existing_files ss entries now) = address ss.
Proof.
  unfold ss_load_existing_files. revert ss. induction entries as [|e entries IH]; intros ss; cbn [foldl]; [done|]. rewrite IH.
  destruct (is_document_entry ss e); [|done]. unfold ss_add_file_record.
  generalize (ss_init_file_record (ss_storage_path ss) (ss_next_id ss) e) as r0. intros r0.
  destruct (ss_load_metadata _ _ r0); [done|]. by destruct (ss_write_metadata _ _).
Qed.

Lemma init_address rest d ns_ip ns_port ip port entries now ss :
  ss_init rest d ns_ip ns_port ip port entries now = Some ss →
  address ss = (strncpy_into rest.1 MAX_IP_LENGTH ns_ip, ns_port, strncpy_into rest.2 MAX_IP_LENGTH ip, port, (-1)%Z).
Proof.
  unfold ss_init. destruct (ss_build_storage_path _ _ _) as [sp|]; [|done].
  destruct (create_directory_recursive d sp) as [d' []]; [|done]. intros Heq. injection Heq as <-. by rewrite load_address.
Qed.

(** ** The storage server at the name server *)

Section join.
Context (is_valid_ip : cstr → bool) (rest : cstr * cstr).
Context (ns_ip : cstr) (ns_port : Z) (ip : cstr) (port : Z) (entries : list cstr) (now sock fd : Z) (ns : NameServer) (ss : StorageServer).
Context (Hinit : ss_init rest (ss_disk ss) ns_ip ns_port ip port entries now = Some ss).
Context (Hports : (1 <= ns_port <= 65535)%Z ∧ (1 <= port <= 65535)%Z) (Hsock : (0 <= sock)%Z ∧ (0 <= fd)%Z).
Context (Hips : plain ns_ip ∧ length ns_ip < MAX_IP_LENGTH - 1 ∧ plain ip ∧ length ip < MAX_IP_LENGTH - 1).
Context (Hwf : ns_wf ns) (Hwelcome : welcome is_valid_ip ns fd (greeting ns_ip ns_port ip port)).
Context (Hdocs : Forall (announceable (ss_disk ss)) (ss_files ss)).
Context (Hroom : length (ns_files ns) + length (ss_files ss) <= NS_MAX_FILES).

Abbreviation served_ss := (set_ss_running (set_ns_sockfd ss sock) true).

Lemma greeting_sendable : sendable (greeting ns_ip ns_port ip port).
Proof.
  destruct Hips as (H1 & H2 & H3 & H4). pose proof (length_fit 16 (to_dec ns_port)). pose proof (length_fit 16 (to_dec port)).
  apply sendable_of; [done|cbn; unfold MAX_FIELDS; lia| |].
  - repeat apply plain_cons; auto with plain.
  - unfold greeting. cbn [total_length]. unfold MAX_IP_LENGTH in *. cbn [length String.list_ascii_of_string]. lia.
Qed.

Lemma greeting_sent : ss_send_hello (set_ns_sockfd ss sock) = emit sock (greeting ns_ip ns_port ip port).
Proof.
  pose proof (init_address _ _ _ _ _ _ _ _ _ Hinit) as Ha. unfold address in Ha. injection Ha as H1 H2 H3 H4 _.
  unfold ss_send_hello, greeting. cbn [set_ns_sockfd ss_ns_sockfd ss_ns_ip ss_ns_port ss_client_ip ss_client_port].
  rewrite H1 H2 H3 H4 (strncpy_short _ _ ns_ip); [apply Hips|]. by rewrite (strncpy_short _ _ ip); [apply Hips|].
Qed.

Lemma list_sendable : Forall sendable (map (has_file_fields (ss_disk ss)) (ss_files ss) ++ [[$"SS_FILES_DONE"]]).
Proof.
  apply Forall_app. split; [|apply Forall_singleton; sendable]. apply Forall_map. eapply Forall_impl; [exact Hdocs|].
  intros r Hr. destruct (has_file_message _ r Hr) as (size & words & chars & _ & _ & -> & Hs). exact Hs.
Qed.

Lemma list_sent :
  ss_emit_file_list (set_ns_sockfd ss sock) =
  concat (map (emit sock) (map (has_file_fields (ss_disk ss)) (ss_files ss) ++ [[$"SS_FILES_DONE"]])).
Proof. unfold ss_emit_file_list. cbn [set_ns_sockfd ss_ns_sockfd ss_files ss_disk]. rewrite map_app concat_app map_map. cbn. by rewrite app_nil_r. Qed.

Lemma main_course reply :
  main (ss_disk ss) [$"storage_server"; ns_ip; to_dec ns_port; ip; to_dec port] entries now
    (mkSurroundings (Some sock) true reply None true true rest) =
  if ss_hello_accepted reply then
    (emit sock (greeting ns_ip ns_port ip port) ++
     concat (map (emit sock) (map (has_file_fields (ss_disk ss)) (ss_files ss) ++ [[$"SS_FILES_DONE"]])), Serves served_ss)
  else (emit sock (greeting ns_ip ns_port ip port), Exits 1).
Proof.
  unfold main. rewrite !atoi_to_dec; [unfold INT_MIN, INT_MAX; lia..|]. rewrite Hinit.
  unfold ss_register_with_ns, ss_open_ns_socket. cbn [su_socket su_sendable su_reply fmap option_fmap option_map negb].
  destruct (ss_hello_accepted reply); cbn [negb]; rewrite greeting_sent; [|done].
  unfold ss_send_file_list, ss_start. cbn [su_lasts su_listener su_thread negb]. by rewrite list_sent.
Qed.

Lemma joins : ∃ ns' bytes files,
  boot is_valid_ip rest (ss_disk ss) [$"storage_server"; ns_ip; to_dec ns_port; ip; to_dec port] entries now sock ns fd =
    Some (served_ss, ns') ∧
  ns_wf ns' ∧
  let info := mkInfo (ns_next_ss ns) ns_ip ns_port ip port fd true now bytes files in
  ns_servers ns' = ns_servers ns ++ [info] ∧
  registry ns' = foldl (announced info now) (registry ns) (map (has_file_fields (ss_disk ss)) (ss_files ss)).
Proof.
  assert (Hfin : sendable [$"SS_FILES_DONE"]) by sendable.
  set (msgs := map (has_file_fields (ss_disk ss)) (ss_files ss)). set (fin := [$"SS_FILES_DONE"]) in *.
  pose proof greeting_sendable as Hg. pose proof (parse_sendable _ Hg) as Hpg.
  pose proof list_sendable as Hl. fold msgs in Hl. pose proof (proj1 (proj1 (Forall_app _ _ _) Hl)) as Hlm.
  assert (Hparse : map protocol_parse_message (map message msgs) = msgs).
  { rewrite map_map -{2}(map_id msgs). apply map_ext_in. intros m Hm. apply list_elem_of_In in Hm.
    apply parse_sendable. by eapply Forall_forall in Hm; [|exact Hlm]. }
  assert (Hok : Forall (λ raw, has_file_ok (protocol_parse_message raw)) (map message msgs)).
  { apply Forall_map. rewrite Forall_forall. intros m Hm. rewrite parse_sendable; [by eapply Forall_forall in Hm; [|exact Hlm]|].
    apply list_elem_of_fmap in Hm as (r & -> & Hr). apply (has_file_accepted (ss_disk ss) r); [|done].
    by eapply Forall_forall; [exact Hdocs|]. }
  destruct (ss_connection_spec is_valid_ip ns fd (message (greeting ns_ip ns_port ip port)) (map message msgs) (message fin) now
    Hwf ltac:(by rewrite Hpg) Hok ltac:(unfold msgs; rewrite !length_map; exact Hroom) ltac:(by rewrite parse_sendable))
    as (ns' & bytes & files & Hconn & Hwf' & Hsrv & Hreg).
  rewrite Hpg in Hsrv, Hreg. rewrite Hparse in Hreg.
  assert (Hinfo : ∀ bytes files, si_with_load (mkInfo (ns_next_ss ns) (fit MAX_IP_LENGTH (fld (greeting ns_ip ns_port ip port) 1))
      (atoi (fld (greeting ns_ip ns_port ip port) 2)) (fit MAX_IP_LENGTH (fld (greeting ns_ip ns_port ip port) 3))
      (atoi (fld (greeting ns_ip ns_port ip port) 4)) fd true now 0 0) bytes files =
    mkInfo (ns_next_ss ns) ns_ip ns_port ip port fd true now bytes files).
  { intros b f. unfold greeting. cbn [fld nth]. destruct Hips as (_ & H2 & _ & H4). rewrite !(fit_short MAX_IP_LENGTH); [apply (Nat.lt_le_trans _ _ _ H2), Nat.le_sub_l|apply (Nat.lt_le_trans _ _ _ H4), Nat.le_sub_l|].
    assert (Hd : ∀ p, (1 <= p <= 65535)%Z → atoi (fit 16 (to_dec p)) = p).
    { intros p Hp. assert (Hi : (INT_MIN <= p <= INT_MAX)%Z) by (unfold INT_MIN, INT_MAX; lia).
      pose proof (to_dec_int_length p Hi). rewrite fit_short; [lia|]. by apply atoi_to_dec. }
    by rewrite !Hd; [apply Hports|apply Hports|]. }
  exists ns', bytes, files. split; [|split; [done|]].
  - destruct Hsock as [Hsock1 Hsock2].
    assert (Hone : ∀ fd fields, (0 <= fd)%Z → sendable fields → frames (sent_to fd (emit fd fields)) = [message fields]).
    { intros fd' fields Hfd Hs. pose proof (frames_emits fd' [fields] Hfd) as H. cbn [map concat] in H. rewrite app_nil_r in H.
      by apply H, Forall_singleton. }
    unfold boot. rewrite main_course. change (ss_hello_accepted None) with false. cbn match. cbn [fst].
    rewrite Hone; [done|done|]. cbn [ss_connection]. rewrite Hpg (wc_command _ _ _ _ Hwelcome) (hello_welcome _ _ _ _ now Hwelcome).
    change (streq ($"HELLO_SS") ($"HELLO_SS")) with true. cbn match. cbn [negb sync_loop]. rewrite app_nil_r Hone; [done|sendable|]. cbn [head].
    rewrite main_course. unfold ss_hello_accepted. rewrite parse_sendable; [sendable|]. cbn match.
    change (streq ($"OK") ($"OK")) with true. cbn match.
    assert (Hall : frames (sent_to sock (emit sock (greeting ns_ip ns_port ip port) ++ concat (map (emit sock) (msgs ++ [fin])))) =
                   message (greeting ns_ip ns_port ip port) :: map message msgs ++ [message fin]).
    { pose proof (frames_emits sock (greeting ns_ip ns_port ip port :: msgs ++ [fin]) Hsock1) as H. cbn [map concat] in H.
      rewrite H; [by constructor|]. by rewrite map_app. }
    fold msgs. fold fin. rewrite Hall. by rewrite Hconn.
  - cbv zeta. rewrite Hinfo in Hsrv. split; [exact Hsrv|].
    rewrite Hreg -(Hinfo bytes files). reflexivity.
Qed.
(** Afterwards the registry says it of every document, and no more. *)
Lemma joins_says : ∃ ns',
  boot is_valid_ip rest (ss_disk ss) [$"storage_server"; ns_ip; to_dec ns_port; ip; to_dec port] entries now sock ns fd =
    Some (served_ss, ns') ∧
  ns_wf ns' ∧
  (NoDup (map fr_filename (ss_files ss)) → ∀ r, r ∈ ss_files ss →
     ∃ f, registry ns' !! fr_filename r = Some f ∧ says (ss_disk ss) (ss_client_ip ss) (ss_client_port ss) r f) ∧
  (∀ name, name ∉ map fr_filename (ss_files ss) → registry ns' !! name = registry ns !! name).
Proof.
  destruct joins as (ns' & bytes & files & Hboot & Hwf' & _ & Hreg). set (info := mkInfo _ _ _ _ _ _ _ _ _ _) in Hreg.
  exists ns'. split; [exact Hboot|]. split; [done|]. set (msgs := map (has_file_fields (ss_disk ss)) (ss_files ss)) in Hreg.
  assert (Hnames : map (λ msg, fld msg 1) msgs = map fr_filename (ss_files ss)).
  { unfold msgs. rewrite map_map. apply map_ext_in. intros r Hr. apply list_elem_of_In in Hr.
    by eapply has_file_accepted; [eapply Forall_forall; [exact Hdocs|exact Hr]|]. }
  pose proof (init_address _ _ _ _ _ _ _ _ _ Hinit) as Ha. unfold address in Ha. injection Ha as _ _ Ha1 Ha2 _.
  split; [|intros name Hn; rewrite Hreg; apply announced_other; by rewrite Hnames].
  intros Hnd r Hr. pose proof (proj1 (Forall_forall _ _) Hdocs r Hr) as Har. rewrite -Hnames in Hnd.
  pose proof (announced_at info now msgs (registry ns) (has_file_fields (ss_disk ss) r) Hnd
    (list_elem_of_fmap_2 (has_file_fields (ss_disk ss)) _ _ Hr)) as Hat.
  destruct (has_file_accepted _ _ _ Har eq_refl) as [_ Hname]. rewrite -Hreg Hname in Hat. eexists. split; [exact Hat|].
  destruct Hips as (_ & _ & _ & Hip). rewrite Ha1 Ha2 (strncpy_short _ _ _ Hip).
  apply (synced_says (ss_disk ss) r _ info now Har); [|cbn [info si_client_ip]; lia].
  destruct (registry ns !! fr_filename r) as [g|] eqn:Hg; cbn [default].
  - exact (nf_meta _ Hwf _ _ Hg).
  - split; [vmd|split; apply names_wf_nil].
Qed.
End join.

(** ** Property *)

(** C15 A storage server that is restarted on the files it left behind and
    introduces itself to the name server - which may have been restarted too,
    and know nothing or something else about the files - serves the documents it
    served before, and afterwards the registry says of each of them the owner,
    the access lists, the size and the address of the server that has it, so
    that the two servers grant the same rights to every user; the other entries
    are as they were.  Assumed, besides the conditions of
    [restart_keeps_documents] (every sidecar can be read back, [meta_ok]): every
    record fits the messages of the handshake ([announceable]: a valid name and
    owner, access lists of valid names whose text is shorter than 4096 bytes, a
    size in the range of [long]), the storage directory is there, the name server
    takes the greeting ([welcome]) and has room for the entries, the two
    addresses are shorter than 63 bytes, the ports between 1 and 65535, and the
    descriptors are open. *)
Theorem restarted_server_joins is_valid_ip rest ss0 ss ns_ip ns_port ip port entries now sock fd ns :
  fresh ss0 → rtc life_step ss0 ss → Forall (meta_ok (ss_storage_path ss)) (ss_files ss) →
  ss_build_storage_path MAX_PATH_LENGTH (strncpy_into rest.2 MAX_IP_LENGTH ip) port = Some (ss_storage_path ss) →
  create_directory_recursive (ss_disk ss) (ss_storage_path ss) = (ss_disk ss, true) →
  entries ≡ₚ readdir_names (ss_disk ss) (ss_storage_path ss) →
  Forall (announceable (ss_disk ss)) (ss_files ss) →
  (1 <= ns_port <= 65535)%Z ∧ (1 <= port <= 65535)%Z → (0 <= sock)%Z ∧ (0 <= fd)%Z →
  plain ns_ip ∧ length ns_ip < MAX_IP_LENGTH - 1 ∧ plain ip ∧ length ip < MAX_IP_LENGTH - 1 →
  ns_wf ns → welcome is_valid_ip ns fd (greeting ns_ip ns_port ip port) →
  length (ns_files ns) + length (ss_files ss) <= NS_MAX_FILES →
  ∃ ss' ns',
    boot is_valid_ip rest (ss_disk ss) [$"storage_server"; ns_ip; to_dec ns_port; ip; to_dec port] entries now sock ns fd = Some (ss', ns') ∧
    map (renumber 0) (ss_files ss') ≡ₚ map (renumber 0) (ss_files ss) ∧ ss_disk ss' = ss_disk ss ∧ ss_running ss' = true ∧
    (∀ r, r ∈ ss_files ss →
       ∃ f, registry ns' !! fr_filename r = Some f ∧ says (ss_disk ss) (ss_client_ip ss') (ss_client_port ss') r f) ∧
    (∀ name, name ∉ map fr_filename (ss_files ss) → registry ns' !! name = registry ns !! name) ∧ ns_wf ns'.
Proof.
  intros Hfresh Hlife Hmeta Hsp Hdir Hperm Hdocs Hports Hsock Hips Hwf Hw Hroom.
  pose proof (lives_settled _ _ Hlife (fresh_settled _ Hfresh)) as Hst.
  destruct (SSRestart.restarted ss Hst rest ns_ip ns_port ip port entries now Hmeta Hsp Hdir Hperm) as (ss1 & Hinit & [Hpath Hdisk _ Hrecs _ _]).
  assert (Hdocs1 : Forall (announceable (ss_disk ss1)) (ss_files ss1)).
  { rewrite Hdisk. eapply Forall_renumbered; [|exact Hrecs|exact Hdocs]. intros i r. split; intros []; by split. }
  assert (Hlen : length (ss_files ss1) = length (ss_files ss)).
  { pose proof (Permutation_length Hrecs) as H. by rewrite !length_map in H. }
  assert (Hnames : map fr_filename (ss_files ss1) ≡ₚ map fr_filename (ss_files ss)).
  { rewrite -(map_renumbered fr_filename (ss_files ss1)) // -(map_renumbered fr_filename (ss_files ss)) //. by rewrite Hrecs. }
  rewrite -Hdisk in Hinit. rewrite -Hlen in Hroom.
  destruct (joins_says is_valid_ip rest ns_ip ns_port ip port entries now sock fd ns ss1 Hinit Hports Hsock Hips Hwf Hw Hdocs1 Hroom)
    as (ns' & Hboot & Hwf' & Hsays & Hrest).
  rewrite Hdisk in Hboot, Hsays. exists (set_ss_running (set_ns_sockfd ss1 sock) true), ns'. split; [exact Hboot|].
  split; [done|]. split; [exact Hdisk|]. split; [done|]. split; [|split; [|done]].
  - intros r Hr. specialize (Hsays ltac:(rewrite Hnames; apply inv_names, Hst)).
    assert (Hr0 : renumber 0 r ∈ map (renumber 0) (ss_files ss)) by by apply (list_elem_of_fmap_2 (renumber 0)).
    rewrite -Hrecs in Hr0. apply list_elem_of_fmap in Hr0 as (r1 & Heq & Hr1). destruct (Hsays r1 Hr1) as (f & Hf & Hsay).
    assert (Hgen : ∀ x, (registry ns' !! fr_filename x = Some f ∧ says (ss_disk ss) (ss_client_ip ss1) (ss_client_port ss1) x f) ↔
      registry ns' !! fr_filename (renumber 0 x) = Some f ∧ says (ss_disk ss) (ss_client_ip ss1) (ss_client_port ss1) (renumber 0 x) f).
    { intros x. split; intros [? []]; by split. }
    exists f. apply Hgen. rewrite Heq. by apply (Hgen r1).
  - intros name Hn. apply Hrest. by rewrite Hnames.
Qed.

(** *** At work *)

#[export] Instance acl_ok_dec l : Decision (acl_ok l).
Proof.
  refine (cast_if (decide (Forall (λ u, validate_username u = true) l ∧ NoDup l ∧ length l <= NS_MAX_CLIENTS ∧
    length (join ($",") l) < NS_MAX_FIELD_SIZE))).
  - by destruct_and!.
  - intros []. tauto.
Defined.

#[export] Instance announceable_dec d r : Decision (announceable d r).
Proof.
  refine (cast_if (decide ((validate_filename (fr_filename r) = true ∧ (c_nl ∉ fr_filename r)) ∧ validate_username (fr_owner r) = true ∧
    acl_ok (fr_read_users r) ∧ acl_ok (fr_write_users r) ∧
    (LONG_MIN <= get_file_size d (fr_filepath r) <= LONG_MAX)%Z))).
  - by destruct_and!.
  - intros []. tauto.
Defined.

(** The name server has just been started, on an empty disk. *)
Definition new_ns : NameServer := set_servers (ns_blank 8080 (mkDisk ∅ {[ $"." ]} (λ _, NoFault))) [].

Definition localhost : cstr := $"127.0.0.1".

Lemma restarted_server_joins_witness :
  ∃ ss' ns',
    boot (λ _, true) ([], []) (ss_disk evening) [$"storage_server"; localhost; to_dec 8080; localhost; to_dec 9001]
      (readdir_names (ss_disk evening) home) 2000 4 new_ns 7 = Some (ss', ns') ∧
    length (ss_files ss') = 2 ∧
    ∀ r, r ∈ ss_files evening →
      ∃ f, registry ns' !! fr_filename r = Some f ∧ says (ss_disk evening) (ss_client_ip ss') (ss_client_port ss') r f.
Proof.
  destruct (restarted_server_joins (λ _, true) ([], []) newborn evening localhost 8080 localhost 9001
    (readdir_names (ss_disk evening) home) 2000 4 7 new_ns newborn_fresh) as (ss' & ns' & Hboot & Hperm & _ & _ & Hsays & _).
  - apply run_lives. vm_compute. reflexivity.
  - vmd.
  - vm_compute. reflexivity.
  - apply (create_there _ "."%char ($"/ss_storage/server_127_0_0_1_9001")); [apply Nat.ltb_lt|]; vm_compute; reflexivity.
  - reflexivity.
  - vmd.
  - lia.
  - lia.
  - split; [|split; [|split]]; vmd.
  - apply start_wf.
  - split; try (vm_compute; reflexivity); try constructor; vmd.
  - apply Nat.leb_le. vm_compute. reflexivity.
  - exists ss', ns'. split; [exact Hboot|]. split; [|exact Hsays]. pose proof (Permutation_length Hperm) as Hl.
    rewrite length_map in Hl. rewrite Hl length_map. vm_compute. reflexivity.
Defined.
