(* ===== verification/SystemDemo.v ===== *)
(** * The three programs at work

    A concrete system: the witnesses of the end-to-end theorems, and the
    transcript of a whole session from the first connection on. *)
From S2P Require Import Prelude CStr Utils Protocol Wire Disk Sentences SSState SSAcl SSFiles SSMeta SSClient SSControl SSInv SSInvClient SSInvControl SSLocks NSMeta NSState NSIndex NSPeer NSQueries NSServe NSSpec NSDemo NSCommands ClientIO ClientNS ClientSS ClientMain ClientFlow System SystemRead SystemWrite SystemCreate SystemShare.

(** No other server, no shell, and times that are not shown. *)
Definition nobody : cstr → Z → Peer := λ _ _, mkPeer false false [].
Definition no_shell : cstr → option cstr := λ _, None.
Definition no_time : Z → cstr := λ _, [].

#[local] Instance demo_remote : Remote System := system_remote nobody no_shell no_time.

(** ** ann edits and reads her notes *)

Definition notes_entry : FileMetadata :=
  mkMeta ($"notes.txt") ($"ann") ($"127.0.0.1") 9001 17 3 14 false 1 1 1 ($"ann") ($"ann") [] [].

Definition demo_names : NameServer := add_entry demo_tree notes_entry.

Lemma demo_names_wf : ns_wf demo_names.
Proof.
  apply add_entry_wf; [apply demo_tree_wf|vm_compute; reflexivity|vm_compute; reflexivity|].
  apply Nat.ltb_lt. vm_compute. reflexivity.
Qed.

Definition notes_server : StorageServerInfo :=
  mkInfo 1 ($"127.0.0.1") 9000 ($"127.0.0.1") 9001 3 true 0 17 1.

Definition demo_system : System := mkSystem demo_names (mkSSNode demo1 [] 2000) notes_server 10 (Some ann) 20 false.

Lemma demo_located operation :
  loc_access operation notes_entry ($"ann") = Some true → located demo_system ann_client operation ($"notes.txt") notes_entry.
Proof.
  intros Ha. split; try exact Ha; try apply demo_names_wf; try (vm_compute; (done || lia)).
  - split; vmd.
  - split; [split; vmd|]. apply Nat.ltb_lt. vm_compute. reflexivity.
Qed.

Lemma read_shows_document_witness :
  ∃ sy', client_handle_read ann_client ($"notes.txt") (mkTerm demo_system [] [] [] []) =
      (Done 0%Z, mkTerm sy' [] [] [] (shown ($"notes.txt") ($"Hello world. Bye."))) ∧ sy_open sy' = false.
Proof.
  apply (read_shows_document nobody no_shell no_time demo_system ann_client ($"notes.txt") notes_entry (demo_rec demo1)
           ($"Hello world. Bye.") [] []).
  - by apply demo_located.
  - split; [vm_compute; (done || lia)|vm_compute; reflexivity|vm_compute; reflexivity|vm_compute; reflexivity
           |split; vmd|vm_compute; reflexivity].
Defined.

Lemma demo_editable :
  editable demo1 20 ($"ann") ($"notes.txt") ($"brave") ($"Hello world. Bye.") ($"Hello brave world.") (demo_rec demo1)
    0 1 0 12.
Proof.
  split; [apply demo1_inv|vm_compute; reflexivity|vm_compute; reflexivity|vm_compute; reflexivity
         |split; vm_compute; reflexivity|split; vm_compute; reflexivity|vm_compute; discriminate
         |unfold INT_MAX; lia|unfold INT_MAX; lia|vm_compute; reflexivity..].
Qed.

Lemma write_edits_document_witness :
  ∃ sy', client_handle_write ann_client ($"notes.txt") 0
           (mkTerm demo_system [] [] [edit_input 1 ($"brave"); nl ($"ETIRW")] []) =
      (Done 0%Z, mkTerm sy' [] [] []
              ([] ++ lock_transcript 0 ($"notes.txt") (slice 0 12 ($"Hello world. Bye.")) ++ edit_transcript)) ∧
    dk_files (ss_disk (nd_ss (sy_node sy'))) !! fr_filepath (demo_rec demo1) =
      Some (splice ($"Hello world. Bye.") 0 12 ($"Hello brave world.")) ∧
    sy_open sy' = false.
Proof.
  apply (write_edits_document nobody no_shell no_time demo_system ann_client ($"notes.txt") notes_entry (demo_rec demo1)
           ($"brave") ($"Hello world. Bye.") ($"Hello brave world.") 0 1 0 12 [] []);
    [by apply demo_located|exact demo_editable|split; [split; vmd|done]|split; vmd|done
    |vm_compute; discriminate|vm_compute; discriminate].
Defined.

Lemma write_then_read_witness :
  ∃ sy' sy'',
    client_handle_write ann_client ($"notes.txt") 0
      (mkTerm demo_system [] [] [edit_input 1 ($"brave"); nl ($"ETIRW")] []) =
      (Done 0%Z, mkTerm sy' [] [] []
              ([] ++ lock_transcript 0 ($"notes.txt") (slice 0 12 ($"Hello world. Bye.")) ++ edit_transcript)) ∧
    client_handle_read ann_client ($"notes.txt") (mkTerm sy' [] [] [] []) =
      (Done 0%Z, mkTerm sy'' [] [] []
              ([] ++ shown ($"notes.txt") (splice ($"Hello world. Bye.") 0 12 ($"Hello brave world.")))).
Proof.
  apply (write_then_read nobody no_shell no_time demo_system ann_client ($"notes.txt") notes_entry (demo_rec demo1)
           ($"brave") ($"Hello world. Bye.") ($"Hello brave world.") 0 1 0 12 [] [] []);
    [by apply demo_located|exact demo_editable|split; [split; vmd|done]|split; vmd|done|done
    |vm_compute; discriminate|vm_compute; discriminate].
Defined.

(** ** ann lets bob read her notes *)

Definition bob_client : Client := mkClientState ($"bob") ($"127.0.0.1") 8080 3.

Definition shared_system : System :=
  mkSystem (set_servers demo_names [notes_server]) (mkSSNode demo1 [] 2000) notes_server 10 (Some ann) 20 false.

Lemma share_then_read_witness :
  (∃ sy', client_handle_read bob_client ($"notes.txt") (mkTerm (seen_by shared_system ($"bob") 11 21) [] [] [] []) =
     (Done (-1)%Z, mkTerm sy' [] [] [] ([] ++ refused_transcript)) ∧
     nd_ss (sy_node sy') = nd_ss (sy_node shared_system) ∧ sy_open sy' = false) ∧
  ∃ sy1 sy2,
    client_handle_addaccess ann_client ($"-R") ($"notes.txt") ($"bob") (mkTerm shared_system [] [] [] []) =
      (Done 0%Z, mkTerm sy1 [] [] [] ([] ++ granted_transcript ($"bob"))) ∧
    client_handle_read bob_client ($"notes.txt") (mkTerm (seen_by sy1 ($"bob") 11 21) [] [] [] []) =
      (Done 0%Z, mkTerm sy2 [] [] [] ([] ++ shown ($"notes.txt") ($"Hello world. Bye."))).
Proof.
  apply (share_then_read nobody no_shell no_time shared_system ann_client bob_client ($"notes.txt") notes_entry
           (demo_rec demo1) notes_server ($"Hello world. Bye.") 11 21 [] [] [] []).
  - split; try done; vm_compute; (reflexivity || discriminate).
  - split; [vm_compute; reflexivity|split; vmd|done|split; [split; vmd|apply Nat.ltb_lt; vm_compute; reflexivity]
           |done|vm_compute; reflexivity|vm_compute; discriminate].
  - split; [apply server_change_wf, demo_names_wf|vm_compute; reflexivity|done|vm_compute; reflexivity| |vm_compute; reflexivity].
    split; apply Nat.ltb_lt; vm_compute; reflexivity.
  - split; [apply demo1_inv|vm_compute; reflexivity|apply Nat.ltb_lt; vm_compute; reflexivity|split; vm_compute; reflexivity].
  - vm_compute. reflexivity.
  - vm_compute. reflexivity.
  - split; vmd.
  - vm_compute. reflexivity.
  - vm_compute. discriminate.
  - vm_compute. discriminate.
  - vm_compute. discriminate.
Defined.

(** ** A whole session *)

Definition fresh_storage : StorageServer :=
  mkSS ($"127.0.0.1") 9001 ($"127.0.0.1") 9002 4 ($"/d") true [] [] (mkDisk ∅ {[ $"."; $"/d" ]} (λ _, NoFault)) 0.

(** A name server that knows one storage server, and nothing else. *)
Definition fresh_system : System := mkSystem demo_start (mkSSNode fresh_storage [] 7) demo_server 10 None 20 false.

(** ann has logged in. *)
Definition ann_at_fresh : System := mkSystem demo_start (mkSSNode fresh_storage [] 7) demo_server 10 (Some ann) 20 false.

Lemma fresh_creatable : creatable fresh_storage ($"a").
Proof.
  split; [by apply empty_inv|done| |split; vm_compute; reflexivity|split; vm_compute; reflexivity].
  split; [vm_compute; reflexivity|]. split; [|apply not_elem_of_nil]. apply Nat.ltb_lt. vm_compute. reflexivity.
Qed.

Lemma fresh_registrable : registrable demo_start ($"a") demo_server.
Proof.
  split; [apply start_wf| |apply Nat.ltb_lt; vm_compute; reflexivity|done|split; [done|vm_compute; discriminate]].
  vm_compute. reflexivity.
Qed.

Lemma create_write_read_witness :
  ∃ sy1 sy2 sy3,
    client_handle_create ann_client ($"a") (mkTerm ann_at_fresh [] [] [] []) =
      (Done 0%Z, mkTerm sy1 [] [] [] ([] ++ created_transcript ($"a"))) ∧
    client_handle_write ann_client ($"a") 0
      (mkTerm sy1 [] [] [edit_input 0 ($"Hello world."); nl ($"ETIRW")] []) =
      (Done 0%Z, mkTerm sy2 [] [] [] ([] ++ lock_transcript 0 ($"a") [] ++ edit_transcript)) ∧
    client_handle_read ann_client ($"a") (mkTerm sy2 [] [] [] []) =
      (Done 0%Z, mkTerm sy3 [] [] [] ([] ++ shown ($"a") ($"Hello world."))).
Proof.
  apply (create_write_read nobody no_shell no_time ann_at_fresh ann_client ($"a") demo_server ($"Hello world.")
           ($"Hello world.") [] [] [] []).
  - split; try done; vm_compute; (reflexivity || discriminate).
  - split; [done|split; [split; vmd|apply Nat.ltb_lt; vm_compute; reflexivity]|done|vm_compute; reflexivity|vm_compute; discriminate].
  - exact fresh_registrable.
  - exact fresh_creatable.
  - vm_compute. reflexivity.
  - split; vmd.
  - done.
  - vm_compute. discriminate.
  - vm_compute. discriminate.
  - split; [split; vmd|split; [vm_compute; reflexivity|vm_compute; reflexivity]].
  - vm_compute. reflexivity.
  - vm_compute. reflexivity.
Defined.

(** The client program on these lines of input: the exit code and the output. *)
Definition client_run (lines : list cstr) : Outcome (option Z) * cstr :=
  let '(rc, t) := client_main ([], []) ($"127.0.0.1") ($"8080") (mkTerm fresh_system [] [] (map nl lines) []) in (rc, tm_out t).

(** ann gives her name, creates a document, writes a sentence, checkpoints it, undoes the edit,
    goes back to the checkpoint, and deletes the document. *)
Example demo_transcript :
  client_run [[]; $"a b"; $"ann"; $"CREATE a"; $"write a 0"; $"0 Hello world."; $"ETIRW"; $"READ a"; $"CHECKPOINT a t";
                               $"UNDO a"; $"READ a"; $"REVERT a t"; $"READ a"; $"DELETE a"; $"READ a"; $"quit"] =
  (Done (Some 0%Z),
  $"Enter username: " ++ nl ($"Username cannot be empty.") ++
  $"Enter username: " ++ nl ($"Invalid username. Please try again.") ++ $"Enter username: " ++
  nl ($"Welcome, ann!") ++ nl (nl ($"Type 'help' for available commands, 'quit' to exit.")) ++
  $"> " ++ nl ($"File 'a' created successfully.") ++
  $"> " ++ lock_transcript 0 ($"a") [] ++ edit_transcript ++
  $"> " ++ shown ($"a") ($"Hello world.") ++
  $"> " ++ nl ($"Checkpoint 't' created.") ++
  $"> " ++ nl ($"OK") ++
  $"> " ++ shown ($"a") [] ++
  $"> " ++ nl ($"File reverted to 't'.") ++
  $"> " ++ shown ($"a") ($"Hello world.") ++
  $"> " ++ nl ($"Entry 'a' deleted.") ++
  $"> " ++ nl ($"Error: Requested file not found.") ++ nl ($"Error processing command") ++
  $"> " ++ nl ($"Goodbye!")).
Proof. by vm_compute. Qed.
