(* ===== verification/SystemPromise.v ===== *)
(** * What the name server lets a user do, the storage server lets him do

    The system over any exchanges of any clients: the storage server keeps the
    interface [Custodian], so that every document stays in the registry, with its
    owner, and nobody has a right in the registry that the storage server
    refuses. *)
From S2P Require Import Prelude CStr Utils Protocol Wire Disk SSAcl SSFiles SSState SSClient SSControl SSGrants NSMeta NSState NSIndex NSPeer NSQueries NSAccess NSServe NSSpec NSRefine NSCustody NSPromises ClientIO ClientNS ClientSS ClientMain ClientFlow System NSDemo SystemDemo.

(** ** Messages cut from a stream *)

(** Up to the first newline. *)
Lemma receive_bytes s buf raw evs :
  c_nl ∉ buf → receive_loop (map RecvByte s) buf = (Message raw, evs) →
  (∃ body, raw = body ++ [c_nl] ∧ c_nl ∉ body) ∧ ∃ rest, evs = map RecvByte rest.
Proof.
  revert buf. induction s as [|c s IH]; intros buf Hb; cbn [map receive_loop]; (destruct (_ <? _)%Z; [|done]); [done|].
  case_bool_decide as Hc.
  - intros [= <- <-]. subst c. split; [by exists buf|by exists s].
  - apply IH. rewrite not_elem_of_app list_elem_of_singleton. auto.
Qed.

Lemma frames_body bytes : Forall (λ raw, (∃ body, raw = body ++ [c_nl] ∧ c_nl ∉ body) ∧ (Z.of_nat (length raw) < MAX_MESSAGE_SIZE)%Z) (frames bytes).
Proof.
  unfold frames. generalize (length bytes) as fuel. intros fuel. revert bytes. induction fuel as [|fuel IH]; intros bytes; cbn [frames_loop]; [done|].
  unfold protocol_receive_message. rewrite Z.ltb_irrefl.
  destruct (receive_loop (map RecvByte bytes) []) as [[raw| |] evs] eqn:Hr; [|done..].
  pose proof (receive_loop_bound _ [] _ _ ltac:(done) Hr) as Hlen.
  apply receive_bytes in Hr as [Hraw [rest ->]]; [|apply not_elem_of_nil]. constructor; [done|apply IH].
Qed.

Lemma parse_loop_elem n s c : c ∉ s → Forall (λ f, c ∉ f) (parse_loop n s).
Proof.
  revert s. induction n as [|n IH]; intros s Hs; cbn [parse_loop]; [done|].
  destruct (split_at c_bar s) as [[f next]|] eqn:Hsp; [|by constructor].
  apply split_at_Some in Hsp as [-> _]. apply not_elem_of_app in Hs as [Hf [_ Hn]%not_elem_of_cons].
  destruct next as [|a next]; constructor; [done| |done|by apply IH].
  destruct n; [done|]. constructor; [apply not_elem_of_nil|done].
Qed.

(** What arrives has fields without bars and newlines. *)
Lemma frames_plain bytes raw : raw ∈ frames bytes → Forall plain (protocol_parse_message raw).
Proof.
  intros Hin. pose proof (frames_body bytes) as Hall. rewrite Forall_forall in Hall.
  destruct (Hall raw Hin) as [(body & -> & Hb) Hl]. unfold protocol_parse_message.
  rewrite fit_short; [lia|]. rewrite strip_newline_snoc.
  pose proof (parse_loop_fields MAX_FIELDS body) as H1. pose proof (parse_loop_elem MAX_FIELDS body c_nl Hb) as H2.
  apply Forall_forall. rewrite Forall_forall in H1. rewrite Forall_forall in H2. intros f Hf. split; auto.
Qed.

Section system.
Context (peer : cstr → Z → Peer) (shell : cstr → option cstr) (format_time : Z → cstr).

#[local] Instance remote : Remote System := system_remote peer shell format_time.
#[local] Instance servers : Servers Node := node_servers peer.

(** ** The storage server as a custodian *)

Definition node_sound (nd : Node) : Prop := tidy (nd_ss nd) ∧ (0 <= ss_ns_sockfd (nd_ss nd))%Z.

(** A request is not sent, or it is one turn of the storage server. *)
Lemma ask_turn nd info fields : sendable fields →
  let '(nd', r) := ask nd info fields in
  (nd' = nd ∧ declined r) ∨
  nd_ss nd' = (ns_message (nd_ss nd) fields peer (nd_now nd)).1 ∧
  ∀ answer, ns_message (nd_ss nd) fields peer (nd_now nd) = (nd_ss nd', reply (nd_ss nd') answer) →
    sendable answer → (0 <= ss_ns_sockfd (nd_ss nd'))%Z → r = inr (message answer).
Proof.
  intros Hf. unfold ask, servers, node_servers. destruct (_ || _); [by left|]. rewrite build_sendable; [done|].
  rewrite frames_message; [done|]. unfold control_turns. cbn [foldl]. unfold ns_control_turn. rewrite parse_sendable; [done|].
  destruct (ns_message (nd_ss nd) fields peer (nd_now nd)) as [ss' out]. cbn [nd_ss app].
  destruct (frames (sent_to (ss_ns_sockfd ss') out)) as [|response events] eqn:Hfr; right; (split; [done|]).
  - intros answer [= ->] Ha Hs. unfold reply in Hfr. pose proof (frames_emits (ss_ns_sockfd ss') [answer] Hs ltac:(by apply Forall_singleton)) as Hem.
    cbn [map concat] in Hem. rewrite app_nil_r Hfr in Hem. done.
  - cbn [nd_ss]. intros answer [= ->] Ha Hs. unfold reply in Hfr. pose proof (frames_emits (ss_ns_sockfd ss') [answer] Hs ltac:(by apply Forall_singleton)) as Hem.
    cbn [map concat] in Hem. rewrite app_nil_r Hfr in Hem. by injection Hem as ->.
Qed.

(** The turn and its answer, when the answer is one message. *)
Lemma ask_outcome nd info fields ss' answer : node_sound nd → sendable fields →
  ns_message (nd_ss nd) fields peer (nd_now nd) = (ss', reply ss' answer) → outcome (nd_ss nd) ss' answer →
  let '(nd', r) := ask nd info fields in
  node_sound nd' ∧ ((nd' = nd ∧ declined r) ∨ (nd_ss nd' = ss' ∧ r = inr (message answer))).
Proof.
  intros [Ht Hs] Hf Hmsg [Ht' Hs' Ha]. pose proof (ask_turn nd info fields Hf) as Hask. destruct (ask nd info fields) as [nd' r].
  destruct Hask as [[-> Hd]|[Hss Hr]]; [split; [done|by left]|].
  assert (Heq : nd_ss nd' = ss') by by rewrite Hss Hmsg. clear Hss. subst ss'.
  assert (Hfd : (0 <= ss_ns_sockfd (nd_ss nd'))%Z) by by rewrite Hs'.
  split; [done|]. right. split; [done|]. by apply (Hr answer).
Qed.

(** One that leaves all rights as they are. *)
Lemma ask_quiet nd info fields : node_sound nd → sendable fields →
  grants (ns_message (nd_ss nd) fields peer (nd_now nd)).1 = grants (nd_ss nd) →
  let '(nd', _) := ask nd info fields in node_sound nd' ∧ no_less (nd_ss nd) (nd_ss nd').
Proof.
  intros [Ht Hs] Hf Hg. pose proof (ask_turn nd info fields Hf) as Hask. destruct (ask nd info fields) as [nd' r].
  destruct Hask as [[-> _]|[Hss _]]; [done|]. rewrite -Hss in Hg. split; [split|by apply same_no_less].
  - by eapply tidy_same.
  - unfold grants in Hg. injection Hg as _ -> _. done.
Qed.

Lemma refusal_declined answer : refusal answer → declined (inr (message answer)).
Proof. intros [Hs He]. unfold declined. by rewrite parse_sendable. Qed.

Lemma answer_confirmed answer expected :
  sendable answer → protocol_is_error answer = false → fld answer 0 = expected → confirmed (inr (message answer)) expected.
Proof.
  intros Hs He Hf. exists answer. unfold check_response. rewrite parse_sendable; [done|]. rewrite He Hf.
  unfold streq. by rewrite bool_decide_eq_true_2.
Qed.

Lemma token_plain gr gw :
  let token := match permission_token gr gw with [] => $"R" | token => token end in
  plain token ∧ length token <= 2 ∧
  let '(want_read, want_write) := permission_flags token in (gr || gw = true → want_read = true ∨ want_write = true) ∧ (gw = true → want_write = true).
Proof. destruct gr, gw; (split; [auto with plain|split; [cbn; lia|]]); vm_compute; auto. Qed.

Lemma username_short user : validate_username user = true → length user < 256.
Proof. by intros (_ & ? & _)%validate_username_spec. Qed.

Lemma few_names ss doc : tidy ss → doc ∈ ss_files ss → length (fr_read_users doc) + length (fr_write_users doc) < NS_MAX_CLIENTS - 1.
Proof.
  intros Ht Hin. destruct (tidy_file ss Ht doc Hin) as (_ & _ & [_ _ Hr] & [_ _ Hw]). unfold SS_MAX_USERS_PER_FILE, NS_MAX_CLIENTS in *. lia.
Qed.

Lemma node_create nd info name user :
  node_sound nd → validate_filename name = true → plain name → validate_username user = true →
  let '(nd', r) := ask nd info [$"CREATE_FILE"; name; user] in
  node_sound nd' ∧
  ((confirmed r ($"OK_CREATE") ∧
    ∃ doc, ss_files (nd_ss nd') = doc :: ss_files (nd_ss nd) ∧ fr_filename doc = name ∧ fr_owner doc = user) ∨
   (declined r ∧ no_less (nd_ss nd) (nd_ss nd'))).
Proof.
  intros Hnd Hv Hp Hu. pose proof (proj1 (validate_filename_spec _) Hv) as (_ & Hl & _).
  pose proof (username_short _ Hu) as Hlu. unfold MAX_FILENAME_LENGTH in Hl.
  destruct (create_outcome (nd_ss nd) (proj1 Hnd) name user peer (nd_now nd) Hv Hp Hu) as (ss' & answer & Hmsg & Ho & Hres).
  pose proof (ask_outcome nd info [$"CREATE_FILE"; name; user] ss' answer Hnd ltac:(sendable) Hmsg Ho) as Hask.
  destruct (ask nd info _) as [nd' r]. destruct Hask as [Hs [[-> Hd]|[<- ->]]]; (split; [done|]); [by right|].
  destruct Hres as [(-> & doc & Hdoc)|[Href Hless]]; [left|right; split; [by apply refusal_declined|done]].
  split; [|by exists doc]. by apply answer_confirmed; [apply Ho|..].
Qed.

Lemma node_delete nd info name :
  node_sound nd → plain name → length name < MAX_FILENAME_LENGTH →
  let '(nd', r) := ask nd info [$"DELETE_FILE"; name] in
  node_sound nd' ∧ no_less (nd_ss nd) (nd_ss nd') ∧ (declined r ∨ name ∉ map fr_filename (ss_files (nd_ss nd'))).
Proof.
  intros Hnd Hp Hl. unfold MAX_FILENAME_LENGTH in Hl.
  destruct (delete_outcome (nd_ss nd) (proj1 Hnd) name peer (nd_now nd) Hp Hl) as (ss' & answer & Hmsg & Ho & Hless & Hres).
  pose proof (ask_outcome nd info [$"DELETE_FILE"; name] ss' answer Hnd ltac:(sendable) Hmsg Ho) as Hask.
  destruct (ask nd info _) as [nd' r]. destruct Hask as [Hs [[-> Hd]|[<- ->]]]; (split; [done|]); [split; [done|by left]|].
  split; [done|]. destruct Hres as [[-> Hgone]|Href]; [by right|left; by apply refusal_declined].
Qed.

Lemma node_grant nd info name user gr gw :
  node_sound nd → plain name → length name < MAX_FILENAME_LENGTH → validate_username user = true →
  let token := match permission_token gr gw with [] => $"R" | token => token end in
  let '(nd', r) := ask nd info [$"SS_ADDACCESS"; name; user; token] in
  node_sound nd' ∧ no_less (nd_ss nd) (nd_ss nd') ∧
  (declined r ∨ ∀ doc, doc ∈ ss_files (nd_ss nd') → fr_filename doc = name →
     (gr || gw = true → may doc false user) ∧ (gw = true → may doc true user)).
Proof.
  intros Hnd Hp Hl Hu token. unfold MAX_FILENAME_LENGTH in Hl. pose proof (username_short _ Hu) as Hlu.
  destruct (token_plain gr gw) as (Hpt & Hlt & Hflags). fold token in Hpt, Hlt, Hflags. clearbody token.
  destruct (grant_outcome (nd_ss nd) (proj1 Hnd) name user token peer (nd_now nd) Hp Hl Hu) as (ss' & answer & Hmsg & Ho & Hless & Hres).
  pose proof (ask_outcome nd info [$"SS_ADDACCESS"; name; user; token] ss' answer Hnd ltac:(sendable) Hmsg Ho) as Hask.
  destruct (ask nd info _) as [nd' r]. destruct Hask as [Hs [[-> Hd]|[<- ->]]]; (split; [done|]); [split; [done|by left]|].
  split; [done|]. destruct Hres as [Href|Hgrant]; [left; by apply refusal_declined|right].
  intros doc Hin Hn. specialize (Hgrant doc Hin Hn). destruct (permission_flags token) as [want_read want_write].
  destruct Hgrant as [Hgr Hgw], Hflags as [Hfr Hfw]. split; [|by intros [? ?]%Hfw%Hgw].
  intros [?%Hgr|[? ?]%Hgw]%Hfr; done.
Qed.

Lemma node_revoke nd info name user :
  node_sound nd → plain name → length name < MAX_FILENAME_LENGTH → validate_username user = true →
  let '(nd', r) := ask nd info [$"SS_REMACCESS"; name; user] in
  node_sound nd' ∧
  ((declined r ∧ no_less (nd_ss nd) (nd_ss nd')) ∨
   (confirmed r ($"OK_ACCESS_CHANGED") ∧ no_less_but name user (nd_ss nd) (nd_ss nd'))).
Proof.
  intros Hnd Hp Hl Hu. unfold MAX_FILENAME_LENGTH in Hl. pose proof (username_short _ Hu) as Hlu.
  destruct (revoke_outcome (nd_ss nd) (proj1 Hnd) name user peer (nd_now nd) Hp Hl Hu) as (ss' & answer & Hmsg & Ho & Hres).
  pose proof (ask_outcome nd info [$"SS_REMACCESS"; name; user] ss' answer Hnd ltac:(sendable) Hmsg Ho) as Hask.
  destruct (ask nd info _) as [nd' r]. destruct Hask as [Hs [[-> Hd]|[<- ->]]]; (split; [done|]); [by left|].
  destruct Hres as [[Href Hless]|[-> Hless]]; [left; split; [by apply refusal_declined|done]|right; split; [|done]].
  by apply answer_confirmed; [apply Ho|..].
Qed.

Lemma node_content nd info name :
  node_sound nd → plain name → length name < MAX_FILENAME_LENGTH →
  let '(nd', _) := ask nd info [$"GET_CONTENT"; name] in node_sound nd' ∧ no_less (nd_ss nd) (nd_ss nd').
Proof.
  intros Hnd Hp Hl. unfold MAX_FILENAME_LENGTH in Hl. apply ask_quiet; [done|sendable|].
  apply (content_grants _ [$"GET_CONTENT"; name]).
Qed.

Lemma node_copy nd info dest src user :
  node_sound nd → plain dest → plain src → length dest < MAX_FILENAME_LENGTH → length src < MAX_FILENAME_LENGTH →
  validate_username user = true →
  let '(nd', _) := ask nd info [$"SS_COPY"; dest; $"LOCAL"; $"0"; src; user] in
  node_sound nd' ∧ no_less (nd_ss nd) (nd_ss nd').
Proof.
  intros Hnd Hpd Hps Hld Hls Hu. unfold MAX_FILENAME_LENGTH in *. pose proof (username_short _ Hu) as Hlu.
  apply ask_quiet; [done|sendable|]. apply (copy_grants _ (td_ids _ (proj1 Hnd)) [$"SS_COPY"; dest; $"LOCAL"; $"0"; src; user]).
Qed.

Lemma node_few nd doc : node_sound nd → doc ∈ ss_files (nd_ss nd) →
  length (fr_read_users doc) + length (fr_write_users doc) < NS_MAX_CLIENTS - 1.
Proof.
  intros Hnd. by apply few_names, Hnd.
Qed.

#[export] Instance node_custodian : Custodian Node := {|
  held_by := nd_ss;
  sound := node_sound;
  cu_create := node_create;
  cu_delete := node_delete;
  cu_grant := node_grant;
  cu_revoke := node_revoke;
  cu_content := node_content;
  cu_copy := node_copy;
  cu_few := node_few
|}.

(** ** Exchanges of any clients *)

(** What may happen: bytes that arrive on the client's connections, their ends,
    a connection to the storage server, the turn of another client, and time
    that passes. *)
Inductive Happening :=
  | ToNameServer (bytes : cstr)
  | ToStorage (bytes : cstr)
  | LeavesNameServer
  | LeavesStorage
  | ArrivesAtStorage (ip : cstr) (port : Z)
  | TurnOf (fd : Z) (session : option Ctx) (conn : Z) (open : bool)
  | TimePasses (now : Z).

Definition happens (sy : System) (h : Happening) : System :=
  match h with
  | ToNameServer bytes => (ns_deliver sy bytes).1
  | ToStorage bytes => (ss_deliver sy bytes).1
  | LeavesNameServer => ns_hangup sy
  | LeavesStorage => ss_hangup sy
  | ArrivesAtStorage ip port => (ss_connect sy ip port).1
  | TurnOf fd session conn open => mkSystem (sy_ns sy) (sy_node sy) (sy_peer sy) fd session conn open
  | TimePasses now =>
      mkSystem (sy_ns sy) (mkSSNode (nd_ss (sy_node sy)) (nd_events (sy_node sy)) now) (sy_peer sy) (sy_fd sy)
        (sy_session sy) (sy_conn sy) (sy_open sy)
  end.

Definition session_ok (session : option Ctx) : Prop :=
  match session with Some ctx => validate_username (cx_username ctx) = true | None => True end.

(** No MOVE; and users that have logged in. *)
Definition allowed (h : Happening) : Prop :=
  match h with
  | ToNameServer bytes => Forall (λ raw, fld (protocol_parse_message raw) 0 ≠ $"MOVE") (frames bytes)
  | TurnOf _ session _ _ => session_ok session
  | _ => True
  end.

Record trusted (sy : System) : Prop := {
  tr_tended : tended (sy_ns sy) (sy_node sy);
  tr_session : session_ok (sy_session sy)
}.

(** Only the state of the storage server matters. *)
Lemma tended_node ns nd nd' : nd_ss nd' = nd_ss nd → tended ns nd → tended ns nd'.
Proof. intros Heq [Hns Hs Hc]. split; [done| |]; cbn in *; unfold node_sound in *; by rewrite Heq. Qed.

Lemma events_trusted sy : trusted sy → trusted (take_events sy).
Proof.
  intros [Ht Hs]. split; [|done]. cbn [take_events sy_ns sy_node]. apply (tended_node _ (sy_node sy)); [done|].
  revert Ht. generalize (sy_ns sy) as ns. induction (nd_events (sy_node sy)) as [|raw events IH]; intros ns Ht; [done|].
  cbn [foldl]. by apply IH, event_tended.
Qed.

Lemma tended_clients ns nd clients : tended ns nd → tended (set_clients ns clients) nd.
Proof. intros Ht. eapply said_here; [done| |done]. apply NSCommands.client_table_wf, Ht. Qed.

Lemma hello_trusted ns fd msg : let '(_, _, session) := hello_client ns fd msg in session_ok session.
Proof.
  unfold hello_client. case_decide; [done|]. destruct (negb (validate_username (fld msg 1))) eqn:Hv; [done|].
  apply negb_false_iff in Hv. destruct (ns_register_client _ _ _) as [ns' []]; [|done]. unfold session_ok. cbn [cx_username].
  rewrite fit_short; [by apply username_short|done].
Qed.

Lemma ns_turn_trusted sy raw : trusted sy → Forall plain (protocol_parse_message raw) →
  fld (protocol_parse_message raw) 0 ≠ $"MOVE" → trusted (ns_turn peer shell format_time sy raw).1.
Proof.
  intros [Ht Hs] Hp Hm. unfold ns_turn. destruct (sy_session sy) as [ctx|] eqn:Hctx.
  - pose proof (client_tended format_time shell ctx Hs (sy_node sy) (sy_ns sy) _ (nd_now (sy_node sy)) Ht Hp Hm) as Hc.
    unfold client_turn. destruct (client_command _ _ _ _ _ _ _) as [[node ns] out]. cbn [fst].
    apply events_trusted. by split.
  - destruct (streq _ _); [|split; [done|by rewrite Hctx]].
    pose proof (NSCommands.hello_registry (sy_ns sy) (sy_fd sy) (protocol_parse_message raw)) as Hh.
    pose proof (hello_trusted (sy_ns sy) (sy_fd sy) (protocol_parse_message raw)) as Hh'.
    destruct (hello_client _ _ _) as [[ns out] session]. destruct Hh as [clients ->]. split; [by apply tended_clients|done].
Qed.

Lemma ss_turn_trusted sy raw : trusted sy → trusted (ss_turn sy raw).1.
Proof.
  intros [Ht Hs]. unfold ss_turn. pose proof Ht as [Hns [Htd Hfd] Hc]. cbn in Hc.
  pose proof (client_grants _ (td_ids _ Htd) (sy_conn sy) raw (nd_now (sy_node sy))) as Hg.
  destruct (client_thread_turn _ _ _ _) as [ss out]. cbn [fst] in *. apply events_trusted. split; [|done].
  cbn [sy_ns sy_node]. split; [done| |].
  - split; [by eapply tidy_same|]. unfold grants in Hg. injection Hg as _ Hg _. cbn [nd_ss]. by rewrite Hg.
  - eapply covered_no_less; [exact Hc|]. by apply same_no_less.
Qed.

(** Turns one after the other. *)
Lemma turns_trusted turn sy raws : trusted sy →
  (∀ sy raw, raw ∈ raws → trusted sy → trusted (turn sy raw).1) → trusted (turns turn sy raws).1.
Proof.
  unfold turns. generalize ([] : Outbox) as out. revert sy. induction raws as [|raw raws IH]; intros sy out Ht Hturn; [done|].
  cbn [foldl]. pose proof (Hturn sy raw ltac:(by left) Ht) as Ht1. destruct (turn sy raw) as [sy1 out1].
  apply IH; [done|]. intros sy' raw' Hin. apply Hturn. by right.
Qed.

Lemma happens_trusted sy h : trusted sy → allowed h → trusted (happens sy h).
Proof.
  intros Ht Ha. destruct h as [bytes|bytes| | |ip port|fd session conn open|now]; cbn [happens].
  - change (trusted (turns (ns_turn peer shell format_time) sy (frames bytes)).1). apply turns_trusted; [done|].
    cbn [allowed] in Ha. rewrite Forall_forall in Ha. intros sy' raw Hin Ht'. apply ns_turn_trusted; [done| |by apply Ha].
    by eapply frames_plain.
  - cbn [ss_deliver remote system_remote]. destruct (sy_open sy); [|done].
    change (trusted (turns (λ sy raw, ss_turn sy (Some raw)) sy (frames bytes)).1). apply turns_trusted; [done|].
    intros sy' raw _ Ht'. by apply ss_turn_trusted.
  - cbn [ns_hangup remote system_remote]. unfold ns_leave. destruct (sy_session sy) as [ctx|]; [|done].
    destruct Ht as [Ht _]. split; [|done]. cbn [sy_ns sy_node]. unfold client_disconnected. case_match; [done|by apply tended_clients].
  - cbn [ss_hangup remote system_remote]. unfold ss_leave. destruct (sy_open sy); [|done].
    pose proof (ss_turn_trusted sy None Ht) as [Ht1 Hs1]. by split.
  - cbn [ss_connect remote system_remote]. destruct (_ && _); [|done]. destruct Ht as [Ht1 Hs1]. by split.
  - destruct Ht as [Ht1 _]. by split.
  - destruct Ht as [Ht1 Hs1]. split; [|done]. by apply (tended_node _ (sy_node sy)).
Qed.
End system.

(** ** Properties *)

(** C6 The name server promises nothing that the storage server does not grant.
    Start from a name server with one storage server whose documents are all in the
    registry, with their owners, and on which the registry gives no more rights
    than the storage server; for instance from the two servers without
    documents.  Then let any clients send any bytes to both servers,
    in any order, with sessions that begin, end and break, on any disk: as long
    as no command is a MOVE, every document of the storage server stays in the
    registry, as a file of the same owner, and every user whom the name server
    lets read or write it passes the check of the storage server.  This
    holds through commands that fail on either side: the refused ones are rolled back. *)
Theorem promises_kept peer shell format_time sy history :
  trusted peer sy → Forall allowed history →
  let sy' := foldl (happens peer shell format_time) sy history in
  trusted peer sy' ∧
  ∀ doc, doc ∈ ss_files (nd_ss (sy_node sy')) →
    ∃ f, registry (sy_ns sy') !! fr_filename doc = Some f ∧ fm_is_directory f = false ∧ fm_owner f = fr_owner doc ∧
      ∀ user, validate_username user = true →
        (file_has_read_access f user = true → ss_check_read_access doc user = true) ∧
        (file_has_write_access f user = true → ss_check_write_access doc user = true).
Proof.
  intros Ht Hall. cbv zeta. assert (Ht' : trusted peer (foldl (happens peer shell format_time) sy history)).
  { revert sy Ht. induction Hall as [|h history Ha _ IH]; intros sy Ht; [done|]. by apply IH, happens_trusted. }
  split; [done|]. destruct Ht' as [[[Hwf _ _ _] [Htd _] Hc] _]. intros doc Hin. destruct (Hc doc Hin) as (f & Hf & [Hd Ho Hr Hw]).
  exists f. split_and!; [done..|]. intros user Hu. pose proof (proj1 (validate_username_spec _) Hu) as (Hne & Hl & _).
  pose proof (nf_meta _ Hwf _ _ Hf) as Hm. destruct (tidy_file _ Htd doc Hin) as (_ & Hlo & Hls).
  destruct (check_may doc user Hls Hlo Hne Hl) as [Hcr Hcw]. rewrite read_access_iff // write_access_iff // Hcr Hcw Ho.
  assert (Hmore : may doc true user → may doc false user) by (intros [?|[?|[? ?]]]; [by left|by right; left|done]).
  split; [intros [->|[?|?]]|intros [->|?]]; auto; by left.
Qed.

(** *** Witness *)

(** ann logs in, creates a document, gives bob the right to read it and takes
    away a right that carol does not have; bob asks where it is. *)
Definition demo_history : list Happening :=
  [ToNameServer (message [$"HELLO_CLIENT"; $"ann"]); ToNameServer (message [$"CREATE"; $"a"]); TimePasses 9;
   ToNameServer (message [$"ADDACCESS"; $"a"; $"bob"; $"R"]); ToNameServer (message [$"REMACCESS"; $"a"; $"carol"]);
   TurnOf 11 (Some (mkCtx 11 ($"bob"))) 21 false; ToNameServer (message [$"REQ_LOC"; $"READ"; $"a"]);
   ArrivesAtStorage ($"127.0.0.1") 9002; ToStorage (message [$"READ"; $"a"; $"bob"]); LeavesStorage; LeavesNameServer].

Lemma fresh_trusted : trusted nobody fresh_system.
Proof.
  split; [split|done].
  - split; [apply start_wf| |done|vm_compute; lia]. intros name f Hf. by vm_compute in Hf.
  - split; [|vm_compute; discriminate]. split; [constructor|done|constructor|done|done].
  - intros doc Hin. by apply elem_of_nil in Hin.
Qed.

Lemma promises_kept_witness :
  let sy' := foldl (happens nobody no_shell no_time) fresh_system demo_history in
  trusted nobody sy' ∧
  ∃ doc f, ss_files (nd_ss (sy_node sy')) = [doc] ∧ registry (sy_ns sy') !! $"a" = Some f ∧
    file_has_read_access f ($"bob") = true ∧ ss_check_read_access doc ($"bob") = true.
Proof.
  intros sy'.
  assert (Hall : Forall allowed demo_history) by (repeat constructor; unfold allowed; vmd).
  destruct (promises_kept nobody no_shell no_time fresh_system demo_history fresh_trusted Hall) as [Ht Hdocs].
  split; [exact Ht|]. fold sy' in Hdocs.
  assert (Hdoc : fr_filename <$> ss_files (nd_ss (sy_node sy')) = [$"a"]) by (vm_compute; reflexivity).
  assert (Hbob : (λ f, file_has_read_access f ($"bob")) <$> registry (sy_ns sy') !! $"a" = Some true) by (vm_compute; reflexivity).
  clearbody sy'. destruct (ss_files (nd_ss (sy_node sy'))) as [|doc [|]] eqn:Hfiles; try done. injection Hdoc as Hname.
  destruct (Hdocs doc) as (f & Hf & _ & _ & Hu); [by left|]. rewrite Hname in Hf. rewrite Hf in Hbob. injection Hbob as Hbob.
  exists doc, f. split_and!; [done|done|done|]. apply (Hu ($"bob")); [vm_compute; reflexivity|done].
Defined.

(** ** The other direction *)

(** The sidecar of the document can no longer be written. *)
Definition sidecar_lost (sy : System) : System :=
  let nd := sy_node sy in
  let d := ss_disk (nd_ss nd) in
  let fault p := if decide (p = $"/d/a.meta") then Denied else dk_fault d p in
  mkSystem (sy_ns sy) (mkSSNode (set_ss_disk (nd_ss nd) (mkDisk (dk_files d) (dk_dirs d) fault)) (nd_events nd) (nd_now nd))
    (sy_peer sy) (sy_fd sy) (sy_session sy) (sy_conn sy) (sy_open sy).

(** The name server may refuse what the storage server would grant.  bob can
    read; when ann's attempt to let him write as well fails at the storage server,
    the name server takes him out of both lists, and the storage server out of none. *)
Theorem failed_grant_revokes :
  let sy := sidecar_lost (foldl (happens nobody no_shell no_time) fresh_system (take 4 demo_history)) in
  let sy' := happens nobody no_shell no_time sy (ToNameServer (message [$"ADDACCESS"; $"a"; $"bob"; $"W"])) in
  let registered sy := (λ f, file_has_read_access f ($"bob")) <$> registry (sy_ns sy) !! $"a" in
  let stored sy := (λ doc, ss_check_read_access doc ($"bob")) <$> ss_files (nd_ss (sy_node sy)) in
  (registered sy = Some true ∧ stored sy = [true]) ∧ (registered sy' = Some false ∧ stored sy' = [true]).
Proof. vm_compute. by split_and!. Qed.
